(** * Singular: the adaptive spaced-repetition core, embedded in Rocq

    A shallow embedding of the scheduling, ranking, detection and answer
    evaluation code of the Singular backend:

    - [app/domain/srs.py]        the review scheduler and the urgency score,
    - [app/domain/adaptation.py] the error-pattern detector and its report,
    - [app/services/exercise.py] the answer evaluator and the local generator,
    - [app/services/review.py]   the review submission service and the queue,
    - [app/services/pipeline.py] the initialisation of scheduling records.

    Python values are modelled as the interpreter has them: [int] is [Z],
    [float] is IEEE 754 binary64 with round-to-nearest-even ([F64]), a raised
    exception is the [Raise] branch of [res], and the SQLAlchemy session is an
    explicit store threaded through the database code ([M]). *)

From stdpp Require Import base gmap sets list strings.
From Stdlib Require Import ZArith Lia SpecFloat.

Open Scope Z_scope.

(* ===================================================================== *)
(** * Python exceptions and the error monad *)
(* ===================================================================== *)

(** The two [ValueError]s of the modelled code: [round] of a NaN, and the
    missing scheduling record of [submit_review] (its message carries the
    card id). *)
Inductive value_error_msg : Type :=
| CannotConvertNaN
| SRSStateNotFound (card_id : Z).

Inductive exn : Type :=
| OverflowError
| ZeroDivisionError
| IndexError
| ValueError (msg : value_error_msg).

Inductive res (A : Type) : Type :=
| Ok (a : A)
| Raise (e : exn).

Arguments Ok {A} a.
Arguments Raise {A} e.

Definition rbind {A B : Type} (m : res A) (k : A -> res B) : res B :=
  match m with
  | Ok a => k a
  | Raise e => Raise e
  end.

Notation "'let*' x ':=' m 'in' k" := (rbind m (fun x => k))
  (at level 10, x name, m at level 100, k at level 200).

(* ===================================================================== *)
(** * binary64 floating point *)
(* ===================================================================== *)

(** Every finite binary64 number is an integer multiple of [2^-1074] (the
    smallest subnormal), so a finite float is represented by that integer:
    [Fin k] stands for [k * 2^-1074].  An operation computes the exact
    rational result and rounds it to the nearest representable number, ties
    to even, as IEEE 754 prescribes.  The sign of zero and NaN payloads are
    not represented; no operation of the modelled code observes them. *)
Module F64.

Inductive float : Type :=
| Fin (k : Z)
| PInf
| NInf
| NaN.

(** [1.0] in units of [2^-1074]. *)
Definition U : Z := 2 ^ 1074.

(** [2^1024] in units of [2^-1074]: the overflow threshold. *)
Definition OVF : Z := 2 ^ 2098.

(** Nearest integer to [n / d], ties to even ([0 < d]). *)
Definition rhe (n d : Z) : Z :=
  let q := n / d in
  match (2 * (n mod d)) ?= d with
  | Lt => q
  | Gt => q + 1
  | Eq => if Z.even q then q else q + 1
  end.

(** Binary logarithm of the spacing of the floats around [n / d] units:
    below [2^53] units (subnormals and the first normal binade) the spacing
    is one unit, above it each binade keeps 53 significant bits. *)
Definition ulp_shift (n d : Z) : Z := Z.max 0 (Z.log2 (Z.abs n / d) - 52).

(** [n / d] units rounded to 53 significant bits, the exponent unbounded. *)
Definition rndz (n d : Z) : Z :=
  let s := 2 ^ ulp_shift n d in rhe n (d * s) * s.

(** Rounding to binary64: overflow gives an infinity. *)
Definition rnd (n d : Z) : float :=
  let k := rndz n d in
  if OVF <=? k then PInf else if k <=? - OVF then NInf else Fin k.

(** The float denoted by the decimal literal [n / d] (Python parses a
    literal to the nearest binary64). *)
Definition lit (n d : Z) : float := rnd (n * U) d.

Definition fopp (x : float) : float :=
  match x with
  | Fin k => Fin (- k)
  | PInf => NInf
  | NInf => PInf
  | NaN => NaN
  end.

Definition fadd (x y : float) : float :=
  match x, y with
  | NaN, _ | _, NaN => NaN
  | PInf, NInf | NInf, PInf => NaN
  | PInf, _ | _, PInf => PInf
  | NInf, _ | _, NInf => NInf
  | Fin a, Fin b => rnd (a + b) 1
  end.

Definition fsub (x y : float) : float := fadd x (fopp y).

(** Sign of a float as seen by multiplication and division. *)
Definition fsgn (x : float) : Z :=
  match x with
  | Fin k => Z.sgn k
  | PInf => 1
  | NInf => -1
  | NaN => 0
  end.

Definition finf (s : Z) : float := if 0 <? s then PInf else NInf.

Definition fmul (x y : float) : float :=
  match x, y with
  | NaN, _ | _, NaN => NaN
  | Fin a, Fin b => rnd (a * b) U
  | _, _ => if fsgn x * fsgn y =? 0 then NaN else finf (fsgn x * fsgn y)
  end.

(** Python's [x / y] on floats: a zero divisor raises. *)
Definition fdiv (x y : float) : res float :=
  match x, y with
  | _, Fin 0 => Raise ZeroDivisionError
  | NaN, _ | _, NaN => Ok NaN
  | Fin a, Fin b => Ok (rnd (a * U * Z.sgn b) (Z.abs b))
  | Fin _, _ => Ok (Fin 0)
  | _, Fin b => Ok (finf (fsgn x * Z.sgn b))
  | _, _ => Ok NaN
  end.

(** Python's comparisons: every comparison with a NaN is false. *)
Definition fltb (x y : float) : bool :=
  match x, y with
  | NaN, _ | _, NaN => false
  | Fin a, Fin b => a <? b
  | NInf, NInf => false
  | NInf, _ => true
  | _, NInf => false
  | PInf, _ => false
  | _, PInf => true
  end.

Definition feqb (x y : float) : bool :=
  match x, y with
  | Fin a, Fin b => a =? b
  | PInf, PInf | NInf, NInf => true
  | _, _ => false
  end.

Definition fleb (x y : float) : bool := fltb x y || feqb x y.
Definition fgtb (x y : float) : bool := fltb y x.
Definition fgeb (x y : float) : bool := fleb y x.

(** Python's two-argument [max] and [min] keep the first argument unless
    the second is strictly better. *)
Definition py_max (a b : float) : float := if fgtb b a then b else a.
Definition py_min (a b : float) : float := if fltb b a then b else a.

(** [float(n)] for a Python int, as done implicitly when an int meets a
    float in arithmetic: correctly rounded, [OverflowError] when too large. *)
Definition of_int (n : Z) : res float :=
  match rnd (n * U) 1 with
  | Fin k => Ok (Fin k)
  | _ => Raise OverflowError
  end.

(** [a / b] on Python ints: the correctly rounded quotient. *)
Definition int_truediv (a b : Z) : res float :=
  if b =? 0 then Raise ZeroDivisionError
  else match rnd (a * U * Z.sgn b) (Z.abs b) with
       | Fin k => Ok (Fin k)
       | _ => Raise OverflowError
       end.

(** [round(x)] with one argument: nearest int, ties to even. *)
Definition py_round (x : float) : res Z :=
  match x with
  | Fin k => Ok (rhe k U)
  | PInf | NInf => Raise OverflowError
  | NaN => Raise (ValueError CannotConvertNaN)
  end.

(** A float is representable when rounding leaves it alone. *)
Definition representable (x : float) : Prop :=
  match x with
  | Fin k => rnd k 1 = Fin k
  | _ => True
  end.

(** The order of the extended real line, NaN left out. *)
Definition fle (x y : float) : Prop := fleb x y = true.

(** The binary64 datum of the Standard Library's [SpecFloat] with the same
    value as a representable float, mantissa and exponent normalized, for
    comparing this model with [SFadd], [SFmul] and [SFdiv]. *)
Definition to_spec (x : float) : spec_float :=
  match x with
  | Fin k =>
      let e := ulp_shift k 1 in
      match k / 2 ^ e with
      | Z0 => S754_zero false
      | Zpos m => S754_finite false m (e - 1074)
      | Zneg m => S754_finite true m (e - 1074)
      end
  | PInf => S754_infinity false
  | NInf => S754_infinity true
  | NaN => S754_nan
  end.

Definition to_spec_res (r : res float) : spec_float :=
  match r with
  | Ok x => to_spec x
  | Raise _ => S754_nan
  end.

(** [q] is a nearest integer to [n / d], and the even one at a tie. *)
Definition nearest_even (n d q : Z) : Prop :=
  2 * Z.abs (n - q * d) <= d /\ (2 * Z.abs (n - q * d) = d -> Z.even q = true).

(** Ints up to this bound in magnitude convert to a float without
    overflow. *)
Definition INT_BOUND : Z := 2 ^ 1023.

(** Equality of floats as data, for telling two closed floats apart by
    computation. *)
Definition float_eqb (x y : float) : bool :=
  match x, y with
  | Fin a, Fin b => a =? b
  | PInf, PInf | NInf, NInf | NaN, NaN => true
  | _, _ => false
  end.

End F64.

Import F64.

(* ===================================================================== *)
(** * datetime and timedelta *)
(* ===================================================================== *)

(** A [datetime] is a count of microseconds since 0001-01-01T00:00:00 and a
    [timedelta] a signed count of microseconds; both types raise
    [OverflowError] outside their range. *)
Module Dt.

Definition datetime : Type := Z.
Definition timedelta : Type := Z.

Definition US_PER_SECOND : Z := 1000000.
Definition US_PER_MINUTE : Z := 60 * US_PER_SECOND.
Definition US_PER_HOUR : Z := 60 * US_PER_MINUTE.
Definition US_PER_DAY : Z := 24 * US_PER_HOUR.

(** [datetime.max] is 9999-12-31T23:59:59.999999, day 3652059 of the
    proleptic Gregorian calendar. *)
Definition DATETIME_MAX : Z := 3652059 * US_PER_DAY - 1.

(** [timedelta] keeps between -999999999 and 999999999 whole days. *)
Definition TIMEDELTA_MAX_DAYS : Z := 999999999.

Definition mk_timedelta (us : Z) : res timedelta :=
  if (- TIMEDELTA_MAX_DAYS <=? us / US_PER_DAY) && (us / US_PER_DAY <=? TIMEDELTA_MAX_DAYS)
  then Ok us else Raise OverflowError.

Definition timedelta_days (d : Z) : res timedelta := mk_timedelta (d * US_PER_DAY).
Definition timedelta_hours (h : Z) : res timedelta := mk_timedelta (h * US_PER_HOUR).
Definition timedelta_minutes (m : Z) : res timedelta := mk_timedelta (m * US_PER_MINUTE).

(** [t + delta] on a datetime. *)
Definition add (t : datetime) (delta : timedelta) : res datetime :=
  if (0 <=? t + delta) && (t + delta <=? DATETIME_MAX)
  then Ok (t + delta) else Raise OverflowError.

(** [t - delta] on a datetime. *)
Definition sub_delta (t : datetime) (delta : timedelta) : res datetime :=
  add t (- delta).

(** [t1 - t2] on two datetimes. *)
Definition diff (t1 t2 : datetime) : timedelta := t1 - t2.

(** [delta.total_seconds()]: the microsecond count divided by [10^6] with
    Python's int true division. *)
Definition total_seconds (delta : timedelta) : res float :=
  int_truediv delta US_PER_SECOND.

End Dt.

(* ===================================================================== *)
(** * app/domain/models.py: the enumerations *)
(* ===================================================================== *)

Inductive CardType : Type := VOCAB | PHRASE | GRAMMAR.

Inductive SRSCardState : Type := NEW | LEARNING | REVIEW | RELEARNING.

Inductive ExerciseType : Type := TRANSLATION | FILL_BLANK | BUILD_SENTENCE.

Inductive PatternType : Type :=
| VOCAB_WEAKNESS
| GRAMMAR_CONFUSION
| STRUCTURE_CONFUSION.

#[global] Instance CardType_eq_dec : EqDecision CardType.
Proof. solve_decision. Defined.

#[global] Instance SRSCardState_eq_dec : EqDecision SRSCardState.
Proof. solve_decision. Defined.

#[global] Instance ExerciseType_eq_dec : EqDecision ExerciseType.
Proof. solve_decision. Defined.

#[global] Instance PatternType_eq_dec : EqDecision PatternType.
Proof. solve_decision. Defined.

(** Python's indexing of a list: negative indices count from the end. *)
Definition py_index {A : Type} (l : list A) (i : Z) : res A :=
  let n := Z.of_nat (length l) in
  let j := if i <? 0 then i + n else i in
  if (0 <=? j) && (j <? n)
  then match l !! Z.to_nat j with
       | Some a => Ok a
       | None => Raise IndexError
       end
  else Raise IndexError.

(* ===================================================================== *)
(** * app/domain/srs.py *)
(* ===================================================================== *)

Module Srs.

Definition EASE_FACTOR_MIN : float := lit 13 10.
Definition EASE_FACTOR_DEFAULT : float := lit 25 10.
Definition EASE_FACTOR_MAX : float := lit 35 10.

Definition LEARNING_STEPS_MINUTES : list Z := [1; 10].

Definition GRADUATING_INTERVAL_DAYS : Z := 1.
Definition RELEARNING_INTERVAL_DAYS : Z := 1.
Definition LAPSE_THRESHOLD : Z := 3.
Definition LAPSE_EASE_PENALTY : float := lit 20 100.
Definition ADAPTATION_PENALTY_MULTIPLIER : float := lit 70 100.

Record ReviewResult : Type := mkReviewResult {
  new_state : SRSCardState;
  new_interval : Z;
  new_ease_factor : float;
  new_repetitions : Z;
  new_lapses : Z;
  new_stability : float;
  new_due_date : Dt.datetime;
  was_correct : bool
}.

(** [int * float] and [float * int]: the int is converted first. *)
Definition int_mul_float (n : Z) (x : float) : res float :=
  let* f := of_int n in Ok (fmul f x).

Definition _apply_adaptation_penalty (interval : Z) (penalty : float) : res Z :=
  if fleb penalty (Fin 0) then Ok interval
  else
    let multiplier := fsub (lit 1 1) (fmul penalty (fsub (lit 1 1) ADAPTATION_PENALTY_MULTIPLIER)) in
    let* scaled := int_mul_float interval multiplier in
    let* rounded := py_round scaled in
    Ok (Z.max 1 rounded).

Definition _handle_new_card (quality : Z) (was_correct : bool) (ease_factor : float)
    (lapses : Z) (stability : float) (adaptation_penalty : float)
    (now : Dt.datetime) : res ReviewResult :=
  if was_correct then
    let* step := py_index LEARNING_STEPS_MINUTES 0 in
    let* delta := Dt.timedelta_minutes step in
    let* due_date := Dt.add now delta in
    Ok {| new_state := LEARNING;
          new_interval := 0;
          new_ease_factor := ease_factor;
          new_repetitions := 0;
          new_lapses := lapses;
          new_stability := stability;
          new_due_date := due_date;
          was_correct := true |}
  else
    let* delta := Dt.timedelta_minutes 1 in
    let* due_date := Dt.add now delta in
    Ok {| new_state := LEARNING;
          new_interval := 0;
          new_ease_factor := py_max EASE_FACTOR_MIN (fsub ease_factor LAPSE_EASE_PENALTY);
          new_repetitions := 0;
          new_lapses := lapses;
          new_stability := py_max (lit 5 10) (fmul stability (lit 7 10));
          new_due_date := due_date;
          was_correct := false |}.

Definition _handle_learning_card (quality : Z) (was_correct : bool) (ease_factor : float)
    (lapses : Z) (stability : float) (adaptation_penalty : float)
    (learning_step_index : Z) (now : Dt.datetime) : res ReviewResult :=
  if was_correct then
    let next_step := learning_step_index + 1 in
    if Z.of_nat (length LEARNING_STEPS_MINUTES) <=? next_step then
      let* interval := _apply_adaptation_penalty GRADUATING_INTERVAL_DAYS adaptation_penalty in
      let* delta := Dt.timedelta_days interval in
      let* due_date := Dt.add now delta in
      let* grown := int_mul_float interval (lit 8 10) in
      let new_stability := py_max stability grown in
      Ok {| new_state := REVIEW;
            new_interval := interval;
            new_ease_factor := ease_factor;
            new_repetitions := 1;
            new_lapses := lapses;
            new_stability := new_stability;
            new_due_date := due_date;
            was_correct := true |}
    else
      let* step := py_index LEARNING_STEPS_MINUTES next_step in
      let* delta := Dt.timedelta_minutes step in
      let* due_date := Dt.add now delta in
      Ok {| new_state := LEARNING;
            new_interval := 0;
            new_ease_factor := ease_factor;
            new_repetitions := 0;
            new_lapses := lapses;
            new_stability := stability;
            new_due_date := due_date;
            was_correct := true |}
  else
    let* step := py_index LEARNING_STEPS_MINUTES 0 in
    let* delta := Dt.timedelta_minutes step in
    let* due_date := Dt.add now delta in
    Ok {| new_state := LEARNING;
          new_interval := 0;
          new_ease_factor := py_max EASE_FACTOR_MIN (fsub ease_factor LAPSE_EASE_PENALTY);
          new_repetitions := 0;
          new_lapses := lapses;
          new_stability := py_max (lit 5 10) (fmul stability (lit 7 10));
          new_due_date := due_date;
          was_correct := false |}.

Definition _handle_review_card (quality : Z) (was_correct : bool) (interval : Z)
    (ease_factor : float) (repetitions lapses : Z) (stability : float)
    (adaptation_penalty : float) (now : Dt.datetime) : res ReviewResult :=
  if was_correct then
    let* new_interval_raw :=
      if repetitions =? 1 then Ok 6
      else let* product := int_mul_float interval ease_factor in py_round product in
    let* penalised := _apply_adaptation_penalty new_interval_raw adaptation_penalty in
    let new_interval := Z.max 1 penalised in
    let* new_stability := int_mul_float new_interval (lit 9 10) in
    let* delta := Dt.timedelta_days new_interval in
    let* due_date := Dt.add now delta in
    Ok {| new_state := REVIEW;
          new_interval := new_interval;
          new_ease_factor := ease_factor;
          new_repetitions := repetitions + 1;
          new_lapses := lapses;
          new_stability := new_stability;
          new_due_date := due_date;
          was_correct := true |}
  else
    let new_lapses := lapses + 1 in
    let new_ease_factor := py_max EASE_FACTOR_MIN (fsub ease_factor LAPSE_EASE_PENALTY) in
    let new_interval := RELEARNING_INTERVAL_DAYS in
    let new_stability := py_max (lit 5 10) (fmul stability (lit 5 10)) in
    let* delta := Dt.timedelta_days new_interval in
    let* due_date := Dt.add now delta in
    Ok {| new_state := RELEARNING;
          new_interval := new_interval;
          new_ease_factor := new_ease_factor;
          new_repetitions := 0;
          new_lapses := new_lapses;
          new_stability := new_stability;
          new_due_date := due_date;
          was_correct := false |}.

Definition _handle_relearning_card (quality : Z) (was_correct : bool) (ease_factor : float)
    (lapses : Z) (stability : float) (adaptation_penalty : float)
    (now : Dt.datetime) : res ReviewResult :=
  if was_correct then
    let* interval := _apply_adaptation_penalty (RELEARNING_INTERVAL_DAYS + 1) adaptation_penalty in
    let* grown := int_mul_float interval (lit 7 10) in
    let new_stability := py_max stability grown in
    let* delta := Dt.timedelta_days interval in
    let* due_date := Dt.add now delta in
    Ok {| new_state := REVIEW;
          new_interval := interval;
          new_ease_factor := ease_factor;
          new_repetitions := 1;
          new_lapses := lapses;
          new_stability := new_stability;
          new_due_date := due_date;
          was_correct := true |}
  else
    let* delta := Dt.timedelta_hours 4 in
    let* due_date := Dt.add now delta in
    Ok {| new_state := RELEARNING;
          new_interval := 0;
          new_ease_factor := py_max EASE_FACTOR_MIN (fsub ease_factor LAPSE_EASE_PENALTY);
          new_repetitions := 0;
          new_lapses := lapses + 1;
          new_stability := py_max (lit 3 10) (fmul stability (lit 5 10));
          new_due_date := due_date;
          was_correct := false |}.

(** The SM-2 update of the ease factor,
    [EF + (0.1 - (5 - q) * (0.08 + (5 - q) * 0.02))], before clamping. *)
Definition sm2_ease (quality : Z) (ease_factor : float) : res float :=
  let* a := int_mul_float (5 - quality) (lit 2 100) in
  let* b := int_mul_float (5 - quality) (fadd (lit 8 100) a) in
  Ok (fadd ease_factor (fsub (lit 1 10) b)).

(** [now] is the caller's value, or the reading of the clock when the
    caller leaves it out. *)
Definition calculate_next_review (quality : Z) (current_state : SRSCardState)
    (interval : Z) (ease_factor : float) (repetitions lapses : Z) (stability : float)
    (adaptation_penalty : float) (learning_step_index : Z)
    (now : Dt.datetime) : res ReviewResult :=
  let was_correct := LAPSE_THRESHOLD <=? quality in
  let* updated := sm2_ease quality ease_factor in
  let new_ease_factor := py_max EASE_FACTOR_MIN (py_min EASE_FACTOR_MAX updated) in
  match current_state with
  | NEW =>
      _handle_new_card quality was_correct new_ease_factor lapses stability
        adaptation_penalty now
  | LEARNING =>
      _handle_learning_card quality was_correct new_ease_factor lapses stability
        adaptation_penalty learning_step_index now
  | REVIEW =>
      _handle_review_card quality was_correct interval new_ease_factor repetitions
        lapses stability adaptation_penalty now
  | RELEARNING =>
      _handle_relearning_card quality was_correct new_ease_factor lapses stability
        adaptation_penalty now
  end.

(** The dict literal of [get_card_urgency_score]; every state has a key,
    so the default of [.get(state, 0)] is never taken. *)
Definition state_priority (state : SRSCardState) : float :=
  match state with
  | RELEARNING => lit 100 1
  | LEARNING => lit 50 1
  | REVIEW => lit 10 1
  | NEW => lit 1 1
  end.

(** [(now - due_date).total_seconds() / 3600]. *)
Definition delay_hours (now due_date : Dt.datetime) : res float :=
  let* seconds := Dt.total_seconds (Dt.diff now due_date) in
  let* d := of_int 3600 in
  fdiv seconds d.

Definition get_card_urgency_score (due_date : option Dt.datetime) (state : SRSCardState)
    (lapses : Z) (now : Dt.datetime) : res float :=
  let base_score := lit 0 1 in
  let base_score := fadd base_score (state_priority state) in
  let* base_score :=
    match due_date with
    | Some due =>
        let* hours := delay_hours now due in
        let* two := of_int 2 in
        Ok (fadd base_score (py_max (Fin 0) (fmul hours two)))
    | None => Ok base_score
    end in
  let* bonus := of_int (lapses * 5) in
  Ok (fadd base_score bonus).

End Srs.

(* ===================================================================== *)
(** * Python strings *)
(* ===================================================================== *)

(** A [str] is a sequence of Unicode code points. *)
Module Str.

Definition char : Type := Z.
Definition str : Type := list char.

(** The characters [str.strip], [str.split] and the regular expression
    class [\s] treat as whitespace. *)
Definition isspace (c : char) : bool :=
  ((9 <=? c) && (c <=? 13)) || ((28 <=? c) && (c <=? 32))
  || (c =? 133) || (c =? 160) || (c =? 5760)
  || ((8192 <=? c) && (c <=? 8202))
  || (c =? 8232) || (c =? 8233) || (c =? 8239) || (c =? 8287) || (c =? 12288).

Definition SPACE : char := 32.
Definition NEWLINE : char := 10.
Definition SLASH : char := 47.

Fixpoint lstrip (s : str) : str :=
  match s with
  | c :: r => if isspace c then lstrip r else s
  | [] => []
  end.

(** [s.strip()]. *)
Definition strip (s : str) : str := rev (lstrip (rev (lstrip s))).

Fixpoint split_aux (cur : str) (s : str) : list str :=
  match s with
  | [] => match cur with [] => [] | _ => [rev cur] end
  | c :: r =>
      if isspace c
      then match cur with [] => split_aux [] r | _ => rev cur :: split_aux [] r end
      else split_aux (c :: cur) r
  end.

(** [s.split()]: the maximal runs of non-whitespace characters. *)
Definition split (s : str) : list str := split_aux [] s.

Fixpoint split_on_aux (sep : char) (cur : str) (s : str) : list str :=
  match s with
  | [] => [rev cur]
  | c :: r =>
      if c =? sep then rev cur :: split_on_aux sep [] r
      else split_on_aux sep (c :: cur) r
  end.

(** [s.split(sep)] for a one-character separator: empty pieces are kept. *)
Definition split_on (sep : char) (s : str) : list str := split_on_aux sep [] s.

(** The class [[。、！？\.!?,;]]. *)
Definition is_final_punct (c : char) : bool :=
  (c =? 12290) || (c =? 12289) || (c =? 65281) || (c =? 65311)
  || (c =? 46) || (c =? 33) || (c =? 63) || (c =? 44) || (c =? 59).

(** [re.sub(r"[。、！？\.!?,;]$", "", text)]: [$] matches at the end of the
    text and also just before a newline that ends it. *)
Definition strip_final_punct (text : str) : str :=
  match rev text with
  | c :: r =>
      if is_final_punct c then rev r
      else if c =? NEWLINE then
        match r with
        | p :: r' => if is_final_punct p then rev (c :: r') else text
        | [] => text
        end
      else text
  | [] => text
  end.

Fixpoint collapse_aux (in_run : bool) (s : str) : str :=
  match s with
  | [] => []
  | c :: r =>
      if isspace c
      then (if in_run then collapse_aux true r else SPACE :: collapse_aux true r)
      else c :: collapse_aux false r
  end.

(** [re.sub(r"\s+", " ", text)]. *)
Definition collapse_spaces (text : str) : str := collapse_aux false text.

Definition str_eqb (a b : str) : bool := bool_decide (a = b).

Fixpoint startswith (s prefix : str) : bool :=
  match prefix, s with
  | [], _ => true
  | p :: ps, c :: cs => (p =? c) && startswith cs ps
  | _ :: _, [] => false
  end.

(** [needle in hay]. *)
Fixpoint contains (hay needle : str) : bool :=
  startswith hay needle ||
  match hay with
  | [] => false
  | _ :: r => contains r needle
  end.

End Str.

(* ===================================================================== *)
(** * app/services/exercise.py: the answer evaluator *)
(* ===================================================================== *)

Module Exercise.

Import Str.

(** The feedback texts; a constructor stands for one template and carries
    the raw expected answer the f-string interpolates. *)
Inductive Feedback : Type :=
| Resposta_em_branco
| Perfeito
| Correto
| Correto_parcialmente_aceita
| Palavras_corretas_ordem_errada (expected_raw : str)
| Quase_verifique_as_palavras (expected_raw : str)
| Resposta_incorreta_Correto (expected_raw : str)
| Resposta_incorreta_Esperado (expected_raw : str)
| Proximo_mas_nao_exato (expected_raw : str).

Record AnswerEvaluation : Type := mkAnswerEvaluation {
  is_correct : bool;
  score : float;
  feedback : Feedback;
  error_category : option string
}.

Section Evaluator.

(** [str.lower] follows the Unicode case tables, which are no part of the
    repository; the evaluator is modelled over any such function. *)
Variable lower : str -> str.

Definition _normalize_answer (text : str) : str :=
  let text := lower (strip text) in
  let text := strip_final_punct text in
  collapse_spaces text.

Definition _evaluate_build_sentence (user_norm expected_norm user_raw expected_raw : str)
    : res AnswerEvaluation :=
  let user_words : gset str := list_to_set (split user_norm) in
  let expected_words : gset str := list_to_set (split expected_norm) in
  if bool_decide (user_words = expected_words) then
    Ok {| is_correct := false;
          score := lit 7 10;
          feedback := Palavras_corretas_ordem_errada expected_raw;
          error_category := Some "order"%string |}
  else
    let intersection := user_words ∩ expected_words in
    let wrong :=
      Ok {| is_correct := false;
            score := lit 0 1;
            feedback := Resposta_incorreta_Correto expected_raw;
            error_category := Some "meaning"%string |} in
    if 0 <? Z.of_nat (size expected_words) then
      let* ratio := int_truediv (Z.of_nat (size intersection)) (Z.of_nat (size expected_words)) in
      if fgeb ratio (lit 7 10) then
        Ok {| is_correct := false;
              score := ratio;
              feedback := Quase_verifique_as_palavras expected_raw;
              error_category := Some "order"%string |}
      else wrong
    else wrong.

Definition _evaluate_fill_blank (user_norm : str) (accepted_norms : list str)
    (user_raw expected_raw : str) : res AnswerEvaluation :=
  if existsb (fun accepted => startswith user_norm accepted || startswith accepted user_norm)
       accepted_norms
  then
    Ok {| is_correct := true;
          score := lit 9 10;
          feedback := Correto;
          error_category := None |}
  else
    Ok {| is_correct := false;
          score := lit 0 1;
          feedback := Resposta_incorreta_Esperado expected_raw;
          error_category := Some "vocabulary"%string |}.

Definition _char_similarity (s1 s2 : str) : res float :=
  match s1, s2 with
  | [], _ | _, [] => Ok (lit 0 1)
  | _, _ =>
      let s1_chars : gset char := list_to_set s1 in
      let s2_chars : gset char := list_to_set s2 in
      let intersection := s1_chars ∩ s2_chars in
      let union := s1_chars ∪ s2_chars in
      if 0 <? Z.of_nat (size union)
      then int_truediv (Z.of_nat (size intersection)) (Z.of_nat (size union))
      else Ok (lit 0 1)
  end.

Definition _evaluate_translation (user_norm : str) (accepted_norms : list str)
    (user_raw expected_raw : str) : res AnswerEvaluation :=
  if existsb (fun accepted => contains user_norm accepted || contains accepted user_norm)
       accepted_norms
  then
    Ok {| is_correct := true;
          score := lit 85 100;
          feedback := Correto_parcialmente_aceita;
          error_category := None |}
  else
    let* score := _char_similarity user_norm (match accepted_norms with a :: _ => a | [] => [] end) in
    if fgeb score (lit 7 10) then
      Ok {| is_correct := false;
            score := score;
            feedback := Proximo_mas_nao_exato expected_raw;
            error_category := Some "spelling"%string |}
    else
      Ok {| is_correct := false;
            score := score;
            feedback := Resposta_incorreta_Esperado expected_raw;
            error_category := Some "vocabulary"%string |}.

(** [not user_answer or not user_answer.strip()]. *)
Definition is_blank (user_answer : str) : bool :=
  match user_answer with
  | [] => true
  | _ => match strip user_answer with [] => true | _ => false end
  end.

Definition evaluate_answer (user_answer expected_answer : str)
    (exercise_type : ExerciseType) (tolerance : float) : res AnswerEvaluation :=
  if is_blank user_answer then
    Ok {| is_correct := false;
          score := lit 0 1;
          feedback := Resposta_em_branco;
          error_category := Some "empty"%string |}
  else
    let user_norm := _normalize_answer user_answer in
    let expected_norm := _normalize_answer expected_answer in
    if str_eqb user_norm expected_norm then
      Ok {| is_correct := true;
            score := lit 1 1;
            feedback := Perfeito;
            error_category := None |}
    else
      let accepted_answers := map _normalize_answer (split_on SLASH expected_answer) in
      if existsb (str_eqb user_norm) accepted_answers then
        Ok {| is_correct := true;
              score := lit 1 1;
              feedback := Correto;
              error_category := None |}
      else
        match exercise_type with
        | BUILD_SENTENCE =>
            _evaluate_build_sentence user_norm expected_norm user_answer expected_answer
        | FILL_BLANK =>
            _evaluate_fill_blank user_norm accepted_answers user_answer expected_answer
        | TRANSLATION =>
            _evaluate_translation user_norm accepted_answers user_answer expected_answer
        end.

End Evaluator.

(** A lower-casing function for running the evaluator: ASCII letters are
    lowered, every other character is kept. *)
Definition ascii_lower (s : str) : str :=
  map (fun c => if (65 <=? c) && (c <=? 90) then c + 32 else c) s.

End Exercise.

(* ===================================================================== *)
(** * app/domain/models.py: the tables *)
(* ===================================================================== *)

(** A row keeps the columns the modelled code reads or writes. *)

Module Card.
Record t : Type := mk {
  id : Z;
  card_type : CardType
}.
End Card.

Module SRSState.
Record t : Type := mk {
  id : Z;
  card_id : Z;
  user_id : Z;
  interval : Z;
  ease_factor : float;
  repetitions : Z;
  lapses : Z;
  state : SRSCardState;
  due_date : option Dt.datetime;
  last_reviewed_at : option Dt.datetime;
  stability : float;
  adaptation_penalty : float
}.
End SRSState.

Module ExerciseRow.
Record t : Type := mk {
  id : Z;
  card_id : Z;
  exercise_type : ExerciseType
}.
End ExerciseRow.

Module ExerciseSubmission.
Record t : Type := mk {
  id : Z;
  exercise_id : Z;
  user_id : Z;
  is_correct : bool;
  submitted_at : Dt.datetime
}.
End ExerciseSubmission.

(** The JSON snapshot [submit_review] stores before and after the update. *)
Record Snapshot : Type := mkSnapshot {
  snap_state : SRSCardState;
  snap_interval : Z;
  snap_ease_factor : float;
  snap_repetitions : Z;
  snap_lapses : Z
}.

Module ReviewLog.
Record t : Type := mk {
  id : Z;
  card_id : Z;
  user_id : Z;
  quality : Z;
  response_time_ms : option Z;
  was_correct : bool;
  srs_state_before : Snapshot;
  srs_state_after : Snapshot;
  reviewed_at : Dt.datetime
}.
End ReviewLog.

(** The description of a pattern is one of three f-strings, each showing
    the error rate. *)
Inductive Description : Type :=
| Taxa_de_erro_em_vocabulario (error_rate : float)
| Confusao_em_estruturas_gramaticais (error_rate : float)
| Dificuldade_com_ordem_de_frases (error_rate : float).

Module ErrorPattern.
Record t : Type := mk {
  id : Z;
  user_id : Z;
  pattern_type : PatternType;
  description : Description;
  count : Z;
  severity : float;
  items_affected : option (list Z);
  is_active : bool;
  first_detected_at : Dt.datetime;
  last_seen_at : Dt.datetime
}.
End ErrorPattern.

(** The session: each table is the list of its rows in row order, and a
    change made through the session is seen by every later query. *)
Record Db : Type := mkDb {
  cards : list Card.t;
  srs_states : list SRSState.t;
  exercises : list ExerciseRow.t;
  exercise_submissions : list ExerciseSubmission.t;
  review_logs : list ReviewLog.t;
  error_patterns : list ErrorPattern.t
}.

(** Database code: a computation on the store that returns a value or
    raises; the store at the point of the raise is kept. *)
Definition M (A : Type) : Type := Db -> res A * Db.

Definition ret {A : Type} (a : A) : M A := fun db => (Ok a, db).

Definition raise {A : Type} (e : exn) : M A := fun db => (Raise e, db).

Definition bind {A B : Type} (m : M A) (k : A -> M B) : M B :=
  fun db =>
    match m db with
    | (Ok a, db') => k a db'
    | (Raise e, db') => (Raise e, db')
    end.

Definition get : M Db := fun db => (Ok db, db).

Definition put (db' : Db) : M unit := fun _ => (Ok tt, db').

Definition lift {A : Type} (r : res A) : M A := fun db => (r, db).

(** [try: m except Exception: pass]. *)
Definition try_pass {A : Type} (m : M A) : M unit :=
  fun db => match m db with (_, db') => (Ok tt, db') end.

Notation "'do' x '<-' m ';' k" := (bind m (fun x => k))
  (at level 10, x name, m at level 100, k at level 200).

Fixpoint for_each {A : Type} (l : list A) (body : A -> M unit) : M unit :=
  match l with
  | [] => ret tt
  | a :: r => do _ <- body a; for_each r body
  end.

(** A loop that gathers the lists its body returns. *)
Fixpoint for_collect {A B : Type} (l : list A) (body : A -> M (list B)) : M (list B) :=
  match l with
  | [] => ret []
  | a :: r => do x <- body a; do xs <- for_collect r body; ret (x ++ xs)
  end.

(** The rows of a table, each with its row number. *)
Definition indexed {A : Type} (l : list A) : list (nat * A) := zip (seq 0 (length l)) l.

(** The primary key the database gives a new row. *)
Definition next_id (ids : list Z) : Z := 1 + foldr Z.max 0 ids.

(** [list(set(l))], in the enumeration order of [elements]; the order in
    which CPython iterates over a set is not modelled. *)
Definition list_of_set (l : list Z) : list Z := elements (list_to_set l : gset Z).

(* ===================================================================== *)
(** * app/domain/adaptation.py *)
(* ===================================================================== *)

Module Adaptation.

Definition VOCAB_ERROR_THRESHOLD : float := lit 40 100.
Definition GRAMMAR_ERROR_THRESHOLD : float := lit 35 100.
Definition STRUCTURE_ERROR_THRESHOLD : float := lit 45 100.
Definition ANALYSIS_WINDOW_DAYS : Z := 7.
Definition MIN_REVIEWS_FOR_ANALYSIS : Z := 5.
Definition MAX_SEVERITY : float := lit 1 1.
Definition SEVERITY_INCREMENT : float := lit 2 10.

Definition len {A : Type} (l : list A) : Z := Z.of_nat (length l).

(** [db.query(Card).filter(Card.id == card_id).first()]. *)
Definition query_card (card_id : Z) (db : Db) : option Card.t :=
  snd <$> list_find (fun c => Card.id c = card_id) (cards db).

Definition _get_card_type (card_id : Z) (db : Db) : option CardType :=
  Card.card_type <$> query_card card_id db.

Definition query_exercise (exercise_id : Z) (db : Db) : option ExerciseRow.t :=
  snd <$> list_find (fun e => ExerciseRow.id e = exercise_id) (exercises db).

Definition _get_exercise_type (exercise_id : Z) (db : Db) : option ExerciseType :=
  ExerciseRow.exercise_type <$> query_exercise exercise_id db.

(** The active pattern of a learner and type that [.first()] returns, with
    its row number. *)
Definition query_active_pattern (user_id : Z) (pattern_type : PatternType) (db : Db)
    : option (nat * ErrorPattern.t) :=
  list_find (fun p => ErrorPattern.user_id p = user_id
                      /\ ErrorPattern.pattern_type p = pattern_type
                      /\ ErrorPattern.is_active p = true) (error_patterns db).

Definition set_error_patterns (l : list ErrorPattern.t) (db : Db) : Db :=
  {| cards := cards db;
     srs_states := srs_states db;
     exercises := exercises db;
     exercise_submissions := exercise_submissions db;
     review_logs := review_logs db;
     error_patterns := l |}.

Definition set_srs_states (l : list SRSState.t) (db : Db) : Db :=
  {| cards := cards db;
     srs_states := l;
     exercises := exercises db;
     exercise_submissions := exercise_submissions db;
     review_logs := review_logs db;
     error_patterns := error_patterns db |}.

(** [now] is the reading of [datetime.utcnow()] in the update branch.  A new
    row is built without its two dates: the database fills them from the
    server default [func.now()], and [stamp] is the time it writes. *)
Definition _upsert_pattern (user_id : Z) (pattern_type : PatternType)
    (description : Description) (affected_cards : list Z) (now stamp : Dt.datetime)
    : M ErrorPattern.t :=
  do db <- get;
  match query_active_pattern user_id pattern_type db with
  | Some (i, existing) =>
      let current : gset Z := list_to_set (default [] (ErrorPattern.items_affected existing)) in
      let updated :=
        {| ErrorPattern.id := ErrorPattern.id existing;
           ErrorPattern.user_id := ErrorPattern.user_id existing;
           ErrorPattern.pattern_type := ErrorPattern.pattern_type existing;
           ErrorPattern.description := description;
           ErrorPattern.count := ErrorPattern.count existing + 1;
           ErrorPattern.severity :=
             py_min MAX_SEVERITY (fadd (ErrorPattern.severity existing) SEVERITY_INCREMENT);
           ErrorPattern.items_affected := Some (elements (current ∪ list_to_set affected_cards));
           ErrorPattern.is_active := ErrorPattern.is_active existing;
           ErrorPattern.first_detected_at := ErrorPattern.first_detected_at existing;
           ErrorPattern.last_seen_at := now |} in
      do _ <- put (set_error_patterns (<[i := updated]> (error_patterns db)) db);
      ret updated
  | None =>
      let pattern :=
        {| ErrorPattern.id := next_id (ErrorPattern.id <$> error_patterns db);
           ErrorPattern.user_id := user_id;
           ErrorPattern.pattern_type := pattern_type;
           ErrorPattern.description := description;
           ErrorPattern.count := 1;
           ErrorPattern.severity := SEVERITY_INCREMENT;
           ErrorPattern.items_affected := Some affected_cards;
           ErrorPattern.is_active := true;
           ErrorPattern.first_detected_at := stamp;
           ErrorPattern.last_seen_at := stamp |} in
      do _ <- put (set_error_patterns (error_patterns db ++ [pattern]) db);
      ret pattern
  end.

Definition with_penalty (penalty : float) (srs : SRSState.t) : SRSState.t :=
  {| SRSState.id := SRSState.id srs;
     SRSState.card_id := SRSState.card_id srs;
     SRSState.user_id := SRSState.user_id srs;
     SRSState.interval := SRSState.interval srs;
     SRSState.ease_factor := SRSState.ease_factor srs;
     SRSState.repetitions := SRSState.repetitions srs;
     SRSState.lapses := SRSState.lapses srs;
     SRSState.state := SRSState.state srs;
     SRSState.due_date := SRSState.due_date srs;
     SRSState.last_reviewed_at := SRSState.last_reviewed_at srs;
     SRSState.stability := SRSState.stability srs;
     SRSState.adaptation_penalty := penalty |}.

Definition _apply_srs_penalty_to_cards (card_ids : list Z) (penalty : float) : M unit :=
  for_each card_ids (fun card_id =>
    do db <- get;
    match list_find (fun s => SRSState.card_id s = card_id) (srs_states db) with
    | Some (i, srs) =>
        put (set_srs_states
               (<[i := with_penalty (py_min (lit 1 1) penalty) srs]> (srs_states db)) db)
    | None => ret tt
    end).

Definition _analyze_vocab_errors (user_id : Z) (reviews : list ReviewLog.t)
    (now stamp : Dt.datetime) : M (list ErrorPattern.t) :=
  do db <- get;
  let vocab_errors :=
    filter (fun review =>
              Card.card_type <$> query_card (ReviewLog.card_id review) db = Some VOCAB
              /\ ReviewLog.was_correct review = false) reviews in
  let affected_cards := ReviewLog.card_id <$> vocab_errors in
  let vocab_reviews :=
    filter (fun r => _get_card_type (ReviewLog.card_id r) db = Some VOCAB) reviews in
  match vocab_reviews with
  | [] => ret []
  | _ =>
      do error_rate <- lift (int_truediv (len vocab_errors) (len vocab_reviews));
      if fgeb error_rate VOCAB_ERROR_THRESHOLD then
        do pattern <- _upsert_pattern user_id VOCAB_WEAKNESS
                        (Taxa_de_erro_em_vocabulario error_rate)
                        (list_of_set affected_cards) now stamp;
        do _ <- _apply_srs_penalty_to_cards (list_of_set affected_cards) (lit 6 10);
        ret [pattern]
      else ret []
  end.

Definition _analyze_grammar_errors (user_id : Z) (reviews : list ReviewLog.t)
    (now stamp : Dt.datetime) : M (list ErrorPattern.t) :=
  do db <- get;
  let grammar_errors :=
    filter (fun review =>
              _get_card_type (ReviewLog.card_id review) db = Some GRAMMAR
              /\ ReviewLog.was_correct review = false) reviews in
  let affected_cards := ReviewLog.card_id <$> grammar_errors in
  let grammar_reviews :=
    filter (fun r => _get_card_type (ReviewLog.card_id r) db = Some GRAMMAR) reviews in
  match grammar_reviews with
  | [] => ret []
  | _ =>
      do error_rate <- lift (int_truediv (len grammar_errors) (len grammar_reviews));
      if fgeb error_rate GRAMMAR_ERROR_THRESHOLD then
        do pattern <- _upsert_pattern user_id GRAMMAR_CONFUSION
                        (Confusao_em_estruturas_gramaticais error_rate)
                        (list_of_set affected_cards) now stamp;
        do _ <- _apply_srs_penalty_to_cards (list_of_set affected_cards) (lit 5 10);
        ret [pattern]
      else ret []
  end.

Definition _analyze_structure_errors (user_id : Z) (submissions : list ExerciseSubmission.t)
    (now stamp : Dt.datetime) : M (list ErrorPattern.t) :=
  do db <- get;
  let structure_errors :=
    filter (fun submission =>
              ExerciseRow.exercise_type
                <$> query_exercise (ExerciseSubmission.exercise_id submission) db
              = Some BUILD_SENTENCE
              /\ ExerciseSubmission.is_correct submission = false) submissions in
  let affected_cards :=
    omap (fun submission =>
            match query_exercise (ExerciseSubmission.exercise_id submission) db with
            | Some exercise =>
                if ExerciseRow.card_id exercise =? 0 then None
                else Some (ExerciseRow.card_id exercise)
            | None => None
            end) structure_errors in
  let structure_submissions :=
    filter (fun s => _get_exercise_type (ExerciseSubmission.exercise_id s) db
                     = Some BUILD_SENTENCE) submissions in
  match structure_submissions with
  | [] => ret []
  | _ =>
      do error_rate <- lift (int_truediv (len structure_errors) (len structure_submissions));
      if fgeb error_rate STRUCTURE_ERROR_THRESHOLD then
        do pattern <- _upsert_pattern user_id STRUCTURE_CONFUSION
                        (Dificuldade_com_ordem_de_frases error_rate)
                        (list_of_set affected_cards) now stamp;
        ret [pattern]
      else ret []
  end.

Definition recent_reviews_of (user_id : Z) (cutoff : Dt.datetime) (db : Db)
    : list ReviewLog.t :=
  filter (fun r => ReviewLog.user_id r = user_id /\ cutoff <= ReviewLog.reviewed_at r)
    (review_logs db).

Definition recent_submissions_of (user_id : Z) (cutoff : Dt.datetime) (db : Db)
    : list ExerciseSubmission.t :=
  filter (fun s => ExerciseSubmission.user_id s = user_id
                   /\ cutoff <= ExerciseSubmission.submitted_at s)
    (exercise_submissions db).

(** [now] is the reading of the clock for the window.  Each of the three
    analyses upserts at most once: [seen t] is the reading of the clock in
    the upsert of type [t], and [stamp t] the time the database writes into
    a new pattern of type [t]. *)
Definition analyze_and_update_patterns (user_id : Z) (now : Dt.datetime)
    (seen stamp : PatternType -> Dt.datetime) : M (list ErrorPattern.t) :=
  do window <- lift (Dt.timedelta_days ANALYSIS_WINDOW_DAYS);
  do cutoff <- lift (Dt.sub_delta now window);
  do db <- get;
  let recent_reviews := recent_reviews_of user_id cutoff db in
  do review_patterns <-
    (if MIN_REVIEWS_FOR_ANALYSIS <=? len recent_reviews then
       do vocab_patterns <-
         _analyze_vocab_errors user_id recent_reviews (seen VOCAB_WEAKNESS)
           (stamp VOCAB_WEAKNESS);
       do grammar_patterns <-
         _analyze_grammar_errors user_id recent_reviews (seen GRAMMAR_CONFUSION)
           (stamp GRAMMAR_CONFUSION);
       ret (vocab_patterns ++ grammar_patterns)
     else ret []);
  do db <- get;
  let recent_submissions := recent_submissions_of user_id cutoff db in
  do structure_patterns <-
    (if MIN_REVIEWS_FOR_ANALYSIS <=? len recent_submissions then
       _analyze_structure_errors user_id recent_submissions (seen STRUCTURE_CONFUSION)
         (stamp STRUCTURE_CONFUSION)
     else ret []);
  ret (review_patterns ++ structure_patterns).

Definition deactivate (pattern : ErrorPattern.t) : ErrorPattern.t :=
  {| ErrorPattern.id := ErrorPattern.id pattern;
     ErrorPattern.user_id := ErrorPattern.user_id pattern;
     ErrorPattern.pattern_type := ErrorPattern.pattern_type pattern;
     ErrorPattern.description := ErrorPattern.description pattern;
     ErrorPattern.count := ErrorPattern.count pattern;
     ErrorPattern.severity := ErrorPattern.severity pattern;
     ErrorPattern.items_affected := ErrorPattern.items_affected pattern;
     ErrorPattern.is_active := false;
     ErrorPattern.first_detected_at := ErrorPattern.first_detected_at pattern;
     ErrorPattern.last_seen_at := ErrorPattern.last_seen_at pattern |}.

(** The resolution pass visits the active patterns of the learner, each
    with the number of its row; [pattern.is_active = False] is an update of
    that row. *)
Definition resolve_pattern_if_improved (user_id : Z) (now : Dt.datetime)
    : M (list ErrorPattern.t) :=
  do window <- lift (Dt.timedelta_days ANALYSIS_WINDOW_DAYS);
  do cutoff <- lift (Dt.sub_delta now window);
  do db <- get;
  let active_patterns :=
    filter (fun ip => ErrorPattern.user_id (snd ip) = user_id
                      /\ ErrorPattern.is_active (snd ip) = true)
      (indexed (error_patterns db)) in
  let recent_reviews := recent_reviews_of user_id cutoff db in
  for_collect active_patterns (fun ip =>
    let i := fst ip in
    let pattern := snd ip in
    match ErrorPattern.items_affected pattern with
    | None | Some [] => ret []
    | Some items =>
        let pattern_card_ids : gset Z := list_to_set items in
        let pattern_reviews :=
          filter (fun r => ReviewLog.card_id r ∈ pattern_card_ids) recent_reviews in
        if MIN_REVIEWS_FOR_ANALYSIS <=? len pattern_reviews then
          do error_rate <-
            lift (int_truediv
                    (len (filter (fun r => ReviewLog.was_correct r = false) pattern_reviews))
                    (len pattern_reviews));
          if fltb error_rate (lit 20 100) then
            do db <- get;
            do _ <- put (set_error_patterns (alter deactivate i (error_patterns db)) db);
            ret [deactivate pattern]
          else ret []
        else ret []
    end).

End Adaptation.

(* ===================================================================== *)
(** * app/services/review.py: submitting a review *)
(* ===================================================================== *)

Module Review.

(** The texts of [_quality_feedback], one per key of its dict and the
    default. *)
Inductive QualityFeedback : Type :=
| Nao_lembrou
| Errou_mas_familiar
| Errou_mas_reconheceu
| Correto_mas_dificil
| Bom_com_hesitacao
| Perfeito_facil_e_rapido
| Revisao_registrada.

Definition _quality_feedback (quality : Z) : QualityFeedback :=
  match quality with
  | 0 => Nao_lembrou
  | 1 => Errou_mas_familiar
  | 2 => Errou_mas_reconheceu
  | 3 => Correto_mas_dificil
  | 4 => Bom_com_hesitacao
  | 5 => Perfeito_facil_e_rapido
  | _ => Revisao_registrada
  end.

(** The dict [submit_review] returns. *)
Record Response : Type := mkResponse {
  resp_card_id : Z;
  resp_was_correct : bool;
  resp_new_state : SRSCardState;
  resp_new_interval : Z;
  resp_next_due : Dt.datetime;
  resp_quality : Z;
  resp_feedback : QualityFeedback
}.

Definition snapshot (srs : SRSState.t) : Snapshot :=
  {| snap_state := SRSState.state srs;
     snap_interval := SRSState.interval srs;
     snap_ease_factor := SRSState.ease_factor srs;
     snap_repetitions := SRSState.repetitions srs;
     snap_lapses := SRSState.lapses srs |}.

(** The assignments of [submit_review] to the scheduling record. *)
Definition apply_result (srs : SRSState.t) (review_result : Srs.ReviewResult)
    (now : Dt.datetime) : SRSState.t :=
  {| SRSState.id := SRSState.id srs;
     SRSState.card_id := SRSState.card_id srs;
     SRSState.user_id := SRSState.user_id srs;
     SRSState.interval := Srs.new_interval review_result;
     SRSState.ease_factor := Srs.new_ease_factor review_result;
     SRSState.repetitions := Srs.new_repetitions review_result;
     SRSState.lapses := Srs.new_lapses review_result;
     SRSState.state := Srs.new_state review_result;
     SRSState.due_date := Some (Srs.new_due_date review_result);
     SRSState.last_reviewed_at := Some now;
     SRSState.stability := Srs.new_stability review_result;
     SRSState.adaptation_penalty :=
       if Srs.was_correct review_result
       then py_max (lit 0 1) (fsub (SRSState.adaptation_penalty srs) (lit 1 10))
       else SRSState.adaptation_penalty srs |}.

Definition add_review_log (log : ReviewLog.t) (db : Db) : Db :=
  {| cards := cards db;
     srs_states := srs_states db;
     exercises := exercises db;
     exercise_submissions := exercise_submissions db;
     review_logs := review_logs db ++ [log];
     error_patterns := error_patterns db |}.

(** The times of one call of [submit_review], in the order they are taken:
    [scheduler_now] is the [datetime.utcnow()] of [calculate_next_review],
    [reviewed_now] the one written into [last_reviewed_at]; the new log is
    built without [reviewed_at], which the database fills from the server
    default [func.now()] with [log_stamp]; [analysis_now] is the reading of
    the detector for its window, [pattern_seen t] its reading in the upsert
    of type [t], and [pattern_stamp t] the time the database writes into a
    new pattern of type [t]. *)
Record Clock : Type := mkClock {
  scheduler_now : Dt.datetime;
  reviewed_now : Dt.datetime;
  log_stamp : Dt.datetime;
  analysis_now : Dt.datetime;
  pattern_seen : PatternType -> Dt.datetime;
  pattern_stamp : PatternType -> Dt.datetime
}.

Definition submit_review (user_id card_id quality : Z) (response_time_ms : option Z)
    (clock : Clock) : M Response :=
  let quality := Z.max 0 (Z.min 5 quality) in
  do db <- get;
  match list_find (fun s => SRSState.card_id s = card_id /\ SRSState.user_id s = user_id)
          (srs_states db) with
  | None => raise (ValueError (SRSStateNotFound card_id))
  | Some (i, srs) =>
      let state_before := snapshot srs in
      do review_result <-
        lift (Srs.calculate_next_review quality (SRSState.state srs) (SRSState.interval srs)
                (SRSState.ease_factor srs) (SRSState.repetitions srs) (SRSState.lapses srs)
                (SRSState.stability srs) (SRSState.adaptation_penalty srs) 0
                (scheduler_now clock));
      let updated := apply_result srs review_result (reviewed_now clock) in
      do _ <- put (Adaptation.set_srs_states (<[i := updated]> (srs_states db)) db);
      let state_after := snapshot updated in
      do db <- get;
      let log :=
        {| ReviewLog.id := next_id (ReviewLog.id <$> review_logs db);
           ReviewLog.card_id := card_id;
           ReviewLog.user_id := user_id;
           ReviewLog.quality := quality;
           ReviewLog.response_time_ms := response_time_ms;
           ReviewLog.was_correct := Srs.was_correct review_result;
           ReviewLog.srs_state_before := state_before;
           ReviewLog.srs_state_after := state_after;
           ReviewLog.reviewed_at := log_stamp clock |} in
      do _ <- put (add_review_log log db);
      do _ <- try_pass (Adaptation.analyze_and_update_patterns user_id (analysis_now clock)
                          (pattern_seen clock) (pattern_stamp clock));
      ret {| resp_card_id := card_id;
             resp_was_correct := Srs.was_correct review_result;
             resp_new_state := Srs.new_state review_result;
             resp_new_interval := Srs.new_interval review_result;
             resp_next_due := Srs.new_due_date review_result;
             resp_quality := quality;
             resp_feedback := _quality_feedback quality |}
  end.

End Review.

(* ===================================================================== *)
(** * Vocabulary of the properties *)
(* ===================================================================== *)

(** ** The scheduler *)

Module SrsSpec.

Import Srs.

(** The integer of a finite float, in units of [2^-1074]. *)
Definition fin_val (x : float) : Z :=
  match x with
  | Fin k => k
  | _ => 0
  end.

(** The ease factor is within its bounds. *)
Definition ease_in_range (e : float) : Prop :=
  fle EASE_FACTOR_MIN e /\ fle e EASE_FACTOR_MAX.

(** The clamp of [calculate_next_review]. *)
Definition clamp_ease (x : float) : float :=
  py_max EASE_FACTOR_MIN (py_min EASE_FACTOR_MAX x).

(** The lapse penalty of the incorrect branches. *)
Definition lapse_ease (e : float) : float :=
  py_max EASE_FACTOR_MIN (fsub e LAPSE_EASE_PENALTY).

(** [1.0 - 0.70], the share of the interval a full penalty removes. *)
Definition penalty_share : float := fsub (lit 1 1) ADAPTATION_PENALTY_MULTIPLIER.

(** The delay in hours of the ranking formula: zero without a due date. *)
Definition spec_delay_hours (due_date : option Dt.datetime) (now : Dt.datetime) : res float :=
  match due_date with
  | Some due => delay_hours now due
  | None => Ok (Fin 0)
  end.

(** [state_priority(state) + max(0, delay_hours * 2) + lapses * 5]. *)
Definition urgency_formula (state : SRSCardState) (due_date : option Dt.datetime)
    (lapses : Z) (now : Dt.datetime) : res float :=
  let* hours := spec_delay_hours due_date now in
  let* two := of_int 2 in
  let* bonus := of_int (lapses * 5) in
  Ok (fadd (fadd (state_priority state) (py_max (Fin 0) (fmul hours two))) bonus).

(** How long a record has been overdue, in microseconds: zero without a
    due date and before it. *)
Definition overdue (due_date : option Dt.datetime) (now : Dt.datetime) : Z :=
  match due_date with
  | Some due => Z.max 0 (now - due)
  | None => 0
  end.

(** The term [max(0, hours * 2)]. *)
Definition delay_term (hours : float) : float := py_max (Fin 0) (fmul hours (Fin (2 * U))).

End SrsSpec.

Import Srs SrsSpec.

(** 2026-01-01T00:00:00, the clock reading of the examples. *)
Definition example_now : Dt.datetime := 739616 * Dt.US_PER_DAY.

(** The upserts of a pass of the detector that all happen at [example_now]. *)
Definition example_times : PatternType -> Dt.datetime := fun _ => example_now.

(** The times of a call of [submit_review] that starts at [example_now]:
    the clock moves on between the readings, the database keeps whole
    seconds. *)
Definition example_clock : Review.Clock :=
  {| Review.scheduler_now := example_now;
     Review.reviewed_now := example_now + 1000;
     Review.log_stamp := example_now;
     Review.analysis_now := example_now + 2000;
     Review.pattern_seen := fun _ => example_now + 3000;
     Review.pattern_stamp := fun _ => example_now |}.

(** One review of a scheduling record: the scheduler is run on the fields of
    the record with a rating between 0 and 5, whatever the penalty, the
    learning step and the time, and its result is written back as
    [submit_review] does. *)
Inductive reviewed : SRSState.t -> SRSState.t -> Prop :=
| reviewed_intro srs quality adaptation_penalty learning_step_index now r :
    0 <= quality <= 5 ->
    calculate_next_review quality (SRSState.state srs) (SRSState.interval srs)
      (SRSState.ease_factor srs) (SRSState.repetitions srs) (SRSState.lapses srs)
      (SRSState.stability srs) adaptation_penalty learning_step_index now = Ok r ->
    reviewed srs (Review.apply_result srs r now).

(** A record as the pipeline creates it: new, never reviewed. *)
Definition example_card : SRSState.t :=
  {| SRSState.id := 1;
     SRSState.card_id := 1;
     SRSState.user_id := 1;
     SRSState.interval := 0;
     SRSState.ease_factor := EASE_FACTOR_DEFAULT;
     SRSState.repetitions := 0;
     SRSState.lapses := 0;
     SRSState.state := NEW;
     SRSState.due_date := Some example_now;
     SRSState.last_reviewed_at := None;
     SRSState.stability := lit 1 1;
     SRSState.adaptation_penalty := lit 0 1 |}.

(** ** The answer evaluator *)

Module ExerciseSpec.

Import Str Exercise.

(** The evaluation rule is stated on the lists of words that [split]
    returns; the code works on Python sets of them. *)

(** Both texts use the same words. *)
Definition same_words (user_norm expected_norm : str) : Prop :=
  forall w, w ∈ split user_norm <-> w ∈ split expected_norm.

(** The number of different words of a list. *)
Definition distinct (words : list str) : Z := Z.of_nat (length (remove_dups words)).

(** The expected words the submission uses. *)
Definition common_words (user_norm expected_norm : str) : list str :=
  filter (fun w => w ∈ split user_norm) (split expected_norm).

(** [|intersection| / |expected word set|]; a [ZeroDivisionError] when the
    expected answer has no word. *)
Definition word_ratio (user_norm expected_norm : str) : res float :=
  int_truediv (distinct (common_words user_norm expected_norm))
    (distinct (split expected_norm)).

End ExerciseSpec.

(** ** The detector *)

Module AdaptationSpec.

Import Adaptation.

(** The patterns of one type, in row order. *)
Definition patterns_of (t : PatternType) (db : Db) : list ErrorPattern.t :=
  filter (fun p => ErrorPattern.pattern_type p = t) (error_patterns db).

(** [db'] is [db] but for the patterns of type [t] and the scheduling
    records. *)
Definition touches_only (t : PatternType) (db db' : Db) : Prop :=
  (forall t', t' <> t -> patterns_of t' db' = patterns_of t' db)
  /\ cards db' = cards db
  /\ exercises db' = exercises db
  /\ exercise_submissions db' = exercise_submissions db
  /\ review_logs db' = review_logs db.

(** The patterns of type [t] and the history are the same in [db'] and
    [db]. *)
Definition keeps (t : PatternType) (db db' : Db) : Prop :=
  patterns_of t db' = patterns_of t db
  /\ cards db' = cards db
  /\ exercises db' = exercises db
  /\ exercise_submissions db' = exercise_submissions db
  /\ review_logs db' = review_logs db.

(** The row an update of [_upsert_pattern] leaves. *)
Definition reinforced (existing : ErrorPattern.t) (description : Description)
    (affected_cards : list Z) (now : Dt.datetime) : ErrorPattern.t :=
  {| ErrorPattern.id := ErrorPattern.id existing;
     ErrorPattern.user_id := ErrorPattern.user_id existing;
     ErrorPattern.pattern_type := ErrorPattern.pattern_type existing;
     ErrorPattern.description := description;
     ErrorPattern.count := ErrorPattern.count existing + 1;
     ErrorPattern.severity :=
       py_min MAX_SEVERITY (fadd (ErrorPattern.severity existing) SEVERITY_INCREMENT);
     ErrorPattern.items_affected :=
       Some (elements ((list_to_set (default [] (ErrorPattern.items_affected existing)) : gset Z)
                       ∪ list_to_set affected_cards));
     ErrorPattern.is_active := ErrorPattern.is_active existing;
     ErrorPattern.first_detected_at := ErrorPattern.first_detected_at existing;
     ErrorPattern.last_seen_at := now |}.

(** The row a creation of [_upsert_pattern] adds. *)
Definition created (db : Db) (user_id : Z) (pattern_type : PatternType)
    (description : Description) (affected_cards : list Z) (stamp : Dt.datetime)
    : ErrorPattern.t :=
  {| ErrorPattern.id := next_id (ErrorPattern.id <$> error_patterns db);
     ErrorPattern.user_id := user_id;
     ErrorPattern.pattern_type := pattern_type;
     ErrorPattern.description := description;
     ErrorPattern.count := 1;
     ErrorPattern.severity := SEVERITY_INCREMENT;
     ErrorPattern.items_affected := Some affected_cards;
     ErrorPattern.is_active := true;
     ErrorPattern.first_detected_at := stamp;
     ErrorPattern.last_seen_at := stamp |}.

(** The start of the analysis window. *)
Definition window_start (now : Dt.datetime) : res Dt.datetime :=
  let* window := Dt.timedelta_days ANALYSIS_WINDOW_DAYS in Dt.sub_delta now window.

(** The test of the loop body of [resolve_pattern_if_improved]: the pattern
    has affected items, at least 5 recent reviews touch them, and the error
    rate among those is below 0.20. *)
Definition improved (recent_reviews : list ReviewLog.t) (pattern : ErrorPattern.t) : bool :=
  match ErrorPattern.items_affected pattern with
  | None | Some [] => false
  | Some items =>
      let pattern_card_ids : gset Z := list_to_set items in
      let pattern_reviews :=
        filter (fun r => ReviewLog.card_id r ∈ pattern_card_ids) recent_reviews in
      if MIN_REVIEWS_FOR_ANALYSIS <=? len pattern_reviews then
        match int_truediv
                (len (filter (fun r => ReviewLog.was_correct r = false) pattern_reviews))
                (len pattern_reviews) with
        | Ok error_rate => fltb error_rate (lit 20 100)
        | Raise _ => false
        end
      else false
  end.

(** The patterns the resolution pass deactivates. *)
Definition resolves (user_id : Z) (recent_reviews : list ReviewLog.t) (p : ErrorPattern.t)
    : bool :=
  bool_decide (ErrorPattern.user_id p = user_id) && ErrorPattern.is_active p
  && improved recent_reviews p.

End AdaptationSpec.

Import Adaptation AdaptationSpec.

(** ** Example stores *)

(** A review log of learner 1, written one day before [example_now]. *)
Definition example_log (id card_id : Z) (was_correct : bool) : ReviewLog.t :=
  {| ReviewLog.id := id;
     ReviewLog.card_id := card_id;
     ReviewLog.user_id := 1;
     ReviewLog.quality := if was_correct then 4 else 1;
     ReviewLog.response_time_ms := None;
     ReviewLog.was_correct := was_correct;
     ReviewLog.srs_state_before := Review.snapshot example_card;
     ReviewLog.srs_state_after := Review.snapshot example_card;
     ReviewLog.reviewed_at := example_now - Dt.US_PER_DAY |}.

(** Five recent reviews, one of them of a vocabulary card and wrong. *)
Definition one_vocab_review_db : Db :=
  {| cards := [ {| Card.id := 1; Card.card_type := VOCAB |};
                {| Card.id := 2; Card.card_type := PHRASE |} ];
     srs_states := [];
     exercises := [];
     exercise_submissions := [];
     review_logs := [ example_log 1 1 false; example_log 2 2 true; example_log 3 2 true;
                      example_log 4 2 true; example_log 5 2 true ];
     error_patterns := [] |}.

(** Four recent reviews, all of a vocabulary card and wrong. *)
Definition four_reviews_db : Db :=
  {| cards := [ {| Card.id := 1; Card.card_type := VOCAB |} ];
     srs_states := [];
     exercises := [];
     exercise_submissions := [];
     review_logs := [ example_log 1 1 false; example_log 2 1 false; example_log 3 1 false;
                      example_log 4 1 false ];
     error_patterns := [] |}.

(** A vocabulary pattern of learner 1, detected three times. *)
Definition example_pattern : ErrorPattern.t :=
  {| ErrorPattern.id := 1;
     ErrorPattern.user_id := 1;
     ErrorPattern.pattern_type := VOCAB_WEAKNESS;
     ErrorPattern.description := Taxa_de_erro_em_vocabulario (lit 5 10);
     ErrorPattern.count := 3;
     ErrorPattern.severity := lit 6 10;
     ErrorPattern.items_affected := Some [1];
     ErrorPattern.is_active := true;
     ErrorPattern.first_detected_at := example_now - 6 * Dt.US_PER_DAY;
     ErrorPattern.last_seen_at := example_now - 2 * Dt.US_PER_DAY |}.

(** An active vocabulary pattern on card 1, and five recent correct reviews
    of that card. *)
Definition recovered_db : Db :=
  {| cards := [ {| Card.id := 1; Card.card_type := VOCAB |} ];
     srs_states := [];
     exercises := [];
     exercise_submissions := [];
     review_logs := [ example_log 1 1 true; example_log 2 1 true; example_log 3 1 true;
                      example_log 4 1 true; example_log 5 1 true ];
     error_patterns := [example_pattern] |}.

(* ===================================================================== *)
(** * app/services/pipeline.py: the scheduling records of new cards *)
(* ===================================================================== *)

Module Pipeline.

(** The [SRSState(...)] of [_step_init_srs]; the key is the one the
    database gives the row. *)
Definition new_srs_state (id card_id user_id : Z) (now : Dt.datetime) : SRSState.t :=
  {| SRSState.id := id;
     SRSState.card_id := card_id;
     SRSState.user_id := user_id;
     SRSState.interval := 0;
     SRSState.ease_factor := lit 25 10;
     SRSState.repetitions := 0;
     SRSState.lapses := 0;
     SRSState.state := NEW;
     SRSState.due_date := Some now;
     SRSState.last_reviewed_at := None;
     SRSState.stability := lit 1 1;
     SRSState.adaptation_penalty := lit 0 1 |}.

(** [clock i] is what [datetime.utcnow()] returns in round [i] of the
    loop.  The column [card_id] of the scheduling records is unique: the
    final [db.flush()] fails when a card of the list has a record already or
    comes twice.  The model has no such failure; the properties of this
    function are stated for lists the column admits ([admissible]). *)
Definition _step_init_srs (cards : list Card.t) (user_id : Z) (clock : nat -> Dt.datetime)
    : M unit :=
  for_each (indexed cards) (fun round =>
    let card := snd round in
    do db <- get;
    let srs := new_srs_state (next_id (SRSState.id <$> srs_states db)) (Card.id card)
                 user_id (clock (fst round)) in
    put (Adaptation.set_srs_states (srs_states db ++ [srs]) db)).

(** The cards are distinct and none of them has a scheduling record. *)
Definition admissible (cards : list Card.t) (db : Db) : Prop :=
  NoDup (Card.id <$> cards)
  /\ Forall (fun s => SRSState.card_id s ∉ Card.id <$> cards) (srs_states db).

End Pipeline.

(* ===================================================================== *)
(** * Vocabulary of the properties of the review service *)
(* ===================================================================== *)

Module ReviewSpec.

Import Srs SrsSpec Adaptation Review.

(** The rating [submit_review] works with. *)
Definition clamp_quality (quality : Z) : Z := Z.max 0 (Z.min 5 quality).

(** The scheduling record [submit_review] looks up, with its row number. *)
Definition find_srs (user_id card_id : Z) (db : Db) : option (nat * SRSState.t) :=
  list_find (fun s => SRSState.card_id s = card_id /\ SRSState.user_id s = user_id)
    (srs_states db).

(** A penalty between 0 and 1. *)
Definition penalty_in_range (p : float) : Prop := fle (Fin 0) p /\ fle p (lit 1 1).

(** [s'] is [s], or [s] with another penalty between 0 and 1. *)
Definition penalised (s s' : SRSState.t) : Prop :=
  s' = s \/ exists p, penalty_in_range p /\ s' = with_penalty p s.

(** The tables the detector reads are the same in [db'] and [db], and the
    scheduling records are the same but for penalties. *)
Definition only_penalties (db db' : Db) : Prop :=
  cards db' = cards db
  /\ exercises db' = exercises db
  /\ exercise_submissions db' = exercise_submissions db
  /\ review_logs db' = review_logs db
  /\ Forall2 penalised (srs_states db) (srs_states db').

(** A scheduling record the scheduler accepts: a non-negative interval, an
    ease factor within its bounds and a penalty between 0 and 1. *)
Definition sane (s : SRSState.t) : Prop :=
  0 <= SRSState.interval s
  /\ ease_in_range (SRSState.ease_factor s)
  /\ penalty_in_range (SRSState.adaptation_penalty s).

(** The card has not left the learning steps. *)
Definition in_learning (s : SRSState.t) : Prop :=
  SRSState.state s = NEW \/ SRSState.state s = LEARNING.

(** The log row of a review with result [r] of the record [srs]: the
    fields [submit_review] sets, and the date the database gives the row. *)
Definition review_log (db : Db) (user_id card_id quality : Z) (response_time_ms : option Z)
    (srs : SRSState.t) (r : ReviewResult) (clock : Clock) : ReviewLog.t :=
  {| ReviewLog.id := next_id (ReviewLog.id <$> review_logs db);
     ReviewLog.card_id := card_id;
     ReviewLog.user_id := user_id;
     ReviewLog.quality := clamp_quality quality;
     ReviewLog.response_time_ms := response_time_ms;
     ReviewLog.was_correct := was_correct r;
     ReviewLog.srs_state_before := snapshot srs;
     ReviewLog.srs_state_after := snapshot (apply_result srs r (reviewed_now clock));
     ReviewLog.reviewed_at := log_stamp clock |}.

(** The store after the updates of [submit_review], before the detector
    runs. *)
Definition reviewed_store (db : Db) (i : nat) (user_id card_id quality : Z)
    (response_time_ms : option Z) (srs : SRSState.t) (r : ReviewResult)
    (clock : Clock) : Db :=
  add_review_log (review_log db user_id card_id quality response_time_ms srs r clock)
    (set_srs_states (<[i := apply_result srs r (reviewed_now clock)]> (srs_states db)) db).

(** A store with nothing in it. *)
Definition empty_db : Db :=
  {| cards := [];
     srs_states := [];
     exercises := [];
     exercise_submissions := [];
     review_logs := [];
     error_patterns := [] |}.

(** A store with one card and its record, as the pipeline leaves them. *)
Definition one_card_db : Db :=
  {| cards := [ {| Card.id := 1; Card.card_type := VOCAB |} ];
     srs_states := [example_card];
     exercises := [];
     exercise_submissions := [];
     review_logs := [];
     error_patterns := [] |}.

End ReviewSpec.

(* ===================================================================== *)
(** * Vocabulary of the properties of the detector *)
(* ===================================================================== *)

Module DetectorSpec.

Import Adaptation.

(** The reviews of cards of one type among [reviews], and the wrong ones
    among them, as the analyses filter them. *)
Definition reviews_of_type (t : CardType) (reviews : list ReviewLog.t) (db : Db)
    : list ReviewLog.t :=
  filter (fun r => _get_card_type (ReviewLog.card_id r) db = Some t) reviews.

Definition errors_of_type (t : CardType) (reviews : list ReviewLog.t) (db : Db)
    : list ReviewLog.t :=
  filter (fun r => _get_card_type (ReviewLog.card_id r) db = Some t
                   /\ ReviewLog.was_correct r = false) reviews.

(** The submissions to build-sentence exercises, and the wrong ones. *)
Definition build_sentence_submissions (submissions : list ExerciseSubmission.t) (db : Db)
    : list ExerciseSubmission.t :=
  filter (fun s => _get_exercise_type (ExerciseSubmission.exercise_id s) db
                   = Some BUILD_SENTENCE) submissions.

Definition build_sentence_errors (submissions : list ExerciseSubmission.t) (db : Db)
    : list ExerciseSubmission.t :=
  filter (fun s => _get_exercise_type (ExerciseSubmission.exercise_id s) db
                   = Some BUILD_SENTENCE
                   /\ ExerciseSubmission.is_correct s = false) submissions.

(** What a detection returns: one active pattern of the learner and type,
    which is a row of the table afterwards. *)
Definition detected (t : PatternType) (user_id : Z) (out : res (list ErrorPattern.t) * Db)
    : Prop :=
  exists pattern i,
    fst out = Ok [pattern]
    /\ error_patterns (snd out) !! i = Some pattern
    /\ ErrorPattern.pattern_type pattern = t
    /\ ErrorPattern.user_id pattern = user_id
    /\ ErrorPattern.is_active pattern = true.

(** The record of a listed card gets the penalty. *)
Definition penalise_cards (card_ids : list Z) (p : float) (s : SRSState.t) : SRSState.t :=
  if decide (SRSState.card_id s ∈ card_ids) then with_penalty p s else s.

(** The recent reviews that touch the cards of a pattern, and the test of
    the resolution pass on their counts: at least 5 of them, fewer than one
    in five wrong. *)
Definition pattern_reviews (recent_reviews : list ReviewLog.t) (pattern : ErrorPattern.t)
    : list ReviewLog.t :=
  filter (fun r => ReviewLog.card_id r ∈ default [] (ErrorPattern.items_affected pattern))
    recent_reviews.

Definition recovered (recent_reviews : list ReviewLog.t) (pattern : ErrorPattern.t) : bool :=
  (MIN_REVIEWS_FOR_ANALYSIS <=? len (pattern_reviews recent_reviews pattern))
  && (5 * len (filter (fun r => ReviewLog.was_correct r = false)
                 (pattern_reviews recent_reviews pattern))
      <? len (pattern_reviews recent_reviews pattern)).

(** The rows the resolution pass deactivates: the active patterns of the
    learner that have recovered. *)
Definition resolved_by (user_id : Z) (recent_reviews : list ReviewLog.t)
    (pattern : ErrorPattern.t) : bool :=
  bool_decide (ErrorPattern.user_id pattern = user_id)
  && ErrorPattern.is_active pattern
  && recovered recent_reviews pattern.

(** The severity and count of a pattern row are within their bounds. *)
Definition pattern_ok (p : ErrorPattern.t) : Prop :=
  fle (lit 2 10) (ErrorPattern.severity p)
  /\ fle (ErrorPattern.severity p) (lit 1 1)
  /\ 1 <= ErrorPattern.count p.

(** A learner has at most one active pattern of a type. *)
Definition one_active_per_type (patterns : list ErrorPattern.t) : Prop :=
  forall i j p q,
    patterns !! i = Some p -> patterns !! j = Some q ->
    ErrorPattern.is_active p = true -> ErrorPattern.is_active q = true ->
    ErrorPattern.user_id p = ErrorPattern.user_id q ->
    ErrorPattern.pattern_type p = ErrorPattern.pattern_type q ->
    i = j.

End DetectorSpec.

(* ===================================================================== *)
(** * app/domain/adaptation.py: what the progress screen reads *)
(* ===================================================================== *)

Module AdaptationReport.

Import Srs Adaptation.

(** [db.query(ErrorPattern).filter(user_id == ...).filter(is_active == True).all()],
    in row order. *)
Definition query_active_patterns (user_id : Z) (db : Db) : list ErrorPattern.t :=
  filter (fun p => ErrorPattern.user_id p = user_id /\ ErrorPattern.is_active p = true)
    (error_patterns db).

(** [.order_by(ErrorPattern.severity.desc())]: the rows by falling severity.
    The database leaves the order of rows of equal severity open; here they
    keep their row order. *)
Fixpoint insert_desc (p : ErrorPattern.t) (l : list ErrorPattern.t) : list ErrorPattern.t :=
  match l with
  | [] => [p]
  | q :: r =>
      if fltb (ErrorPattern.severity p) (ErrorPattern.severity q)
      then q :: insert_desc p r
      else p :: q :: r
  end.

Definition order_by_severity_desc (l : list ErrorPattern.t) : list ErrorPattern.t :=
  foldr insert_desc [] l.

(** The dict [pattern_to_exercise] with its [.get]. *)
Definition pattern_to_exercise (t : PatternType) : option ExerciseType :=
  match t with
  | VOCAB_WEAKNESS => Some TRANSLATION
  | GRAMMAR_CONFUSION => Some FILL_BLANK
  | STRUCTURE_CONFUSION => Some BUILD_SENTENCE
  end.

Definition get_recommended_exercise_type (user_id : Z) (db : Db) : option ExerciseType :=
  let active_patterns := order_by_severity_desc (query_active_patterns user_id db) in
  match active_patterns with
  | [] => None
  | top_pattern :: _ => pattern_to_exercise (ErrorPattern.pattern_type top_pattern)
  end.

(** [sum] over floats as a fold from the left, as CPython computes it up to
    version 3.11. *)
Definition sum_left (l : list float) : float := foldl fadd (Fin 0) l.

(** One entry of the list ["active_patterns"] of the summary; [last_seen]
    stands for the ISO text of the instant. *)
Record PatternView : Type := mkPatternView {
  view_type : PatternType;
  view_description : Description;
  view_severity : float;
  view_count : Z;
  view_last_seen : option Dt.datetime
}.

Record AdaptationSummary : Type := mkAdaptationSummary {
  active_patterns : list PatternView;
  recommended_exercise_type : option ExerciseType;
  daily_new_cards_limit : Z;
  has_active_weaknesses : bool
}.

Section Sum.

(** The builtin [sum] on a list of floats.  CPython changed how it adds
    floats in version 3.12 (a compensated sum instead of the fold from the
    left), so the functions that call it are modelled over any [sum]. *)
Variable fsum : list float -> float.

Definition get_daily_new_cards_limit (user_id : Z) (db : Db) (default : Z) : res Z :=
  let active_patterns := query_active_patterns user_id db in
  match active_patterns with
  | [] => Ok default
  | _ =>
      let* n := of_int (len active_patterns) in
      let* avg_severity := fdiv (fsum (ErrorPattern.severity <$> active_patterns)) n in
      let reduction := fadd (lit 4 10) (fmul (fsub (lit 1 1) avg_severity) (lit 6 10)) in
      let* scaled := int_mul_float default reduction in
      let* rounded := py_round scaled in
      Ok (Z.max 3 rounded)
  end.

Definition get_adaptation_summary (user_id : Z) (db : Db) : res AdaptationSummary :=
  let patterns := query_active_patterns user_id db in
  let recommended_exercise := get_recommended_exercise_type user_id db in
  let* daily_limit := get_daily_new_cards_limit user_id db 10 in
  Ok {| active_patterns :=
          (fun p => {| view_type := ErrorPattern.pattern_type p;
                       view_description := ErrorPattern.description p;
                       view_severity := ErrorPattern.severity p;
                       view_count := ErrorPattern.count p;
                       view_last_seen := Some (ErrorPattern.last_seen_at p) |})
            <$> patterns;
        recommended_exercise_type := recommended_exercise;
        daily_new_cards_limit := daily_limit;
        has_active_weaknesses := 0 <? len patterns |}.

End Sum.

(** The sums the bounds below hold for: of [n] floats between 0 and 1 the
    sum lies between 0 and [n]. *)
Definition sum_in_range (fsum : list float -> float) : Prop :=
  forall l,
    len l <= 2 ^ 53 ->
    Forall (fun x => fle (Fin 0) x /\ fle x (lit 1 1)) l ->
    fle (Fin 0) (fsum l) /\ fle (fsum l) (Fin (len l * U)).

(** The severities of the rows are between 0 and 1. *)
Definition severities_in_range (patterns : list ErrorPattern.t) : Prop :=
  Forall (fun p => fle (Fin 0) (ErrorPattern.severity p)
                   /\ fle (ErrorPattern.severity p) (lit 1 1)) patterns.

End AdaptationReport.

(* ===================================================================== *)
(** * Vocabulary of the properties of the answer evaluator *)
(* ===================================================================== *)

Module EvaluatorSpec.

Import Str Exercise.

(** A verdict is well formed: the score is between 0 and 1; a correct
    verdict scores at least 0.85 and names no error category, an incorrect
    one names a category. *)
Definition verdict_ok (ev : AnswerEvaluation) : Prop :=
  fle (Fin 0) (score ev)
  /\ fle (score ev) (lit 1 1)
  /\ (is_correct ev = true -> fle (lit 85 100) (score ev) /\ error_category ev = None)
  /\ (is_correct ev = false -> error_category ev <> None).

(** The verdict on a blank answer. *)
Definition blank_verdict : AnswerEvaluation :=
  {| is_correct := false;
     score := lit 0 1;
     feedback := Resposta_em_branco;
     error_category := Some "empty"%string |}.

(** Two texts use the same characters. *)
Definition same_chars (s1 s2 : str) : Prop := forall c, c ∈ s1 <-> c ∈ s2.

End EvaluatorSpec.

(* ===================================================================== *)
(** * app/services/exercise.py: exercises made without the API *)
(* ===================================================================== *)

Module Generator.

Import Str Exercise.

Definition OPEN_PAREN : char := 40.
Definition CLOSE_PAREN : char := 41.
Definition IDEOGRAPHIC_FULL_STOP : char := 12290.
Definition IDEOGRAPHIC_COMMA : char := 12289.

(** The characters up to the first [)], when there is one. *)
Fixpoint until_close (s : str) : option str :=
  match s with
  | [] => None
  | c :: r => if c =? CLOSE_PAREN then Some [] else cons c <$> until_close r
  end.

(** [re.search(r"\(([^)]+)\)", s)] with its [group(1)]: the text between
    the first [(] that is followed by at least one character other than [)]
    and then by a [)]. *)
Fixpoint search_parens (s : str) : option str :=
  match s with
  | [] => None
  | c :: r =>
      if c =? OPEN_PAREN then
        match until_close r with
        | Some (x :: xs) => Some (x :: xs)
        | _ => search_parens r
        end
      else search_parens r
  end.

Definition _extract_translation (back : str) : str :=
  match search_parens back with
  | Some group => group
  | None =>
      match split_on NEWLINE back with
      | first :: _ => strip first
      | [] => []
      end
  end.

(** [s.replace(old, new, 1)]: the first occurrence is replaced; an empty
    [old] occurs at the start. *)
Fixpoint replace_first (s old new : str) : str :=
  if startswith s old then new ++ drop (length old) s
  else match s with
       | [] => []
       | c :: r => c :: replace_first r old new
       end.

(** [s.replace(c, new)] for a one-character [c]: every occurrence. *)
Definition replace_char (c : char) (new : str) (s : str) : str :=
  flat_map (fun x => if x =? c then new else [x]) s.

(** [sep.join(pieces)]. *)
Fixpoint join (sep : str) (pieces : list str) : str :=
  match pieces with
  | [] => []
  | [p] => p
  | p :: r => p ++ sep ++ join sep r
  end.

(** The prompts and context texts; a constructor stands for one f-string or
    literal and carries the texts it interpolates.  [Texto] is a prompt
    that is a computed text. *)
Inductive Prompt : Type :=
| Como_se_diz_em (target_language translation : str)
| Significa_em (translation target_language : str)
| Escreva_a_palavra_que_significa (translation : str)
| Texto (text : str).

Inductive ContextText : Type :=
| Dica (back : str)
| Complete_a_lacuna
| Preencha_com_a_palavra_correta
| Organize_as_palavras (content : str)
| Digite_a_resposta_correta.

Record GeneratedExercise : Type := mkGeneratedExercise {
  exercise_type : ExerciseType;
  prompt : Prompt;
  expected_answer : str;
  context : option ContextText;
  options : option (list str)
}.

Record ExerciseGenerationResult : Type := mkExerciseGenerationResult {
  success : bool;
  exercises : list GeneratedExercise;
  error : option str
}.

Definition _default_build_sentence (content back : str) : GeneratedExercise :=
  {| exercise_type := BUILD_SENTENCE;
     prompt := Escreva_a_palavra_que_significa (_extract_translation back);
     expected_answer := content;
     context := Some Digite_a_resposta_correta;
     options := None |}.

Definition BLANK : str := [95; 95; 95].
Definition SLASH_SEPARATOR : str := [32; 47; 32].

Section Shuffle.

(** What [random.shuffle] does to a list at the time of the call. *)
Variable shuffle : list str -> list str.

Definition _shuffle_words (words : list str) (anchor : str) : list str :=
  let shuffled := words in
  shuffle shuffled.

Definition _generate_exercises_locally (content back card_type context_sentence
    target_language native_language : str) : ExerciseGenerationResult :=
  let exercises := [] in
  let exercises :=
    exercises ++ [ {| exercise_type := TRANSLATION;
                      prompt := Como_se_diz_em target_language (_extract_translation back);
                      expected_answer := content;
                      context := Some (Dica back);
                      options := None |} ] in
  let exercises :=
    if negb (bool_decide (context_sentence = [])) && contains context_sentence content then
      let blanked := replace_first context_sentence content BLANK in
      exercises ++ [ {| exercise_type := FILL_BLANK;
                        prompt := Texto blanked;
                        expected_answer := content;
                        context := Some Complete_a_lacuna;
                        options := None |} ]
    else
      exercises ++ [ {| exercise_type := FILL_BLANK;
                        prompt := Significa_em (_extract_translation back) target_language;
                        expected_answer := content;
                        context := Some Preencha_com_a_palavra_correta;
                        options := None |} ] in
  let exercises :=
    if negb (bool_decide (context_sentence = [])) then
      let words :=
        split (replace_char IDEOGRAPHIC_COMMA [SPACE; IDEOGRAPHIC_COMMA]
                 (replace_char IDEOGRAPHIC_FULL_STOP [SPACE; IDEOGRAPHIC_FULL_STOP]
                    context_sentence)) in
      if 2 <? len words then
        let shuffled := _shuffle_words words content in
        exercises ++ [ {| exercise_type := BUILD_SENTENCE;
                          prompt := Texto (join SLASH_SEPARATOR shuffled);
                          expected_answer := context_sentence;
                          context := Some (Organize_as_palavras content);
                          options := None |} ]
      else exercises ++ [_default_build_sentence content back]
    else exercises ++ [_default_build_sentence content back] in
  {| success := true; exercises := exercises; error := None |}.

End Shuffle.

(** The verdict on an exact answer. *)
Definition perfect_verdict : AnswerEvaluation :=
  {| is_correct := true;
     score := lit 1 1;
     feedback := Perfeito;
     error_category := None |}.

(** [old] occurs in [s] at the end of [pre] and nowhere before. *)
Definition first_occurrence (s old pre post : str) : Prop :=
  s = pre ++ old ++ post
  /\ forall pre' post', s = pre' ++ old ++ post' -> (length pre <= length pre')%nat.

End Generator.

(* ===================================================================== *)
(** * app/services/review.py: the review queue *)
(* ===================================================================== *)

(** [get_due_cards] chooses the scheduling records to show, orders them by
    urgency and cuts the list at [limit]; then it renders each record of
    that list whose card exists, in the same order.  The rendering reads
    text columns and tables that are not part of [Db]; this module embeds
    the part before it: the list [due_states[:limit]] the rendering loop
    walks. *)
Module ReviewQueue.

Import Srs Adaptation.

(** [SRSState.due_date <= now]; a record without a due date does not pass
    the comparison. *)
Definition is_due (now : Dt.datetime) (s : SRSState.t) : bool :=
  match SRSState.due_date s with
  | Some due => due <=? now
  | None => false
  end.

(** The first query: the records of the learner that are due, without the
    NEW ones unless [include_new]. *)
Definition query_due_states (user_id : Z) (include_new : bool) (now : Dt.datetime) (db : Db)
    : list SRSState.t :=
  filter (fun s => SRSState.user_id s = user_id
                   /\ is_due now s = true
                   /\ (include_new = true \/ SRSState.state s <> NEW))
    (srs_states db).

(** The second query: the NEW records of the learner, [.limit(10)]; the
    database leaves open which ten, here the first ten rows. *)
Definition query_new_states (user_id : Z) (db : Db) : list SRSState.t :=
  take 10 (filter (fun s => SRSState.user_id s = user_id /\ SRSState.state s = NEW)
             (srs_states db)).

(** The loop that appends the NEW records not yet in the list. *)
Definition add_new_states (due_states new_states : list SRSState.t) : list SRSState.t :=
  let all_ids : gset Z := list_to_set (SRSState.id <$> due_states) in
  foldl (fun due_states s =>
           if decide (SRSState.id s ∈ all_ids) then due_states else due_states ++ [s])
    due_states new_states.

(** The keys of [list.sort]: computed for every element before the sort; a
    key that raises ends the call. *)
Fixpoint sort_keys (now : Dt.datetime) (l : list SRSState.t)
    : res (list (float * SRSState.t)) :=
  match l with
  | [] => Ok []
  | s :: r =>
      let* key := get_card_urgency_score (SRSState.due_date s) (SRSState.state s)
                    (SRSState.lapses s) now in
      let* keyed := sort_keys now r in
      Ok ((key, s) :: keyed)
  end.

(** [list.sort(key=..., reverse=True)]: by falling key, elements of equal
    key in their former order. *)
Fixpoint insert_by_key {A : Type} (x : float * A) (l : list (float * A))
    : list (float * A) :=
  match l with
  | [] => [x]
  | y :: r => if fltb (fst x) (fst y) then y :: insert_by_key x r else x :: y :: r
  end.

Definition sort_reverse {A : Type} (l : list (float * A)) : list (float * A) :=
  foldr insert_by_key [] l.

(** [l[:limit]]: a negative [limit] counts from the end. *)
Definition slice_to {A : Type} (limit : Z) (l : list A) : list A :=
  if 0 <=? limit then take (Z.to_nat limit) l
  else take (Z.to_nat (len l + limit)) l.

(** The records chosen before the sort. *)
Definition chosen (user_id : Z) (include_new : bool) (now : Dt.datetime) (db : Db)
    : list SRSState.t :=
  let due_states := query_due_states user_id include_new now db in
  if include_new then add_new_states due_states (query_new_states user_id db)
  else due_states.

(** The list [due_states[:limit]] of [get_due_cards]. *)
Definition get_due_cards_states (user_id : Z) (limit : Z) (include_new : bool)
    (now : Dt.datetime) (db : Db) : res (list SRSState.t) :=
  let due_states := query_due_states user_id include_new now db in
  let due_states :=
    if include_new then add_new_states due_states (query_new_states user_id db)
    else due_states in
  let* keyed := sort_keys now due_states in
  let due_states := snd <$> sort_reverse keyed in
  Ok (slice_to limit due_states).

(** The urgency score of a record at [now]. *)
Definition urgency (now : Dt.datetime) (s : SRSState.t) : res float :=
  get_card_urgency_score (SRSState.due_date s) (SRSState.state s) (SRSState.lapses s) now.

(** A list of keyed elements by falling key. *)
Fixpoint falling {A : Type} (l : list (float * A)) : Prop :=
  match l with
  | [] => True
  | x :: r => Forall (fun y => fle (fst y) (fst x)) r /\ falling r
  end.

End ReviewQueue.

(* ===================================================================== *)
(** * More example stores *)
(* ===================================================================== *)

(** A record with the given key, card, learner, state, due date and
    lapses, the other fields as in a record that has been reviewed. *)
Definition example_record (id card_id user_id : Z) (state : SRSCardState)
    (due_date : option Dt.datetime) (lapses : Z) : SRSState.t :=
  {| SRSState.id := id;
     SRSState.card_id := card_id;
     SRSState.user_id := user_id;
     SRSState.interval := 6;
     SRSState.ease_factor := EASE_FACTOR_DEFAULT;
     SRSState.repetitions := 2;
     SRSState.lapses := lapses;
     SRSState.state := state;
     SRSState.due_date := due_date;
     SRSState.last_reviewed_at := None;
     SRSState.stability := lit 1 1;
     SRSState.adaptation_penalty := lit 0 1 |}.

(** A record of learner 1 that is due tomorrow, one that is two days
    overdue and has a lapse, an overdue record of learner 2, and a new
    record without a due date. *)
Definition tomorrow_record : SRSState.t :=
  example_record 2 2 1 REVIEW (Some (example_now + Dt.US_PER_DAY)) 0.

Definition overdue_record : SRSState.t :=
  example_record 3 3 1 REVIEW (Some (example_now - 2 * Dt.US_PER_DAY)) 1.

Definition other_learner_record : SRSState.t :=
  example_record 4 4 2 REVIEW (Some (example_now - Dt.US_PER_DAY)) 0.

Definition undated_record : SRSState.t := example_record 5 5 1 NEW None 0.

(** A grammar pattern of learner 1 on card 2, detected once. *)
Definition example_grammar_pattern : ErrorPattern.t :=
  {| ErrorPattern.id := 2;
     ErrorPattern.user_id := 1;
     ErrorPattern.pattern_type := GRAMMAR_CONFUSION;
     ErrorPattern.description := Confusao_em_estruturas_gramaticais (lit 4 10);
     ErrorPattern.count := 1;
     ErrorPattern.severity := lit 2 10;
     ErrorPattern.items_affected := Some [2];
     ErrorPattern.is_active := true;
     ErrorPattern.first_detected_at := example_now - 3 * Dt.US_PER_DAY;
     ErrorPattern.last_seen_at := example_now - 3 * Dt.US_PER_DAY |}.

(** Learner 1 has a vocabulary card 1 and a grammar card 2, each with its
    record, and an active pattern on each.  In the last week the learner
    failed card 1 five times and answered card 2 correctly five times. *)
Definition mixed_db : Db :=
  {| cards := [ {| Card.id := 1; Card.card_type := VOCAB |};
                {| Card.id := 2; Card.card_type := GRAMMAR |} ];
     srs_states := [example_card; tomorrow_record];
     exercises := [];
     exercise_submissions := [];
     review_logs := [ example_log 1 1 false; example_log 2 1 false; example_log 3 1 false;
                      example_log 4 1 false; example_log 5 1 false;
                      example_log 6 2 true; example_log 7 2 true; example_log 8 2 true;
                      example_log 9 2 true; example_log 10 2 true ];
     error_patterns := [example_pattern; example_grammar_pattern] |}.

(** Five records: the new one that is due now, and the four above. *)
Definition queue_db : Db :=
  {| cards := [];
     srs_states := [ example_card; tomorrow_record; overdue_record; other_learner_record;
                     undated_record ];
     exercises := [];
     exercise_submissions := [];
     review_logs := [];
     error_patterns := [] |}.

(* ===================================================================== *)
(** * Facts about rounding *)
(* ===================================================================== *)

Module F64Facts.

Lemma rhe_nearest n d : 0 < d -> nearest_even n d (rhe n d).
Proof.
  intros Hd. unfold nearest_even, rhe.
  pose proof (Z.div_mod n d ltac:(lia)) as E.
  pose proof (Z.mod_pos_bound n d Hd) as B.
  set (q := n / d) in *. set (r := n mod d) in *.
  destruct (Z.compare_spec (2 * r) d) as [H|H|H].
  - destruct (Z.even q) eqn:Ev.
    + split; [lia | auto].
    + split; [lia |]. intros _. rewrite Z.even_add, Ev. reflexivity.
  - split; lia.
  - split; lia.
Qed.

Lemma nearest_even_unique n d q1 q2 :
  0 < d -> nearest_even n d q1 -> nearest_even n d q2 -> q1 = q2.
Proof.
  intros Hd [A1 E1] [A2 E2].
  assert (H : q1 = q2 \/ q1 = q2 + 1 \/ q2 = q1 + 1) by nia.
  destruct H as [H|[H|H]]; [assumption | |]; exfalso; subst.
  - assert (T1 : 2 * Z.abs (n - (q2 + 1) * d) = d) by nia.
    assert (T2 : 2 * Z.abs (n - q2 * d) = d) by nia.
    specialize (E1 T1). specialize (E2 T2).
    rewrite Z.even_add, E2 in E1. discriminate.
  - assert (T1 : 2 * Z.abs (n - (q1 + 1) * d) = d) by nia.
    assert (T2 : 2 * Z.abs (n - q1 * d) = d) by nia.
    specialize (E1 T2). specialize (E2 T1).
    rewrite Z.even_add, E1 in E2. discriminate.
Qed.

Lemma rhe_unique n d q : 0 < d -> nearest_even n d q -> rhe n d = q.
Proof. intros Hd H. eapply nearest_even_unique; eauto using rhe_nearest. Qed.

Lemma rhe_exact c d : 0 < d -> rhe (c * d) d = c.
Proof.
  intros Hd. apply rhe_unique; [assumption|]. unfold nearest_even. split.
  - replace (c * d - c * d) with 0 by ring. simpl. lia.
  - replace (c * d - c * d) with 0 by ring. simpl. lia.
Qed.

Lemma rhe_scale n d c : 0 < d -> 0 < c -> rhe (n * c) (d * c) = rhe n d.
Proof.
  intros Hd Hc. apply rhe_unique; [nia|].
  destruct (rhe_nearest n d Hd) as [A E]. set (q := rhe n d) in *.
  unfold nearest_even.
  replace (n * c - q * (d * c)) with ((n - q * d) * c) by ring.
  rewrite Z.abs_mul, (Z.abs_eq c) by lia.
  split; [nia|]. intros T. apply E. nia.
Qed.

Lemma rhe_opp n d : 0 < d -> rhe (- n) d = - rhe n d.
Proof.
  intros Hd. apply rhe_unique; [assumption|].
  destruct (rhe_nearest n d Hd) as [A E]. set (q := rhe n d) in *.
  unfold nearest_even.
  replace (- n - - q * d) with (- (n - q * d)) by ring.
  rewrite Z.abs_opp, Z.even_opp. split; assumption.
Qed.

Lemma rhe_mono n1 n2 d : 0 < d -> n1 <= n2 -> rhe n1 d <= rhe n2 d.
Proof.
  intros Hd Hle.
  destruct (rhe_nearest n1 d Hd) as [A1 E1].
  destruct (rhe_nearest n2 d Hd) as [A2 E2].
  set (q1 := rhe n1 d) in *. set (q2 := rhe n2 d) in *.
  destruct (Z_le_gt_dec q1 q2) as [|G]; [assumption|exfalso].
  assert (q1 = q2 + 1) by nia. 
  assert (T1 : 2 * Z.abs (n1 - q1 * d) = d) by nia.
  assert (T2 : 2 * Z.abs (n2 - q2 * d) = d) by nia.
  specialize (E1 T1). specialize (E2 T2).
  replace q1 with (q2 + 1) in E1 by lia.
  rewrite Z.even_add, E2 in E1. discriminate.
Qed.

Lemma rhe_mono_frac n1 d1 n2 d2 :
  0 < d1 -> 0 < d2 -> n1 * d2 <= n2 * d1 -> rhe n1 d1 <= rhe n2 d2.
Proof.
  intros H1 H2 Hle.
  rewrite <- (rhe_scale n1 d1 d2), <- (rhe_scale n2 d2 d1) by assumption.
  rewrite (Z.mul_comm d2 d1). apply rhe_mono; [nia | assumption].
Qed.

Lemma rhe_le_int n d c : 0 < d -> n <= c * d -> rhe n d <= c.
Proof.
  intros Hd H. rewrite <- (rhe_exact c d Hd). apply rhe_mono; assumption.
Qed.

Lemma rhe_ge_int n d c : 0 < d -> c * d <= n -> c <= rhe n d.
Proof.
  intros Hd H. rewrite <- (rhe_exact c d Hd). apply rhe_mono; assumption.
Qed.

Lemma ulp_shift_nonneg n d : 0 <= ulp_shift n d.
Proof. unfold ulp_shift. lia. Qed.

Lemma ulp_shift_opp n d : ulp_shift (- n) d = ulp_shift n d.
Proof. unfold ulp_shift. rewrite Z.abs_opp. reflexivity. Qed.

Lemma rndz_opp n d : 0 < d -> rndz (- n) d = - rndz n d.
Proof.
  intros Hd. unfold rndz. rewrite ulp_shift_opp.
  pose proof (ulp_shift_nonneg n d).
  assert (0 < 2 ^ ulp_shift n d) by (apply Z.pow_pos_nonneg; lia).
  rewrite rhe_opp by nia. ring.
Qed.

Lemma rndz_nonneg n d : 0 < d -> 0 <= n -> 0 <= rndz n d.
Proof.
  intros Hd Hn. unfold rndz.
  pose proof (ulp_shift_nonneg n d).
  assert (0 < 2 ^ ulp_shift n d) by (apply Z.pow_pos_nonneg; lia).
  assert (0 <= rhe n (d * 2 ^ ulp_shift n d)) by (apply rhe_ge_int; nia).
  nia.
Qed.

Lemma floor_mono n1 d1 n2 d2 :
  0 < d1 -> 0 < d2 -> n1 * d2 <= n2 * d1 -> n1 / d1 <= n2 / d2.
Proof.
  intros H1 H2 Hle.
  apply Z.div_le_lower_bound; [assumption|].
  pose proof (Z.mul_div_le n1 d1 H1).
  assert (d1 * (d2 * (n1 / d1)) <= d1 * n2) by nia.
  nia.
Qed.

Lemma rndz_mono_pos n1 d1 n2 d2 :
  0 < d1 -> 0 < d2 -> 0 <= n1 -> n1 * d2 <= n2 * d1 -> rndz n1 d1 <= rndz n2 d2.
Proof.
  intros H1 H2 Hn1 Hle.
  assert (Hn2 : 0 <= n2) by nia.
  unfold rndz, ulp_shift. rewrite !Z.abs_eq by assumption.
  pose proof (floor_mono _ _ _ _ H1 H2 Hle) as Hfl.
  assert (Ha1 : 0 <= n1 / d1) by (apply Z.div_pos; lia).
  set (a1 := n1 / d1) in *. set (a2 := n2 / d2) in *.
  pose proof (Z.log2_le_mono a1 a2 Hfl) as Hlog.
  pose proof (Z.log2_nonneg a1) as L1.
  destruct (Z.eq_dec (Z.max 0 (Z.log2 a1 - 52)) (Z.max 0 (Z.log2 a2 - 52))) as [E|NE].
  - rewrite <- E. set (s := Z.max 0 (Z.log2 a1 - 52)).
    assert (0 < 2 ^ s) by (apply Z.pow_pos_nonneg; lia).
    apply Z.mul_le_mono_nonneg_r; [lia|].
    apply rhe_mono_frac; nia.
  - (* different binades: separate by a power of two *)
    set (e1 := Z.log2 a1) in *. set (e2 := Z.log2 a2) in *.
    assert (He : e1 < e2 /\ 53 <= e2) by lia. destruct He as [He1 He2].
    set (s1 := Z.max 0 (e1 - 52)). set (s2 := Z.max 0 (e2 - 52)).
    assert (Hs2 : s2 = e2 - 52) by lia.
    assert (P1 : 0 < 2 ^ s1) by (apply Z.pow_pos_nonneg; lia).
    assert (P2 : 0 < 2 ^ s2) by (apply Z.pow_pos_nonneg; lia).
    apply Z.le_trans with (2 ^ (e1 + 1)).
    + (* upper bound for the smaller one *)
      assert (Hup : a1 < 2 ^ (e1 + 1)).
      { destruct (Z.eq_dec a1 0) as [Z0|NZ].
        - rewrite Z0. apply Z.pow_pos_nonneg; lia.
        - replace (e1 + 1) with (Z.succ e1) by lia.
          apply Z.log2_spec. lia. }
      assert (Hn : n1 < 2 ^ (e1 + 1) * d1).
      { pose proof (Z.div_mod n1 d1 ltac:(lia)).
        pose proof (Z.mod_pos_bound n1 d1 H1). fold a1 in H. nia. }
      replace (2 ^ (e1 + 1)) with (2 ^ (e1 + 1 - s1) * 2 ^ s1)
        by (rewrite <- Z.pow_add_r by lia; f_equal; lia).
      apply Z.mul_le_mono_nonneg_r; [lia|].
      apply rhe_le_int; [nia|].
      replace (2 ^ (e1 + 1 - s1) * (d1 * 2 ^ s1)) with (2 ^ (e1 + 1 - s1) * 2 ^ s1 * d1) by ring.
      rewrite <- Z.pow_add_r by lia. replace (e1 + 1 - s1 + s1) with (e1 + 1) by lia. lia.
    + apply Z.le_trans with (2 ^ e2).
      * apply Z.pow_le_mono_r; lia.
      * assert (Hlow : 2 ^ e2 <= a2).
        { apply Z.log2_spec. 
          destruct (Z.eq_dec a2 0) as [Z0|NZ]; [|lia].
          exfalso. unfold e2 in He2. rewrite Z0 in He2. simpl in He2. lia. }
        assert (Hn : 2 ^ e2 * d2 <= n2).
        { pose proof (Z.mul_div_le n2 d2 H2). fold a2 in H. nia. }
        replace (2 ^ e2) with (2 ^ 52 * 2 ^ s2)
          by (rewrite <- Z.pow_add_r by lia; f_equal; lia).
        apply Z.mul_le_mono_nonneg_r; [lia|].
        apply rhe_ge_int; [nia|].
        replace (2 ^ 52 * (d2 * 2 ^ s2)) with (2 ^ 52 * 2 ^ s2 * d2) by ring.
        rewrite <- Z.pow_add_r by lia. replace (52 + s2) with e2 by lia. lia.
Qed.

Lemma rndz_mono n1 d1 n2 d2 :
  0 < d1 -> 0 < d2 -> n1 * d2 <= n2 * d1 -> rndz n1 d1 <= rndz n2 d2.
Proof.
  intros H1 H2 Hle.
  destruct (Z_le_gt_dec 0 n1) as [P|N].
  - apply rndz_mono_pos; assumption.
  - destruct (Z_le_gt_dec 0 n2) as [P2|N2].
    + apply Z.le_trans with 0.
      * pose proof (rndz_nonneg (- n1) d1 H1 ltac:(lia)) as K.
        rewrite rndz_opp in K by assumption. lia.
      * apply rndz_nonneg; assumption.
    + pose proof (rndz_mono_pos (- n2) d2 (- n1) d1 H2 H1 ltac:(lia) ltac:(nia)) as K.
      rewrite !rndz_opp in K by assumption. lia.
Qed.

(** ** Rounding to binary64 *)

Lemma U_pos : 0 < U.
Proof. unfold U. apply Z.pow_pos_nonneg; lia. Qed.

Lemma OVF_pos : 0 < OVF.
Proof. unfold OVF. apply Z.pow_pos_nonneg; lia. Qed.

Lemma rnd_cases n d :
  (rnd n d = PInf /\ OVF <= rndz n d)
  \/ (rnd n d = NInf /\ rndz n d <= - OVF)
  \/ (rnd n d = Fin (rndz n d) /\ - OVF < rndz n d < OVF).
Proof.
  unfold rnd. pose proof OVF_pos.
  destruct (Z.leb_spec OVF (rndz n d)); [left; split; [reflexivity | lia] |].
  destruct (Z.leb_spec (rndz n d) (- OVF)); [right; left; split; [reflexivity | lia] |].
  right; right. split; [reflexivity | lia].
Qed.

Lemma rnd_not_nan n d : rnd n d <> NaN.
Proof. destruct (rnd_cases n d) as [[E _]|[[E _]|[E _]]]; rewrite E; discriminate. Qed.

Lemma fleb_Fin a b : fleb (Fin a) (Fin b) = (a <=? b).
Proof.
  unfold fleb, fltb, feqb.
  destruct (Z.ltb_spec a b), (Z.eqb_spec a b), (Z.leb_spec a b); simpl; try reflexivity; lia.
Qed.

Lemma fle_Fin a b : fle (Fin a) (Fin b) <-> a <= b.
Proof. unfold fle. rewrite fleb_Fin. apply Z.leb_le. Qed.

Lemma fltb_Fin a b : fltb (Fin a) (Fin b) = (a <? b).
Proof. reflexivity. Qed.

Lemma fle_PInf x : x <> NaN -> fle x PInf.
Proof. destruct x; intros H; try reflexivity. congruence. Qed.

Lemma fle_NInf x : x <> NaN -> fle NInf x.
Proof. destruct x; intros H; try reflexivity. congruence. Qed.

Lemma fle_not_nan_l x y : fle x y -> x <> NaN.
Proof. destruct x, y; intros H; try discriminate H; discriminate. Qed.

Lemma fle_not_nan_r x y : fle x y -> y <> NaN.
Proof. destruct x, y; intros H; try discriminate H; discriminate. Qed.

Lemma fle_refl x : x <> NaN -> fle x x.
Proof. destruct x; intros H; try reflexivity; [apply fle_Fin; lia | congruence]. Qed.

Lemma fle_trans x y z : fle x y -> fle y z -> fle x z.
Proof.
  destruct x as [a| | |], y as [b| | |], z as [c| | |]; intros H1 H2;
    try discriminate H1; try discriminate H2; try reflexivity.
  apply fle_Fin in H1, H2. apply fle_Fin. lia.
Qed.

(** A float between two finite floats is finite. *)
Lemma fle_between a b x :
  fle (Fin a) x -> fle x (Fin b) -> exists k, x = Fin k /\ a <= k <= b.
Proof.
  destruct x as [k| | |]; intros H1 H2; try discriminate H1; try discriminate H2.
  apply fle_Fin in H1, H2. exists k. split; [reflexivity | lia].
Qed.

(** Rounding is monotone: the nearest float of a smaller rational is not
    above the nearest float of a larger one. *)
Lemma rnd_mono n1 d1 n2 d2 :
  0 < d1 -> 0 < d2 -> n1 * d2 <= n2 * d1 -> fle (rnd n1 d1) (rnd n2 d2).
Proof.
  intros H1 H2 Hle.
  pose proof (rndz_mono n1 d1 n2 d2 H1 H2 Hle) as Hm.
  pose proof OVF_pos.
  destruct (rnd_cases n1 d1) as [[E1 B1]|[[E1 B1]|[E1 B1]]];
    destruct (rnd_cases n2 d2) as [[E2 B2]|[[E2 B2]|[E2 B2]]];
    rewrite E1, E2; try reflexivity; try lia.
  apply fle_Fin. assumption.
Qed.

(** A rational that is not above a representable float rounds to a float
    that is not above it, and likewise from below. *)
Lemma rnd_le_repr c n d :
  rnd c 1 = Fin c -> 0 < d -> n <= c * d -> fle (rnd n d) (Fin c).
Proof. intros Hc Hd Hle. rewrite <- Hc. apply rnd_mono; lia. Qed.

Lemma rnd_ge_repr c n d :
  rnd c 1 = Fin c -> 0 < d -> c * d <= n -> fle (Fin c) (rnd n d).
Proof. intros Hc Hd Hle. rewrite <- Hc. apply rnd_mono; lia. Qed.

Lemma rnd_zero : rnd 0 1 = Fin 0.
Proof. vm_compute. reflexivity. Qed.

Lemma rnd_one : rnd U 1 = Fin U.
Proof. vm_compute. reflexivity. Qed.

Lemma lit_zero : lit 0 1 = Fin 0.
Proof. vm_compute. reflexivity. Qed.

Lemma lit_one : lit 1 1 = Fin U.
Proof. vm_compute. reflexivity. Qed.

(** Rounding keeps the sign. *)
Lemma rnd_nonneg n d : 0 < d -> 0 <= n -> fle (Fin 0) (rnd n d).
Proof. intros Hd Hn. apply rnd_ge_repr; [apply rnd_zero | assumption | lia]. Qed.

Lemma rnd_nonpos n d : 0 < d -> n <= 0 -> fle (rnd n d) (Fin 0).
Proof. intros Hd Hn. apply rnd_le_repr; [apply rnd_zero | assumption | lia]. Qed.

(** Integers up to [2^53] are floats: converting them is exact. *)
Lemma rnd_int_exact z : 1 <= z <= 2 ^ 53 -> rnd (z * U) 1 = Fin (z * U).
Proof.
  intros Hz.
  assert (HU : U = 2 ^ 1074) by reflexivity.
  assert (Hlog : Z.log2 (z * U) = 1074 + Z.log2 z).
  { rewrite HU. apply Z.log2_mul_pow2; lia. }
  assert (Hl0 : 0 <= Z.log2 z) by apply Z.log2_nonneg.
  assert (Hl53 : Z.log2 z <= 53).
  { replace 53 with (Z.log2 (2 ^ 53)) by (rewrite Z.log2_pow2; lia).
    apply Z.log2_le_mono. lia. }
  assert (Hrz : rndz (z * U) 1 = z * U).
  { unfold rndz, ulp_shift.
    rewrite Z.abs_eq by (pose proof U_pos; nia).
    rewrite Z.div_1_r, Hlog.
    replace (Z.max 0 (1074 + Z.log2 z - 52)) with (1022 + Z.log2 z) by lia.
    set (s := 1022 + Z.log2 z).
    assert (Hs : 0 < 2 ^ s) by (apply Z.pow_pos_nonneg; lia).
    destruct (Z.eq_dec (Z.log2 z) 53) as [E53|N53].
    - assert (z = 2 ^ 53).
      { pose proof (Z.log2_spec z ltac:(lia)) as [L _]. rewrite E53 in L. lia. }
      subst z. rewrite HU, <- Z.pow_add_r by lia.
      replace (53 + 1074) with (52 + s) by lia.
      rewrite Z.pow_add_r by lia. rewrite Z.mul_1_l.
      rewrite rhe_exact by assumption. reflexivity.
    - replace (z * U) with (z * 2 ^ (1074 - s) * 2 ^ s).
      + rewrite Z.mul_1_l. rewrite rhe_exact by assumption. reflexivity.
      + rewrite <- Z.mul_assoc, <- Z.pow_add_r by lia.
        rewrite HU. do 2 f_equal. lia. }
  destruct (rnd_cases (z * U) 1) as [[E B]|[[E B]|[E B]]]; rewrite Hrz in *.
  - exfalso. assert (z * U <= 2 ^ 53 * U) by (pose proof U_pos; nia).
    assert (2 ^ 53 * U < OVF) by (vm_compute; reflexivity). lia.
  - exfalso. pose proof U_pos. pose proof OVF_pos. nia.
  - assumption.
Qed.

Lemma lit_int z : 1 <= z <= 2 ^ 53 -> lit z 1 = Fin (z * U).
Proof. intros Hz. unfold lit. apply rnd_int_exact. exact Hz. Qed.

Lemma of_int_exact z : 0 <= z <= 2 ^ 53 -> of_int z = Ok (Fin (z * U)).
Proof.
  intros Hz. unfold of_int.
  destruct (Z.eq_dec z 0) as [->|NZ].
  - rewrite Z.mul_0_l, rnd_zero. reflexivity.
  - rewrite rnd_int_exact by lia. reflexivity.
Qed.

Lemma rnd_bounded n d :
  0 < d -> Z.abs n <= INT_BOUND * U * d -> exists k, rnd n d = Fin k.
Proof.
  intros Hd Hn.
  assert (Hr : rnd (INT_BOUND * U) 1 = Fin (INT_BOUND * U)) by (vm_compute; reflexivity).
  assert (Hl : rnd (- (INT_BOUND * U)) 1 = Fin (- (INT_BOUND * U))) by (vm_compute; reflexivity).
  pose proof (rnd_le_repr _ n d Hr Hd ltac:(lia)) as Hup.
  pose proof (rnd_ge_repr _ n d Hl Hd ltac:(lia)) as Hlo.
  destruct (fle_between _ _ _ Hlo Hup) as (k & E & _). exists k. exact E.
Qed.

Lemma of_int_total z : Z.abs z <= INT_BOUND -> exists k, of_int z = Ok (Fin k).
Proof.
  intros Hz. unfold of_int.
  destruct (rnd_bounded (z * U) 1 ltac:(lia)) as [k E].
  - pose proof U_pos. rewrite Z.abs_mul, (Z.abs_eq U) by lia. nia.
  - exists k. rewrite E. reflexivity.
Qed.

Lemma int_truediv_total a b :
  b <> 0 -> Z.abs a <= INT_BOUND -> exists k, int_truediv a b = Ok (Fin k).
Proof.
  intros Hb Ha. unfold int_truediv.
  destruct (Z.eqb_spec b 0) as [|_]; [contradiction|].
  destruct (rnd_bounded (a * U * Z.sgn b) (Z.abs b) ltac:(lia)) as [k E].
  - pose proof U_pos.
    assert (INT_BOUND = 2 ^ 1023) by reflexivity.
    assert (0 < INT_BOUND) by (unfold INT_BOUND; apply Z.pow_pos_nonneg; lia).
    rewrite !Z.abs_mul, (Z.abs_eq U) by lia.
    assert (Z.abs (Z.sgn b) = 1) by lia.
    assert (1 <= Z.abs b) by lia. nia.
  - exists k. rewrite E. reflexivity.
Qed.

(** ** Monotonicity of the operations *)

Lemma fadd_mono_r c x y : fle x y -> fle (fadd (Fin c) x) (fadd (Fin c) y).
Proof.
  destruct x as [a| | |], y as [b| | |]; intros H; try discriminate H;
    try reflexivity; simpl.
  - apply fle_Fin in H. apply rnd_mono; lia.
  - apply fle_PInf, rnd_not_nan.
  - apply fle_NInf, rnd_not_nan.
Qed.

Lemma fadd_mono_l c x y : fle x y -> fle (fadd x (Fin c)) (fadd y (Fin c)).
Proof.
  destruct x as [a| | |], y as [b| | |]; intros H; try discriminate H;
    try reflexivity; simpl.
  - apply fle_Fin in H. apply rnd_mono; lia.
  - apply fle_PInf, rnd_not_nan.
  - apply fle_NInf, rnd_not_nan.
Qed.

Lemma fmul_mono_pos t x y : 0 < t -> fle x y -> fle (fmul x (Fin t)) (fmul y (Fin t)).
Proof.
  intros Ht.
  assert (Hs : Z.sgn t = 1) by lia.
  pose proof U_pos as HU.
  destruct x as [a| | |], y as [b| | |]; intros H; try discriminate H;
    unfold fmul, fsgn; rewrite ?Hs; try reflexivity.
  - apply fle_Fin in H. apply rnd_mono; try lia.
    apply Z.mul_le_mono_nonneg_r; [lia|].
    apply Z.mul_le_mono_nonneg_r; lia.
  - apply fle_PInf, rnd_not_nan.
  - apply fle_NInf, rnd_not_nan.
Qed.

Lemma fdiv_pos_fin a t :
  0 < t -> fdiv (Fin a) (Fin t) = Ok (rnd (a * U) t).
Proof.
  intros Ht. destruct t as [|p|p]; try lia. simpl.
  rewrite Z.mul_1_r. reflexivity.
Qed.

Lemma fdiv_mono_pos t x y x' y' :
  0 < t -> fle x y -> fdiv x (Fin t) = Ok x' -> fdiv y (Fin t) = Ok y' -> fle x' y'.
Proof.
  intros Ht H Hx Hy. pose proof U_pos as HU.
  destruct x as [a| | |], y as [b| | |]; try discriminate H;
    rewrite ?fdiv_pos_fin in Hx, Hy by assumption;
    destruct t as [|p|p]; try lia; simpl in Hx, Hy;
    inversion Hx; inversion Hy; subst; try reflexivity.
  - apply fle_Fin in H. apply rnd_mono; try lia.
    apply Z.mul_le_mono_nonneg_r; [lia|].
    apply Z.mul_le_mono_nonneg_r; lia.
  - apply fle_PInf, rnd_not_nan.
  - apply fle_NInf, rnd_not_nan.
Qed.

Lemma py_max_zero_mono x y :
  fle x y -> fle (py_max (Fin 0) x) (py_max (Fin 0) y).
Proof.
  destruct x as [a| | |], y as [b| | |]; intros H; try discriminate H;
    unfold py_max, fgtb; rewrite ?fltb_Fin; simpl; try reflexivity.
  - apply fle_Fin in H.
    destruct (Z.ltb_spec 0 a), (Z.ltb_spec 0 b); apply fle_Fin; lia.
  - destruct (Z.ltb_spec 0 a); reflexivity.
  - destruct (Z.ltb_spec 0 b); apply fle_Fin; lia.
Qed.

Lemma int_truediv_mono a1 a2 d x1 x2 :
  0 < d -> a1 <= a2 ->
  int_truediv a1 d = Ok x1 -> int_truediv a2 d = Ok x2 -> fle x1 x2.
Proof.
  intros Hd Hle H1 H2. unfold int_truediv in *. pose proof U_pos as HU.
  destruct (Z.eqb_spec d 0); [lia|].
  assert (Hs : Z.sgn d = 1) by lia. rewrite Hs, !Z.mul_1_r, Z.abs_eq in H1, H2 by lia.
  assert (Hn : a1 * U * d <= a2 * U * d).
  { apply Z.mul_le_mono_nonneg_r; [lia|]. apply Z.mul_le_mono_nonneg_r; lia. }
  pose proof (rnd_mono (a1 * U) d (a2 * U) d Hd Hd Hn) as Hm.
  destruct (rnd (a1 * U) d), (rnd (a2 * U) d); try discriminate H1; try discriminate H2.
  inversion H1; inversion H2; subst. exact Hm.
Qed.

(** ** Clamping *)

(** [max(lo, min(hi, x))] lies between [lo] and [hi] for every float [x],
    a NaN included. *)
Lemma clamp_between lo hi x :
  lo <= hi ->
  fle (Fin lo) (py_max (Fin lo) (py_min (Fin hi) x))
  /\ fle (py_max (Fin lo) (py_min (Fin hi) x)) (Fin hi).
Proof.
  intros Hle. unfold py_max, py_min, fgtb.
  destruct x as [k| | |]; simpl.
  - destruct (Z.ltb_spec k hi); simpl.
    + destruct (Z.ltb_spec lo k); rewrite !fle_Fin; lia.
    + destruct (Z.ltb_spec lo hi); rewrite !fle_Fin; lia.
  - destruct (Z.ltb_spec lo hi); rewrite !fle_Fin; lia.
  - rewrite !fle_Fin; lia.
  - destruct (Z.ltb_spec lo hi); rewrite !fle_Fin; lia.
Qed.

(** [max(lo, e - c)] stays between [lo] and [hi] when [e] does and [c] is
    not negative. *)
Lemma floor_sub_between lo hi c e :
  lo <= hi -> 0 <= c -> rnd hi 1 = Fin hi ->
  fle (Fin lo) e -> fle e (Fin hi) ->
  fle (Fin lo) (py_max (Fin lo) (fsub e (Fin c)))
  /\ fle (py_max (Fin lo) (fsub e (Fin c))) (Fin hi).
Proof.
  intros Hle Hc Hrep H1 H2.
  destruct (fle_between _ _ _ H1 H2) as (k & -> & Hk).
  assert (Hup : fle (fsub (Fin k) (Fin c)) (Fin hi)).
  { unfold fsub; simpl. apply rnd_le_repr; [assumption | lia | lia]. }
  unfold py_max, fgtb.
  destruct (fltb (Fin lo) (fsub (Fin k) (Fin c))) eqn:Hlt.
  - split; [|assumption].
    unfold fle, fleb. rewrite Hlt. reflexivity.
  - split; apply fle_Fin; lia.
Qed.

(** A quotient of two ints with [0 <= a <= b] is a float between 0 and 1. *)
Lemma int_truediv_fraction a b :
  0 <= a <= b -> 0 < b -> exists k, int_truediv a b = Ok (Fin k) /\ 0 <= k <= U.
Proof.
  intros Ha Hb. unfold int_truediv. pose proof U_pos as HU.
  destruct (Z.eqb_spec b 0); [lia|].
  assert (Hs : Z.sgn b = 1) by lia. rewrite Hs, Z.mul_1_r, Z.abs_eq by lia.
  destruct (fle_between 0 U (rnd (a * U) b)) as (k & E & Hk).
  - apply rnd_nonneg; [assumption | nia].
  - apply rnd_le_repr; [apply rnd_one | assumption | nia].
  - exists k. rewrite E. split; [reflexivity | exact Hk].
Qed.

(** ** Agreement with the Standard Library's binary64 *)

(** The operations of this model computed on sample operands, beside the
    operations of [SpecFloat] at precision 53 and maximal exponent 1024 on
    the same operands with normalized mantissas (0.1 is
    [7205759403792794 * 2^-56] and 0.2 is [7205759403792794 * 2^-55]). *)

Example lit_tenth : to_spec (lit 1 10) = S754_finite false 7205759403792794 (-56).
Proof. vm_compute. reflexivity. Qed.

Example fadd_agrees :
  to_spec (fadd (lit 1 10) (lit 2 10))
  = SFadd 53 1024 (S754_finite false 7205759403792794 (-56))
      (S754_finite false 7205759403792794 (-55)).
Proof. vm_compute. reflexivity. Qed.

Example fsub_agrees :
  to_spec (fsub (lit 1 10) (lit 2 10))
  = SFsub 53 1024 (S754_finite false 7205759403792794 (-56))
      (S754_finite false 7205759403792794 (-55)).
Proof. vm_compute. reflexivity. Qed.

Example fmul_agrees :
  to_spec (fmul (lit 1 10) (lit 2 10))
  = SFmul 53 1024 (S754_finite false 7205759403792794 (-56))
      (S754_finite false 7205759403792794 (-55)).
Proof. vm_compute. reflexivity. Qed.

Example fdiv_agrees :
  to_spec_res (fdiv (lit 1 10) (lit 2 10))
  = SFdiv 53 1024 (S754_finite false 7205759403792794 (-56))
      (S754_finite false 7205759403792794 (-55))
  /\ to_spec_res (int_truediv 2 3)
     = SFdiv 53 1024 (S754_finite false 4503599627370496 (-51))
         (S754_finite false 6755399441055744 (-51)).
Proof. split; vm_compute; reflexivity. Qed.

(** Below the normal range the spacing of the floats stays [2^-1074]. *)
Example subnormal_agrees :
  to_spec (fmul (lit 1 (2 ^ 540)) (lit 3 (2 ^ 533)))
  = SFmul 53 1024 (S754_finite false 4503599627370496 (-592))
      (S754_finite false 6755399441055744 (-584)).
Proof. vm_compute. reflexivity. Qed.

Example comparison_agrees :
  fltb (fadd (lit 1 10) (lit 2 10)) (lit 3 10)
  = SFltb (SFadd 53 1024 (S754_finite false 7205759403792794 (-56))
             (S754_finite false 7205759403792794 (-55)))
      (S754_finite false 5404319552844595 (-54)).
Proof. vm_compute. reflexivity. Qed.

End F64Facts.


Import F64Facts.

#[global] Opaque U OVF rnd lit.

Lemma float_eqb_neq x y : float_eqb x y = false -> x <> y.
Proof.
  intros H E. subst y. destruct x; simpl in H; try discriminate H.
  rewrite Z.eqb_refl in H. discriminate H.
Qed.

(* ===================================================================== *)
(** * The review scheduler *)
(* ===================================================================== *)

Module SrsFacts.

Import Srs.

(** ** Dates *)

Lemma timedelta_minutes_1 : Dt.timedelta_minutes 1 = Ok Dt.US_PER_MINUTE.
Proof. vm_compute. reflexivity. Qed.

Lemma timedelta_minutes_10 : Dt.timedelta_minutes 10 = Ok (10 * Dt.US_PER_MINUTE).
Proof. vm_compute. reflexivity. Qed.

Lemma timedelta_hours_4 : Dt.timedelta_hours 4 = Ok (4 * Dt.US_PER_HOUR).
Proof. vm_compute. reflexivity. Qed.

Lemma timedelta_days_1 : Dt.timedelta_days 1 = Ok Dt.US_PER_DAY.
Proof. vm_compute. reflexivity. Qed.

Lemma add_in_range t delta :
  0 <= t + delta <= Dt.DATETIME_MAX -> Dt.add t delta = Ok (t + delta).
Proof.
  intros H. unfold Dt.add.
  destruct (Z.leb_spec 0 (t + delta)); [|lia].
  destruct (Z.leb_spec (t + delta) Dt.DATETIME_MAX); [|lia].
  reflexivity.
Qed.

Lemma add_result t delta t' : Dt.add t delta = Ok t' -> t' = t + delta.
Proof.
  unfold Dt.add. destruct (_ && _); intros H; inversion H. reflexivity.
Qed.

(** ** The ease factor *)

Lemma EASE_FACTOR_MIN_fin : EASE_FACTOR_MIN = Fin (fin_val EASE_FACTOR_MIN).
Proof. vm_compute. reflexivity. Qed.

Lemma EASE_FACTOR_MAX_fin : EASE_FACTOR_MAX = Fin (fin_val EASE_FACTOR_MAX).
Proof. vm_compute. reflexivity. Qed.

Lemma LAPSE_EASE_PENALTY_fin : LAPSE_EASE_PENALTY = Fin (fin_val LAPSE_EASE_PENALTY).
Proof. vm_compute. reflexivity. Qed.

Lemma ease_bounds_ordered : fin_val EASE_FACTOR_MIN <= fin_val EASE_FACTOR_MAX.
Proof. vm_compute. discriminate. Qed.

Lemma lapse_penalty_nonneg : 0 <= fin_val LAPSE_EASE_PENALTY.
Proof. vm_compute. discriminate. Qed.

Lemma EASE_FACTOR_MAX_representable :
  rnd (fin_val EASE_FACTOR_MAX) 1 = Fin (fin_val EASE_FACTOR_MAX).
Proof. vm_compute. reflexivity. Qed.

Lemma clamp_ease_in_range x : ease_in_range (clamp_ease x).
Proof.
  unfold ease_in_range, clamp_ease.
  rewrite EASE_FACTOR_MIN_fin, EASE_FACTOR_MAX_fin.
  apply clamp_between, ease_bounds_ordered.
Qed.

Lemma lapse_ease_in_range e : ease_in_range e -> ease_in_range (lapse_ease e).
Proof.
  unfold ease_in_range, lapse_ease.
  rewrite EASE_FACTOR_MIN_fin, EASE_FACTOR_MAX_fin, LAPSE_EASE_PENALTY_fin.
  intros [H1 H2].
  apply floor_sub_between;
    auto using ease_bounds_ordered, lapse_penalty_nonneg, EASE_FACTOR_MAX_representable.
Qed.

(** Inversion of a bind that returned. *)
Lemma rbind_ok {A B : Type} (m : res A) (k : A -> res B) (b : B) :
  rbind m k = Ok b -> exists a, m = Ok a /\ k a = Ok b.
Proof. destruct m as [a|e]; simpl; intros H; [eauto | discriminate H]. Qed.

Ltac inv_ok :=
  repeat match goal with
    | H : rbind _ _ = Ok _ |- _ =>
        let a := fresh "v" in
        let E := fresh "E" in
        apply rbind_ok in H; destruct H as (a & E & H)
    | H : Ok _ = Ok _ |- _ => inversion H; subst; clear H
    | H : Raise _ = Ok _ |- _ => discriminate H
    end.

(** Every handler returns the ease factor it was given, or that ease
    factor after the lapse penalty. *)
Lemma _handle_new_card_ease q wc e lapses stability penalty now r :
  _handle_new_card q wc e lapses stability penalty now = Ok r ->
  new_ease_factor r = (if wc then e else lapse_ease e).
Proof.
  unfold _handle_new_card. destruct wc; intros H; inv_ok; reflexivity.
Qed.

Lemma _handle_learning_card_ease q wc e lapses stability penalty lsi now r :
  _handle_learning_card q wc e lapses stability penalty lsi now = Ok r ->
  new_ease_factor r = (if wc then e else lapse_ease e).
Proof.
  unfold _handle_learning_card. destruct wc; [destruct (_ <=? _)|];
    intros H; inv_ok; reflexivity.
Qed.

Lemma _handle_review_card_ease q wc interval e reps lapses stability penalty now r :
  _handle_review_card q wc interval e reps lapses stability penalty now = Ok r ->
  new_ease_factor r = (if wc then e else lapse_ease e).
Proof.
  unfold _handle_review_card. destruct wc; intros H; inv_ok; reflexivity.
Qed.

Lemma _handle_relearning_card_ease q wc e lapses stability penalty now r :
  _handle_relearning_card q wc e lapses stability penalty now = Ok r ->
  new_ease_factor r = (if wc then e else lapse_ease e).
Proof.
  unfold _handle_relearning_card. destruct wc; intros H; inv_ok; reflexivity.
Qed.

(** The ease factor a review returns: the SM-2 update, clamped, and after
    an incorrect answer reduced by the lapse penalty. *)
Lemma result_ease quality current_state interval ease_factor repetitions lapses
    stability adaptation_penalty learning_step_index now r :
  calculate_next_review quality current_state interval ease_factor repetitions lapses
    stability adaptation_penalty learning_step_index now = Ok r ->
  exists updated,
    sm2_ease quality ease_factor = Ok updated
    /\ new_ease_factor r =
       (if LAPSE_THRESHOLD <=? quality then clamp_ease updated
        else lapse_ease (clamp_ease updated)).
Proof.
  unfold calculate_next_review. intros H.
  apply rbind_ok in H. destruct H as (updated & Eu & H).
  exists updated. split; [exact Eu|].
  fold (clamp_ease updated) in H.
  destruct current_state.
  - exact (_handle_new_card_ease _ _ _ _ _ _ _ _ H).
  - exact (_handle_learning_card_ease _ _ _ _ _ _ _ _ _ H).
  - exact (_handle_review_card_ease _ _ _ _ _ _ _ _ _ _ H).
  - exact (_handle_relearning_card_ease _ _ _ _ _ _ _ _ H).
Qed.

Lemma calculate_next_review_ease_range quality current_state interval ease_factor
    repetitions lapses stability adaptation_penalty learning_step_index now r :
  calculate_next_review quality current_state interval ease_factor repetitions lapses
    stability adaptation_penalty learning_step_index now = Ok r ->
  ease_in_range (new_ease_factor r).
Proof.
  intros H. destruct (result_ease _ _ _ _ _ _ _ _ _ _ _ H) as (u & _ & E). rewrite E.
  destruct (_ <=? _).
  - apply clamp_ease_in_range.
  - apply lapse_ease_in_range, clamp_ease_in_range.
Qed.


(** ** The adaptation penalty *)

Lemma _apply_adaptation_penalty_floor raw penalty r :
  _apply_adaptation_penalty raw penalty = Ok r -> 1 <= raw -> 1 <= r.
Proof.
  unfold _apply_adaptation_penalty. destruct (fleb penalty (Fin 0)); intros H Hraw.
  - inversion H. subst. exact Hraw.
  - inv_ok. lia.
Qed.

Lemma penalty_share_fin : penalty_share = Fin (fin_val penalty_share).
Proof. vm_compute. reflexivity. Qed.

Lemma penalty_share_bounds : 0 <= fin_val penalty_share <= U.
Proof. split; vm_compute; discriminate. Qed.

Lemma penalty_share_representable :
  rnd (fin_val penalty_share) 1 = Fin (fin_val penalty_share).
Proof. vm_compute. reflexivity. Qed.

(** The multiplier of a penalty between 0 and 1 is between 0 and 1. *)
Lemma multiplier_bounds p :
  0 <= p <= U ->
  exists m, fsub (lit 1 1) (fmul (Fin p) penalty_share) = Fin m /\ 0 <= m <= U.
Proof.
  intros Hp. rewrite penalty_share_fin, lit_one.
  pose proof penalty_share_bounds as Hc. pose proof U_pos as HU.
  set (c := fin_val penalty_share) in *.
  assert (Ht : exists t, fmul (Fin p) (Fin c) = Fin t /\ 0 <= t <= c).
  { apply fle_between; simpl.
    - apply rnd_nonneg; [assumption | nia].
    - apply rnd_le_repr; [apply penalty_share_representable | assumption | nia]. }
  destruct Ht as (t & -> & Ht).
  apply fle_between; unfold fsub; simpl.
  - apply rnd_nonneg; lia.
  - apply rnd_le_repr; [apply rnd_one | lia | lia].
Qed.

Lemma penalised_interval_le raw penalty :
  1 <= raw <= 2 ^ 53 -> fle (Fin 0) penalty -> fle penalty (lit 1 1) ->
  exists r, _apply_adaptation_penalty raw penalty = Ok r /\ 1 <= r <= raw.
Proof.
  intros Hraw H0 H1. rewrite lit_one in H1.
  destruct (fle_between _ _ _ H0 H1) as (p & -> & Hp).
  unfold _apply_adaptation_penalty. rewrite fleb_Fin.
  destruct (Z.leb_spec p 0).
  - exists raw. split; [reflexivity | lia].
  - fold penalty_share.
    destruct (multiplier_bounds p Hp) as (m & -> & Hm).
    unfold int_mul_float. rewrite of_int_exact by lia. cbn [rbind].
    pose proof U_pos as HU.
    assert (Hs : exists s, fmul (Fin (raw * U)) (Fin m) = Fin s /\ 0 <= s <= raw * U).
    { apply fle_between; simpl.
      - apply rnd_nonneg; [assumption | nia].
      - apply rnd_le_repr; [apply rnd_int_exact; lia | assumption |].
        apply Z.mul_le_mono_nonneg_l; [nia | lia]. }
    destruct Hs as (s & -> & Hs). cbn [rbind py_round].
    eexists. split; [reflexivity|].
    assert (rhe s U <= raw) by (apply rhe_le_int; lia). lia.
Qed.

Lemma full_penalty_multiplier :
  fsub (lit 1 1) (fmul (lit 1 1) (fsub (lit 1 1) ADAPTATION_PENALTY_MULTIPLIER))
  = ADAPTATION_PENALTY_MULTIPLIER.
Proof. vm_compute. reflexivity. Qed.


(** ** Totality of the ease update *)

Lemma INT_BOUND_large : 2 ^ 53 <= INT_BOUND.
Proof. vm_compute. discriminate. Qed.

Lemma sm2_ease_total quality ease_factor :
  Z.abs (5 - quality) <= INT_BOUND -> exists updated, sm2_ease quality ease_factor = Ok updated.
Proof.
  intros H. unfold sm2_ease, int_mul_float.
  destruct (of_int_total _ H) as [k E]. rewrite E. cbn [rbind].
  eexists. reflexivity.
Qed.

Lemma first_learning_step : py_index LEARNING_STEPS_MINUTES 0 = Ok 1.
Proof. reflexivity. Qed.

Lemma was_correct_true quality : 3 <= quality -> (LAPSE_THRESHOLD <=? quality) = true.
Proof. intros H. apply Z.leb_le. unfold LAPSE_THRESHOLD. lia. Qed.

Lemma was_correct_false quality : quality < 3 -> (LAPSE_THRESHOLD <=? quality) = false.
Proof. intros H. apply Z.leb_gt. unfold LAPSE_THRESHOLD. lia. Qed.

(** ** State and interval of a result *)

Lemma _handle_new_card_state q wc e lapses stability penalty now r :
  _handle_new_card q wc e lapses stability penalty now = Ok r ->
  new_state r = LEARNING /\ new_interval r = 0.
Proof.
  unfold _handle_new_card. destruct wc; intros H; inv_ok; split; reflexivity.
Qed.

Lemma _handle_learning_card_state q wc e lapses stability penalty lsi now r :
  _handle_learning_card q wc e lapses stability penalty lsi now = Ok r ->
  (new_state r = LEARNING /\ new_interval r = 0)
  \/ (new_state r = REVIEW /\ 1 <= new_interval r).
Proof.
  unfold _handle_learning_card. destruct wc; [destruct (_ <=? _)|]; intros H; inv_ok.
  - right. split; [reflexivity|]. simpl.
    eapply _apply_adaptation_penalty_floor; [eassumption|]. unfold GRADUATING_INTERVAL_DAYS. lia.
  - left. split; reflexivity.
  - left. split; reflexivity.
Qed.

Lemma _handle_review_card_state q wc interval e reps lapses stability penalty now r :
  _handle_review_card q wc interval e reps lapses stability penalty now = Ok r ->
  (new_state r = REVIEW /\ 1 <= new_interval r)
  \/ (new_state r = RELEARNING /\ new_interval r = 1).
Proof.
  unfold _handle_review_card. destruct wc; intros H; inv_ok.
  - left. split; [reflexivity|]. simpl. lia.
  - right. split; reflexivity.
Qed.

Lemma _handle_relearning_card_state q wc e lapses stability penalty now r :
  _handle_relearning_card q wc e lapses stability penalty now = Ok r ->
  (new_state r = REVIEW /\ 1 <= new_interval r)
  \/ (new_state r = RELEARNING /\ new_interval r = 0).
Proof.
  unfold _handle_relearning_card. destruct wc; intros H; inv_ok.
  - left. split; [reflexivity|]. simpl.
    eapply _apply_adaptation_penalty_floor; [eassumption|]. unfold RELEARNING_INTERVAL_DAYS. lia.
  - right. split; reflexivity.
Qed.


(** ** The urgency score *)

Lemma state_priority_int state :
  exists z, 1 <= z <= 2 ^ 53 /\ state_priority state = Fin (z * U).
Proof.
  assert (H53 : 2 ^ 53 = 9007199254740992) by reflexivity.
  destruct state; unfold state_priority; eexists; (split; [|apply lit_int]); lia.
Qed.

Lemma state_priority_fin state : state_priority state = Fin (fin_val (state_priority state)).
Proof. destruct (state_priority_int state) as (z & _ & E). rewrite E. reflexivity. Qed.

Lemma zero_plus_priority state : fadd (lit 0 1) (state_priority state) = state_priority state.
Proof.
  destruct (state_priority_int state) as (z & Hz & E). rewrite E, lit_zero.
  cbn [fadd]. rewrite Z.add_0_l. apply rnd_int_exact. exact Hz.
Qed.

Lemma priority_plus_zero state : fadd (state_priority state) (Fin 0) = state_priority state.
Proof.
  destruct (state_priority_int state) as (z & Hz & E). rewrite E.
  cbn [fadd]. rewrite Z.add_0_r. apply rnd_int_exact. exact Hz.
Qed.

Lemma rnd_zero_num d : 0 < d -> rnd 0 d = Fin 0.
Proof.
  intros Hd.
  destruct (fle_between 0 0 (rnd 0 d)) as (k & E & Hk).
  - apply rnd_nonneg; lia.
  - apply rnd_nonpos; lia.
  - rewrite E. f_equal. lia.
Qed.

Lemma of_int_2 : of_int 2 = Ok (Fin (2 * U)).
Proof. apply of_int_exact. split; [lia | vm_compute; discriminate]. Qed.

Lemma of_int_3600 : of_int 3600 = Ok (Fin (3600 * U)).
Proof. apply of_int_exact. split; [lia | vm_compute; discriminate]. Qed.

Lemma delay_term_zero : delay_term (Fin 0) = Fin 0.
Proof.
  unfold delay_term. cbn [fmul]. rewrite Z.mul_0_l, rnd_zero_num by apply U_pos.
  reflexivity.
Qed.

Lemma delay_term_nonneg hours : fle (Fin 0) (delay_term hours).
Proof.
  unfold delay_term, py_max, fgtb.
  destruct (fltb (Fin 0) (fmul hours (Fin (2 * U)))) eqn:E.
  - unfold fle, fleb. rewrite E. reflexivity.
  - apply fle_Fin. lia.
Qed.

Lemma delay_term_mono h1 h2 : fle h1 h2 -> fle (delay_term h1) (delay_term h2).
Proof.
  intros H. apply py_max_zero_mono, fmul_mono_pos; [|assumption].
  pose proof U_pos. lia.
Qed.

Lemma get_card_urgency_score_formula due_date state lapses now :
  get_card_urgency_score due_date state lapses now
  = urgency_formula state due_date lapses now.
Proof.
  unfold get_card_urgency_score, urgency_formula, spec_delay_hours.
  rewrite zero_plus_priority, of_int_2.
  destruct due_date as [due|]; cbn [rbind].
  - destruct (delay_hours now due) as [hours|e]; cbn [rbind]; reflexivity.
  - fold (delay_term (Fin 0)). rewrite delay_term_zero, priority_plus_zero. reflexivity.
Qed.

Lemma delay_hours_mono now1 due1 now2 due2 h1 h2 :
  now1 - due1 <= now2 - due2 ->
  delay_hours now1 due1 = Ok h1 -> delay_hours now2 due2 = Ok h2 -> fle h1 h2.
Proof.
  unfold delay_hours, Dt.total_seconds, Dt.diff. rewrite of_int_3600.
  intros Hle H1 H2.
  apply rbind_ok in H1. destruct H1 as (sec1 & Es1 & H1).
  apply rbind_ok in H2. destruct H2 as (sec2 & Es2 & H2).
  cbn [rbind] in H1, H2.
  assert (Hsec : fle sec1 sec2).
  { eapply int_truediv_mono; [| exact Hle | exact Es1 | exact Es2].
    unfold Dt.US_PER_SECOND. lia. }
  eapply fdiv_mono_pos; [| exact Hsec | exact H1 | exact H2].
  pose proof U_pos. lia.
Qed.

Lemma delay_hours_now now : delay_hours now now = Ok (Fin 0).
Proof.
  unfold delay_hours, Dt.total_seconds, Dt.diff, int_truediv. rewrite of_int_3600, Z.sub_diag.
  change (Dt.US_PER_SECOND =? 0) with false. cbn iota.
  rewrite !Z.mul_0_l, rnd_zero_num by (vm_compute; reflexivity). cbn [rbind].
  rewrite fdiv_pos_fin by (pose proof U_pos; lia).
  rewrite Z.mul_0_l, rnd_zero_num by (pose proof U_pos; lia). reflexivity.
Qed.

(** The delay term grows with the time a record has been overdue. *)
Lemma delay_term_overdue due1 now1 due2 now2 h1 h2 :
  overdue due1 now1 <= overdue due2 now2 ->
  spec_delay_hours due1 now1 = Ok h1 -> spec_delay_hours due2 now2 = Ok h2 ->
  fle (delay_term h1) (delay_term h2).
Proof.
  intros Hle H1 H2.
  destruct due1 as [d1|]; simpl in H1.
  - destruct (Z_le_gt_dec (now1 - d1) 0) as [Hn|Hp].
    + apply fle_trans with (Fin 0); [|apply delay_term_nonneg].
      rewrite <- delay_term_zero. apply delay_term_mono.
      eapply delay_hours_mono; [| exact H1 | apply (delay_hours_now now1)]. lia.
    + destruct due2 as [d2|]; simpl in Hle, H2; [|lia].
      apply delay_term_mono. eapply delay_hours_mono; [| exact H1 | exact H2]. lia.
  - inversion H1. subst. rewrite delay_term_zero. apply delay_term_nonneg.
Qed.

Lemma get_card_urgency_score_mono state lapses due1 now1 due2 now2 s1 s2 :
  overdue due1 now1 <= overdue due2 now2 ->
  get_card_urgency_score due1 state lapses now1 = Ok s1 ->
  get_card_urgency_score due2 state lapses now2 = Ok s2 ->
  fle s1 s2.
Proof.
  rewrite !get_card_urgency_score_formula. unfold urgency_formula.
  rewrite of_int_2. intros Hle H1 H2.
  apply rbind_ok in H1. destruct H1 as (h1 & Eh1 & H1).
  apply rbind_ok in H2. destruct H2 as (h2 & Eh2 & H2).
  cbn [rbind] in H1, H2.
  unfold of_int in H1, H2.
  destruct (rnd (lapses * 5 * U) 1) as [b| | |]; try discriminate H1.
  cbn [rbind] in H1, H2. inversion H1. inversion H2. subst.
  fold (delay_term h1) (delay_term h2).
  apply fadd_mono_l. rewrite state_priority_fin. apply fadd_mono_r.
  eapply delay_term_overdue; eassumption.
Qed.

(** The score is defined for dates in range and a lapse count a float can
    hold. *)
Lemma get_card_urgency_score_total due_date state lapses now :
  0 <= now <= Dt.DATETIME_MAX ->
  (forall due, due_date = Some due -> 0 <= due <= Dt.DATETIME_MAX) ->
  Z.abs (lapses * 5) <= INT_BOUND ->
  exists s, get_card_urgency_score due_date state lapses now = Ok s.
Proof.
  intros Hnow Hdue Hl. rewrite get_card_urgency_score_formula.
  unfold urgency_formula. rewrite of_int_2.
  destruct (of_int_total _ Hl) as [b Eb]. rewrite Eb.
  destruct due_date as [due|]; simpl.
  - specialize (Hdue due eq_refl).
    unfold delay_hours, Dt.total_seconds, Dt.diff. rewrite of_int_3600.
    destruct (int_truediv_total (now - due) Dt.US_PER_SECOND) as [k Ek].
    + unfold Dt.US_PER_SECOND. lia.
    + assert (Dt.DATETIME_MAX <= INT_BOUND) by (vm_compute; discriminate). lia.
    + rewrite Ek. cbn [rbind]. rewrite fdiv_pos_fin by (pose proof U_pos; lia).
      cbn [rbind]. eexists. reflexivity.
  - eexists. reflexivity.
Qed.

Lemma delay_hours_total now due :
  0 <= now <= Dt.DATETIME_MAX -> 0 <= due <= Dt.DATETIME_MAX ->
  exists h, delay_hours now due = Ok h.
Proof.
  intros Hnow Hdue.
  unfold delay_hours, Dt.total_seconds, Dt.diff. rewrite of_int_3600.
  destruct (int_truediv_total (now - due) Dt.US_PER_SECOND) as [k Ek].
  - unfold Dt.US_PER_SECOND. lia.
  - assert (Dt.DATETIME_MAX <= INT_BOUND) by (vm_compute; discriminate). lia.
  - rewrite Ek. cbn [rbind]. rewrite fdiv_pos_fin by (pose proof U_pos; lia).
    eexists. reflexivity.
Qed.

(** Without a due date, and until it, the delay adds nothing to the score. *)
Lemma score_not_overdue due_date state lapses now :
  overdue due_date now = 0 ->
  0 <= now <= Dt.DATETIME_MAX ->
  (forall due, due_date = Some due -> 0 <= due <= Dt.DATETIME_MAX) ->
  get_card_urgency_score due_date state lapses now
  = (let* bonus := of_int (lapses * 5) in Ok (fadd (state_priority state) bonus)).
Proof.
  intros Hz Hnow Hdue. rewrite get_card_urgency_score_formula.
  unfold urgency_formula. rewrite of_int_2.
  assert (Hterm : exists h, spec_delay_hours due_date now = Ok h /\ delay_term h = Fin 0).
  { destruct due_date as [due|]; simpl in *.
    - destruct (delay_hours_total now due Hnow (Hdue due eq_refl)) as [h Eh].
      exists h. split; [exact Eh|].
      assert (Hh : fle h (Fin 0)).
      { eapply delay_hours_mono; [| exact Eh | apply (delay_hours_now now)]. lia. }
      destruct (fle_between 0 0 (delay_term h)) as (k & E & Hk).
      + apply delay_term_nonneg.
      + rewrite <- delay_term_zero. apply delay_term_mono. exact Hh.
      + rewrite E. f_equal. lia.
    - exists (Fin 0). split; [reflexivity | apply delay_term_zero]. }
  destruct Hterm as (h & -> & Eh). cbn [rbind].
  fold (delay_term h). rewrite Eh, priority_plus_zero. reflexivity.
Qed.

End SrsFacts.


(* ===================================================================== *)
(** * Properties of the review scheduler *)
(* ===================================================================== *)

Import Srs SrsFacts.

(** Two reviews evaluated once, for the examples below: a new card rated
    5, and a Review card rated 2, both with ease factor 2.5. *)
Lemma example_new_card_rated_5 :
  exists r,
    calculate_next_review 5 NEW 0 EASE_FACTOR_DEFAULT 0 0 (lit 1 1) (lit 0 1) 0 example_now
    = Ok r
    /\ new_state r = LEARNING
    /\ new_ease_factor r = lit 26 10
    /\ new_ease_factor r <> EASE_FACTOR_DEFAULT.
Proof.
  eexists. split; [vm_compute; reflexivity|].
  split; [reflexivity|]. split; [vm_compute; reflexivity|].
  apply float_eqb_neq. vm_compute. reflexivity.
Qed.

Lemma example_review_card_rated_2 :
  exists r,
    calculate_next_review 2 REVIEW 10 EASE_FACTOR_DEFAULT 3 0 (lit 1 1) (lit 0 1) 0 example_now
    = Ok r
    /\ new_state r = RELEARNING
    /\ fle (new_ease_factor r) (lit 198 100)
    /\ new_ease_factor r <> lit 23 10.
Proof.
  eexists. split; [vm_compute; reflexivity|].
  split; [reflexivity|]. split; [vm_compute; reflexivity|].
  apply float_eqb_neq. vm_compute. reflexivity.
Qed.

(** C1, as stated, fails: a new card with ease factor 2.5 rated 5 comes back
    in Learning with ease factor 2.6, not with the ease factor it had. *)
Lemma new_card_correct_ease_not_kept :
  exists r,
    calculate_next_review 5 NEW 0 EASE_FACTOR_DEFAULT 0 0 (lit 1 1) (lit 0 1) 0 example_now
    = Ok r
    /\ new_state r = LEARNING
    /\ new_ease_factor r = lit 26 10
    /\ new_ease_factor r <> EASE_FACTOR_DEFAULT.
Proof. exact example_new_card_rated_5. Qed.

(** C1, amended: a new card rated correct (quality at least 3) comes back
    in Learning, due one minute (the first learning step) after [now], with
    the ease factor the SM-2 update gives, clamped to [1.3, 3.5]; no lapse
    penalty is taken off, and lapses and stability are kept. *)
Theorem new_card_correct_enters_learning quality interval ease_factor repetitions lapses
    stability adaptation_penalty learning_step_index now :
  3 <= quality <= INT_BOUND ->
  0 <= now ->
  now + Dt.US_PER_MINUTE <= Dt.DATETIME_MAX ->
  exists updated,
    sm2_ease quality ease_factor = Ok updated
    /\ calculate_next_review quality NEW interval ease_factor repetitions lapses stability
         adaptation_penalty learning_step_index now
       = Ok {| new_state := LEARNING;
               new_interval := 0;
               new_ease_factor := clamp_ease updated;
               new_repetitions := 0;
               new_lapses := lapses;
               new_stability := stability;
               new_due_date := now + Dt.US_PER_MINUTE;
               was_correct := true |}.
Proof.
  intros Hq Hnow Hmax.
  pose proof INT_BOUND_large as Hb.
  assert (H53 : 2 ^ 53 = 9007199254740992) by reflexivity.
  destruct (sm2_ease_total quality ease_factor ltac:(lia)) as [updated Eu].
  exists updated. split; [exact Eu|].
  unfold calculate_next_review. rewrite Eu. cbn [rbind].
  rewrite was_correct_true by lia.
  unfold _handle_new_card. rewrite first_learning_step. cbn [rbind].
  rewrite timedelta_minutes_1. cbn [rbind].
  assert (HM : Dt.US_PER_MINUTE = 60000000) by reflexivity.
  rewrite add_in_range by lia. reflexivity.
Qed.

Lemma new_card_correct_enters_learning_witness :
  exists updated,
    sm2_ease 4 EASE_FACTOR_DEFAULT = Ok updated
    /\ calculate_next_review 4 NEW 0 EASE_FACTOR_DEFAULT 0 0 (lit 1 1) (lit 0 1) 0 example_now
       = Ok {| new_state := LEARNING;
               new_interval := 0;
               new_ease_factor := clamp_ease updated;
               new_repetitions := 0;
               new_lapses := 0;
               new_stability := lit 1 1;
               new_due_date := example_now + Dt.US_PER_MINUTE;
               was_correct := true |}.
Proof.
  apply (new_card_correct_enters_learning 4 0 EASE_FACTOR_DEFAULT 0 0 (lit 1 1) (lit 0 1) 0
           example_now).
  - split; [lia | vm_compute; discriminate].
  - vm_compute; discriminate.
  - vm_compute; discriminate.
Defined.

(** C2, as stated, fails: a Relearning card rated incorrect stays in
    Relearning with interval 0 (it is due four hours later). *)
Lemma relearning_failure_interval_zero :
  exists r,
    calculate_next_review 1 RELEARNING 1 EASE_FACTOR_DEFAULT 0 1 (lit 1 1) (lit 0 1) 0
      example_now = Ok r
    /\ new_state r = RELEARNING
    /\ new_interval r = 0
    /\ new_due_date r = example_now + 4 * Dt.US_PER_HOUR
    /\ ~ 1 <= new_interval r.
Proof.
  eexists. split; [vm_compute; reflexivity|].
  repeat split; try reflexivity. vm_compute. intros H. apply H. reflexivity.
Qed.

(** C2, amended: whenever the result is in Review its interval is at least
    1; a result in Relearning has interval 1 when the card lapsed from
    Review and interval 0 when it failed again while in Relearning. *)
Theorem result_interval_by_state quality current_state interval ease_factor repetitions
    lapses stability adaptation_penalty learning_step_index now r :
  calculate_next_review quality current_state interval ease_factor repetitions lapses
    stability adaptation_penalty learning_step_index now = Ok r ->
  (new_state r = REVIEW -> 1 <= new_interval r)
  /\ (new_state r = RELEARNING ->
      (current_state = REVIEW /\ new_interval r = 1)
      \/ (current_state = RELEARNING /\ new_interval r = 0)).
Proof.
  unfold calculate_next_review. intros H.
  apply rbind_ok in H. destruct H as (updated & _ & H).
  destruct current_state.
  - apply _handle_new_card_state in H. destruct H as [Hs Hi].
    rewrite Hs. split; discriminate.
  - apply _handle_learning_card_state in H. destruct H as [[Hs Hi]|[Hs Hi]]; rewrite Hs.
    + split; discriminate.
    + split; [intros _; exact Hi | discriminate].
  - apply _handle_review_card_state in H. destruct H as [[Hs Hi]|[Hs Hi]]; rewrite Hs.
    + split; [intros _; exact Hi | discriminate].
    + split; [discriminate | intros _; left; split; [reflexivity | exact Hi]].
  - apply _handle_relearning_card_state in H. destruct H as [[Hs Hi]|[Hs Hi]]; rewrite Hs.
    + split; [intros _; exact Hi | discriminate].
    + split; [discriminate | intros _; right; split; [reflexivity | exact Hi]].
Qed.

Lemma result_interval_by_state_witness :
  exists r,
    calculate_next_review 2 REVIEW 10 EASE_FACTOR_DEFAULT 3 0 (lit 1 1) (lit 0 1) 0 example_now
    = Ok r
    /\ (new_state r = REVIEW -> 1 <= new_interval r)
    /\ (new_state r = RELEARNING ->
        (REVIEW = REVIEW /\ new_interval r = 1) \/ (REVIEW = RELEARNING /\ new_interval r = 0)).
Proof.
  destruct example_review_card_rated_2 as (r & Hr & _).
  exists r. split; [exact Hr|].
  exact (result_interval_by_state 2 REVIEW 10 EASE_FACTOR_DEFAULT 3 0 (lit 1 1) (lit 0 1) 0
           example_now r Hr).
Defined.

(** C4: for a record whose ease factor is within [1.3, 3.5], every review
    with a rating between 0 and 5 returns a [new_ease_factor] within
    [1.3, 3.5], whatever the state and the other inputs; hence the ease
    factor stays in that range along every sequence of reviews. *)
Theorem ease_factor_invariant srs :
  ease_in_range (SRSState.ease_factor srs) ->
  (forall quality adaptation_penalty learning_step_index now r,
      0 <= quality <= 5 ->
      calculate_next_review quality (SRSState.state srs) (SRSState.interval srs)
        (SRSState.ease_factor srs) (SRSState.repetitions srs) (SRSState.lapses srs)
        (SRSState.stability srs) adaptation_penalty learning_step_index now = Ok r ->
      ease_in_range (new_ease_factor r))
  /\ (forall srs', rtc reviewed srs srs' -> ease_in_range (SRSState.ease_factor srs')).
Proof.
  intros Hin. split.
  - intros quality penalty lsi now r _ Hr.
    exact (calculate_next_review_ease_range _ _ _ _ _ _ _ _ _ _ _ Hr).
  - intros srs' Hrun. induction Hrun as [srs|srs mid srs' Hstep _ IH].
    + exact Hin.
    + apply IH. destruct Hstep as [srs quality penalty lsi now r Hq Hr]. simpl.
      exact (calculate_next_review_ease_range _ _ _ _ _ _ _ _ _ _ _ Hr).
Qed.

Lemma ease_factor_invariant_witness :
  exists r,
    calculate_next_review 5 NEW 0 EASE_FACTOR_DEFAULT 0 0 (lit 1 1) (lit 0 1) 0 example_now
    = Ok r
    /\ ease_in_range (SRSState.ease_factor (Review.apply_result example_card r example_now)).
Proof.
  destruct example_new_card_rated_5 as (r & Hr & _).
  exists r. split; [exact Hr|].
  apply (ease_factor_invariant example_card).
  - split; vm_compute; reflexivity.
  - apply rtc_once.
    exact (reviewed_intro example_card 5 (lit 0 1) 0 example_now r ltac:(lia) Hr).
Defined.

(** C5, as stated, fails: a raw interval of 0 days under a penalty of 0.5
    becomes 1 day, which is more than the raw interval; and an interval too
    large for a float to hold exactly can grow when converted. *)
Lemma penalty_lifts_zero_interval :
  _apply_adaptation_penalty 0 (lit 5 10) = Ok 1
  /\ ~ 1 <= 0
  /\ _apply_adaptation_penalty (2 ^ 53 + 3) (lit 1 (10 ^ 30)) = Ok (2 ^ 53 + 4).
Proof.
  split; [vm_compute; reflexivity|]. split; [lia|]. vm_compute. reflexivity.
Qed.

(** C5, amended: for a raw interval of at least 1 day (and at most 2^53, so
    that a float holds it exactly) and a penalty in [0, 1], the penalised
    interval is at least 1 and at most the raw interval; a penalty of 0
    returns the raw interval as it is, whatever the raw interval; and a
    penalty of 1.0 multiplies the raw interval, whatever it is, by 0.70
    before rounding and the 1-day floor. *)
Theorem penalised_interval_bounded raw penalty :
  (1 <= raw <= 2 ^ 53 ->
   fle (Fin 0) penalty ->
   fle penalty (lit 1 1) ->
   exists r, _apply_adaptation_penalty raw penalty = Ok r /\ 1 <= r <= raw)
  /\ _apply_adaptation_penalty raw (lit 0 1) = Ok raw
  /\ _apply_adaptation_penalty raw (lit 1 1)
     = (let* scaled := int_mul_float raw ADAPTATION_PENALTY_MULTIPLIER in
        let* rounded := py_round scaled in
        Ok (Z.max 1 rounded)).
Proof.
  split; [|split].
  - intros Hraw H0 H1. apply penalised_interval_le; assumption.
  - rewrite lit_zero. reflexivity.
  - unfold _apply_adaptation_penalty.
    rewrite full_penalty_multiplier.
    replace (fleb (lit 1 1) (Fin 0)) with false by (vm_compute; reflexivity).
    reflexivity.
Qed.

Lemma penalised_interval_bounded_witness :
  (exists r, _apply_adaptation_penalty 25 (lit 5 10) = Ok r /\ 1 <= r <= 25)
  /\ _apply_adaptation_penalty 25 (lit 0 1) = Ok 25
  /\ _apply_adaptation_penalty 25 (lit 1 1)
     = (let* scaled := int_mul_float 25 ADAPTATION_PENALTY_MULTIPLIER in
        let* rounded := py_round scaled in
        Ok (Z.max 1 rounded)).
Proof.
  destruct (penalised_interval_bounded 25 (lit 5 10)) as (Hbounded & Hzero & Hfull).
  split; [|split; [exact Hzero | exact Hfull]].
  apply Hbounded.
  - split; [lia | vm_compute; discriminate].
  - vm_compute. reflexivity.
  - vm_compute. reflexivity.
Defined.

(** C6, as stated, fails on the ease factor: a Review card with ease
    factor 2.5 rated 2 comes back with the ease factor the SM-2 update and
    the lapse penalty leave (2.5 - 0.32 - 0.20), not with 2.5 reduced by
    0.20. *)
Lemma review_lapse_ease_not_input_less_penalty :
  exists r,
    calculate_next_review 2 REVIEW 10 EASE_FACTOR_DEFAULT 3 0 (lit 1 1) (lit 0 1) 0 example_now
    = Ok r
    /\ new_state r = RELEARNING
    /\ fle (new_ease_factor r) (lit 198 100)
    /\ py_max EASE_FACTOR_MIN (fsub EASE_FACTOR_DEFAULT LAPSE_EASE_PENALTY) = lit 23 10
    /\ new_ease_factor r <> py_max EASE_FACTOR_MIN (fsub EASE_FACTOR_DEFAULT LAPSE_EASE_PENALTY).
Proof.
  destruct example_review_card_rated_2 as (r & Hr & Hs & Hle & Hne).
  assert (E : py_max EASE_FACTOR_MIN (fsub EASE_FACTOR_DEFAULT LAPSE_EASE_PENALTY) = lit 23 10)
    by (vm_compute; reflexivity).
  exists r. rewrite E. repeat split; assumption.
Qed.

(** C6, amended: a Review card rated incorrect (quality below 3) comes back
    in Relearning with lapses incremented by 1, an interval of 1 day, due
    one day after [now], repetitions 0, stability
    [max(0.5, stability * 0.5)], and as ease factor the SM-2 update of the
    input ease factor, clamped to [1.3, 3.5], reduced by 0.20 and floored at
    1.3. *)
Theorem review_lapse_result quality interval ease_factor repetitions lapses stability
    adaptation_penalty learning_step_index now :
  5 - INT_BOUND <= quality < 3 ->
  0 <= now ->
  now + Dt.US_PER_DAY <= Dt.DATETIME_MAX ->
  exists updated,
    sm2_ease quality ease_factor = Ok updated
    /\ calculate_next_review quality REVIEW interval ease_factor repetitions lapses stability
         adaptation_penalty learning_step_index now
       = Ok {| new_state := RELEARNING;
               new_interval := 1;
               new_ease_factor := lapse_ease (clamp_ease updated);
               new_repetitions := 0;
               new_lapses := lapses + 1;
               new_stability := py_max (lit 5 10) (fmul stability (lit 5 10));
               new_due_date := now + Dt.US_PER_DAY;
               was_correct := false |}.
Proof.
  intros Hq Hnow Hmax.
  destruct (sm2_ease_total quality ease_factor ltac:(lia)) as [updated Eu].
  exists updated. split; [exact Eu|].
  unfold calculate_next_review. rewrite Eu. cbn [rbind].
  rewrite was_correct_false by lia.
  unfold _handle_review_card, RELEARNING_INTERVAL_DAYS.
  rewrite timedelta_days_1. cbn [rbind].
  assert (HD : Dt.US_PER_DAY = 86400000000) by reflexivity.
  rewrite add_in_range by lia. reflexivity.
Qed.

Lemma review_lapse_result_witness :
  exists updated,
    sm2_ease 2 EASE_FACTOR_DEFAULT = Ok updated
    /\ calculate_next_review 2 REVIEW 10 EASE_FACTOR_DEFAULT 3 0 (lit 1 1) (lit 0 1) 0
         example_now
       = Ok {| new_state := RELEARNING;
               new_interval := 1;
               new_ease_factor := lapse_ease (clamp_ease updated);
               new_repetitions := 0;
               new_lapses := 0 + 1;
               new_stability := py_max (lit 5 10) (fmul (lit 1 1) (lit 5 10));
               new_due_date := example_now + Dt.US_PER_DAY;
               was_correct := false |}.
Proof.
  apply (review_lapse_result 2 10 EASE_FACTOR_DEFAULT 3 0 (lit 1 1) (lit 0 1) 0 example_now).
  - split; [vm_compute; discriminate | lia].
  - vm_compute; discriminate.
  - vm_compute; discriminate.
Defined.

(** C7: for every state, lapse count and due date, a missing one included,
    the urgency score is
    [state_priority(state) + max(0, delay_hours * 2) + lapses * 5], the
    priorities being 100, 50, 10 and 1 for Relearning, Learning, Review and
    New and the delay being 0 without a due date; until the due date the
    delay adds nothing; and with state and lapses fixed the score does not
    decrease when the time overdue grows. *)
Theorem urgency_score_formula_and_monotone state lapses :
  (forall due_date now,
      get_card_urgency_score due_date state lapses now
      = urgency_formula state due_date lapses now)
  /\ (state_priority RELEARNING = lit 100 1 /\ state_priority LEARNING = lit 50 1
      /\ state_priority REVIEW = lit 10 1 /\ state_priority NEW = lit 1 1)
  /\ (forall due_date now,
        overdue due_date now = 0 ->
        0 <= now <= Dt.DATETIME_MAX ->
        (forall due, due_date = Some due -> 0 <= due <= Dt.DATETIME_MAX) ->
        get_card_urgency_score due_date state lapses now
        = (let* bonus := of_int (lapses * 5) in Ok (fadd (state_priority state) bonus)))
  /\ (forall due1 now1 due2 now2 s1 s2,
        overdue due1 now1 <= overdue due2 now2 ->
        get_card_urgency_score due1 state lapses now1 = Ok s1 ->
        get_card_urgency_score due2 state lapses now2 = Ok s2 ->
        fle s1 s2)
  /\ (forall due_date now,
        0 <= now <= Dt.DATETIME_MAX ->
        (forall due, due_date = Some due -> 0 <= due <= Dt.DATETIME_MAX) ->
        Z.abs (lapses * 5) <= INT_BOUND ->
        exists s, get_card_urgency_score due_date state lapses now = Ok s).
Proof.
  split; [|split; [|split; [|split]]].
  - intros due_date now. apply get_card_urgency_score_formula.
  - repeat split; reflexivity.
  - intros due_date now Hz Hnow Hdue. apply score_not_overdue; assumption.
  - intros due1 now1 due2 now2 s1 s2. apply get_card_urgency_score_mono.
  - intros due_date now. apply get_card_urgency_score_total.
Qed.

Lemma urgency_score_formula_and_monotone_witness :
  exists s1 s2,
    get_card_urgency_score (Some (example_now - 2 * Dt.US_PER_HOUR)) REVIEW 2 example_now
    = Ok s1
    /\ get_card_urgency_score (Some (example_now - 3 * Dt.US_PER_HOUR)) REVIEW 2 example_now
       = Ok s2
    /\ s1 = lit 24 1 /\ s2 = lit 26 1 /\ fle s1 s2.
Proof.
  eexists. eexists.
  split; [vm_compute; reflexivity|]. split; [vm_compute; reflexivity|].
  split; [vm_compute; reflexivity|]. split; [vm_compute; reflexivity|].
  destruct (urgency_score_formula_and_monotone REVIEW 2) as (_ & _ & _ & Hmono & _).
  apply (Hmono (Some (example_now - 2 * Dt.US_PER_HOUR)) example_now
           (Some (example_now - 3 * Dt.US_PER_HOUR)) example_now).
  - vm_compute. discriminate.
  - vm_compute. reflexivity.
  - vm_compute. reflexivity.
Defined.

(* ===================================================================== *)
(** * Properties of the answer evaluator *)
(* ===================================================================== *)

Module ExerciseFacts.

Import Str Exercise ExerciseSpec.

Lemma size_list_to_set (l : list str) :
  Z.of_nat (size (list_to_set l : gset str)) = distinct l.
Proof.
  unfold distinct, size, set_size. simpl. f_equal.
  apply Permutation_length, NoDup_Permutation.
  - apply NoDup_elements.
  - apply NoDup_remove_dups.
  - intros w. rewrite elem_of_elements, elem_of_list_to_set, elem_of_remove_dups.
    reflexivity.
Qed.

Lemma size_intersection (u e : list str) :
  Z.of_nat (size ((list_to_set u : gset str) ∩ list_to_set e))
  = distinct (filter (fun w => w ∈ u) e).
Proof.
  unfold distinct, size, set_size. simpl. f_equal.
  apply Permutation_length, NoDup_Permutation.
  - apply NoDup_elements.
  - apply NoDup_remove_dups.
  - intros w.
    rewrite elem_of_elements, elem_of_intersection, !elem_of_list_to_set,
      elem_of_remove_dups, list_elem_of_filter.
    reflexivity.
Qed.

Lemma same_words_sets (u e : str) :
  (list_to_set (split u) : gset str) = list_to_set (split e) <-> same_words u e.
Proof.
  unfold same_words. rewrite set_eq.
  setoid_rewrite elem_of_list_to_set. reflexivity.
Qed.

Lemma existsb_str_eqb_false (s : str) (l : list str) :
  s ∉ l -> existsb (str_eqb s) l = false.
Proof.
  intros H. induction l as [|a l IH]; [reflexivity|].
  simpl. rewrite not_elem_of_cons in H. destruct H as [Hne Hl].
  unfold str_eqb at 1. rewrite bool_decide_eq_false_2 by assumption.
  simpl. apply IH. exact Hl.
Qed.

(** The share of the expected words is defined, and between 0 and 1, as
    soon as the expected answer has a word. *)
Lemma word_ratio_defined user_norm expected_norm :
  0 < distinct (split expected_norm) ->
  exists k, word_ratio user_norm expected_norm = Ok (Fin k) /\ 0 <= k <= U.
Proof.
  intros Hpos. unfold word_ratio. apply int_truediv_fraction; [|exact Hpos].
  split; [unfold distinct; lia|].
  unfold distinct, common_words. apply inj_le, submseteq_length, NoDup_submseteq.
  - apply NoDup_remove_dups.
  - intros w. rewrite !elem_of_remove_dups, list_elem_of_filter. tauto.
Qed.

Section Evaluator.

Variable lower : str -> str.

(** What [_evaluate_build_sentence] returns, case by case. *)
Lemma _evaluate_build_sentence_cases user_norm expected_norm user_raw expected_raw :
  (same_words user_norm expected_norm ->
   _evaluate_build_sentence user_norm expected_norm user_raw expected_raw
   = Ok {| is_correct := false;
           score := lit 7 10;
           feedback := Palavras_corretas_ordem_errada expected_raw;
           error_category := Some "order"%string |})
  /\ (~ same_words user_norm expected_norm ->
      forall ratio,
        word_ratio user_norm expected_norm = Ok ratio ->
        fgeb ratio (lit 7 10) = true ->
        _evaluate_build_sentence user_norm expected_norm user_raw expected_raw
        = Ok {| is_correct := false;
                score := ratio;
                feedback := Quase_verifique_as_palavras expected_raw;
                error_category := Some "order"%string |})
  /\ (~ same_words user_norm expected_norm ->
      (forall ratio,
          word_ratio user_norm expected_norm = Ok ratio -> fgeb ratio (lit 7 10) = false) ->
      _evaluate_build_sentence user_norm expected_norm user_raw expected_raw
      = Ok {| is_correct := false;
              score := lit 0 1;
              feedback := Resposta_incorreta_Correto expected_raw;
              error_category := Some "meaning"%string |}).
Proof.
  unfold _evaluate_build_sentence, word_ratio, common_words.
  rewrite size_intersection, size_list_to_set.
  split; [|split].
  - intros Hs. rewrite bool_decide_eq_true_2 by (apply same_words_sets; exact Hs).
    reflexivity.
  - intros Hs ratio Hr Hge.
    rewrite bool_decide_eq_false_2 by (rewrite same_words_sets; exact Hs).
    destruct (Z.ltb_spec 0 (distinct (split expected_norm))) as [Hpos|Hzero].
    + rewrite Hr. cbn [rbind]. rewrite Hge. reflexivity.
    + exfalso. unfold int_truediv in Hr.
      assert (Hd : distinct (split expected_norm) = 0) by (unfold distinct in *; lia).
      rewrite Hd in Hr. discriminate Hr.
  - intros Hs Hr.
    rewrite bool_decide_eq_false_2 by (rewrite same_words_sets; exact Hs).
    destruct (Z.ltb_spec 0 (distinct (split expected_norm))) as [Hpos|Hzero]; [|reflexivity].
    destruct (word_ratio_defined user_norm expected_norm Hpos) as (k & Ek & _).
    unfold word_ratio, common_words in Ek, Hr. rewrite Ek. cbn [rbind].
    rewrite (Hr _ Ek). reflexivity.
Qed.

(** A submission that passes the blank test and matches nothing exactly is
    handed to the evaluation by type. *)
Lemma evaluate_answer_build_sentence user_answer expected_answer tolerance :
  is_blank user_answer = false ->
  _normalize_answer lower user_answer <> _normalize_answer lower expected_answer ->
  _normalize_answer lower user_answer
    ∉ map (_normalize_answer lower) (split_on SLASH expected_answer) ->
  evaluate_answer lower user_answer expected_answer BUILD_SENTENCE tolerance
  = _evaluate_build_sentence (_normalize_answer lower user_answer)
      (_normalize_answer lower expected_answer) user_answer expected_answer.
Proof.
  intros Hblank Hexact Halt.
  unfold evaluate_answer. rewrite Hblank.
  unfold str_eqb at 1. rewrite bool_decide_eq_false_2 by exact Hexact.
  rewrite existsb_str_eqb_false by exact Halt.
  reflexivity.
Qed.

(** C8: a BuildSentence submission that is not blank and matches neither
    the normalized expected answer nor one of its normalized alternatives is
    incorrect, and: with the same words as the expected answer its score is
    0.7 and its category "order"; otherwise, when the share of the expected
    words it uses is at least 0.7, that share is its score and its category
    is "order"; otherwise its score is 0 and its category "meaning". *)
Theorem build_sentence_evaluation user_answer expected_answer tolerance :
  is_blank user_answer = false ->
  _normalize_answer lower user_answer <> _normalize_answer lower expected_answer ->
  _normalize_answer lower user_answer
    ∉ map (_normalize_answer lower) (split_on SLASH expected_answer) ->
  (same_words (_normalize_answer lower user_answer) (_normalize_answer lower expected_answer) ->
   evaluate_answer lower user_answer expected_answer BUILD_SENTENCE tolerance
   = Ok {| is_correct := false;
           score := lit 7 10;
           feedback := Palavras_corretas_ordem_errada expected_answer;
           error_category := Some "order"%string |})
  /\ (~ same_words (_normalize_answer lower user_answer)
          (_normalize_answer lower expected_answer) ->
      forall ratio,
        word_ratio (_normalize_answer lower user_answer)
          (_normalize_answer lower expected_answer) = Ok ratio ->
        fgeb ratio (lit 7 10) = true ->
        evaluate_answer lower user_answer expected_answer BUILD_SENTENCE tolerance
        = Ok {| is_correct := false;
                score := ratio;
                feedback := Quase_verifique_as_palavras expected_answer;
                error_category := Some "order"%string |})
  /\ (~ same_words (_normalize_answer lower user_answer)
          (_normalize_answer lower expected_answer) ->
      (forall ratio,
          word_ratio (_normalize_answer lower user_answer)
            (_normalize_answer lower expected_answer) = Ok ratio ->
          fgeb ratio (lit 7 10) = false) ->
      evaluate_answer lower user_answer expected_answer BUILD_SENTENCE tolerance
      = Ok {| is_correct := false;
              score := lit 0 1;
              feedback := Resposta_incorreta_Correto expected_answer;
              error_category := Some "meaning"%string |}).
Proof.
  intros Hblank Hexact Halt.
  rewrite evaluate_answer_build_sentence by assumption.
  apply _evaluate_build_sentence_cases.
Qed.

End Evaluator.

End ExerciseFacts.

Lemma build_sentence_evaluation_witness :
  Exercise.evaluate_answer Exercise.ascii_lower [66; 32; 97] [97; 32; 98; 46] BUILD_SENTENCE
    (lit 85 100)
  = Ok {| Exercise.is_correct := false;
          Exercise.score := lit 7 10;
          Exercise.feedback := Exercise.Palavras_corretas_ordem_errada [97; 32; 98; 46];
          Exercise.error_category := Some "order"%string |}.
Proof.
  destruct (ExerciseFacts.build_sentence_evaluation Exercise.ascii_lower
              [66; 32; 97] [97; 32; 98; 46] (lit 85 100)) as (Hsame & _ & _).
  - vm_compute. reflexivity.
  - vm_compute. discriminate.
  - apply (bool_decide_unpack _). vm_compute. exact I.
  - apply Hsame. apply ExerciseFacts.same_words_sets. vm_compute. reflexivity.
Defined.

(** The second scenario of the specification for BuildSentence: the
    expected sentence is written without spaces, so it is one word, and the
    four words of the submission share nothing with it. *)
Example build_sentence_unspaced_expected :
  Exercise.evaluate_answer Exercise.ascii_lower
    [39135; 12409; 12414; 12377; 32; 31169; 12399; 32; 27598; 26085; 32; 12372; 39151; 12434]
    [31169; 12399; 27598; 26085; 12372; 39151; 12434; 39135; 12409; 12414; 12377]
    BUILD_SENTENCE (lit 85 100)
  = Ok {| Exercise.is_correct := false;
          Exercise.score := lit 0 1;
          Exercise.feedback :=
            Exercise.Resposta_incorreta_Correto
              [31169; 12399; 27598; 26085; 12372; 39151; 12434; 39135; 12409; 12414; 12377];
          Exercise.error_category := Some "meaning"%string |}.
Proof. vm_compute. reflexivity. Qed.

(* ===================================================================== *)
(** * Properties of the error-pattern detector *)
(* ===================================================================== *)

Module AdaptationFacts.

Import Adaptation.

Lemma touches_only_refl t db : touches_only t db db.
Proof. repeat split. Qed.

Lemma touches_only_trans t db1 db2 db3 :
  touches_only t db1 db2 -> touches_only t db2 db3 -> touches_only t db1 db3.
Proof.
  intros (P1 & C1 & X1 & S1 & R1) (P2 & C2 & X2 & S2 & R2).
  repeat split; try congruence.
  intros t' Ht. rewrite P2, P1 by assumption. reflexivity.
Qed.

Lemma touches_only_srs t l db : touches_only t db (set_srs_states l db).
Proof. repeat split. Qed.

(** Replacing a row that a filter drops by another row it drops. *)
Lemma filter_insert_dropped {A : Type} (P : A -> Prop) `{forall x, Decision (P x)}
    (l : list A) (i : nat) (x y : A) :
  l !! i = Some x -> ~ P x -> ~ P y -> filter P (<[i := y]> l) = filter P l.
Proof.
  revert i. induction l as [|a l IH]; intros i Hl Hx Hy; [reflexivity|].
  destruct i as [|i]; simpl in *.
  - inversion Hl. subst a. rewrite !filter_cons_False by assumption. reflexivity.
  - rewrite !filter_cons. rewrite (IH i) by assumption. reflexivity.
Qed.

(** ** [_upsert_pattern] *)

Lemma _upsert_pattern_run user_id pattern_type description affected_cards now stamp db :
  _upsert_pattern user_id pattern_type description affected_cards now stamp db
  = match query_active_pattern user_id pattern_type db with
    | Some (i, existing) =>
        (Ok (reinforced existing description affected_cards now),
         set_error_patterns
           (<[i := reinforced existing description affected_cards now]> (error_patterns db)) db)
    | None =>
        (Ok (created db user_id pattern_type description affected_cards stamp),
         set_error_patterns
           (error_patterns db ++ [created db user_id pattern_type description affected_cards stamp])
           db)
    end.
Proof.
  unfold _upsert_pattern, bind, get. cbn beta iota.
  destruct (query_active_pattern user_id pattern_type db) as [[i existing]|]; reflexivity.
Qed.

Lemma query_active_pattern_Some user_id pattern_type db i existing :
  query_active_pattern user_id pattern_type db = Some (i, existing) ->
  error_patterns db !! i = Some existing
  /\ ErrorPattern.user_id existing = user_id
  /\ ErrorPattern.pattern_type existing = pattern_type
  /\ ErrorPattern.is_active existing = true.
Proof.
  unfold query_active_pattern. intros H.
  apply list_find_Some in H. destruct H as (Hl & (Hu & Ht & Ha) & _).
  repeat split; assumption.
Qed.

Lemma _upsert_pattern_touches user_id pattern_type description affected_cards now stamp db :
  touches_only pattern_type db
    (snd (_upsert_pattern user_id pattern_type description affected_cards now stamp db))
  /\ srs_states (snd (_upsert_pattern user_id pattern_type description affected_cards now stamp db))
     = srs_states db
  /\ exists p, fst (_upsert_pattern user_id pattern_type description affected_cards now stamp db)
               = Ok p.
Proof.
  rewrite _upsert_pattern_run.
  destruct (query_active_pattern user_id pattern_type db) as [[i existing]|] eqn:Eq.
  - apply query_active_pattern_Some in Eq. destruct Eq as (Hl & Hu & Ht & Ha).
    split; [|split; [reflexivity | eexists; reflexivity]].
    repeat split. intros t' Hne. unfold patterns_of. simpl.
    eapply filter_insert_dropped; [exact Hl | |]; simpl; congruence.
  - split; [|split; [reflexivity | eexists; reflexivity]].
    repeat split. intros t' Hne. unfold patterns_of. simpl.
    rewrite filter_app. rewrite filter_cons_False by (simpl; congruence).
    rewrite filter_nil, app_nil_r. reflexivity.
Qed.

(** ** [_apply_srs_penalty_to_cards] *)

Lemma _apply_srs_penalty_to_cards_run card_ids penalty db :
  exists l, _apply_srs_penalty_to_cards card_ids penalty db = (Ok tt, set_srs_states l db).
Proof.
  unfold _apply_srs_penalty_to_cards.
  assert (Hgen : forall db0 l0, exists l,
             for_each card_ids
               (fun card_id =>
                  do db1 <- get;
                  match list_find (fun s => SRSState.card_id s = card_id) (srs_states db1) with
                  | Some (i, srs) =>
                      put (set_srs_states
                             (<[i := with_penalty (py_min (lit 1 1) penalty) srs]>
                                (srs_states db1)) db1)
                  | None => ret tt
                  end) (set_srs_states l0 db0)
             = (Ok tt, set_srs_states l db0)).
  { induction card_ids as [|c ids IH]; intros db0 l0.
    - exists l0. reflexivity.
    - cbn [for_each]. unfold bind at 1. unfold bind at 1. unfold get at 1. cbn beta iota.
      destruct (list_find _ _) as [[i srs]|].
      + unfold put at 1. cbn beta iota.
        destruct (IH db0 (<[i := with_penalty (py_min (lit 1 1) penalty) srs]> l0)) as [l Hl].
        exists l. exact Hl.
      + unfold ret at 1. cbn beta iota. apply IH. }
  destruct (Hgen db (srs_states db)) as [l Hl].
  exists l. destruct db. exact Hl.
Qed.


(** ** The three analyses *)

Lemma keeps_refl t db : keeps t db db.
Proof. repeat split. Qed.

Lemma keeps_trans t db1 db2 db3 : keeps t db1 db2 -> keeps t db2 db3 -> keeps t db1 db3.
Proof.
  intros (P1 & C1 & X1 & S1 & R1) (P2 & C2 & X2 & S2 & R2).
  repeat split; congruence.
Qed.

Lemma touches_only_keeps t t' db db' : t' <> t -> touches_only t db db' -> keeps t' db db'.
Proof. intros Hne (P & C & X & S & R). repeat split; auto. Qed.

Lemma bind_get {A : Type} (k : Db -> M A) db : bind get k db = k db db.
Proof. reflexivity. Qed.

Lemma bind_ret {A B : Type} (a : A) (k : A -> M B) db : bind (ret a) k db = k a db.
Proof. reflexivity. Qed.

Lemma bind_lift_ok {A B : Type} (a : A) (k : A -> M B) db : bind (lift (Ok a)) k db = k a db.
Proof. reflexivity. Qed.

Lemma bind_lift_raise {A B : Type} (e : exn) (k : A -> M B) db :
  bind (lift (Raise e)) k db = (Raise e, db).
Proof. reflexivity. Qed.

(** A detection: an upsert of type [t], then maybe penalties. *)
Lemma detection_touches {A : Type} user_id t description affected_cards now stamp db
    (after : ErrorPattern.t -> M A) :
  (forall p db1, exists l, snd (after p db1) = set_srs_states l db1) ->
  touches_only t db
    (snd (bind (_upsert_pattern user_id t description affected_cards now stamp) after db)).
Proof.
  intros Hafter. unfold bind.
  destruct (_upsert_pattern_touches user_id t description affected_cards now stamp db)
    as (Ht & _ & p & Hp).
  destruct (_upsert_pattern user_id t description affected_cards now stamp db) as [r db1].
  simpl in Hp, Ht. subst r.
  destruct (Hafter p db1) as [l Hl]. rewrite Hl.
  eapply touches_only_trans; [exact Ht | apply touches_only_srs].
Qed.

Lemma _analyze_vocab_errors_touches user_id reviews now stamp db :
  touches_only VOCAB_WEAKNESS db (snd (_analyze_vocab_errors user_id reviews now stamp db)).
Proof.
  unfold _analyze_vocab_errors. rewrite bind_get.
  destruct (filter (fun r => _get_card_type (ReviewLog.card_id r) db = Some VOCAB) reviews)
    as [|r0 rs]; [apply touches_only_refl|].
  destruct (int_truediv _ _) as [error_rate|e].
  - rewrite bind_lift_ok.
    destruct (fgeb error_rate VOCAB_ERROR_THRESHOLD); [|apply touches_only_refl].
    apply detection_touches. intros p db1. unfold bind.
    destruct (_apply_srs_penalty_to_cards_run
                (list_of_set (ReviewLog.card_id <$>
                   filter (fun review =>
                             Card.card_type <$> query_card (ReviewLog.card_id review) db
                             = Some VOCAB /\ ReviewLog.was_correct review = false) reviews))
                (lit 6 10) db1) as [l Hl].
    rewrite Hl. exists l. reflexivity.
  - rewrite bind_lift_raise. apply touches_only_refl.
Qed.


Lemma _analyze_grammar_errors_touches user_id reviews now stamp db :
  touches_only GRAMMAR_CONFUSION db (snd (_analyze_grammar_errors user_id reviews now stamp db)).
Proof.
  unfold _analyze_grammar_errors. rewrite bind_get.
  destruct (filter (fun r => _get_card_type (ReviewLog.card_id r) db = Some GRAMMAR) reviews)
    as [|r0 rs]; [apply touches_only_refl|].
  destruct (int_truediv _ _) as [error_rate|e].
  - rewrite bind_lift_ok.
    destruct (fgeb error_rate GRAMMAR_ERROR_THRESHOLD); [|apply touches_only_refl].
    apply detection_touches. intros p db1. unfold bind.
    destruct (_apply_srs_penalty_to_cards_run
                (list_of_set (ReviewLog.card_id <$>
                   filter (fun review =>
                             _get_card_type (ReviewLog.card_id review) db = Some GRAMMAR
                             /\ ReviewLog.was_correct review = false) reviews))
                (lit 5 10) db1) as [l Hl].
    rewrite Hl. exists l. reflexivity.
  - rewrite bind_lift_raise. apply touches_only_refl.
Qed.

Lemma _analyze_structure_errors_touches user_id submissions now stamp db :
  touches_only STRUCTURE_CONFUSION db
    (snd (_analyze_structure_errors user_id submissions now stamp db)).
Proof.
  unfold _analyze_structure_errors. rewrite bind_get.
  destruct (filter (fun s => _get_exercise_type (ExerciseSubmission.exercise_id s) db
                             = Some BUILD_SENTENCE) submissions)
    as [|s0 ss]; [apply touches_only_refl|].
  destruct (int_truediv _ _) as [error_rate|e].
  - rewrite bind_lift_ok.
    destruct (fgeb error_rate STRUCTURE_ERROR_THRESHOLD); [|apply touches_only_refl].
    apply detection_touches. intros p db1. exists (srs_states db1). destruct db1. reflexivity.
  - rewrite bind_lift_raise. apply touches_only_refl.
Qed.

Lemma leb_min_false n : n < MIN_REVIEWS_FOR_ANALYSIS -> (MIN_REVIEWS_FOR_ANALYSIS <=? n) = false.
Proof. intros H. apply Z.leb_gt. exact H. Qed.

(** The review half of a pass leaves the structure patterns and the
    history alone. *)
Lemma review_analysis_keeps user_id now stamp now' stamp' reviews db :
  keeps STRUCTURE_CONFUSION db
    (snd ((do vocab_patterns <- _analyze_vocab_errors user_id reviews now stamp;
           do grammar_patterns <- _analyze_grammar_errors user_id reviews now' stamp';
           ret (vocab_patterns ++ grammar_patterns)) db)).
Proof.
  unfold bind.
  pose proof (_analyze_vocab_errors_touches user_id reviews now stamp db) as Hv.
  destruct (_analyze_vocab_errors user_id reviews now stamp db) as [[vp|e] db1]; simpl in Hv.
  - pose proof (_analyze_grammar_errors_touches user_id reviews now' stamp' db1) as Hg.
    destruct (_analyze_grammar_errors user_id reviews now' stamp' db1) as [[gp|e] db2];
      simpl in Hg;
      simpl; (eapply keeps_trans; [eapply touches_only_keeps; [|exact Hv]
                                  | eapply touches_only_keeps; [|exact Hg]]); discriminate.
  - simpl. eapply touches_only_keeps; [|exact Hv]. discriminate.
Qed.

Lemma analyze_and_update_patterns_run user_id now seen stamp cutoff db :
  window_start now = Ok cutoff ->
  analyze_and_update_patterns user_id now seen stamp db
  = (do review_patterns <-
       (if MIN_REVIEWS_FOR_ANALYSIS <=? len (recent_reviews_of user_id cutoff db) then
          do vocab_patterns <-
            _analyze_vocab_errors user_id (recent_reviews_of user_id cutoff db)
              (seen VOCAB_WEAKNESS) (stamp VOCAB_WEAKNESS);
          do grammar_patterns <-
            _analyze_grammar_errors user_id (recent_reviews_of user_id cutoff db)
              (seen GRAMMAR_CONFUSION) (stamp GRAMMAR_CONFUSION);
          ret (vocab_patterns ++ grammar_patterns)
        else ret []);
     do db1 <- get;
     do structure_patterns <-
       (if MIN_REVIEWS_FOR_ANALYSIS <=? len (recent_submissions_of user_id cutoff db1) then
          _analyze_structure_errors user_id (recent_submissions_of user_id cutoff db1)
            (seen STRUCTURE_CONFUSION) (stamp STRUCTURE_CONFUSION)
        else ret []);
     ret (review_patterns ++ structure_patterns)) db.
Proof.
  unfold window_start, analyze_and_update_patterns. intros H.
  destruct (Dt.timedelta_days ANALYSIS_WINDOW_DAYS) as [window|e]; [|discriminate H].
  cbn [rbind] in H. rewrite bind_lift_ok. rewrite H, bind_lift_ok, bind_get. reflexivity.
Qed.


(** ** [resolve_pattern_if_improved] *)

Lemma set_error_patterns_twice l l' db :
  set_error_patterns l (set_error_patterns l' db) = set_error_patterns l db.
Proof. reflexivity. Qed.

Lemma set_error_patterns_same db : set_error_patterns (error_patterns db) db = db.
Proof. destruct db. reflexivity. Qed.

Lemma len_filter_le {A : Type} (P : A -> Prop) `{forall x, Decision (P x)} (l : list A) :
  0 <= len (filter P l) <= len l.
Proof. unfold len. pose proof (length_filter P l). lia. Qed.

(** The quotient of the loop body is defined. *)
Lemma error_rate_defined (reviews : list ReviewLog.t) :
  MIN_REVIEWS_FOR_ANALYSIS <= len reviews ->
  exists k,
    int_truediv (len (filter (fun r => ReviewLog.was_correct r = false) reviews)) (len reviews)
    = Ok (Fin k).
Proof.
  intros Hmin.
  destruct (int_truediv_fraction
              (len (filter (fun r => ReviewLog.was_correct r = false) reviews)) (len reviews))
    as (k & E & _).
  - apply len_filter_le.
  - unfold MIN_REVIEWS_FOR_ANALYSIS in Hmin. lia.
  - exists k. exact E.
Qed.

Lemma resolve_pattern_if_improved_run user_id now cutoff db :
  window_start now = Ok cutoff ->
  resolve_pattern_if_improved user_id now db
  = (Ok (deactivate <$> filter (fun p => resolves user_id (recent_reviews_of user_id cutoff db) p
                                         = true) (error_patterns db)),
     set_error_patterns
       ((fun p => if resolves user_id (recent_reviews_of user_id cutoff db) p
                  then deactivate p else p) <$> error_patterns db) db).
Proof.
  unfold window_start, resolve_pattern_if_improved. intros H.
  destruct (Dt.timedelta_days ANALYSIS_WINDOW_DAYS) as [window|e]; [|discriminate H].
  cbn [rbind] in H. rewrite bind_lift_ok. rewrite H, bind_lift_ok, bind_get.
  set (recent := recent_reviews_of user_id cutoff db).
  match goal with |- for_collect _ ?b _ = _ => set (body := b) end.
  assert (Hbody : forall i p db0,
             body (i, p) db0
             = if improved recent p
               then (Ok [deactivate p],
                     set_error_patterns (alter deactivate i (error_patterns db0)) db0)
               else (Ok [], db0)).
  { intros i p db0. unfold body, improved. cbn [fst snd].
    destruct (ErrorPattern.items_affected p) as [[|c items]|]; try reflexivity.
    destruct (Z.leb_spec MIN_REVIEWS_FOR_ANALYSIS
                (len (filter (fun r => ReviewLog.card_id r ∈ (list_to_set (c :: items) : gset Z))
                        recent))) as [Hmin|Hfew]; [|reflexivity].
    destruct (error_rate_defined _ Hmin) as (k & ->).
    rewrite bind_lift_ok. destruct (fltb (Fin k) (lit 20 100)); reflexivity. }
  clearbody body.
  set (f := fun p => if resolves user_id recent p then deactivate p else p).
  assert (Hloop : forall rest pre,
             for_collect
               (filter (fun ip => ErrorPattern.user_id (snd ip) = user_id
                                  /\ ErrorPattern.is_active (snd ip) = true)
                  (zip (seq (length pre) (length rest)) rest))
               body (set_error_patterns (pre ++ rest) db)
             = (Ok (deactivate <$> filter (fun p => resolves user_id recent p = true) rest),
                set_error_patterns (pre ++ (f <$> rest)) db)).
  { induction rest as [|p rest IH]; intros pre; [reflexivity|].
    cbn [length seq zip zip_with fmap list_fmap].
    specialize (IH (pre ++ [f p])). rewrite length_app, Nat.add_1_r in IH.
    rewrite <- !app_assoc in IH. cbn [app] in IH.
    rewrite !filter_cons. cbn [snd].
    destruct (decide (ErrorPattern.user_id p = user_id /\ ErrorPattern.is_active p = true))
      as [[Hu Ha]|Hno].
    - assert (Hres : resolves user_id recent p = improved recent p).
      { unfold resolves. rewrite bool_decide_eq_true_2, Ha by exact Hu. reflexivity. }
      assert (Hf : f p = if improved recent p then deactivate p else p)
        by (unfold f; rewrite Hres; reflexivity).
      rewrite Hf in IH |- *. rewrite Hres.
      cbn [for_collect]. unfold bind at 1. rewrite Hbody.
      destruct (improved recent p).
      + cbn [error_patterns set_error_patterns].
        replace (alter deactivate (length pre) (pre ++ p :: rest))
          with (pre ++ deactivate p :: rest)
          by (rewrite alter_app_r_alt, Nat.sub_diag by lia; reflexivity).
        unfold bind. rewrite set_error_patterns_twice, IH.
        rewrite decide_True by reflexivity. reflexivity.
      + unfold bind. rewrite IH. rewrite decide_False by discriminate. reflexivity.
    - assert (Hres : resolves user_id recent p = false).
      { unfold resolves. destruct (bool_decide_reflect (ErrorPattern.user_id p = user_id));
          [|reflexivity].
        destruct (ErrorPattern.is_active p); [|reflexivity]. exfalso. apply Hno. auto. }
      assert (Hf : f p = p) by (unfold f; rewrite Hres; reflexivity).
      rewrite Hf in IH |- *. rewrite Hres, IH.
      rewrite decide_False by discriminate. reflexivity. }
  specialize (Hloop (error_patterns db) []). cbn [app length] in Hloop.
  rewrite set_error_patterns_same in Hloop. exact Hloop.
Qed.

(** A resolved pattern is in the table afterwards, inactive, and but for
    that flag as it was. *)
Lemma resolved_patterns_inactive user_id now cutoff db resolved db' p :
  window_start now = Ok cutoff ->
  resolve_pattern_if_improved user_id now db = (Ok resolved, db') ->
  p ∈ resolved ->
  ErrorPattern.is_active p = false
  /\ p ∈ error_patterns db'
  /\ exists p0, p0 ∈ error_patterns db /\ ErrorPattern.is_active p0 = true /\ p = deactivate p0.
Proof.
  intros Hw Hrun Hp. rewrite (resolve_pattern_if_improved_run _ _ _ _ Hw) in Hrun.
  inversion Hrun. subst resolved db'. clear Hrun.
  apply list_elem_of_fmap in Hp. destruct Hp as (p0 & -> & Hp0).
  apply list_elem_of_filter in Hp0. destruct Hp0 as [Hres Hin].
  split; [reflexivity|]. split.
  - simpl. apply list_elem_of_fmap. exists p0. rewrite Hres. split; [reflexivity | exact Hin].
  - exists p0. split; [exact Hin|]. split; [|reflexivity].
    unfold resolves in Hres. destruct (ErrorPattern.is_active p0); [reflexivity|].
    rewrite andb_false_r in Hres. discriminate Hres.
Qed.

End AdaptationFacts.

Import Adaptation AdaptationFacts.

(** C3, as stated, fails: with five reviews in the window of which one is
    of a vocabulary card, and wrong, the pass creates a vocabulary pattern
    from that single sample. *)
Lemma vocabulary_pattern_from_one_sample :
  exists cutoff p,
    window_start example_now = Ok cutoff
    /\ len (filter (fun r => _get_card_type (ReviewLog.card_id r) one_vocab_review_db
                             = Some VOCAB)
              (recent_reviews_of 1 cutoff one_vocab_review_db)) = 1
    /\ error_patterns one_vocab_review_db = []
    /\ error_patterns
         (snd (analyze_and_update_patterns 1 example_now example_times example_times
                 one_vocab_review_db))
       = [p]
    /\ ErrorPattern.pattern_type p = VOCAB_WEAKNESS
    /\ ErrorPattern.count p = 1
    /\ ErrorPattern.is_active p = true.
Proof.
  eexists. eexists.
  split; [vm_compute; reflexivity|]. split; [vm_compute; reflexivity|].
  split; [reflexivity|]. split; [vm_compute; reflexivity|].
  repeat split.
Qed.

(** C3, amended: the pass draws a conclusion for vocabulary or grammar only
    when the learner has at least 5 Review Events, of whatever category, in
    the trailing 7-day window, and for structure only when the learner has
    at least 5 Answer Submissions, of whatever type, in it; with fewer, no
    Error Pattern of those categories is created or updated. *)
Theorem analysis_needs_five_records user_id now seen stamp cutoff db :
  window_start now = Ok cutoff ->
  (len (recent_reviews_of user_id cutoff db) < MIN_REVIEWS_FOR_ANALYSIS ->
   patterns_of VOCAB_WEAKNESS (snd (analyze_and_update_patterns user_id now seen stamp db))
   = patterns_of VOCAB_WEAKNESS db
   /\ patterns_of GRAMMAR_CONFUSION (snd (analyze_and_update_patterns user_id now seen stamp db))
      = patterns_of GRAMMAR_CONFUSION db)
  /\ (len (recent_submissions_of user_id cutoff db) < MIN_REVIEWS_FOR_ANALYSIS ->
      patterns_of STRUCTURE_CONFUSION (snd (analyze_and_update_patterns user_id now seen stamp db))
      = patterns_of STRUCTURE_CONFUSION db).
Proof.
  intros Hw. rewrite (analyze_and_update_patterns_run _ _ _ _ _ _ Hw). split.
  - intros Hfew. rewrite leb_min_false by exact Hfew.
    rewrite bind_ret, bind_get.
    assert (Ht : touches_only STRUCTURE_CONFUSION db
                   (snd ((do structure_patterns <-
                            (if MIN_REVIEWS_FOR_ANALYSIS
                                <=? len (recent_submissions_of user_id cutoff db)
                             then _analyze_structure_errors user_id
                                    (recent_submissions_of user_id cutoff db)
                                    (seen STRUCTURE_CONFUSION) (stamp STRUCTURE_CONFUSION)
                             else ret []);
                          ret ([] ++ structure_patterns)) db))).
    { unfold bind. destruct (_ <=? _).
      - pose proof (_analyze_structure_errors_touches user_id
                      (recent_submissions_of user_id cutoff db)
                      (seen STRUCTURE_CONFUSION) (stamp STRUCTURE_CONFUSION) db) as Hs.
        destruct (_analyze_structure_errors _ _ _ _ _) as [[sp|e] db1]; exact Hs.
      - apply touches_only_refl. }
    destruct Ht as (Hp & _). split; apply Hp; discriminate.
  - intros Hfew. unfold bind at 1.
    assert (Hk : keeps STRUCTURE_CONFUSION db
                   (snd ((if MIN_REVIEWS_FOR_ANALYSIS
                             <=? len (recent_reviews_of user_id cutoff db)
                          then
                            do vocab_patterns <-
                              _analyze_vocab_errors user_id
                                (recent_reviews_of user_id cutoff db)
                                (seen VOCAB_WEAKNESS) (stamp VOCAB_WEAKNESS);
                            do grammar_patterns <-
                              _analyze_grammar_errors user_id
                                (recent_reviews_of user_id cutoff db)
                                (seen GRAMMAR_CONFUSION) (stamp GRAMMAR_CONFUSION);
                            ret (vocab_patterns ++ grammar_patterns)
                          else ret []) db))).
    { destruct (_ <=? _); [apply review_analysis_keeps | apply keeps_refl]. }
    match type of Hk with
    | keeps _ _ (snd ?m) => destruct m as [[rp|e] db1]
    end; simpl in Hk.
    + destruct Hk as (Hp & _ & _ & Hs & _).
      rewrite bind_get. unfold recent_submissions_of at 1. rewrite Hs.
      fold (recent_submissions_of user_id cutoff db).
      rewrite leb_min_false by exact Hfew. rewrite bind_ret. exact Hp.
    + destruct Hk as (Hp & _). exact Hp.
Qed.

Lemma analysis_needs_five_records_witness :
  patterns_of VOCAB_WEAKNESS
    (snd (analyze_and_update_patterns 1 example_now example_times example_times
            four_reviews_db))
  = patterns_of VOCAB_WEAKNESS four_reviews_db.
Proof.
  destruct (analysis_needs_five_records 1 example_now example_times example_times
              (example_now - 7 * Dt.US_PER_DAY) four_reviews_db) as [Hreviews _].
  - vm_compute. reflexivity.
  - apply Hreviews. vm_compute. reflexivity.
Defined.

(** C10: an upsert never touches a deactivated pattern, and when the
    learner has no active pattern of the detected type left (the one there
    was has been deactivated) it adds a new pattern with count 1, severity
    0.2 and the active flag set, after the rows that were there, which stay
    as they were. *)
Theorem upsert_skips_deactivated_patterns user_id pattern_type description affected_cards
    now stamp db :
  (forall i p,
      error_patterns db !! i = Some p ->
      ErrorPattern.is_active p = false ->
      error_patterns
        (snd (_upsert_pattern user_id pattern_type description affected_cards now stamp db)) !! i
      = Some p)
  /\ (Forall (fun p => ErrorPattern.user_id p = user_id ->
                       ErrorPattern.pattern_type p = pattern_type ->
                       ErrorPattern.is_active p = false) (error_patterns db) ->
      exists fresh,
        _upsert_pattern user_id pattern_type description affected_cards now stamp db
        = (Ok fresh, set_error_patterns (error_patterns db ++ [fresh]) db)
        /\ ErrorPattern.user_id fresh = user_id
        /\ ErrorPattern.pattern_type fresh = pattern_type
        /\ ErrorPattern.count fresh = 1
        /\ ErrorPattern.severity fresh = lit 2 10
        /\ ErrorPattern.is_active fresh = true).
Proof.
  rewrite _upsert_pattern_run. split.
  - intros i p Hl Hp.
    destruct (query_active_pattern user_id pattern_type db) as [[j existing]|] eqn:Eq; simpl.
    + apply query_active_pattern_Some in Eq. destruct Eq as (Hj & _ & _ & Ha).
      rewrite list_lookup_insert_ne; [exact Hl|].
      intros ->. rewrite Hl in Hj. inversion Hj. congruence.
    + apply lookup_app_l_Some. exact Hl.
  - intros Hall.
    destruct (query_active_pattern user_id pattern_type db) as [[j existing]|] eqn:Eq.
    + exfalso. apply query_active_pattern_Some in Eq. destruct Eq as (Hj & Hu & Ht & Ha).
      rewrite Forall_lookup in Hall. specialize (Hall j existing Hj Hu Ht). congruence.
    + eexists. split; [reflexivity|]. repeat split.
Qed.

(** The resolution pass deactivates the pattern of [recovered_db]; the next
    detection of a vocabulary weakness leaves that row as it is and adds a
    fresh one. *)
Lemma upsert_skips_deactivated_patterns_witness :
  exists fresh,
    error_patterns (snd (resolve_pattern_if_improved 1 example_now recovered_db))
    = [deactivate example_pattern]
    /\ snd (_upsert_pattern 1 VOCAB_WEAKNESS (Taxa_de_erro_em_vocabulario (lit 1 1)) [1]
              example_now example_now
              (snd (resolve_pattern_if_improved 1 example_now recovered_db)))
       = set_error_patterns [deactivate example_pattern; fresh]
           (snd (resolve_pattern_if_improved 1 example_now recovered_db))
    /\ ErrorPattern.count fresh = 1
    /\ ErrorPattern.severity fresh = lit 2 10
    /\ ErrorPattern.is_active fresh = true.
Proof.
  destruct (upsert_skips_deactivated_patterns 1 VOCAB_WEAKNESS
              (Taxa_de_erro_em_vocabulario (lit 1 1)) [1] example_now example_now
              (snd (resolve_pattern_if_improved 1 example_now recovered_db)))
    as [_ Hfresh].
  destruct Hfresh as (fresh & Hrun & _ & _ & Hcount & Hseverity & Hactive).
  - apply (bool_decide_unpack _). vm_compute. exact I.
  - exists fresh. split; [vm_compute; reflexivity|].
    split; [rewrite Hrun; vm_compute; reflexivity|].
    split; [exact Hcount|]. split; [exact Hseverity | exact Hactive].
Defined.

(* ===================================================================== *)
(** * Properties of the review submission *)
(* ===================================================================== *)

Import Review.

(** C9: submitting a review for a card and learner without a scheduling
    record raises the not-found [ValueError] and leaves the store as it was,
    no record being created; and whenever [submit_review] raises, the store
    is as it was before the call: every error comes before the first
    assignment to the record. *)
Theorem submit_review_failure_changes_nothing user_id card_id quality response_time_ms
    clock db :
  (Forall (fun s => ~ (SRSState.card_id s = card_id /\ SRSState.user_id s = user_id))
     (srs_states db) ->
   submit_review user_id card_id quality response_time_ms clock db
   = (Raise (ValueError (SRSStateNotFound card_id)), db))
  /\ (forall e db',
        submit_review user_id card_id quality response_time_ms clock db = (Raise e, db') ->
        db' = db).
Proof.
  unfold submit_review. rewrite bind_get. split.
  - intros Hnone.
    assert (Hfind : list_find (fun s => SRSState.card_id s = card_id
                                        /\ SRSState.user_id s = user_id) (srs_states db)
                    = None) by (apply list_find_None; exact Hnone).
    rewrite Hfind. reflexivity.
  - intros e db'.
    destruct (list_find _ (srs_states db)) as [[i srs]|].
    + destruct (calculate_next_review _ _ _ _ _ _ _ _ _ _) as [r|e0].
      * rewrite bind_lift_ok. unfold bind, put, get, try_pass, ret.
        destruct (analyze_and_update_patterns user_id _ _ _ _) as [? ?].
        intros H. discriminate H.
      * rewrite bind_lift_raise. intros H. inversion H. reflexivity.
    + unfold raise. intros H. inversion H. reflexivity.
Qed.

Lemma submit_review_failure_changes_nothing_witness :
  submit_review 1 7 4 None example_clock one_vocab_review_db
  = (Raise (ValueError (SRSStateNotFound 7)), one_vocab_review_db).
Proof.
  destruct (submit_review_failure_changes_nothing 1 7 4 None example_clock
              one_vocab_review_db)
    as [Hmissing _].
  apply Hmissing. apply (bool_decide_unpack _). vm_compute. exact I.
Defined.

Import F64 Srs SrsSpec Adaptation AdaptationSpec F64Facts SrsFacts AdaptationFacts Review.

(* ===================================================================== *)
(** * More facts about rounding *)
(* ===================================================================== *)

Module F64More.

Lemma py_round_mono x y a b : fle x y -> py_round x = Ok a -> py_round y = Ok b -> a <= b.
Proof.
  destruct x as [k| | |], y as [l| | |]; intros H Hx Hy; try discriminate Hx; try discriminate Hy.
  apply fle_Fin in H. inversion Hx. inversion Hy. subst.
  apply rhe_mono; [apply U_pos | exact H].
Qed.

Lemma of_int_mono a b x y : a <= b -> of_int a = Ok x -> of_int b = Ok y -> fle x y.
Proof.
  unfold of_int. intros Hle Hx Hy. pose proof U_pos as HU.
  assert (Hm : fle (rnd (a * U) 1) (rnd (b * U) 1)) by (apply rnd_mono; nia).
  destruct (rnd (a * U) 1), (rnd (b * U) 1); try discriminate Hx; try discriminate Hy.
  inversion Hx. inversion Hy. subst. exact Hm.
Qed.

Lemma rhe_zero : rhe 0 U = 0.
Proof. apply (rhe_exact 0 U), U_pos. Qed.

Lemma of_int_Fin n x : of_int n = Ok x -> exists k, x = Fin k.
Proof.
  unfold of_int. destruct (rnd (n * U) 1); intros H; inversion H. eauto.
Qed.

Lemma py_round_Fin x n : py_round x = Ok n -> exists k, x = Fin k /\ n = rhe k U.
Proof. destruct x; intros H; inversion H. eauto. Qed.

(** A product that is finite has finite factors. *)
Lemma fmul_Fin x y s : fmul x y = Fin s -> exists a b, x = Fin a /\ y = Fin b.
Proof.
  destruct x as [a| | |], y as [b| | |]; simpl; intros H; try discriminate H; eauto;
    repeat match type of H with
      | (if ?c then _ else _) = _ => destruct c
      | finf ?s = _ => unfold finf in H
      end; discriminate H.
Qed.

Lemma fadd_Fin x y s : fadd x y = Fin s -> exists a b, x = Fin a /\ y = Fin b.
Proof.
  destruct x as [a| | |], y as [b| | |]; simpl; intros H; try discriminate H; eauto.
Qed.

Lemma fmul_mono_nonneg_l n a b :
  0 <= n -> a <= b -> fle (fmul (Fin n) (Fin a)) (fmul (Fin n) (Fin b)).
Proof.
  intros Hn Hab. cbn [fmul]. pose proof U_pos as HU. apply rnd_mono; try lia.
  apply Z.mul_le_mono_nonneg_r; [lia|]. apply Z.mul_le_mono_nonneg_l; lia.
Qed.

(** Addition is monotone in both operands wherever it is defined. *)
Lemma fadd_mono x1 y1 x2 y2 :
  fle x1 x2 -> fle y1 y2 -> fadd x1 y1 <> NaN -> fadd x2 y2 <> NaN ->
  fle (fadd x1 y1) (fadd x2 y2).
Proof.
  destruct x1 as [a1| | |], x2 as [a2| | |]; intros Hx; try discriminate Hx;
    destruct y1 as [b1| | |], y2 as [b2| | |]; intros Hy; try discriminate Hy;
    cbn [fadd]; intros N1 N2; try congruence; try reflexivity;
    try (apply fle_PInf, rnd_not_nan); try (apply fle_NInf, rnd_not_nan).
  apply fle_Fin in Hx. apply fle_Fin in Hy. apply rnd_mono; lia.
Qed.

End F64More.

Import F64More.

(* ===================================================================== *)
(** * More properties of the review scheduler *)
(* ===================================================================== *)

Module SrsMore.

Import Srs.

Lemma fadd_Fin_l_not_nan a x : x <> NaN -> fadd (Fin a) x <> NaN.
Proof. destruct x; cbn [fadd]; intros H; try congruence. apply rnd_not_nan. Qed.

Lemma fadd_Fin_r_not_nan a x : x <> NaN -> fadd x (Fin a) <> NaN.
Proof. destruct x; cbn [fadd]; intros H; try congruence. apply rnd_not_nan. Qed.

Lemma py_max_not_nan a x : py_max (Fin a) x <> NaN.
Proof. unfold py_max, fgtb. destruct x; simpl; try discriminate. destruct (_ <? _); discriminate. Qed.

(** ** Dates *)

Lemma mk_timedelta_value us delta : Dt.mk_timedelta us = Ok delta -> delta = us.
Proof. unfold Dt.mk_timedelta. destruct (_ && _); intros H; inversion H. reflexivity. Qed.

Lemma timedelta_days_value d delta : Dt.timedelta_days d = Ok delta -> delta = d * Dt.US_PER_DAY.
Proof. apply mk_timedelta_value. Qed.

Lemma timedelta_minutes_value m delta :
  Dt.timedelta_minutes m = Ok delta -> delta = m * Dt.US_PER_MINUTE.
Proof. apply mk_timedelta_value. Qed.

Lemma timedelta_hours_value h delta :
  Dt.timedelta_hours h = Ok delta -> delta = h * Dt.US_PER_HOUR.
Proof. apply mk_timedelta_value. Qed.

Lemma timedelta_days_in_range d :
  - Dt.TIMEDELTA_MAX_DAYS <= d <= Dt.TIMEDELTA_MAX_DAYS ->
  Dt.timedelta_days d = Ok (d * Dt.US_PER_DAY).
Proof.
  intros H. unfold Dt.timedelta_days, Dt.mk_timedelta.
  rewrite Z.div_mul by (vm_compute; discriminate).
  destruct (Z.leb_spec (- Dt.TIMEDELTA_MAX_DAYS) d); [|lia].
  destruct (Z.leb_spec d Dt.TIMEDELTA_MAX_DAYS); [|lia]. reflexivity.
Qed.

(** A step of the learning ladder that [py_index] finds is 1 or 10. *)
Lemma learning_step_value i step :
  py_index LEARNING_STEPS_MINUTES i = Ok step -> step = 1 \/ step = 10.
Proof.
  unfold py_index, LEARNING_STEPS_MINUTES. cbn [length].
  destruct (_ && _) eqn:E; [|discriminate].
  apply andb_prop in E. destruct E as [E1 E2].
  apply Z.leb_le in E1. apply Z.ltb_lt in E2.
  set (j := if i <? 0 then i + Z.of_nat 2 else i) in *.
  assert (Hj : j = 0 \/ j = 1) by lia.
  destruct Hj as [-> | ->]; simpl; intros H; inversion H; auto.
Qed.

Lemma learning_step_defined i :
  -2 <= i < 2 -> exists step, py_index LEARNING_STEPS_MINUTES i = Ok step.
Proof.
  intros Hi. assert (H : i = -2 \/ i = -1 \/ i = 0 \/ i = 1) by lia.
  destruct H as [-> | [-> | [-> | ->]]]; eexists; reflexivity.
Qed.

(** ** The adaptation penalty, whatever its value *)

(** The multiplier [1.0 - penalty * (1.0 - 0.70)] of a positive penalty is
    at most 1 when it is finite. *)
Lemma multiplier_le_one penalty m :
  fleb penalty (Fin 0) = false ->
  fsub (lit 1 1) (fmul penalty penalty_share) = Fin m -> m <= U.
Proof.
  intros Hpos Hm. rewrite lit_one, penalty_share_fin in Hm. unfold fsub in Hm.
  pose proof penalty_share_bounds as Hc. pose proof U_pos as HU.
  set (c := fin_val penalty_share) in *.
  destruct (fadd_Fin _ _ _ Hm) as (a & b & Ea & Eb).
  destruct (fmul penalty (Fin c)) as [t| | |] eqn:Et; try discriminate Eb.
  destruct (fmul_Fin _ _ _ Et) as (p & c' & -> & _).
  rewrite fleb_Fin in Hpos. apply Z.leb_gt in Hpos.
  assert (Ht : fle (Fin 0) (Fin t)).
  { rewrite <- Et. cbn [fmul]. apply rnd_nonneg; [assumption | nia]. }
  apply fle_Fin in Ht.
  assert (Hle : fle (Fin m) (Fin U)).
  { rewrite <- Hm. cbn [fopp fadd]. apply rnd_le_repr; [apply rnd_one | lia | lia]. }
  apply fle_Fin in Hle. exact Hle.
Qed.

Lemma int_repr z : 0 <= z <= 2 ^ 53 -> rnd (z * U) 1 = Fin (z * U).
Proof.
  intros Hz. destruct (Z.eq_dec z 0) as [->|Hn].
  - rewrite Z.mul_0_l. apply rnd_zero.
  - apply rnd_int_exact. lia.
Qed.

(** The penalised interval never exceeds the raw one (or 1, the floor),
    whatever the penalty. *)
Lemma _apply_adaptation_penalty_le raw penalty r :
  0 <= raw <= 2 ^ 53 ->
  _apply_adaptation_penalty raw penalty = Ok r -> r <= Z.max 1 raw.
Proof.
  intros Hraw. unfold _apply_adaptation_penalty.
  destruct (fleb penalty (Fin 0)) eqn:Hp; intros H.
  - inversion H. lia.
  - fold penalty_share in H. unfold int_mul_float in H.
    rewrite of_int_exact in H by exact Hraw. cbn [rbind] in H.
    apply rbind_ok in H. destruct H as (rounded & Er & H). inversion H. subst r. clear H.
    apply py_round_Fin in Er. destruct Er as (s & Es & ->).
    destruct (fmul_Fin _ _ _ Es) as (a & m & _ & Em).
    pose proof (multiplier_le_one _ _ Hp Em) as Hm.
    rewrite Em in Es. pose proof U_pos as HU.
    assert (Hs : fle (Fin s) (Fin (raw * U))).
    { rewrite <- Es. cbn [fmul]. apply rnd_le_repr; [apply int_repr; exact Hraw | assumption |].
      apply Z.mul_le_mono_nonneg_l; [nia | lia]. }
    apply fle_Fin in Hs.
    assert (rhe s U <= raw) by (apply rhe_le_int; lia). lia.
Qed.

(** The penalised interval grows with the raw one. *)
Lemma _apply_adaptation_penalty_mono raw1 raw2 penalty r1 r2 :
  0 <= raw1 <= raw2 ->
  _apply_adaptation_penalty raw1 penalty = Ok r1 ->
  _apply_adaptation_penalty raw2 penalty = Ok r2 ->
  Z.max 1 r1 <= Z.max 1 r2.
Proof.
  intros Hraw. unfold _apply_adaptation_penalty.
  destruct (fleb penalty (Fin 0)) eqn:Hp; intros H1 H2.
  - inversion H1. inversion H2. lia.
  - unfold int_mul_float in H1, H2.
    apply rbind_ok in H1. destruct H1 as (s1 & E1 & H1).
    apply rbind_ok in H2. destruct H2 as (s2 & E2 & H2).
    apply rbind_ok in E1. destruct E1 as (x1 & Ex1 & E1).
    apply rbind_ok in E2. destruct E2 as (x2 & Ex2 & E2).
    inversion E1. inversion E2. subst s1 s2. clear E1 E2.
    apply rbind_ok in H1. destruct H1 as (n1 & En1 & H1).
    apply rbind_ok in H2. destruct H2 as (n2 & En2 & H2).
    inversion H1. inversion H2. subst r1 r2. clear H1 H2.
    pose proof (of_int_mono _ _ _ _ (proj2 Hraw) Ex1 Ex2) as Hx.
    pose proof (of_int_mono 0 raw1 (Fin 0) x1 (proj1 Hraw)) as Hx0.
    assert (E0 : of_int 0 = Ok (Fin 0)) by (apply (of_int_exact 0); split; [lia|]; apply Z.pow_nonneg; lia).
    specialize (Hx0 E0 Ex1).
    destruct (py_round_Fin _ _ En1) as (k1 & Ek1 & ->).
    destruct (py_round_Fin _ _ En2) as (k2 & Ek2 & ->).
    destruct (fmul_Fin _ _ _ Ek1) as (a1 & m & -> & Em).
    destruct (fmul_Fin _ _ _ Ek2) as (a2 & m' & -> & _).
    rewrite Em in Ek1, Ek2. apply fle_Fin in Hx, Hx0. pose proof U_pos as HU.
    destruct (Z.lt_trichotomy m 0) as [Hneg | [-> | Hposm]].
    + assert (Hk1 : fle (Fin k1) (Fin 0)).
      { rewrite <- Ek1. cbn [fmul]. apply rnd_nonpos; [assumption | nia]. }
      assert (Hk2 : fle (Fin k2) (Fin 0)).
      { rewrite <- Ek2. cbn [fmul]. apply rnd_nonpos; [assumption | nia]. }
      apply fle_Fin in Hk1, Hk2.
      assert (rhe k1 U <= 0) by (apply rhe_le_int; lia).
      assert (rhe k2 U <= 0) by (apply rhe_le_int; lia). lia.
    + cbn [fmul] in Ek1, Ek2. rewrite Z.mul_0_r, rnd_zero_num in Ek1, Ek2 by assumption.
      inversion Ek1. inversion Ek2. subst. lia.
    + assert (Hk : fle (Fin k1) (Fin k2)).
      { rewrite <- Ek1, <- Ek2. apply fmul_mono_pos; [assumption | apply fle_Fin; assumption]. }
      apply fle_Fin in Hk.
      assert (rhe k1 U <= rhe k2 U) by (apply rhe_mono; assumption). lia.
Qed.

(** The due date of a result is later than [now]. *)
Lemma due_date_later quality current_state interval ease_factor repetitions lapses
    stability adaptation_penalty learning_step_index now r :
  calculate_next_review quality current_state interval ease_factor repetitions lapses
    stability adaptation_penalty learning_step_index now = Ok r ->
  now < new_due_date r.
Proof.
  unfold calculate_next_review. intros H.
  apply rbind_ok in H. destruct H as (updated & _ & H).
  assert (Hmin : 0 < Dt.US_PER_MINUTE) by (vm_compute; reflexivity).
  assert (Hhour : 0 < Dt.US_PER_HOUR) by (vm_compute; reflexivity).
  assert (Hday : 0 < Dt.US_PER_DAY) by (vm_compute; reflexivity).
  assert (Hpen : forall raw p i, _apply_adaptation_penalty raw p = Ok i -> 1 <= raw -> 1 <= i)
    by (intros raw p i; apply _apply_adaptation_penalty_floor).
  destruct current_state;
    [unfold _handle_new_card in H | unfold _handle_learning_card in H
     | unfold _handle_review_card in H | unfold _handle_relearning_card in H];
    repeat match type of H with
      | (if ?c then _ else _) = _ => destruct c
      end;
    inv_ok;
    repeat match goal with
      | E : py_index LEARNING_STEPS_MINUTES _ = Ok _ |- _ =>
          apply learning_step_value in E
      | E : Dt.add _ _ = Ok _ |- _ => apply add_result in E
      | E : Dt.timedelta_days _ = Ok _ |- _ => apply mk_timedelta_value in E
      | E : Dt.timedelta_minutes _ = Ok _ |- _ => apply mk_timedelta_value in E
      | E : Dt.timedelta_hours _ = Ok _ |- _ => apply mk_timedelta_value in E
      | E : _apply_adaptation_penalty _ _ = Ok _ |- _ =>
          apply Hpen in E; [|unfold GRADUATING_INTERVAL_DAYS, RELEARNING_INTERVAL_DAYS; lia]
      end;
    subst; cbn [new_due_date]; unfold RELEARNING_INTERVAL_DAYS in *; try nia.
Qed.

(** A new card is due one minute after its first review. *)
Lemma new_card_due quality interval ease_factor repetitions lapses stability
    adaptation_penalty learning_step_index now r :
  calculate_next_review quality NEW interval ease_factor repetitions lapses
    stability adaptation_penalty learning_step_index now = Ok r ->
  new_due_date r = now + Dt.US_PER_MINUTE.
Proof.
  unfold calculate_next_review. intros H.
  apply rbind_ok in H. destruct H as (updated & _ & H).
  unfold _handle_new_card in H. rewrite first_learning_step in H. cbn [rbind] in H.
  rewrite timedelta_minutes_1 in H. cbn [rbind] in H.
  destruct (LAPSE_THRESHOLD <=? quality); inv_ok;
    match goal with E : Dt.add _ _ = Ok _ |- _ => apply add_result in E; exact E end.
Qed.

(** The correctness flag of a result is the test [quality >= 3]. *)
Lemma result_was_correct quality current_state interval ease_factor repetitions lapses
    stability adaptation_penalty learning_step_index now r :
  calculate_next_review quality current_state interval ease_factor repetitions lapses
    stability adaptation_penalty learning_step_index now = Ok r ->
  was_correct r = (3 <=? quality).
Proof.
  unfold calculate_next_review. intros H.
  apply rbind_ok in H. destruct H as (updated & _ & H).
  change LAPSE_THRESHOLD with 3 in H.
  destruct current_state;
    [unfold _handle_new_card in H | unfold _handle_learning_card in H
     | unfold _handle_review_card in H | unfold _handle_relearning_card in H];
    destruct (3 <=? quality);
    try (destruct (Z.of_nat (length LEARNING_STEPS_MINUTES) <=? learning_step_index + 1));
    inv_ok; reflexivity.
Qed.

(** With the step index 0, a card in the learning steps stays there. *)
Lemma first_step_stays quality current_state interval ease_factor repetitions lapses
    stability adaptation_penalty now r :
  current_state = NEW \/ current_state = LEARNING ->
  calculate_next_review quality current_state interval ease_factor repetitions lapses
    stability adaptation_penalty 0 now = Ok r ->
  new_state r = LEARNING /\ new_interval r = 0 /\ new_repetitions r = 0.
Proof.
  unfold calculate_next_review. intros Hs H.
  apply rbind_ok in H. destruct H as (updated & _ & H).
  destruct Hs as [-> | ->].
  - unfold _handle_new_card in H. destruct (LAPSE_THRESHOLD <=? quality); inv_ok;
      repeat split.
  - unfold _handle_learning_card in H.
    change (Z.of_nat (length LEARNING_STEPS_MINUTES) <=? 0 + 1) with false in H.
    destruct (LAPSE_THRESHOLD <=? quality); inv_ok; repeat split.
Qed.

End SrsMore.

Import SrsMore.

(** ** The due date *)

Lemma due_date_after_now now delta due : 0 < delta -> due = now + delta -> now < due.
Proof. lia. Qed.

Ltac due_ok :=
  repeat match goal with
    | H : py_index LEARNING_STEPS_MINUTES 0 = Ok _ |- _ =>
        rewrite first_learning_step in H; inversion H; subst; clear H
    | H : Dt.add _ _ = Ok _ |- _ => apply add_result in H
    | H : Dt.timedelta_days _ = Ok _ |- _ => apply timedelta_days_value in H
    | H : Dt.timedelta_minutes _ = Ok _ |- _ => apply timedelta_minutes_value in H
    | H : Dt.timedelta_hours _ = Ok _ |- _ => apply timedelta_hours_value in H
    end.

(** X1 (srs.py, [calculate_next_review] and its four handlers): whenever
    the scheduler returns, the interval is not negative; an interval of at
    least one day puts the due date exactly that many days after [now]; an
    interval of 0 puts it 1 minute, 10 minutes or 4 hours after [now]; so
    the due date is always strictly later than [now]. *)
Theorem due_date_follows_interval quality current_state interval ease_factor repetitions
    lapses stability adaptation_penalty learning_step_index now r :
  calculate_next_review quality current_state interval ease_factor repetitions lapses
    stability adaptation_penalty learning_step_index now = Ok r ->
  0 <= new_interval r
  /\ (1 <= new_interval r -> new_due_date r = now + new_interval r * Dt.US_PER_DAY)
  /\ (new_interval r = 0 ->
      new_due_date r = now + Dt.US_PER_MINUTE
      \/ new_due_date r = now + 10 * Dt.US_PER_MINUTE
      \/ new_due_date r = now + 4 * Dt.US_PER_HOUR)
  /\ now < new_due_date r.
Proof.
  unfold calculate_next_review. intros H.
  apply rbind_ok in H. destruct H as (updated & _ & H).
  assert (Hmin : 0 < Dt.US_PER_MINUTE) by (vm_compute; reflexivity).
  assert (Hhour : 0 < Dt.US_PER_HOUR) by (vm_compute; reflexivity).
  assert (Hday : 0 < Dt.US_PER_DAY) by (vm_compute; reflexivity).
  destruct current_state.
  - unfold _handle_new_card in H.
    destruct (LAPSE_THRESHOLD <=? quality); inv_ok; due_ok; subst; cbn;
      (split; [lia|]); (split; [lia|]); (split; [|lia]); intros _; left; lia.
  - unfold _handle_learning_card in H.
    destruct (LAPSE_THRESHOLD <=? quality); [destruct (_ <=? _)|]; inv_ok; due_ok; subst; cbn.
    + match goal with
      | E : _apply_adaptation_penalty _ _ = Ok ?i |- _ =>
          pose proof (_apply_adaptation_penalty_floor _ _ _ E) as Hi;
          unfold GRADUATING_INTERVAL_DAYS in Hi; specialize (Hi ltac:(lia))
      end.
      repeat split; try lia; try nia.
    + match goal with
      | E : py_index _ _ = Ok ?s |- _ => destruct (learning_step_value _ _ E) as [-> | ->]
      end; (split; [lia|]); (split; [lia|]); (split; [|lia]); intros _; [left | right; left]; lia.
    + (split; [lia|]); (split; [lia|]); (split; [|lia]); intros _; left; lia.
  - unfold _handle_review_card in H.
    destruct (LAPSE_THRESHOLD <=? quality); inv_ok; due_ok; subst; cbn.
    + repeat split; try lia; try nia.
    + unfold RELEARNING_INTERVAL_DAYS. repeat split; lia.
  - unfold _handle_relearning_card in H.
    destruct (LAPSE_THRESHOLD <=? quality); inv_ok; due_ok; subst; cbn.
    + match goal with
      | E : _apply_adaptation_penalty _ _ = Ok ?i |- _ =>
          pose proof (_apply_adaptation_penalty_floor _ _ _ E) as Hi;
          unfold RELEARNING_INTERVAL_DAYS in Hi; specialize (Hi ltac:(lia))
      end.
      repeat split; try lia; try nia.
    + (split; [lia|]); (split; [lia|]); (split; [|lia]); intros _; right; right; lia.
Qed.

Lemma due_date_follows_interval_witness :
  exists r,
    calculate_next_review 5 NEW 0 EASE_FACTOR_DEFAULT 0 0 (lit 1 1) (lit 0 1) 0 example_now
    = Ok r
    /\ new_interval r = 0
    /\ example_now < new_due_date r.
Proof.
  destruct example_new_card_rated_5 as (r & Hr & _).
  exists r. split; [exact Hr|].
  destruct (due_date_follows_interval _ _ _ _ _ _ _ _ _ _ _ Hr) as (_ & _ & _ & Hlater).
  split; [|exact Hlater].
  unfold calculate_next_review in Hr. apply rbind_ok in Hr. destruct Hr as (u & _ & Hr).
  apply _handle_new_card_state in Hr. apply Hr.
Defined.

(** ** Leaving the learning and relearning states *)

(** X2 (srs.py, [_handle_learning_card], [_handle_relearning_card],
    [_apply_adaptation_penalty]): the adaptation penalty cannot shorten the
    interval a card graduates with.  A correct answer on the last learning
    step gives REVIEW with an interval of exactly 1 day, due one day after
    [now], whatever the penalty; a correct answer in RELEARNING gives REVIEW
    with an interval of 1 or 2 days. *)
Theorem graduation_intervals quality interval ease_factor repetitions lapses stability
    adaptation_penalty learning_step_index now :
  (forall r,
      3 <= quality -> 1 <= learning_step_index ->
      calculate_next_review quality LEARNING interval ease_factor repetitions lapses
        stability adaptation_penalty learning_step_index now = Ok r ->
      new_state r = REVIEW /\ new_interval r = 1 /\ new_repetitions r = 1
      /\ new_lapses r = lapses /\ new_due_date r = now + Dt.US_PER_DAY)
  /\ (forall r,
        3 <= quality ->
        calculate_next_review quality RELEARNING interval ease_factor repetitions lapses
          stability adaptation_penalty learning_step_index now = Ok r ->
        new_state r = REVIEW /\ 1 <= new_interval r <= 2 /\ new_repetitions r = 1
        /\ new_lapses r = lapses).
Proof.
  assert (H53 : 2 <= 2 ^ 53) by (vm_compute; discriminate).
  split; intros r Hq; [intros Hstep|]; unfold calculate_next_review; intros H;
    apply rbind_ok in H; destruct H as (updated & _ & H);
    rewrite was_correct_true in H by exact Hq.
  - unfold _handle_learning_card in H.
    change (Z.of_nat (length LEARNING_STEPS_MINUTES)) with 2 in H.
    destruct (Z.leb_spec 2 (learning_step_index + 1)); [|lia].
    inv_ok; due_ok; subst; cbn.
    match goal with
    | E : _apply_adaptation_penalty _ _ = Ok ?i |- _ =>
        pose proof (_apply_adaptation_penalty_floor _ _ _ E) as Hlo;
        assert (Hhi := fun Hr => _apply_adaptation_penalty_le _ _ _ Hr E);
        unfold GRADUATING_INTERVAL_DAYS in Hlo, Hhi; specialize (Hlo ltac:(lia));
        specialize (Hhi ltac:(lia)); assert (i = 1) by lia; subst i
    end.
    repeat split; lia.
  - unfold _handle_relearning_card in H. inv_ok; due_ok; subst; cbn.
    match goal with
    | E : _apply_adaptation_penalty _ _ = Ok ?i |- _ =>
        pose proof (_apply_adaptation_penalty_floor _ _ _ E) as Hlo;
        assert (Hhi := fun Hr => _apply_adaptation_penalty_le _ _ _ Hr E);
        unfold RELEARNING_INTERVAL_DAYS in Hlo, Hhi; specialize (Hlo ltac:(lia));
        specialize (Hhi ltac:(lia))
    end.
    repeat split; lia.
Qed.

(** ** The scheduler never raises on sane inputs *)

Lemma EASE_FACTOR_MIN_pos : 0 < fin_val EASE_FACTOR_MIN.
Proof. vm_compute. reflexivity. Qed.

Lemma EASE_FACTOR_MIN_ge_one : U <= fin_val EASE_FACTOR_MIN.
Proof. vm_compute. discriminate. Qed.

Lemma EASE_FACTOR_MAX_le : 2 * fin_val EASE_FACTOR_MAX <= 7 * U.
Proof. vm_compute. discriminate. Qed.

(** The clamped ease factor is a finite float between the bounds. *)
Lemma clamp_ease_fin x :
  exists e, clamp_ease x = Fin e /\ fin_val EASE_FACTOR_MIN <= e <= fin_val EASE_FACTOR_MAX.
Proof.
  destruct (clamp_ease_in_range x) as [H1 H2].
  rewrite EASE_FACTOR_MIN_fin in H1. rewrite EASE_FACTOR_MAX_fin in H2.
  exact (fle_between _ _ _ H1 H2).
Qed.

Lemma pow53 : 2 ^ 53 = 9007199254740992.
Proof. reflexivity. Qed.

Lemma INT_BOUND_pos : 4 * 9007199254740992 <= INT_BOUND.
Proof. vm_compute. discriminate. Qed.

(** [int * float] of a finite float and an int up to [2^53] is defined. *)
Lemma int_mul_float_defined n x :
  0 <= n <= 2 ^ 53 -> Z.abs x <= 4 * U -> exists s, int_mul_float n (Fin x) = Ok (Fin s).
Proof.
  intros Hn Hx. unfold int_mul_float. rewrite of_int_exact by exact Hn. cbn [rbind fmul].
  pose proof U_pos as HU. pose proof INT_BOUND_pos as HB. rewrite pow53 in Hn.
  destruct (rnd_bounded (n * U * x) U HU) as [s Es].
  - rewrite !Z.abs_mul, (Z.abs_eq n), (Z.abs_eq U) by lia.
    assert (n * U * Z.abs x <= n * U * (4 * U)) by (apply Z.mul_le_mono_nonneg_l; nia).
    assert (n * 4 <= INT_BOUND) by lia. nia.
  - exists s. rewrite Es. reflexivity.
Qed.

(** The raw interval of a correct review: [round(interval * ease)] lies
    between the interval and three and a half times it. *)
Lemma review_raw_interval interval e :
  0 <= interval <= 2 ^ 50 ->
  fin_val EASE_FACTOR_MIN <= e <= fin_val EASE_FACTOR_MAX ->
  exists raw,
    (let* product := int_mul_float interval (Fin e) in py_round product) = Ok raw
    /\ interval <= raw /\ 2 * raw <= 7 * interval + 1.
Proof.
  intros Hi He. pose proof U_pos as HU.
  pose proof EASE_FACTOR_MIN_ge_one as Hmin. pose proof EASE_FACTOR_MAX_le as Hmax.
  assert (H50 : 2 ^ 50 = 1125899906842624) by reflexivity. rewrite H50 in Hi.
  unfold int_mul_float. rewrite of_int_exact by (rewrite pow53; lia). cbn [rbind fmul].
  assert (Hlo : fle (Fin (interval * U)) (rnd (interval * U * e) U)).
  { apply rnd_ge_repr; [apply int_repr; rewrite pow53; lia | assumption |].
    apply Z.mul_le_mono_nonneg_l; nia. }
  assert (Hhi : fle (rnd (interval * U * e) U) (Fin (4 * interval * U))).
  { apply rnd_le_repr; [apply int_repr; rewrite pow53; lia | assumption |].
    replace (4 * interval * U * U) with (interval * U * (4 * U)) by ring.
    apply Z.mul_le_mono_nonneg_l; nia. }
  destruct (fle_between _ _ _ Hlo Hhi) as (s & Es & Hs). rewrite Es. cbn [rbind py_round].
  eexists. split; [reflexivity|]. split.
  - apply rhe_ge_int; lia.
  - assert (Hs2 : fle (Fin s) (rnd (interval * fin_val EASE_FACTOR_MAX) 1)).
    { rewrite <- Es. apply rnd_mono; try lia.
      replace (interval * U * e * 1) with (interval * e * U) by ring.
      apply Z.mul_le_mono_nonneg_r; [lia|]. apply Z.mul_le_mono_nonneg_l; lia. }
    pose proof (Z.mul_div_le (7 * interval + 1) 2 ltac:(lia)) as Hq.
    pose proof (Z.mul_succ_div_gt (7 * interval + 1) 2 ltac:(lia)) as Hq'.
    set (q := (7 * interval + 1) / 2) in *.
    assert (rhe s U <= q); [|lia].
    apply rhe_le_int; [assumption|].
    assert (Hs3 : fle (Fin s) (Fin (q * U))).
    { eapply fle_trans; [exact Hs2|].
      apply rnd_le_repr; [apply int_repr; rewrite pow53; lia | lia |].
      rewrite Z.mul_1_r. nia. }
    apply fle_Fin in Hs3. exact Hs3.
Qed.

Lemma lit_fraction_fin n d :
  0 <= n <= d -> 0 < d -> exists k, lit n d = Fin k /\ 0 <= k <= U.
Proof.
  intros Hn Hd. pose proof U_pos as HU.
  assert (E : lit n d = rnd (n * U) d) by (with_strategy transparent [lit] (unfold lit); reflexivity).
  rewrite E. apply fle_between.
  - apply rnd_nonneg; [assumption | nia].
  - apply rnd_le_repr; [apply rnd_one | assumption | nia].
Qed.

(** With a penalty between 0 and 1 the penalised interval is defined. *)
Lemma _apply_adaptation_penalty_defined raw penalty :
  0 <= raw <= 2 ^ 53 -> fle (Fin 0) penalty -> fle penalty (lit 1 1) ->
  exists r, _apply_adaptation_penalty raw penalty = Ok r
            /\ r <= Z.max 1 raw /\ (1 <= raw -> 1 <= r) /\ 0 <= r.
Proof.
  intros Hraw H0 H1.
  destruct (Z.eq_dec raw 0) as [->|Hn].
  - rewrite lit_one in H1. destruct (fle_between _ _ _ H0 H1) as (p & -> & Hp).
    unfold _apply_adaptation_penalty. rewrite fleb_Fin.
    destruct (Z.leb_spec p 0).
    + exists 0. repeat split; lia.
    + fold penalty_share. destruct (multiplier_bounds p Hp) as (m & -> & Hm).
      unfold int_mul_float. rewrite of_int_exact by exact Hraw. cbn [rbind fmul].
      rewrite !Z.mul_0_l, rnd_zero_num by apply U_pos. cbn [rbind py_round].
      rewrite rhe_zero.
      exists 1. repeat split; lia.
  - destruct (penalised_interval_le raw penalty ltac:(lia) H0 H1) as (r & Er & Hr).
    exists r. repeat split; try lia. exact Er.
Qed.

(** The scheduler returns on sane inputs. *)
Lemma calculate_next_review_defined quality current_state interval ease_factor repetitions
    lapses stability adaptation_penalty learning_step_index now :
  0 <= quality <= 5 ->
  0 <= interval ->
  fle (Fin 0) adaptation_penalty ->
  fle adaptation_penalty (lit 1 1) ->
  -3 <= learning_step_index ->
  0 <= now ->
  now + (4 * interval + 6) * Dt.US_PER_DAY <= Dt.DATETIME_MAX ->
  exists r,
    calculate_next_review quality current_state interval ease_factor repetitions lapses
      stability adaptation_penalty learning_step_index now = Ok r.
Proof.
  intros Hq Hi Hp0 Hp1 Hstep Hnow Hmax.
  assert (Hday : Dt.US_PER_DAY = 86400000000) by reflexivity.
  assert (Hminute : Dt.US_PER_MINUTE = 60000000) by reflexivity.
  assert (Hhour : Dt.US_PER_HOUR = 3600000000) by reflexivity.
  assert (HM : Dt.DATETIME_MAX = 315537897599999999) by reflexivity.
  assert (HT : Dt.TIMEDELTA_MAX_DAYS = 999999999) by reflexivity.
  pose proof pow53 as H53.
  assert (Hsmall : 0 <= interval <= 2 ^ 50).
  { split; [lia|]. assert (H50 : 2 ^ 50 = 1125899906842624) by reflexivity. lia. }
  unfold calculate_next_review.
  destruct (sm2_ease_total quality ease_factor) as [updated Eu].
  { pose proof INT_BOUND_pos. lia. }
  rewrite Eu. cbn [rbind]. fold (clamp_ease updated).
  destruct (clamp_ease_fin updated) as (e & Ee & He). rewrite Ee.
  destruct (lit_fraction_fin 8 10 ltac:(lia) ltac:(lia)) as (c8 & E8 & H8).
  destruct (lit_fraction_fin 7 10 ltac:(lia) ltac:(lia)) as (c7 & E7 & H7).
  destruct (lit_fraction_fin 9 10 ltac:(lia) ltac:(lia)) as (c9 & E9 & H9).
  pose proof U_pos as HU.
  destruct current_state.
  - unfold _handle_new_card.
    destruct (LAPSE_THRESHOLD <=? quality); rewrite ?first_learning_step; cbn [rbind];
      rewrite timedelta_minutes_1; cbn [rbind]; rewrite add_in_range by lia;
      eexists; reflexivity.
  - unfold _handle_learning_card.
    change (Z.of_nat (length LEARNING_STEPS_MINUTES)) with 2.
    destruct (LAPSE_THRESHOLD <=? quality);
      [|rewrite first_learning_step; cbn [rbind]; rewrite timedelta_minutes_1; cbn [rbind];
        rewrite add_in_range by lia; eexists; reflexivity].
    destruct (Z.leb_spec 2 (learning_step_index + 1)).
    + destruct (_apply_adaptation_penalty_defined GRADUATING_INTERVAL_DAYS adaptation_penalty)
        as (i & Ei & Hle & Hge & _); try assumption.
      { unfold GRADUATING_INTERVAL_DAYS. lia. }
      unfold GRADUATING_INTERVAL_DAYS in *. specialize (Hge ltac:(lia)).
      rewrite Ei. cbn [rbind]. rewrite timedelta_days_in_range by lia. cbn [rbind].
      rewrite add_in_range by lia. cbn [rbind]. rewrite E8.
      destruct (int_mul_float_defined i c8) as (s & ->); [lia | lia |]. cbn [rbind].
      eexists. reflexivity.
    + destruct (learning_step_defined (learning_step_index + 1) ltac:(lia)) as (step & Es).
      rewrite Es. cbn [rbind].
      destruct (learning_step_value _ _ Es) as [-> | ->].
      * rewrite timedelta_minutes_1. cbn [rbind]. rewrite add_in_range by lia.
        eexists. reflexivity.
      * rewrite timedelta_minutes_10. cbn [rbind]. rewrite add_in_range by lia.
        eexists. reflexivity.
  - unfold _handle_review_card. destruct (LAPSE_THRESHOLD <=? quality).
    + assert (Hraw : exists raw,
                 (if repetitions =? 1 then Ok 6
                  else let* product := int_mul_float interval (Fin e) in py_round product)
                 = Ok raw /\ 0 <= raw <= 4 * interval + 6).
      { destruct (repetitions =? 1).
        - exists 6. split; [reflexivity | lia].
        - destruct (review_raw_interval interval e Hsmall He) as (raw & Er & Hr1 & Hr2).
          exists raw. split; [exact Er | lia]. }
      destruct Hraw as (raw & -> & Hraw). cbn [rbind].
      destruct (_apply_adaptation_penalty_defined raw adaptation_penalty)
        as (i & Ei & Hle & _ & Hge); try assumption; [lia|].
      rewrite Ei. cbn [rbind]. rewrite E9.
      destruct (int_mul_float_defined (Z.max 1 i) c9) as (s & ->); [lia | lia |]. cbn [rbind].
      rewrite timedelta_days_in_range by lia. cbn [rbind].
      rewrite add_in_range by lia. eexists. reflexivity.
    + unfold RELEARNING_INTERVAL_DAYS. rewrite timedelta_days_1. cbn [rbind].
      rewrite add_in_range by lia. eexists. reflexivity.
  - unfold _handle_relearning_card. destruct (LAPSE_THRESHOLD <=? quality).
    + destruct (_apply_adaptation_penalty_defined (RELEARNING_INTERVAL_DAYS + 1)
                  adaptation_penalty) as (i & Ei & Hle & Hge & _); try assumption.
      { unfold RELEARNING_INTERVAL_DAYS. lia. }
      unfold RELEARNING_INTERVAL_DAYS in *. specialize (Hge ltac:(lia)).
      rewrite Ei. cbn [rbind]. rewrite E7.
      destruct (int_mul_float_defined i c7) as (s & ->); [lia | lia |]. cbn [rbind].
      rewrite timedelta_days_in_range by lia. cbn [rbind].
      rewrite add_in_range by lia. eexists. reflexivity.
    + rewrite timedelta_hours_4. cbn [rbind]. rewrite add_in_range by lia.
      eexists. reflexivity.
Qed.

(** X3 (srs.py, [calculate_next_review] and everything it calls): the
    scheduler returns a result, raising nothing, for every rating between
    0 and 5, every state, every ease factor and stability (a NaN included),
    a non-negative interval, a penalty between 0 and 1, a learning step of
    at least -3, and a clock from which [4 * interval + 6] days can still
    be counted before [datetime.max]. *)
Theorem calculate_next_review_total quality current_state interval ease_factor repetitions
    lapses stability adaptation_penalty learning_step_index now :
  0 <= quality <= 5 ->
  0 <= interval ->
  fle (Fin 0) adaptation_penalty ->
  fle adaptation_penalty (lit 1 1) ->
  -3 <= learning_step_index ->
  0 <= now ->
  now + (4 * interval + 6) * Dt.US_PER_DAY <= Dt.DATETIME_MAX ->
  exists r,
    calculate_next_review quality current_state interval ease_factor repetitions lapses
      stability adaptation_penalty learning_step_index now = Ok r.
Proof.
  intros Hq Hi Hp0 Hp1 Hstep Hnow Hmax.
  apply calculate_next_review_defined; assumption.
Qed.

Lemma calculate_next_review_total_witness :
  exists r,
    calculate_next_review 4 REVIEW 10 EASE_FACTOR_DEFAULT 3 0 (lit 1 1) (Fin 0) 0 example_now
    = Ok r.
Proof.
  apply calculate_next_review_total.
  - lia.
  - lia.
  - apply fle_Fin. lia.
  - rewrite lit_one. apply fle_Fin. pose proof U_pos. lia.
  - lia.
  - vm_compute. discriminate.
  - vm_compute. discriminate.
Defined.

(** ** Growth of the interval of a consolidated card *)

(** The raw interval of a correct review grows with the current one. *)
Lemma review_raw_interval_mono interval1 interval2 e raw1 raw2 :
  0 <= interval1 <= interval2 -> 0 < e ->
  (let* product := int_mul_float interval1 (Fin e) in py_round product) = Ok raw1 ->
  (let* product := int_mul_float interval2 (Fin e) in py_round product) = Ok raw2 ->
  0 <= raw1 <= raw2.
Proof.
  intros Hi He H1 H2. unfold int_mul_float in H1, H2.
  apply rbind_ok in H1. destruct H1 as (p1 & E1 & H1).
  apply rbind_ok in H2. destruct H2 as (p2 & E2 & H2).
  apply rbind_ok in E1. destruct E1 as (x1 & Ex1 & E1).
  apply rbind_ok in E2. destruct E2 as (x2 & Ex2 & E2).
  inversion E1. inversion E2. subst p1 p2. clear E1 E2.
  pose proof (of_int_mono _ _ _ _ (proj2 Hi) Ex1 Ex2) as Hx.
  assert (E0 : of_int 0 = Ok (Fin 0)).
  { apply (of_int_exact 0). split; [lia|]. apply Z.pow_nonneg; lia. }
  pose proof (of_int_mono 0 interval1 (Fin 0) x1 (proj1 Hi) E0 Ex1) as Hx0.
  pose proof (fmul_mono_pos e _ _ He Hx) as Hm.
  pose proof (fmul_mono_pos e _ _ He Hx0) as Hm0.
  cbn [fmul] in Hm0. rewrite Z.mul_0_l, rnd_zero_num in Hm0 by apply U_pos.
  split.
  - assert (Ez : py_round (Fin 0) = Ok 0).
    { cbn [py_round]. rewrite rhe_zero. reflexivity. }
    exact (py_round_mono _ _ _ _ Hm0 Ez H1).
  - exact (py_round_mono _ _ _ _ Hm H1 H2).
Qed.

(** X4 (srs.py, [_handle_review_card], [_apply_adaptation_penalty]): how
    the interval of a consolidated card grows on a correct answer.  When the
    repetition count is not 1 (a count of 1 starts from a fixed 6 days
    instead of the current interval) and the interval is at most 2^50, the
    new interval is at most three and a half times the current one
    (rounded, and at least 1), and with a penalty of 0 or less it is never
    shorter than the current one.  For every repetition count, all else
    equal, a longer current interval never gives a shorter new one. *)
Theorem review_interval_growth quality ease_factor repetitions lapses stability
    adaptation_penalty learning_step_index now :
  3 <= quality ->
  (forall interval r,
      0 <= interval <= 2 ^ 50 -> repetitions <> 1 ->
      calculate_next_review quality REVIEW interval ease_factor repetitions lapses
        stability adaptation_penalty learning_step_index now = Ok r ->
      2 * new_interval r <= Z.max 2 (7 * interval + 1)
      /\ (fleb adaptation_penalty (Fin 0) = true -> interval <= new_interval r))
  /\ (forall interval1 interval2 r1 r2,
        0 <= interval1 <= interval2 ->
        calculate_next_review quality REVIEW interval1 ease_factor repetitions lapses
          stability adaptation_penalty learning_step_index now = Ok r1 ->
        calculate_next_review quality REVIEW interval2 ease_factor repetitions lapses
          stability adaptation_penalty learning_step_index now = Ok r2 ->
        new_interval r1 <= new_interval r2).
Proof.
  intros Hq. unfold calculate_next_review. rewrite was_correct_true by exact Hq.
  pose proof EASE_FACTOR_MIN_pos as Hpos. pose proof pow53 as H53.
  assert (H50 : 2 ^ 50 = 1125899906842624) by reflexivity.
  split.
  - intros interval r Hi Hrep H.
    apply rbind_ok in H. destruct H as (updated & _ & H).
    fold (clamp_ease updated) in H.
    destruct (clamp_ease_fin updated) as (e & Ee & He). rewrite Ee in H.
    unfold _handle_review_card in H.
    destruct (Z.eqb_spec repetitions 1) as [|_]; [contradiction|].
    destruct (review_raw_interval interval e Hi He) as (raw & Er & Hr1 & Hr2).
    rewrite Er in H. cbn [rbind] in H.
    apply rbind_ok in H. destruct H as (i & Ei & H).
    apply rbind_ok in H. destruct H as (st & _ & H).
    apply rbind_ok in H. destruct H as (delta & _ & H).
    apply rbind_ok in H. destruct H as (due & _ & H).
    inversion H. subst r. clear H. cbn [new_interval].
    pose proof (_apply_adaptation_penalty_le raw adaptation_penalty i ltac:(lia) Ei) as Hle.
    split; [lia|]. intros Hnone.
    unfold _apply_adaptation_penalty in Ei. rewrite Hnone in Ei. inversion Ei. lia.
  - intros interval1 interval2 r1 r2 Hi H1 H2.
    apply rbind_ok in H1. destruct H1 as (updated & Eu & H1).
    rewrite Eu in H2. cbn [rbind] in H2.
    fold (clamp_ease updated) in H1, H2.
    destruct (clamp_ease_fin updated) as (e & Ee & He). rewrite Ee in H1, H2.
    unfold _handle_review_card in H1, H2.
    apply rbind_ok in H1. destruct H1 as (raw1 & Er1 & H1).
    apply rbind_ok in H2. destruct H2 as (raw2 & Er2 & H2).
    apply rbind_ok in H1. destruct H1 as (i1 & Ei1 & H1).
    apply rbind_ok in H2. destruct H2 as (i2 & Ei2 & H2).
    assert (Hraw : 0 <= raw1 <= raw2).
    { destruct (repetitions =? 1).
      - inversion Er1. inversion Er2. lia.
      - apply (review_raw_interval_mono interval1 interval2 e); try assumption. lia. }
    pose proof (_apply_adaptation_penalty_mono _ _ _ _ _ Hraw Ei1 Ei2) as Hmono.
    apply rbind_ok in H1. destruct H1 as (st1 & _ & H1).
    apply rbind_ok in H2. destruct H2 as (st2 & _ & H2).
    apply rbind_ok in H1. destruct H1 as (d1 & _ & H1).
    apply rbind_ok in H2. destruct H2 as (d2 & _ & H2).
    apply rbind_ok in H1. destruct H1 as (due1 & _ & H1).
    apply rbind_ok in H2. destruct H2 as (due2 & _ & H2).
    inversion H1. inversion H2. subst r1 r2. cbn [new_interval]. exact Hmono.
Qed.

Lemma review_interval_growth_witness :
  (forall interval r,
      0 <= interval <= 2 ^ 50 -> 3 <> 1 ->
      calculate_next_review 4 REVIEW interval EASE_FACTOR_DEFAULT 3 0 (lit 1 1) (Fin 0) 0
        example_now = Ok r ->
      2 * new_interval r <= Z.max 2 (7 * interval + 1)
      /\ (fleb (Fin 0) (Fin 0) = true -> interval <= new_interval r))
  /\ (forall interval1 interval2 r1 r2,
        0 <= interval1 <= interval2 ->
        calculate_next_review 4 REVIEW interval1 EASE_FACTOR_DEFAULT 3 0 (lit 1 1) (Fin 0) 0
          example_now = Ok r1 ->
        calculate_next_review 4 REVIEW interval2 EASE_FACTOR_DEFAULT 3 0 (lit 1 1) (Fin 0) 0
          example_now = Ok r2 ->
        new_interval r1 <= new_interval r2).
Proof. apply review_interval_growth. lia. Defined.

(** ** What a review does to the counters *)

Lemma py_max_ge a x : fle (Fin a) (py_max (Fin a) x).
Proof.
  unfold py_max, fgtb. destruct (fltb (Fin a) x) eqn:E.
  - unfold fle, fleb. rewrite E. reflexivity.
  - apply fle_Fin. lia.
Qed.

Lemma lit_mono n1 d1 n2 d2 :
  0 < d1 -> 0 < d2 -> n1 * d2 <= n2 * d1 -> fle (lit n1 d1) (lit n2 d2).
Proof.
  intros H1 H2 Hle. with_strategy transparent [lit] (unfold lit).
  pose proof U_pos as HU. apply rnd_mono; try assumption.
  replace (n1 * U * d2) with (n1 * d2 * U) by ring.
  replace (n2 * U * d1) with (n2 * d1 * U) by ring.
  apply Z.mul_le_mono_nonneg_r; lia.
Qed.

(** The stability after a wrong answer: [max(floor, stability * factor)]
    with a floor of 0.5 or 0.3. *)
Lemma stability_floor n x : 3 <= n <= 10 -> fle (lit 3 10) (py_max (lit n 10) x).
Proof.
  intros Hn. destruct (lit_fraction_fin n 10 ltac:(lia) ltac:(lia)) as (c & E & _).
  apply fle_trans with (lit n 10); [apply lit_mono; lia|].
  rewrite E. apply py_max_ge.
Qed.

(** X5 (srs.py, [calculate_next_review] and its handlers): the counters of
    a result.  The answer counts as correct exactly when the rating is at
    least 3; the lapse count grows by one exactly on a wrong answer to a
    card in REVIEW or RELEARNING and is otherwise kept; a wrong answer
    resets the repetitions to 0, sends a NEW or LEARNING card to LEARNING
    and a REVIEW or RELEARNING card to RELEARNING, and leaves a stability
    of at least 0.3 whatever the stability was (a NaN included); a correct
    answer leads to LEARNING or REVIEW. *)
Theorem review_bookkeeping quality current_state interval ease_factor repetitions lapses
    stability adaptation_penalty learning_step_index now r :
  calculate_next_review quality current_state interval ease_factor repetitions lapses
    stability adaptation_penalty learning_step_index now = Ok r ->
  was_correct r = (3 <=? quality)
  /\ new_lapses r
     = lapses + (if was_correct r then 0
                 else match current_state with REVIEW | RELEARNING => 1 | _ => 0 end)
  /\ (quality < 3 ->
      new_repetitions r = 0
      /\ new_state r = match current_state with
                       | REVIEW | RELEARNING => RELEARNING
                       | _ => LEARNING
                       end
      /\ fle (lit 3 10) (new_stability r))
  /\ (3 <= quality -> new_state r = LEARNING \/ new_state r = REVIEW).
Proof.
  unfold calculate_next_review. intros H.
  apply rbind_ok in H. destruct H as (updated & _ & H).
  change LAPSE_THRESHOLD with 3 in H.
  destruct current_state;
    [unfold _handle_new_card in H | unfold _handle_learning_card in H
     | unfold _handle_review_card in H | unfold _handle_relearning_card in H];
    destruct (Z.leb_spec 3 quality) as [Hq|Hq];
    try (destruct (Z.of_nat (length LEARNING_STEPS_MINUTES) <=? learning_step_index + 1));
    inv_ok; cbn;
    (split; [reflexivity|]); (split; [lia|]);
    (split; [intros Hlt; try lia; (split; [reflexivity|]); (split; [reflexivity|]);
             apply stability_floor; lia
            | intros Hge; try lia; auto]).
Qed.

Lemma review_bookkeeping_witness :
  exists r,
    calculate_next_review 2 REVIEW 10 EASE_FACTOR_DEFAULT 3 0 (lit 1 1) (lit 0 1) 0 example_now
    = Ok r
    /\ was_correct r = false
    /\ new_lapses r = 0 + (if was_correct r then 0 else 1).
Proof.
  destruct example_review_card_rated_2 as (r & Hr & _).
  exists r. split; [exact Hr|].
  destruct (review_bookkeeping _ _ _ _ _ _ _ _ _ _ _ Hr) as (Hc & Hl & _).
  split; [exact Hc | exact Hl].
Defined.

(** ** The urgency score across states and lapse counts *)

(** X6 (srs.py, [get_card_urgency_score]): the state priorities are ordered
    NEW, REVIEW, LEARNING, RELEARNING, and for the same due date and clock
    the score of a record never decreases when its state moves up in that
    order or its lapse count grows. *)
Theorem urgency_score_ordering due_date now :
  (fle (state_priority NEW) (state_priority REVIEW)
   /\ fle (state_priority REVIEW) (state_priority LEARNING)
   /\ fle (state_priority LEARNING) (state_priority RELEARNING))
  /\ (forall state1 state2 lapses1 lapses2 s1 s2,
        fle (state_priority state1) (state_priority state2) ->
        lapses1 <= lapses2 ->
        get_card_urgency_score due_date state1 lapses1 now = Ok s1 ->
        get_card_urgency_score due_date state2 lapses2 now = Ok s2 ->
        fle s1 s2).
Proof.
  split.
  - unfold state_priority. pose proof U_pos as HU.
    rewrite !lit_int by (rewrite pow53; lia). rewrite !fle_Fin. lia.
  - intros state1 state2 lapses1 lapses2 s1 s2 Hstate Hl.
    rewrite !get_card_urgency_score_formula. unfold urgency_formula.
    rewrite of_int_2. intros H1 H2.
    apply rbind_ok in H1. destruct H1 as (h & Eh & H1).
    rewrite Eh in H2. cbn [rbind] in H1, H2.
    apply rbind_ok in H1. destruct H1 as (b1 & Eb1 & H1).
    apply rbind_ok in H2. destruct H2 as (b2 & Eb2 & H2).
    inversion H1. inversion H2. subst s1 s2. clear H1 H2.
    assert (Hb : fle b1 b2) by (eapply of_int_mono; [| exact Eb1 | exact Eb2]; lia).
    destruct (of_int_Fin _ _ Eb1) as (k1 & ->). destruct (of_int_Fin _ _ Eb2) as (k2 & ->).
    fold (delay_term h).
    assert (Hterm : delay_term h <> NaN) by apply py_max_not_nan.
    rewrite (state_priority_fin state1), (state_priority_fin state2) in *.
    assert (Hin : fle (fadd (Fin (fin_val (state_priority state1))) (delay_term h))
                    (fadd (Fin (fin_val (state_priority state2))) (delay_term h))).
    { apply fadd_mono; try assumption.
      - apply fle_refl. exact Hterm.
      - apply fadd_Fin_l_not_nan. exact Hterm.
      - apply fadd_Fin_l_not_nan. exact Hterm. }
    apply fadd_mono; try assumption.
    + apply fadd_Fin_r_not_nan. eapply fle_not_nan_l. exact Hin.
    + apply fadd_Fin_r_not_nan. eapply fle_not_nan_r. exact Hin.
Qed.

(* ===================================================================== *)
(** * More properties of the review service *)
(* ===================================================================== *)

Module ReviewFacts.

Import ReviewSpec Pipeline.

(** ** Penalties *)

Lemma penalised_refl s : penalised s s.
Proof. left. reflexivity. Qed.

Lemma with_penalty_twice p q s : with_penalty p (with_penalty q s) = with_penalty p s.
Proof. reflexivity. Qed.

Lemma penalised_trans s1 s2 s3 : penalised s1 s2 -> penalised s2 s3 -> penalised s1 s3.
Proof.
  intros [-> | (p & Hp & ->)] [-> | (q & Hq & ->)].
  - left. reflexivity.
  - right. eauto.
  - right. eauto.
  - right. exists q. split; [exact Hq | apply with_penalty_twice].
Qed.

Lemma Forall2_penalised_refl l : Forall2 penalised l l.
Proof. induction l; constructor; auto using penalised_refl. Qed.

Lemma Forall2_penalised_trans l1 l2 l3 :
  Forall2 penalised l1 l2 -> Forall2 penalised l2 l3 -> Forall2 penalised l1 l3.
Proof.
  intros H12. revert l3. induction H12 as [|x y l k Hxy _ IH]; intros l3 H23.
  - inversion H23. constructor.
  - inversion H23 as [|y' z k' m Hyz Hkm]; subst. constructor.
    + eapply penalised_trans; eassumption.
    + apply IH. exact Hkm.
Qed.

Lemma only_penalties_refl db : only_penalties db db.
Proof. repeat split. apply Forall2_penalised_refl. Qed.

Lemma only_penalties_trans db1 db2 db3 :
  only_penalties db1 db2 -> only_penalties db2 db3 -> only_penalties db1 db3.
Proof.
  intros (C1 & X1 & S1 & R1 & F1) (C2 & X2 & S2 & R2 & F2).
  repeat split; try congruence. eapply Forall2_penalised_trans; eassumption.
Qed.

Lemma only_penalties_patterns l db : only_penalties db (set_error_patterns l db).
Proof. repeat split. apply Forall2_penalised_refl. Qed.

(** A literal between 0 and 1 is a penalty in range, also after
    [min(1.0, _)]. *)
Lemma capped_penalty_in_range n d :
  0 <= n <= d -> 0 < d -> penalty_in_range (py_min (lit 1 1) (lit n d)).
Proof.
  intros Hn Hd. destruct (lit_fraction_fin n d Hn Hd) as (k & -> & Hk).
  rewrite lit_one. unfold penalty_in_range, py_min. rewrite fltb_Fin, lit_one.
  destruct (Z.ltb_spec k U); rewrite !fle_Fin; lia.
Qed.

(** ** [_apply_srs_penalty_to_cards] *)

Lemma _apply_srs_penalty_to_cards_only_penalties card_ids penalty db :
  penalty_in_range (py_min (lit 1 1) penalty) ->
  exists db',
    _apply_srs_penalty_to_cards card_ids penalty db = (Ok tt, db')
    /\ only_penalties db db'
    /\ error_patterns db' = error_patterns db.
Proof.
  intros Hp. unfold _apply_srs_penalty_to_cards. revert db.
  induction card_ids as [|c ids IH]; intros db.
  - exists db. split; [reflexivity|]. split; [apply only_penalties_refl | reflexivity].
  - cbn [for_each]. unfold bind at 1. unfold bind at 1. unfold get at 1. cbn beta iota.
    destruct (list_find _ _) as [[i srs]|] eqn:Ef.
    + unfold put at 1. cbn beta iota.
      match goal with |- context [for_each ids ?b ?d] => destruct (IH d) as (db' & Hf & Ho & He) end.
      exists db'. split; [exact Hf|]. split.
      * eapply only_penalties_trans; [|exact Ho].
        repeat split. cbn [srs_states set_srs_states].
        apply list_find_Some in Ef. destruct Ef as (Hl & _).
        rewrite <- (list_insert_id (srs_states db) i srs Hl) at 1.
        apply Forall2_insert; [apply Forall2_penalised_refl|].
        right. eauto.
      * rewrite He. reflexivity.
    + unfold ret at 1. cbn beta iota. apply IH.
Qed.

(** ** The detector changes penalties only *)

Lemma detection_only_penalties {A : Type} user_id t description affected_cards now stamp db
    (after : ErrorPattern.t -> M A) :
  (forall p db1, only_penalties db1 (snd (after p db1))) ->
  only_penalties db
    (snd (bind (_upsert_pattern user_id t description affected_cards now stamp) after db)).
Proof.
  intros Hafter. unfold bind. rewrite _upsert_pattern_run.
  destruct (query_active_pattern user_id t db) as [[i existing]|];
    (eapply only_penalties_trans; [apply only_penalties_patterns | apply Hafter]).
Qed.

Lemma penalties_then_ret {A : Type} card_ids n d (a : A) db :
  0 <= n <= d -> 0 < d ->
  only_penalties db
    (snd ((do _ <- _apply_srs_penalty_to_cards card_ids (lit n d); ret a) db)).
Proof.
  intros Hn Hd. unfold bind.
  destruct (_apply_srs_penalty_to_cards_only_penalties card_ids (lit n d) db
              (capped_penalty_in_range n d Hn Hd)) as (db' & -> & Ho & _).
  exact Ho.
Qed.

Lemma _analyze_vocab_errors_only_penalties user_id reviews now stamp db :
  only_penalties db (snd (_analyze_vocab_errors user_id reviews now stamp db)).
Proof.
  unfold _analyze_vocab_errors. rewrite bind_get.
  destruct (filter (fun r => _get_card_type (ReviewLog.card_id r) db = Some VOCAB) reviews)
    as [|r0 rs]; [apply only_penalties_refl|].
  destruct (int_truediv _ _) as [error_rate|e].
  - rewrite bind_lift_ok.
    destruct (fgeb error_rate VOCAB_ERROR_THRESHOLD); [|apply only_penalties_refl].
    apply detection_only_penalties. intros p db1. apply penalties_then_ret; lia.
  - rewrite bind_lift_raise. apply only_penalties_refl.
Qed.

Lemma _analyze_grammar_errors_only_penalties user_id reviews now stamp db :
  only_penalties db (snd (_analyze_grammar_errors user_id reviews now stamp db)).
Proof.
  unfold _analyze_grammar_errors. rewrite bind_get.
  destruct (filter (fun r => _get_card_type (ReviewLog.card_id r) db = Some GRAMMAR) reviews)
    as [|r0 rs]; [apply only_penalties_refl|].
  destruct (int_truediv _ _) as [error_rate|e].
  - rewrite bind_lift_ok.
    destruct (fgeb error_rate GRAMMAR_ERROR_THRESHOLD); [|apply only_penalties_refl].
    apply detection_only_penalties. intros p db1. apply penalties_then_ret; lia.
  - rewrite bind_lift_raise. apply only_penalties_refl.
Qed.

Lemma _analyze_structure_errors_only_penalties user_id submissions now stamp db :
  only_penalties db (snd (_analyze_structure_errors user_id submissions now stamp db)).
Proof.
  unfold _analyze_structure_errors. rewrite bind_get.
  destruct (filter (fun s => _get_exercise_type (ExerciseSubmission.exercise_id s) db
                             = Some BUILD_SENTENCE) submissions)
    as [|s0 ss]; [apply only_penalties_refl|].
  destruct (int_truediv _ _) as [error_rate|e].
  - rewrite bind_lift_ok.
    destruct (fgeb error_rate STRUCTURE_ERROR_THRESHOLD); [|apply only_penalties_refl].
    apply detection_only_penalties. intros p db1. apply only_penalties_refl.
  - rewrite bind_lift_raise. apply only_penalties_refl.
Qed.

(** Sequencing two computations that change penalties only. *)
Lemma bind_only_penalties {A B : Type} (m : M A) (k : A -> M B) db :
  only_penalties db (snd (m db)) ->
  (forall a db1, only_penalties db1 (snd (k a db1))) ->
  only_penalties db (snd (bind m k db)).
Proof.
  intros Hm Hk. unfold bind. destruct (m db) as [[a|e] db1]; simpl in *.
  - eapply only_penalties_trans; [exact Hm | apply Hk].
  - exact Hm.
Qed.

Lemma analyze_and_update_patterns_only_penalties user_id now seen stamp db :
  only_penalties db (snd (analyze_and_update_patterns user_id now seen stamp db)).
Proof.
  unfold analyze_and_update_patterns.
  apply bind_only_penalties; [apply only_penalties_refl|]. intros window db1.
  apply bind_only_penalties; [apply only_penalties_refl|]. intros cutoff db2.
  apply bind_only_penalties; [apply only_penalties_refl|]. intros db3 db4.
  apply bind_only_penalties.
  - destruct (_ <=? _); [|apply only_penalties_refl].
    apply bind_only_penalties; [apply _analyze_vocab_errors_only_penalties|].
    intros vp db5.
    apply bind_only_penalties; [apply _analyze_grammar_errors_only_penalties|].
    intros gp db6. apply only_penalties_refl.
  - intros rp db5.
    apply bind_only_penalties; [apply only_penalties_refl|]. intros db6 db7.
    apply bind_only_penalties.
    + destruct (_ <=? _); [|apply only_penalties_refl].
      apply _analyze_structure_errors_only_penalties.
    + intros sp db8. apply only_penalties_refl.
Qed.

(** ** [submit_review] *)

(** What a call that returns has done: it found the record, the scheduler
    returned, the record and the log were written, and the detector ran. *)
Lemma submit_review_run user_id card_id quality response_time_ms clock db resp db' :
  submit_review user_id card_id quality response_time_ms clock db = (Ok resp, db') ->
  exists i srs r,
    find_srs user_id card_id db = Some (i, srs)
    /\ calculate_next_review (clamp_quality quality) (SRSState.state srs)
         (SRSState.interval srs) (SRSState.ease_factor srs) (SRSState.repetitions srs)
         (SRSState.lapses srs) (SRSState.stability srs) (SRSState.adaptation_penalty srs)
         0 (scheduler_now clock) = Ok r
    /\ only_penalties
         (reviewed_store db i user_id card_id quality response_time_ms srs r clock) db'
    /\ resp = {| resp_card_id := card_id;
                 resp_was_correct := was_correct r;
                 resp_new_state := new_state r;
                 resp_new_interval := new_interval r;
                 resp_next_due := new_due_date r;
                 resp_quality := clamp_quality quality;
                 resp_feedback := _quality_feedback (clamp_quality quality) |}.
Proof.
  unfold submit_review, find_srs. rewrite bind_get.
  destruct (list_find _ (srs_states db)) as [[i srs]|]; [|intros H; discriminate H].
  fold (clamp_quality quality).
  destruct (calculate_next_review _ _ _ _ _ _ _ _ _ _) as [r|e] eqn:Er;
    [|rewrite bind_lift_raise; intros H; discriminate H].
  rewrite bind_lift_ok. unfold bind at 1. unfold put at 1. cbn beta iota.
  rewrite bind_get. unfold bind at 1. unfold put at 1. cbn beta iota.
  unfold bind, try_pass, ret.
  pose proof (analyze_and_update_patterns_only_penalties user_id (analysis_now clock)
                (pattern_seen clock) (pattern_stamp clock)
                (reviewed_store db i user_id card_id quality response_time_ms srs r clock))
    as Ho.
  unfold reviewed_store, review_log in Ho. cbn [review_logs set_srs_states] in *.
  destruct (analyze_and_update_patterns user_id _ _ _ _) as [res db1]. cbn [snd] in Ho.
  intros H. inversion H. subst db1.
  exists i, srs, r. split; [reflexivity|]. split; [exact Er|]. split; [exact Ho|].
  reflexivity.
Qed.

(** A call returns as soon as the record is there and the scheduler
    returns. *)
Lemma submit_review_returns user_id card_id quality response_time_ms clock db i srs r :
  find_srs user_id card_id db = Some (i, srs) ->
  calculate_next_review (clamp_quality quality) (SRSState.state srs)
    (SRSState.interval srs) (SRSState.ease_factor srs) (SRSState.repetitions srs)
    (SRSState.lapses srs) (SRSState.stability srs) (SRSState.adaptation_penalty srs)
    0 (scheduler_now clock) = Ok r ->
  exists resp db',
    submit_review user_id card_id quality response_time_ms clock db = (Ok resp, db').
Proof.
  unfold submit_review, find_srs. intros Hf Hr. rewrite bind_get, Hf.
  fold (clamp_quality quality). rewrite Hr, bind_lift_ok.
  unfold bind at 1. unfold put at 1. cbn beta iota.
  rewrite bind_get. unfold bind at 1. unfold put at 1. cbn beta iota.
  unfold bind, try_pass, ret.
  destruct (analyze_and_update_patterns user_id _ _ _ _) as [res db1].
  eexists. eexists. reflexivity.
Qed.

(** ** Sane records *)

Lemma new_interval_nonneg quality current_state interval ease_factor repetitions lapses
    stability adaptation_penalty learning_step_index now r :
  calculate_next_review quality current_state interval ease_factor repetitions lapses
    stability adaptation_penalty learning_step_index now = Ok r ->
  0 <= new_interval r.
Proof.
  unfold calculate_next_review. intros H.
  apply rbind_ok in H. destruct H as (updated & _ & H).
  destruct current_state.
  - apply _handle_new_card_state in H. lia.
  - apply _handle_learning_card_state in H. lia.
  - apply _handle_review_card_state in H. lia.
  - apply _handle_relearning_card_state in H. lia.
Qed.

Lemma penalised_sane s s' : sane s -> penalised s s' -> sane s'.
Proof.
  intros (Hi & He & Hp) [-> | (p & Hp' & ->)]; (split; [|split]); assumption.
Qed.

Lemma Forall2_penalised_sane l l' : Forall sane l -> Forall2 penalised l l' -> Forall sane l'.
Proof.
  intros Hl H. induction H as [|x y l k Hxy _ IH]; [constructor|].
  inversion Hl; subst. constructor; [eapply penalised_sane; eassumption | auto].
Qed.

Lemma Forall2_penalised_lookup l l' j s :
  Forall2 penalised l l' -> l !! j = Some s -> exists s', l' !! j = Some s' /\ penalised s s'.
Proof.
  intros H Hl. destruct (Forall2_lookup_l _ _ _ _ _ H Hl) as (s' & Hs' & Hp). eauto.
Qed.

(** The penalty after a review: kept, or lowered by 0.1 and not below 0. *)
Lemma reviewed_penalty_in_range p (correct : bool) :
  penalty_in_range p ->
  penalty_in_range (if correct then py_max (lit 0 1) (fsub p (lit 1 10)) else p).
Proof.
  intros Hp. destruct correct; [|exact Hp].
  destruct Hp as [H0 H1]. rewrite lit_one in H1.
  destruct (fle_between _ _ _ H0 H1) as (k & -> & Hk).
  destruct (lit_fraction_fin 1 10 ltac:(lia) ltac:(lia)) as (c & -> & Hc).
  rewrite lit_zero. split; [apply py_max_ge|]. rewrite lit_one.
  assert (Hs : fle (fsub (Fin k) (Fin c)) (Fin U)).
  { unfold fsub. cbn [fopp fadd]. apply rnd_le_repr; [apply rnd_one | lia | lia]. }
  unfold py_max, fgtb. destruct (fltb (Fin 0) (fsub (Fin k) (Fin c))); [exact Hs|].
  apply fle_Fin. pose proof U_pos. lia.
Qed.

Lemma apply_result_sane srs r now reviewed quality learning_step_index :
  sane srs ->
  calculate_next_review quality (SRSState.state srs) (SRSState.interval srs)
    (SRSState.ease_factor srs) (SRSState.repetitions srs) (SRSState.lapses srs)
    (SRSState.stability srs) (SRSState.adaptation_penalty srs) learning_step_index now
  = Ok r ->
  sane (apply_result srs r reviewed).
Proof.
  intros (Hi & He & Hp) Hr. unfold sane, apply_result.
  cbn [SRSState.interval SRSState.ease_factor SRSState.adaptation_penalty].
  split; [apply (new_interval_nonneg _ _ _ _ _ _ _ _ _ _ _ Hr)|].
  split; [apply (calculate_next_review_ease_range _ _ _ _ _ _ _ _ _ _ _ Hr)|].
  apply reviewed_penalty_in_range. exact Hp.
Qed.

(** A review of a sane record returns when its due date fits. *)
Lemma submit_review_defined user_id card_id quality response_time_ms clock db i srs :
  find_srs user_id card_id db = Some (i, srs) ->
  sane srs ->
  0 <= scheduler_now clock ->
  scheduler_now clock + (4 * SRSState.interval srs + 6) * Dt.US_PER_DAY <= Dt.DATETIME_MAX ->
  exists resp db',
    submit_review user_id card_id quality response_time_ms clock db = (Ok resp, db').
Proof.
  intros Hf (Hi & He & Hp0 & Hp1) Hnow Hmax.
  destruct (calculate_next_review_defined (clamp_quality quality) (SRSState.state srs)
              (SRSState.interval srs) (SRSState.ease_factor srs) (SRSState.repetitions srs)
              (SRSState.lapses srs) (SRSState.stability srs)
              (SRSState.adaptation_penalty srs) 0 (scheduler_now clock)) as [r Hr];
    try assumption; try lia.
  { unfold clamp_quality. lia. }
  exact (submit_review_returns _ _ quality response_time_ms _ _ _ _ _ Hf Hr).
Qed.

End ReviewFacts.

Import ReviewSpec ReviewFacts Pipeline.

(** The record of [one_card_db] is sane, and any rating of it is accepted
    at the readings of [example_clock]. *)
Lemma example_card_sane : sane example_card.
Proof.
  unfold sane, example_card, ease_in_range, penalty_in_range.
  cbn [SRSState.interval SRSState.ease_factor SRSState.adaptation_penalty].
  unfold EASE_FACTOR_DEFAULT, EASE_FACTOR_MIN, EASE_FACTOR_MAX.
  split; [lia|]. split; [split; apply lit_mono; lia|].
  rewrite lit_zero, lit_one. rewrite !fle_Fin. pose proof U_pos. lia.
Qed.

Lemma example_review_returns quality :
  exists resp db', submit_review 1 1 quality None example_clock one_card_db = (Ok resp, db').
Proof.
  destruct (calculate_next_review_defined (clamp_quality quality) NEW 0 EASE_FACTOR_DEFAULT
              0 0 (lit 1 1) (lit 0 1) 0 example_now) as [r Hr].
  - unfold clamp_quality. lia.
  - lia.
  - apply example_card_sane.
  - apply example_card_sane.
  - lia.
  - vm_compute. discriminate.
  - vm_compute. discriminate.
  - apply (submit_review_returns 1 1 quality None example_clock one_card_db 0%nat example_card
             r).
    + reflexivity.
    + exact Hr.
Qed.

(** ** What a submitted review writes *)

(** X7 (review.py, [submit_review]): a call that returns has found the
    record of the card and learner, the scheduler has returned a result for
    that record, the clamped rating and learning step 0, and exactly one
    review log was appended: the row for that card and learner with the
    rating clamped into 0..5, the correctness flag of that result (rating
    at least 3), the snapshot of the record before and the snapshot of the
    record after that result was written to it, and the date that the
    database gives the row.  The response repeats the clamped rating and
    the flag; the cards, exercises and submissions are as they were, as is
    the number of scheduling records. *)
Theorem submit_review_writes_one_log user_id card_id quality response_time_ms clock db resp
    db' :
  submit_review user_id card_id quality response_time_ms clock db = (Ok resp, db') ->
  exists i srs r,
    find_srs user_id card_id db = Some (i, srs)
    /\ calculate_next_review (clamp_quality quality) (SRSState.state srs)
         (SRSState.interval srs) (SRSState.ease_factor srs) (SRSState.repetitions srs)
         (SRSState.lapses srs) (SRSState.stability srs) (SRSState.adaptation_penalty srs)
         0 (scheduler_now clock) = Ok r
    /\ review_logs db'
       = review_logs db
         ++ [ {| ReviewLog.id := next_id (ReviewLog.id <$> review_logs db);
                 ReviewLog.card_id := card_id;
                 ReviewLog.user_id := user_id;
                 ReviewLog.quality := clamp_quality quality;
                 ReviewLog.response_time_ms := response_time_ms;
                 ReviewLog.was_correct := was_correct r;
                 ReviewLog.srs_state_before := snapshot srs;
                 ReviewLog.srs_state_after :=
                   snapshot (apply_result srs r (reviewed_now clock));
                 ReviewLog.reviewed_at := log_stamp clock |} ]
    /\ was_correct r = (3 <=? clamp_quality quality)
    /\ 0 <= clamp_quality quality <= 5
    /\ resp_quality resp = clamp_quality quality
    /\ resp_was_correct resp = was_correct r
    /\ cards db' = cards db
    /\ exercises db' = exercises db
    /\ exercise_submissions db' = exercise_submissions db
    /\ length (srs_states db') = length (srs_states db).
Proof.
  intros H. destruct (submit_review_run _ _ _ _ _ _ _ _ H) as (i & srs & r & Hf & Hr & Ho & ->).
  destruct Ho as (Hc & Hx & Hs & Hl & Hrows).
  exists i, srs, r. split; [exact Hf|]. split; [exact Hr|]. split; [exact Hl|].
  split; [apply (result_was_correct _ _ _ _ _ _ _ _ _ _ _ Hr)|].
  split; [unfold clamp_quality; lia|].
  split; [reflexivity|]. split; [reflexivity|].
  split; [exact Hc|]. split; [exact Hx|]. split; [exact Hs|].
  apply Forall2_length in Hrows. rewrite <- Hrows.
  unfold reviewed_store. cbn [srs_states add_review_log set_srs_states].
  apply length_insert.
Qed.

Lemma submit_review_writes_one_log_witness :
  exists resp db' row,
    submit_review 1 1 7 None example_clock one_card_db = (Ok resp, db')
    /\ resp_quality resp = 5
    /\ review_logs db' = [row]
    /\ ReviewLog.quality row = 5
    /\ ReviewLog.was_correct row = true
    /\ snap_state (ReviewLog.srs_state_before row) = NEW
    /\ snap_state (ReviewLog.srs_state_after row) = LEARNING
    /\ ReviewLog.reviewed_at row = example_now.
Proof.
  destruct (example_review_returns 7) as (resp & db' & H).
  destruct (submit_review_writes_one_log _ _ _ _ _ _ _ _ H)
    as (i & srs & r & Hf & Hr & Hl & Hw & _ & Hq & _).
  assert (Hsrs : srs = example_card).
  { change (find_srs 1 1 one_card_db) with (Some (0%nat, example_card)) in Hf. congruence. }
  subst srs.
  destruct (first_step_stays _ _ _ _ _ _ _ _ _ _ (or_introl eq_refl) Hr) as (Hst & _).
  eexists resp, db', _. split; [exact H|].
  split; [rewrite Hq; reflexivity|]. split; [exact Hl|].
  cbn [ReviewLog.quality ReviewLog.was_correct ReviewLog.srs_state_before
       ReviewLog.srs_state_after ReviewLog.reviewed_at snap_state snapshot apply_result
       SRSState.state].
  split; [reflexivity|]. split; [rewrite Hw; reflexivity|]. split; [reflexivity|].
  split; [exact Hst | reflexivity].
Defined.

(** ** Cards in the learning steps *)

Lemma penalised_in_learning s s' : in_learning s -> penalised s s' -> in_learning s'.
Proof. intros H [-> | (p & _ & ->)]; exact H. Qed.

(** X8 (review.py, [submit_review]; srs.py, [_handle_new_card],
    [_handle_learning_card]): [submit_review] calls the scheduler without a
    learning step, so the step index is always 0.  A review of a NEW or
    LEARNING card therefore answers LEARNING with interval 0, whatever the
    rating, and a store in which every record is NEW or LEARNING stays such
    a store: through [submit_review] no card reaches REVIEW. *)
Theorem submit_review_keeps_cards_in_learning user_id card_id quality response_time_ms clock
    db resp db' :
  submit_review user_id card_id quality response_time_ms clock db = (Ok resp, db') ->
  (forall i srs,
      find_srs user_id card_id db = Some (i, srs) -> in_learning srs ->
      resp_new_state resp = LEARNING /\ resp_new_interval resp = 0
      /\ exists srs', srs_states db' !! i = Some srs'
                      /\ SRSState.state srs' = LEARNING /\ SRSState.interval srs' = 0)
  /\ (Forall in_learning (srs_states db) -> Forall in_learning (srs_states db')).
Proof.
  intros H. destruct (submit_review_run _ _ _ _ _ _ _ _ H) as (i & srs & r & Hf & Hr & Ho & ->).
  destruct Ho as (_ & _ & _ & _ & Hrows).
  unfold reviewed_store in Hrows. cbn [srs_states add_review_log set_srs_states] in Hrows.
  pose proof Hf as Hl. unfold find_srs in Hl. apply list_find_Some in Hl.
  destruct Hl as (Hl & _).
  assert (Hstay : in_learning srs ->
                  new_state r = LEARNING /\ new_interval r = 0 /\ new_repetitions r = 0).
  { intros Hs. exact (first_step_stays _ _ _ _ _ _ _ _ _ _ Hs Hr). }
  split.
  - intros i0 srs0 Hf0 Hs. rewrite Hf in Hf0. inversion Hf0. subst i0 srs0.
    destruct (Hstay Hs) as (Hst & Hint & _).
    split; [exact Hst|]. split; [exact Hint|].
    destruct (Forall2_penalised_lookup _ _ i (apply_result srs r (reviewed_now clock)) Hrows)
      as (srs' & Hs' & Hp).
    { apply list_lookup_insert_eq. eapply lookup_lt_Some. exact Hl. }
    exists srs'. split; [exact Hs'|].
    destruct Hp as [-> | (p & _ & ->)]; split; assumption.
  - intros Hall.
    assert (Hs : in_learning srs) by (rewrite Forall_lookup in Hall; exact (Hall i srs Hl)).
    destruct (Hstay Hs) as (Hst & _).
    assert (Hins : Forall in_learning
                     (<[i := apply_result srs r (reviewed_now clock)]> (srs_states db))).
    { apply Forall_insert; [exact Hall|]. right. exact Hst. }
    clear -Hins Hrows. induction Hrows as [|x y l k Hxy _ IH]; [constructor|].
    inversion Hins; subst. constructor; [eapply penalised_in_learning; eassumption | auto].
Qed.

Lemma submit_review_keeps_cards_in_learning_witness :
  exists resp db',
    submit_review 1 1 5 None example_clock one_card_db = (Ok resp, db')
    /\ resp_new_state resp = LEARNING
    /\ Forall in_learning (srs_states db').
Proof.
  destruct (example_review_returns 5) as (resp & db' & H). exists resp, db'.
  split; [exact H|].
  destruct (submit_review_keeps_cards_in_learning _ _ _ _ _ _ _ _ H) as [Hone Hall].
  split.
  - apply (Hone 0%nat example_card); [reflexivity | left; reflexivity].
  - apply Hall. repeat constructor.
Defined.

(** ** The records a review leaves alone *)

(** X9 (review.py, [submit_review]; adaptation.py,
    [_apply_srs_penalty_to_cards]): a call that returns has written the
    scheduler's result into the record it found and into no other: every
    other scheduling record is as it was, except that the detector that
    runs at the end may have set its adaptation penalty (to a value between
    0 and 1); the same holds for the reviewed record after the result was
    written. *)
Theorem submit_review_touches_one_record user_id card_id quality response_time_ms clock db
    resp db' :
  submit_review user_id card_id quality response_time_ms clock db = (Ok resp, db') ->
  exists i srs r,
    find_srs user_id card_id db = Some (i, srs)
    /\ calculate_next_review (clamp_quality quality) (SRSState.state srs)
         (SRSState.interval srs) (SRSState.ease_factor srs) (SRSState.repetitions srs)
         (SRSState.lapses srs) (SRSState.stability srs) (SRSState.adaptation_penalty srs)
         0 (scheduler_now clock) = Ok r
    /\ (exists srs', srs_states db' !! i = Some srs'
                     /\ penalised (apply_result srs r (reviewed_now clock)) srs')
    /\ (forall j s, j <> i -> srs_states db !! j = Some s ->
                    exists s', srs_states db' !! j = Some s' /\ penalised s s').
Proof.
  intros H. destruct (submit_review_run _ _ _ _ _ _ _ _ H) as (i & srs & r & Hf & Hr & Ho & ->).
  destruct Ho as (_ & _ & _ & _ & Hrows).
  unfold reviewed_store in Hrows. cbn [srs_states add_review_log set_srs_states] in Hrows.
  pose proof Hf as Hl. unfold find_srs in Hl. apply list_find_Some in Hl.
  destruct Hl as (Hl & _).
  exists i, srs, r. split; [exact Hf|]. split; [exact Hr|]. split.
  - apply (Forall2_penalised_lookup _ _ i (apply_result srs r (reviewed_now clock)) Hrows).
    apply list_lookup_insert_eq. eapply lookup_lt_Some. exact Hl.
  - intros j s Hne Hj.
    apply (Forall2_penalised_lookup _ _ j s Hrows).
    rewrite list_lookup_insert_ne by congruence. exact Hj.
Qed.

Lemma submit_review_touches_one_record_witness :
  exists resp db' srs',
    submit_review 1 1 5 None example_clock one_card_db = (Ok resp, db')
    /\ srs_states db' !! 0%nat = Some srs'.
Proof.
  destruct (example_review_returns 5) as (resp & db' & H).
  destruct (submit_review_touches_one_record _ _ _ _ _ _ _ _ H)
    as (i & srs & r & Hf & _ & (srs' & Hs' & _) & _).
  exists resp, db', srs'. split; [exact H|].
  assert (Hi : i = 0%nat) by (vm_compute in Hf; congruence).
  rewrite <- Hi. exact Hs'.
Defined.

(** ** Sane records stay sane, and are always accepted *)

(** X10 (review.py, [submit_review]; srs.py; adaptation.py): when every
    scheduling record has a non-negative interval, an ease factor in
    [1.3, 3.5] and an adaptation penalty in [0, 1], the same holds after a
    call that returns: the scheduler keeps the ease factor and the interval
    in range, a correct answer lowers the penalty by 0.1 and not below 0,
    and the detector sets penalties of at most 1. *)
Theorem submit_review_keeps_records_sane user_id card_id quality response_time_ms clock db
    resp db' :
  Forall sane (srs_states db) ->
  submit_review user_id card_id quality response_time_ms clock db = (Ok resp, db') ->
  Forall sane (srs_states db').
Proof.
  intros Hall H.
  destruct (submit_review_run _ _ _ _ _ _ _ _ H) as (i & srs & r & Hf & Hr & Ho & ->).
  destruct Ho as (_ & _ & _ & _ & Hrows).
  unfold reviewed_store in Hrows. cbn [srs_states add_review_log set_srs_states] in Hrows.
  unfold find_srs in Hf. apply list_find_Some in Hf. destruct Hf as (Hl & _).
  eapply Forall2_penalised_sane; [|exact Hrows].
  apply Forall_insert; [exact Hall|].
  eapply apply_result_sane; [|exact Hr].
  rewrite Forall_lookup in Hall. exact (Hall i srs Hl).
Qed.

Lemma submit_review_keeps_records_sane_witness :
  exists resp db',
    submit_review 1 1 2 None example_clock one_card_db = (Ok resp, db')
    /\ Forall sane (srs_states db').
Proof.
  destruct (example_review_returns 2) as (resp & db' & H). exists resp, db'.
  split; [exact H|].
  apply (submit_review_keeps_records_sane 1 1 2 None example_clock one_card_db resp db');
    [|exact H].
  constructor; [apply example_card_sane | constructor].
Defined.

(** X11 (review.py, [submit_review]; srs.py, [calculate_next_review]): the
    only way a review of a sane record fails is a date out of range.  If
    the record of the card and learner exists and is sane, and
    [4 * interval + 6] days can still be counted from the scheduler's
    reading of the clock before [datetime.max], the call returns, whatever
    the rating (ratings outside 0..5 are clamped) and whatever the detector
    does (its exceptions are swallowed). *)
Theorem submit_review_total user_id card_id quality response_time_ms clock db i srs :
  find_srs user_id card_id db = Some (i, srs) ->
  sane srs ->
  0 <= scheduler_now clock ->
  scheduler_now clock + (4 * SRSState.interval srs + 6) * Dt.US_PER_DAY <= Dt.DATETIME_MAX ->
  exists resp db',
    submit_review user_id card_id quality response_time_ms clock db = (Ok resp, db')
    /\ resp_card_id resp = card_id
    /\ scheduler_now clock < resp_next_due resp.
Proof.
  intros Hf Hsane Hnow Hmax.
  destruct (submit_review_defined _ _ quality response_time_ms _ _ _ _ Hf Hsane Hnow Hmax)
    as (resp & db' & H).
  exists resp, db'. split; [exact H|].
  destruct (submit_review_run _ _ _ _ _ _ _ _ H) as (i' & srs' & r' & Hf' & Hr' & _ & ->).
  cbn [resp_card_id resp_next_due]. split; [reflexivity|].
  apply (due_date_later _ _ _ _ _ _ _ _ _ _ _ Hr').
Qed.

Lemma submit_review_total_witness :
  exists resp db',
    submit_review 1 1 3 None example_clock one_card_db = (Ok resp, db')
    /\ resp_card_id resp = 1
    /\ example_now < resp_next_due resp.
Proof.
  apply (submit_review_total 1 1 3 None example_clock one_card_db 0%nat example_card).
  - reflexivity.
  - apply example_card_sane.
  - vm_compute. discriminate.
  - vm_compute. discriminate.
Defined.

(* ===================================================================== *)
(** * Properties of the initialisation of scheduling records *)
(* ===================================================================== *)

Module PipelineFacts.

Import ReviewSpec ReviewFacts Pipeline.

Lemma next_id_above ids x : x ∈ ids -> x < next_id ids.
Proof.
  unfold next_id. induction ids as [|a ids IH]; intros H.
  - inversion H.
  - cbn [foldr]. apply elem_of_cons in H. destruct H as [-> | H]; [lia|].
    specialize (IH H). lia.
Qed.

Lemma next_id_fresh ids : next_id ids ∉ ids.
Proof. intros H. apply next_id_above in H. lia. Qed.

Lemma new_srs_state_sane id card_id user_id now : sane (new_srs_state id card_id user_id now).
Proof.
  unfold sane, new_srs_state, ease_in_range, penalty_in_range.
  cbn [SRSState.interval SRSState.ease_factor SRSState.adaptation_penalty].
  unfold EASE_FACTOR_MIN, EASE_FACTOR_MAX.
  split; [lia|]. split; [split; apply lit_mono; lia|].
  rewrite lit_zero, lit_one. rewrite !fle_Fin. pose proof U_pos. lia.
Qed.

(** The run of [_step_init_srs]: one new record per card, in the order of
    the cards, each with a key above every key in use. *)
Lemma _step_init_srs_run cards user_id clock db :
  exists rows,
    _step_init_srs cards user_id clock db
    = (Ok tt, set_srs_states (srs_states db ++ rows) db)
    /\ Forall2 (fun round s =>
                  s = new_srs_state (SRSState.id s) (Card.id (snd round)) user_id
                        (clock (fst round)))
         (indexed cards) rows
    /\ (NoDup (SRSState.id <$> srs_states db) ->
        NoDup (SRSState.id <$> (srs_states db ++ rows))).
Proof.
  unfold _step_init_srs, indexed.
  assert (Hgen : forall k l,
             exists rows,
               for_each (zip (seq k (length cards)) cards)
                 (fun round =>
                    let card := snd round in
                    do db1 <- get;
                    put (set_srs_states
                           (srs_states db1
                            ++ [new_srs_state (next_id (SRSState.id <$> srs_states db1))
                                  (Card.id card) user_id (clock (fst round))]) db1))
                 (set_srs_states l db)
               = (Ok tt, set_srs_states (l ++ rows) db)
               /\ Forall2 (fun round s =>
                             s = new_srs_state (SRSState.id s) (Card.id (snd round)) user_id
                                   (clock (fst round)))
                    (zip (seq k (length cards)) cards) rows
               /\ (NoDup (SRSState.id <$> l) -> NoDup (SRSState.id <$> (l ++ rows)))).
  { induction cards as [|card cards IH]; intros k l.
    - exists []. rewrite app_nil_r. split; [reflexivity|]. split; [constructor | auto].
    - cbn [length].
      change (zip (seq k (S (length cards))) (card :: cards))
        with ((k, card) :: zip (seq (S k) (length cards)) cards).
      cbn [for_each]. unfold bind at 1. unfold bind at 1.
      unfold get at 1, put at 1. cbn beta iota zeta. cbn [srs_states set_srs_states fst snd].
      set (srs := new_srs_state (next_id (SRSState.id <$> l)) (Card.id card) user_id
                    (clock k)).
      change (set_srs_states (l ++ [srs]) (set_srs_states l db))
        with (set_srs_states (l ++ [srs]) db).
      destruct (IH (S k) (l ++ [srs])) as (rows & Hrun & Hrows & Hnd).
      exists (srs :: rows). split.
      + rewrite <- app_assoc in Hrun. exact Hrun.
      + split; [constructor; [reflexivity | exact Hrows]|].
        intros Hl. replace (l ++ srs :: rows) with ((l ++ [srs]) ++ rows)
          by (rewrite <- app_assoc; reflexivity).
        apply Hnd. rewrite fmap_app. apply NoDup_app. split; [exact Hl|]. split.
        * intros x Hx Hin. cbn in Hin. apply list_elem_of_singleton in Hin. subst x.
          exact (next_id_fresh _ Hx).
        * cbn. apply NoDup_singleton. }
  destruct (Hgen 0%nat (srs_states db)) as (rows & Hrun & Hrows & Hnd).
  exists rows. split; [|split; assumption].
  rewrite <- Hrun. destruct db. reflexivity.
Qed.

(** The new records carry the keys of the cards, in order. *)
Lemma new_rows_card_ids {A : Type} (rounds : list (A * Card.t)) user_id (clock : A -> Dt.datetime)
    rows :
  Forall2 (fun round s =>
             s = new_srs_state (SRSState.id s) (Card.id (snd round)) user_id
                   (clock (fst round))) rounds rows ->
  SRSState.card_id <$> rows = (fun round => Card.id (snd round)) <$> rounds.
Proof.
  induction 1 as [|round s rounds rows Hs _ IH]; [reflexivity|].
  cbn [fmap list_fmap]. cbn [fmap] in IH. rewrite IH, Hs. reflexivity.
Qed.

Lemma snd_indexed {A : Type} (l : list A) : snd <$> indexed l = l.
Proof. unfold indexed. apply snd_zip. rewrite length_seq. lia. Qed.

Lemma indexed_card_ids cards :
  (fun round : nat * Card.t => Card.id (snd round)) <$> indexed cards = Card.id <$> cards.
Proof.
  rewrite <- (snd_indexed cards) at 2. rewrite <- list_fmap_compose. reflexivity.
Qed.

(** The unique column stays unique. *)
Lemma admissible_rows cards db user_id (clock : nat -> Dt.datetime) rows :
  admissible cards db ->
  NoDup (SRSState.card_id <$> srs_states db) ->
  Forall2 (fun round s =>
             s = new_srs_state (SRSState.id s) (Card.id (snd round)) user_id
                   (clock (fst round))) (indexed cards) rows ->
  NoDup (SRSState.card_id <$> (srs_states db ++ rows)).
Proof.
  intros [Hcards Hfree] Hold Hrows.
  rewrite fmap_app, (new_rows_card_ids _ _ _ _ Hrows), indexed_card_ids.
  apply NoDup_app. split; [exact Hold|]. split; [|exact Hcards].
  intros x Hx. apply list_elem_of_fmap in Hx. destruct Hx as (s & -> & Hs).
  rewrite Forall_forall in Hfree. exact (Hfree s Hs).
Qed.

End PipelineFacts.

Import PipelineFacts.

(** X12 (pipeline.py, [_step_init_srs]): for cards that are distinct and
    have no scheduling record yet, the initialisation appends one record per
    card, in the order of the cards, and changes nothing else.  Each new
    record is NEW with interval 0, ease factor 2.5, no repetitions or
    lapses, stability 1.0, no penalty, and due at the reading of the clock
    in its round, so it is sane.  The column [card_id] stays unique, so the
    final flush has nothing to reject; and when the keys of the records
    were distinct before, they are distinct afterwards. *)
Theorem _step_init_srs_adds_new_records cards user_id clock db :
  admissible cards db ->
  NoDup (SRSState.card_id <$> srs_states db) ->
  exists rows,
    _step_init_srs cards user_id clock db
    = (Ok tt, set_srs_states (srs_states db ++ rows) db)
    /\ Forall2 (fun round s =>
                  s = new_srs_state (SRSState.id s) (Card.id (snd round)) user_id
                        (clock (fst round)))
         (indexed cards) rows
    /\ Forall (fun s => SRSState.state s = NEW /\ sane s) rows
    /\ NoDup (SRSState.card_id <$> (srs_states db ++ rows))
    /\ (NoDup (SRSState.id <$> srs_states db) ->
        NoDup (SRSState.id <$> (srs_states db ++ rows))).
Proof.
  intros Hadm Hold.
  destruct (_step_init_srs_run cards user_id clock db) as (rows & Hrun & Hrows & Hnd).
  exists rows. split; [exact Hrun|]. split; [exact Hrows|].
  split; [|split; [exact (admissible_rows _ _ _ _ _ Hadm Hold Hrows) | exact Hnd]].
  clear Hrun Hnd Hadm Hold.
  induction Hrows as [|round s rounds rows Hs _ IH]; constructor; [|exact IH].
  rewrite Hs. split; [reflexivity|]. apply new_srs_state_sane.
Qed.

Lemma _step_init_srs_adds_new_records_witness :
  exists rows,
    _step_init_srs [ {| Card.id := 1; Card.card_type := VOCAB |} ] 1 (fun _ => example_now)
      empty_db
    = (Ok tt, set_srs_states (srs_states empty_db ++ rows) empty_db)
    /\ Forall2 (fun round s =>
                  s = new_srs_state (SRSState.id s) (Card.id (snd round)) 1 example_now)
         (indexed [ {| Card.id := 1; Card.card_type := VOCAB |} ]) rows
    /\ Forall (fun s => SRSState.state s = NEW /\ sane s) rows
    /\ NoDup (SRSState.card_id <$> (srs_states empty_db ++ rows))
    /\ (NoDup (SRSState.id <$> srs_states empty_db) ->
        NoDup (SRSState.id <$> (srs_states empty_db ++ rows))).
Proof.
  apply (_step_init_srs_adds_new_records [ {| Card.id := 1; Card.card_type := VOCAB |} ] 1
           (fun _ => example_now) empty_db).
  - split; [apply NoDup_singleton | constructor].
  - constructor.
Defined.

(** X13 (pipeline.py, [_step_init_srs]; review.py, [submit_review]; srs.py,
    [_handle_new_card]): a card that has just been given its scheduling
    record can be reviewed at once.  After the initialisation of distinct
    cards without records, [submit_review] for a card of the list returns
    for every rating, answers LEARNING with interval 0, and sets the next
    due date one minute after the scheduler's reading of the clock,
    provided that minute still fits before [datetime.max]. *)
Theorem fresh_card_first_review cards user_id clock db card quality response_time_ms
    review_clock :
  admissible cards db ->
  card ∈ cards ->
  0 <= scheduler_now review_clock ->
  scheduler_now review_clock + 6 * Dt.US_PER_DAY <= Dt.DATETIME_MAX ->
  exists resp db',
    submit_review user_id (Card.id card) quality response_time_ms review_clock
      (snd (_step_init_srs cards user_id clock db)) = (Ok resp, db')
    /\ resp_new_state resp = LEARNING
    /\ resp_new_interval resp = 0
    /\ resp_next_due resp = scheduler_now review_clock + Dt.US_PER_MINUTE.
Proof.
  intros [_ Hfree] Hcard Hnow Hmax.
  destruct (_step_init_srs_run cards user_id clock db) as (rows & Hrun & Hrows & _).
  rewrite Hrun. cbn [snd]. set (db1 := set_srs_states (srs_states db ++ rows) db).
  assert (Hids : SRSState.card_id <$> rows = Card.id <$> cards)
    by (rewrite (new_rows_card_ids _ _ _ _ Hrows); apply indexed_card_ids).
  assert (Husers : Forall (fun s => SRSState.user_id s = user_id
                                    /\ exists id c t, s = new_srs_state id c user_id t) rows).
  { clear -Hrows. induction Hrows as [|round s rounds rows Hs _ IH]; constructor; [|exact IH].
    rewrite Hs. split; [reflexivity | eauto]. }
  assert (Hrow : exists s, s ∈ rows /\ SRSState.card_id s = Card.id card).
  { assert (Hin : Card.id card ∈ SRSState.card_id <$> rows)
      by (rewrite Hids; apply list_elem_of_fmap; eauto).
    apply list_elem_of_fmap in Hin. destruct Hin as (s & Hs & Hin). eauto. }
  destruct Hrow as (s0 & Hs0 & Hc0).
  rewrite Forall_forall in Husers.
  destruct (list_find_elem_of
              (fun s => SRSState.card_id s = Card.id card /\ SRSState.user_id s = user_id)
              (srs_states db1) s0) as [[i srs] Hf].
  { unfold db1. cbn [srs_states set_srs_states]. apply elem_of_app. right. exact Hs0. }
  { split; [exact Hc0 | apply (Husers s0 Hs0)]. }
  assert (Hnew : exists id c t, srs = new_srs_state id c user_id t).
  { pose proof Hf as Hf'. apply list_find_Some in Hf'. destruct Hf' as (Hl & [HP _] & _).
    apply list_elem_of_lookup_2 in Hl. unfold db1 in Hl. cbn [srs_states set_srs_states] in Hl.
    apply elem_of_app in Hl. destruct Hl as [Hold | Hin].
    - rewrite Forall_forall in Hfree. exfalso. apply (Hfree srs Hold).
      rewrite HP. apply list_elem_of_fmap. eauto.
    - apply (Husers srs Hin). }
  destruct Hnew as (id & c & t & ->).
  assert (Hday : Dt.US_PER_DAY = 86400000000) by reflexivity.
  assert (Hminute : Dt.US_PER_MINUTE = 60000000) by reflexivity.
  destruct (submit_review_defined user_id (Card.id card) quality response_time_ms review_clock
              db1 i (new_srs_state id c user_id t)) as (resp & db' & H).
  { exact Hf. }
  { apply new_srs_state_sane. }
  { exact Hnow. }
  { cbn [SRSState.interval new_srs_state]. lia. }
  exists resp, db'. split; [exact H|].
  destruct (submit_review_run _ _ _ _ _ _ _ _ H) as (i' & srs' & r & Hf' & Hr & _ & ->).
  unfold find_srs in Hf'. rewrite Hf in Hf'. inversion Hf'. subst i' srs'.
  cbn [resp_new_state resp_new_interval resp_next_due].
  cbn [SRSState.state new_srs_state] in Hr.
  destruct (first_step_stays _ _ _ _ _ _ _ _ _ _ (or_introl eq_refl) Hr) as (Hst & Hint & _).
  split; [exact Hst|]. split; [exact Hint|].
  apply (new_card_due _ _ _ _ _ _ _ _ _ _ Hr).
Qed.

Lemma fresh_card_first_review_witness :
  exists resp db',
    submit_review 1 1 4 None example_clock
      (snd (_step_init_srs [ {| Card.id := 1; Card.card_type := VOCAB |} ] 1
              (fun _ => example_now) empty_db)) = (Ok resp, db')
    /\ resp_new_state resp = LEARNING
    /\ resp_new_interval resp = 0
    /\ resp_next_due resp = example_now + Dt.US_PER_MINUTE.
Proof.
  apply (fresh_card_first_review [ {| Card.id := 1; Card.card_type := VOCAB |} ] 1
           (fun _ => example_now) empty_db {| Card.id := 1; Card.card_type := VOCAB |}
           4 None example_clock).
  - split; [apply NoDup_singleton | constructor].
  - apply list_elem_of_here.
  - vm_compute. discriminate.
  - vm_compute. discriminate.
Defined.

(* ===================================================================== *)
(** * Comparing a quotient of two ints with a decimal literal *)
(* ===================================================================== *)

Module F64Ratio.

(** The rounding error is at most half the spacing of the floats. *)
Lemma rndz_error n d : 0 < d -> 2 * Z.abs (n - rndz n d * d) <= d * 2 ^ ulp_shift n d.
Proof.
  intros Hd. unfold rndz.
  pose proof (ulp_shift_nonneg n d) as Hs.
  set (s := ulp_shift n d) in *.
  assert (Hp : 0 < 2 ^ s) by (apply Z.pow_pos_nonneg; lia).
  destruct (rhe_nearest n (d * 2 ^ s) ltac:(nia)) as [Hnear _].
  replace (rhe n (d * 2 ^ s) * 2 ^ s * d) with (rhe n (d * 2 ^ s) * (d * 2 ^ s)) by ring.
  exact Hnear.
Qed.

(** Up to 1.0 the floats are at most [2^-52] apart. *)
Lemma ulp_shift_unit n d : 0 < d -> 0 <= n <= U * d -> ulp_shift n d <= 1022.
Proof.
  intros Hd Hn. unfold ulp_shift. rewrite Z.abs_eq by lia.
  assert (Hq : n / d <= U).
  { apply Z.div_le_upper_bound; [assumption|]. rewrite Z.mul_comm. lia. }
  assert (Hlog : Z.log2 (n / d) <= 1074).
  { replace 1074 with (Z.log2 U).
    - apply Z.log2_le_mono. exact Hq.
    - with_strategy transparent [U] (unfold U). apply Z.log2_pow2. lia. }
  lia.
Qed.

(** Two fractions up to 1 whose denominators multiply to less than [2^52]
    round to different floats unless they are equal. *)
Lemma rndz_separates n1 d1 n2 d2 :
  0 < d1 -> 0 < d2 -> 0 <= n1 -> n2 <= d2 -> d1 * d2 < 2 ^ 52 ->
  n1 * d2 < n2 * d1 ->
  rndz (n1 * U) d1 < rndz (n2 * U) d2.
Proof.
  intros Hd1 Hd2 Hn1 Hn2 Hsmall Hlt.
  pose proof U_pos as HU.
  assert (Hmono : rndz (n1 * U) d1 <= rndz (n2 * U) d2).
  { apply rndz_mono; try assumption.
    replace (n1 * U * d2) with (n1 * d2 * U) by ring.
    replace (n2 * U * d1) with (n2 * d1 * U) by ring.
    apply Z.mul_le_mono_nonneg_r; lia. }
  destruct (Z.eq_dec (rndz (n1 * U) d1) (rndz (n2 * U) d2)) as [Heq|]; [exfalso|lia].
  pose proof (rndz_error (n1 * U) d1 Hd1) as E1.
  pose proof (rndz_error (n2 * U) d2 Hd2) as E2.
  assert (Hn1' : n1 < d1) by nia.
  pose proof (ulp_shift_unit (n1 * U) d1 Hd1 ltac:(nia)) as S1.
  pose proof (ulp_shift_unit (n2 * U) d2 Hd2 ltac:(nia)) as S2.
  pose proof (ulp_shift_nonneg (n1 * U) d1) as S1'.
  pose proof (ulp_shift_nonneg (n2 * U) d2) as S2'.
  assert (P1 : 2 ^ ulp_shift (n1 * U) d1 <= 2 ^ 1022) by (apply Z.pow_le_mono_r; lia).
  assert (P2 : 2 ^ ulp_shift (n2 * U) d2 <= 2 ^ 1022) by (apply Z.pow_le_mono_r; lia).
  assert (HUval : U = 2 ^ 52 * 2 ^ 1022).
  { with_strategy transparent [U] (unfold U). rewrite <- Z.pow_add_r by lia. reflexivity. }
  assert (Hp : 0 < 2 ^ 1022) by (apply Z.pow_pos_nonneg; lia).
  rewrite <- Heq in E2.
  (* the powers are kept abstract in the arithmetic below *)
  generalize dependent (2 ^ 1022). intros P P1 P2 HUval Hp.
  generalize dependent (2 ^ 52). intros Q Hsmall HUval.
  generalize dependent (2 ^ ulp_shift (n1 * U) d1). intros u1 E1 P1.
  generalize dependent (2 ^ ulp_shift (n2 * U) d2). intros u2 E2 P2.
  clear S1 S2 S1' S2' Hmono Heq.
  generalize dependent (rndz (n1 * U) d1). intros k E1 E2.
  assert (B1 : 2 * Z.abs (n1 * U - k * d1) <= d1 * P).
  { eapply Z.le_trans; [exact E1|]. apply Z.mul_le_mono_nonneg_l; lia. }
  assert (B2 : 2 * Z.abs (n2 * U - k * d2) <= d2 * P).
  { eapply Z.le_trans; [exact E2|]. apply Z.mul_le_mono_nonneg_l; lia. }
  assert (Hgap : U <= (n2 * d1 - n1 * d2) * U).
  { rewrite <- (Z.mul_1_l U) at 1. apply Z.mul_le_mono_nonneg_r; lia. }
  assert (Hsum : 2 * ((n2 * d1 - n1 * d2) * U) <= 2 * (d1 * d2) * P).
  { replace ((n2 * d1 - n1 * d2) * U)
      with ((n2 * U - k * d2) * d1 - (n1 * U - k * d1) * d2) by ring.
    assert (A1 : (n2 * U - k * d2) * d1 <= Z.abs (n2 * U - k * d2) * d1)
      by (apply Z.mul_le_mono_nonneg_r; lia).
    assert (A2 : - ((n1 * U - k * d1) * d2) <= Z.abs (n1 * U - k * d1) * d2).
    { rewrite <- Z.mul_opp_l. apply Z.mul_le_mono_nonneg_r; lia. }
    assert (C1 : 2 * Z.abs (n2 * U - k * d2) * d1 <= d2 * P * d1)
      by (apply Z.mul_le_mono_nonneg_r; lia).
    assert (C2 : 2 * Z.abs (n1 * U - k * d1) * d2 <= d1 * P * d2)
      by (apply Z.mul_le_mono_nonneg_r; lia).
    lia. }
  assert (Hle : Q * P <= d1 * d2 * P) by lia.
  assert (Q <= d1 * d2) by (apply Z.mul_le_mono_pos_r with (p := P); assumption).
  lia.
Qed.

(** [a / b] on ints against the literal [p / q]: the floats compare as the
    fractions do. *)
Lemma fraction_vs_literal a b p q :
  0 <= a <= b -> 0 < b -> 0 <= p <= q -> 0 < q -> b * q < 2 ^ 52 ->
  exists k1 k2,
    int_truediv a b = Ok (Fin k1) /\ lit p q = Fin k2
    /\ (a * q < p * b -> k1 < k2) /\ (p * b <= a * q -> k2 <= k1).
Proof.
  intros Ha Hb Hp Hq Hsmall. pose proof U_pos as HU.
  destruct (int_truediv_fraction a b Ha Hb) as (k1 & E1 & Hk1).
  destruct (lit_fraction_fin p q Hp Hq) as (k2 & E2 & Hk2).
  exists k1, k2. split; [exact E1|]. split; [exact E2|].
  assert (R1 : rnd (a * U) b = Fin k1).
  { unfold int_truediv in E1. destruct (Z.eqb_spec b 0); [lia|].
    assert (Hs : Z.sgn b = 1) by lia. rewrite Hs, Z.mul_1_r, Z.abs_eq in E1 by lia.
    destruct (rnd (a * U) b); inversion E1. reflexivity. }
  assert (R2 : rnd (p * U) q = Fin k2).
  { rewrite <- E2. with_strategy transparent [lit] (unfold lit). reflexivity. }
  assert (Z1 : rndz (a * U) b = k1).
  { destruct (rnd_cases (a * U) b) as [[E _]|[[E _]|[E _]]]; rewrite R1 in E; congruence. }
  assert (Z2 : rndz (p * U) q = k2).
  { destruct (rnd_cases (p * U) q) as [[E _]|[[E _]|[E _]]]; rewrite R2 in E; congruence. }
  split.
  - intros Hlt. rewrite <- Z1, <- Z2. apply rndz_separates; lia.
  - intros Hge. rewrite <- Z1, <- Z2. apply rndz_mono; try assumption.
    replace (p * U * b) with (p * b * U) by ring.
    replace (a * U * q) with (a * q * U) by ring.
    apply Z.mul_le_mono_nonneg_r; lia.
Qed.

(** The threshold tests of the detector, as tests on the counts. *)
Lemma error_rate_at_least errors total p q :
  0 <= errors <= total -> 0 < total -> 0 <= p <= q -> 0 < q -> total * q < 2 ^ 52 ->
  exists rate,
    int_truediv errors total = Ok rate
    /\ fgeb rate (lit p q) = (p * total <=? errors * q)
    /\ fltb rate (lit p q) = (errors * q <? p * total).
Proof.
  intros He Ht Hp Hq Hsmall.
  destruct (fraction_vs_literal errors total p q He Ht Hp Hq Hsmall)
    as (k1 & k2 & E1 & E2 & Hlt & Hge).
  exists (Fin k1). split; [exact E1|]. rewrite E2.
  unfold fgeb. rewrite fleb_Fin, fltb_Fin.
  destruct (Z.leb_spec (p * total) (errors * q)) as [H|H].
  - specialize (Hge H).
    destruct (Z.leb_spec k2 k1); [|lia]. destruct (Z.ltb_spec k1 k2); [lia|].
    destruct (Z.ltb_spec (errors * q) (p * total)); [lia|]. split; reflexivity.
  - specialize (Hlt H).
    destruct (Z.leb_spec k2 k1); [lia|]. destruct (Z.ltb_spec k1 k2); [|lia].
    destruct (Z.ltb_spec (errors * q) (p * total)); [|lia]. split; reflexivity.
Qed.

End F64Ratio.

Import F64Ratio.

(* ===================================================================== *)
(** * More properties of the detector *)
(* ===================================================================== *)

Module DetectorFacts.

Import DetectorSpec.

(** ** [_apply_srs_penalty_to_cards] *)

Lemma penalise_cards_twice ids p s :
  penalise_cards ids p (with_penalty p s) = with_penalty p s.
Proof. unfold penalise_cards. cbn [SRSState.card_id with_penalty]. destruct (decide _); reflexivity. Qed.

Lemma penalise_cards_cons_ne c ids p s :
  SRSState.card_id s <> c -> penalise_cards (c :: ids) p s = penalise_cards ids p s.
Proof.
  intros Hne. unfold penalise_cards.
  destruct (decide (SRSState.card_id s ∈ c :: ids)) as [Hin|Hout];
    destruct (decide (SRSState.card_id s ∈ ids)) as [Hin'|Hout']; try reflexivity.
  - apply elem_of_cons in Hin. destruct Hin; [contradiction|contradiction].
  - exfalso. apply Hout. right. exact Hin'.
Qed.

Lemma penalise_cards_run card_ids penalty db l :
  NoDup (SRSState.card_id <$> l) ->
  for_each card_ids
    (fun card_id =>
       do db1 <- get;
       match list_find (fun s => SRSState.card_id s = card_id) (srs_states db1) with
       | Some (i, srs) =>
           put (set_srs_states
                  (<[i := with_penalty (py_min (lit 1 1) penalty) srs]> (srs_states db1)) db1)
       | None => ret tt
       end) (set_srs_states l db)
  = (Ok tt,
     set_srs_states (penalise_cards card_ids (py_min (lit 1 1) penalty) <$> l) db).
Proof.
  set (p := py_min (lit 1 1) penalty).
  revert l. induction card_ids as [|c ids IH]; intros l Hnd.
  - cbn [for_each]. unfold ret. f_equal. f_equal.
    symmetry. rewrite <- (list_fmap_id l) at 2. apply list_fmap_ext. intros i s _.
    unfold penalise_cards. destruct (decide _) as [H|]; [inversion H | reflexivity].
  - cbn [for_each]. unfold bind at 1. unfold bind at 1. unfold get at 1. cbn beta iota.
    cbn [srs_states set_srs_states].
    destruct (list_find _ l) as [[i srs]|] eqn:Ef.
    + unfold put at 1. cbn beta iota.
      apply list_find_Some in Ef. destruct Ef as (Hl & Hc & _).
      change (set_srs_states (<[i:=with_penalty p srs]> l) (set_srs_states l db))
        with (set_srs_states (<[i:=with_penalty p srs]> l) db).
      assert (Hids : SRSState.card_id <$> <[i:=with_penalty p srs]> l = SRSState.card_id <$> l).
      { rewrite list_fmap_insert. apply list_insert_id.
        rewrite list_lookup_fmap, Hl. reflexivity. }
      rewrite IH by (rewrite Hids; exact Hnd).
      f_equal. f_equal. apply list_eq. intros j. rewrite !list_lookup_fmap.
      destruct (decide (j = i)) as [->|Hne].
      * rewrite list_lookup_insert_eq by (eapply lookup_lt_Some; exact Hl). rewrite Hl.
        cbn [fmap option_fmap option_map]. f_equal. rewrite penalise_cards_twice.
        unfold penalise_cards. rewrite decide_True; [reflexivity|]. rewrite Hc. left.
      * rewrite list_lookup_insert_ne by congruence.
        destruct (l !! j) as [s|] eqn:Hj; [|reflexivity].
        cbn [fmap option_fmap option_map]. f_equal. symmetry.
        apply penalise_cards_cons_ne. intros Hs. apply Hne.
        eapply (NoDup_lookup _ j i c Hnd); rewrite list_lookup_fmap.
        -- rewrite Hj. cbn. congruence.
        -- rewrite Hl. cbn. congruence.
    + unfold ret at 1. cbn beta iota.
      rewrite IH by exact Hnd. f_equal. f_equal.
      apply list_fmap_ext. intros j s Hj. symmetry. apply penalise_cards_cons_ne.
      apply list_find_None in Ef. rewrite Forall_lookup in Ef. exact (Ef j s Hj).
Qed.

Lemma penalise_cards_listed ids p s :
  SRSState.card_id s ∈ ids -> penalise_cards ids p s = with_penalty p s.
Proof. intros H. unfold penalise_cards. rewrite decide_True by exact H. reflexivity. Qed.

Lemma penalise_cards_unlisted ids p s :
  SRSState.card_id s ∉ ids -> penalise_cards ids p s = s.
Proof. intros H. unfold penalise_cards. rewrite decide_False by exact H. reflexivity. Qed.

(** [min(1.0, p)] is [p] for a literal between 0 and 1. *)
Lemma capped_fraction n d : 0 <= n <= d -> 0 < d -> py_min (lit 1 1) (lit n d) = lit n d.
Proof.
  intros Hn Hd. destruct (lit_fraction_fin n d Hn Hd) as (k & -> & Hk).
  rewrite lit_one. unfold py_min. rewrite fltb_Fin.
  destruct (Z.ltb_spec k U) as [Hlt|Hge]; [reflexivity|].
  f_equal. lia.
Qed.

End DetectorFacts.

Import DetectorSpec DetectorFacts.

(** X14 (adaptation.py, [_apply_srs_penalty_to_cards]): when no two
    scheduling records share a card (the column is unique), the call sets
    the adaptation penalty of the records of the listed cards to
    [min(1.0, penalty)] and changes nothing else: no other record, no other
    field, no other table; cards without a record are skipped, and nothing
    is raised. *)
Theorem _apply_srs_penalty_to_cards_sets_penalty card_ids penalty db :
  NoDup (SRSState.card_id <$> srs_states db) ->
  _apply_srs_penalty_to_cards card_ids penalty db
  = (Ok tt,
     set_srs_states
       (penalise_cards card_ids (py_min (lit 1 1) penalty) <$> srs_states db) db).
Proof.
  intros Hnd. unfold _apply_srs_penalty_to_cards.
  pose proof (penalise_cards_run card_ids penalty db (srs_states db) Hnd) as H.
  replace (set_srs_states (srs_states db) db) with db in H by (destruct db; reflexivity).
  exact H.
Qed.

Lemma _apply_srs_penalty_to_cards_sets_penalty_witness :
  _apply_srs_penalty_to_cards [1; 3] (lit 6 10) mixed_db
  = (Ok tt,
     set_srs_states
       [with_penalty (lit 6 10) example_card; tomorrow_record] mixed_db).
Proof.
  etransitivity.
  - apply (_apply_srs_penalty_to_cards_sets_penalty [1; 3] (lit 6 10) mixed_db).
    change (NoDup [1; 2]). apply NoDup_cons. split; [|apply NoDup_singleton].
    intros H. apply list_elem_of_singleton in H. discriminate H.
  - rewrite (capped_fraction 6 10) by lia.
    cbn [mixed_db srs_states fmap list_fmap].
    rewrite (penalise_cards_listed [1; 3] _ example_card)
      by (cbn [SRSState.card_id example_card]; apply list_elem_of_here).
    rewrite (penalise_cards_unlisted [1; 3]); [reflexivity|].
    unfold tomorrow_record. cbn [SRSState.card_id example_record]. intros H.
    apply elem_of_cons in H. destruct H as [H|H]; [discriminate H|].
    apply list_elem_of_singleton in H. discriminate H.
Defined.

(** ** [_upsert_pattern] on a pattern that is there *)

Lemma py_min_le_l a x : fle (py_min (Fin a) x) (Fin a).
Proof.
  unfold py_min. destruct (fltb x (Fin a)) eqn:E.
  - unfold fle, fleb. rewrite E. reflexivity.
  - apply fle_Fin. lia.
Qed.

(** X15 (adaptation.py, [_upsert_pattern]): a detection for a learner and
    type that already have an active pattern updates that row in place and
    adds none.  The row keeps its key, learner, type, first detection date
    and active flag; its count grows by one; its severity grows by 0.2 and
    is capped at 1.0; its description and last-seen date are replaced; and
    its affected cards become the union of the old and the new ones, each
    card once. *)
Theorem upsert_reinforces_active_pattern user_id pattern_type description affected_cards now
    stamp db i existing :
  query_active_pattern user_id pattern_type db = Some (i, existing) ->
  exists updated items,
    _upsert_pattern user_id pattern_type description affected_cards now stamp db
    = (Ok updated, set_error_patterns (<[i := updated]> (error_patterns db)) db)
    /\ length (<[i := updated]> (error_patterns db)) = length (error_patterns db)
    /\ ErrorPattern.id updated = ErrorPattern.id existing
    /\ ErrorPattern.user_id updated = user_id
    /\ ErrorPattern.pattern_type updated = pattern_type
    /\ ErrorPattern.is_active updated = true
    /\ ErrorPattern.first_detected_at updated = ErrorPattern.first_detected_at existing
    /\ ErrorPattern.last_seen_at updated = now
    /\ ErrorPattern.description updated = description
    /\ ErrorPattern.count updated = ErrorPattern.count existing + 1
    /\ ErrorPattern.severity updated
       = py_min (lit 1 1) (fadd (ErrorPattern.severity existing) (lit 2 10))
    /\ fle (ErrorPattern.severity updated) (lit 1 1)
    /\ ErrorPattern.items_affected updated = Some items
    /\ NoDup items
    /\ (forall c, c ∈ items
                  <-> c ∈ default [] (ErrorPattern.items_affected existing)
                      \/ c ∈ affected_cards).
Proof.
  intros Hq. rewrite _upsert_pattern_run, Hq.
  apply query_active_pattern_Some in Hq. destruct Hq as (Hl & Hu & Ht & Ha).
  eexists. eexists. split; [reflexivity|].
  split; [apply length_insert|].
  unfold reinforced.
  cbn [ErrorPattern.id ErrorPattern.user_id ErrorPattern.pattern_type ErrorPattern.is_active
       ErrorPattern.first_detected_at ErrorPattern.last_seen_at ErrorPattern.description
       ErrorPattern.count ErrorPattern.severity ErrorPattern.items_affected].
  repeat (split; [first [reflexivity | assumption]|]).
  split.
  { unfold MAX_SEVERITY. rewrite lit_one. apply py_min_le_l. }
  split; [reflexivity|]. split; [apply NoDup_elements|].
  intros c. rewrite elem_of_elements, elem_of_union, !elem_of_list_to_set. reflexivity.
Qed.

Lemma upsert_reinforces_active_pattern_witness :
  exists updated items,
    _upsert_pattern 1 VOCAB_WEAKNESS (Taxa_de_erro_em_vocabulario (Fin 0)) [1; 2] example_now
      example_now recovered_db
    = (Ok updated, set_error_patterns (<[0%nat := updated]> (error_patterns recovered_db))
                     recovered_db)
    /\ ErrorPattern.count updated = 4
    /\ ErrorPattern.items_affected updated = Some items
    /\ (forall c, c ∈ items <-> c ∈ [1] \/ c ∈ [1; 2]).
Proof.
  destruct (upsert_reinforces_active_pattern 1 VOCAB_WEAKNESS
              (Taxa_de_erro_em_vocabulario (Fin 0)) [1; 2] example_now example_now
              recovered_db 0%nat example_pattern)
    as (updated & items & Hrun & _ & _ & _ & _ & _ & _ & _ & _ & Hcount & _ & _ & Hitems & _ & Hin).
  - reflexivity.
  - exists updated, items. split; [exact Hrun|]. split; [exact Hcount|].
    split; [exact Hitems | exact Hin].
Defined.

(** ** The pattern table under the analysis *)

Module PatternTable.

(** The analysis changes the pattern table through [_upsert_pattern] only:
    what every upsert keeps, the analysis keeps. *)
Section Invariant.

Variable I : list ErrorPattern.t -> Prop.

Hypothesis upsert_keeps :
  forall user_id pattern_type description affected_cards now stamp db,
    I (error_patterns db) ->
    I (error_patterns
         (snd (_upsert_pattern user_id pattern_type description affected_cards now stamp db))).

Lemma bind_keeps {A B : Type} (m : M A) (k : A -> M B) db :
  (I (error_patterns db) -> I (error_patterns (snd (m db)))) ->
  (forall a db1, I (error_patterns db1) -> I (error_patterns (snd (k a db1)))) ->
  I (error_patterns db) -> I (error_patterns (snd (bind m k db))).
Proof.
  intros Hm Hk Hdb. unfold bind. specialize (Hm Hdb).
  destruct (m db) as [[a|e] db1]; simpl in *; auto.
Qed.

Lemma penalties_keep card_ids penalty db :
  I (error_patterns db) ->
  I (error_patterns (snd (_apply_srs_penalty_to_cards card_ids penalty db))).
Proof.
  intros H. destruct (_apply_srs_penalty_to_cards_run card_ids penalty db) as [l ->].
  exact H.
Qed.

Lemma _analyze_vocab_errors_keeps user_id reviews now stamp db :
  I (error_patterns db) ->
  I (error_patterns (snd (_analyze_vocab_errors user_id reviews now stamp db))).
Proof.
  unfold _analyze_vocab_errors. rewrite bind_get.
  destruct (filter _ reviews) as [|r0 rs]; [auto|].
  destruct (int_truediv _ _) as [error_rate|e]; [|rewrite bind_lift_raise; auto].
  rewrite bind_lift_ok. destruct (fgeb _ _); [|auto].
  apply bind_keeps; [apply upsert_keeps|]. intros p db1.
  apply bind_keeps; [apply penalties_keep | auto].
Qed.

Lemma _analyze_grammar_errors_keeps user_id reviews now stamp db :
  I (error_patterns db) ->
  I (error_patterns (snd (_analyze_grammar_errors user_id reviews now stamp db))).
Proof.
  unfold _analyze_grammar_errors. rewrite bind_get.
  destruct (filter _ reviews) as [|r0 rs]; [auto|].
  destruct (int_truediv _ _) as [error_rate|e]; [|rewrite bind_lift_raise; auto].
  rewrite bind_lift_ok. destruct (fgeb _ _); [|auto].
  apply bind_keeps; [apply upsert_keeps|]. intros p db1.
  apply bind_keeps; [apply penalties_keep | auto].
Qed.

Lemma _analyze_structure_errors_keeps user_id submissions now stamp db :
  I (error_patterns db) ->
  I (error_patterns (snd (_analyze_structure_errors user_id submissions now stamp db))).
Proof.
  unfold _analyze_structure_errors. rewrite bind_get.
  destruct (filter _ submissions) as [|s0 ss]; [auto|].
  destruct (int_truediv _ _) as [error_rate|e]; [|rewrite bind_lift_raise; auto].
  rewrite bind_lift_ok. destruct (fgeb _ _); [|auto].
  apply bind_keeps; [apply upsert_keeps | auto].
Qed.

Lemma analyze_and_update_patterns_keeps user_id now seen stamp db :
  I (error_patterns db) ->
  I (error_patterns (snd (analyze_and_update_patterns user_id now seen stamp db))).
Proof.
  unfold analyze_and_update_patterns.
  apply bind_keeps; [auto|]. intros window db1.
  apply bind_keeps; [auto|]. intros cutoff db2.
  apply bind_keeps; [auto|]. intros db3 db4.
  apply bind_keeps.
  - destruct (_ <=? _); [|auto].
    apply bind_keeps; [apply _analyze_vocab_errors_keeps|]. intros vp db5.
    apply bind_keeps; [apply _analyze_grammar_errors_keeps | auto].
  - intros rp db5.
    apply bind_keeps; [auto|]. intros db6 db7.
    apply bind_keeps; [|auto].
    destruct (_ <=? _); [|auto]. apply _analyze_structure_errors_keeps.
Qed.

End Invariant.

End PatternTable.

Module PatternFacts.

Import DetectorSpec.

Lemma SEVERITY_INCREMENT_fin : SEVERITY_INCREMENT = Fin (fin_val SEVERITY_INCREMENT).
Proof. vm_compute. reflexivity. Qed.

Lemma SEVERITY_INCREMENT_representable :
  rnd (fin_val SEVERITY_INCREMENT) 1 = Fin (fin_val SEVERITY_INCREMENT).
Proof. vm_compute. reflexivity. Qed.

Lemma SEVERITY_INCREMENT_bounds : 0 <= fin_val SEVERITY_INCREMENT <= U.
Proof.
  destruct (lit_fraction_fin 2 10 ltac:(lia) ltac:(lia)) as (k & E & Hk).
  unfold SEVERITY_INCREMENT. rewrite E. exact Hk.
Qed.

Lemma created_ok db user_id pattern_type description affected_cards stamp :
  pattern_ok (created db user_id pattern_type description affected_cards stamp).
Proof.
  unfold pattern_ok, created. cbn [ErrorPattern.severity ErrorPattern.count].
  pose proof SEVERITY_INCREMENT_bounds as Hb.
  fold SEVERITY_INCREMENT. rewrite SEVERITY_INCREMENT_fin, lit_one, !fle_Fin. lia.
Qed.

Lemma reinforced_ok existing description affected_cards now :
  pattern_ok existing -> pattern_ok (reinforced existing description affected_cards now).
Proof.
  unfold pattern_ok, reinforced. cbn [ErrorPattern.severity ErrorPattern.count].
  fold SEVERITY_INCREMENT. unfold MAX_SEVERITY.
  pose proof SEVERITY_INCREMENT_bounds as Hb. pose proof U_pos as HU.
  rewrite SEVERITY_INCREMENT_fin, lit_one. set (c := fin_val SEVERITY_INCREMENT) in *.
  intros (Hlo & Hhi & Hcount).
  destruct (fle_between _ _ _ Hlo Hhi) as (s & Es & Hs). rewrite Es.
  split; [|split; [apply py_min_le_l | lia]].
  assert (Hsum : fle (Fin c) (fadd (Fin s) (Fin c))).
  { cbn [fadd]. apply rnd_ge_repr; [apply SEVERITY_INCREMENT_representable | lia | lia]. }
  unfold py_min. destruct (fltb (fadd (Fin s) (Fin c)) (Fin U)); [exact Hsum|].
  apply fle_Fin. lia.
Qed.

Lemma upsert_keeps_pattern_ok user_id pattern_type description affected_cards now stamp db :
  Forall pattern_ok (error_patterns db) ->
  Forall pattern_ok
    (error_patterns
       (snd (_upsert_pattern user_id pattern_type description affected_cards now stamp db))).
Proof.
  intros Hall. rewrite _upsert_pattern_run.
  destruct (query_active_pattern user_id pattern_type db) as [[i existing]|] eqn:Eq;
    cbn [snd error_patterns set_error_patterns].
  - apply query_active_pattern_Some in Eq. destruct Eq as (Hl & _).
    apply Forall_insert; [exact Hall|]. apply reinforced_ok.
    rewrite Forall_lookup in Hall. exact (Hall i existing Hl).
  - apply Forall_app. split; [exact Hall|]. constructor; [apply created_ok | constructor].
Qed.

Lemma upsert_keeps_one_active user_id pattern_type description affected_cards now stamp db :
  one_active_per_type (error_patterns db) ->
  one_active_per_type
    (error_patterns
       (snd (_upsert_pattern user_id pattern_type description affected_cards now stamp db))).
Proof.
  intros Hone. rewrite _upsert_pattern_run.
  destruct (query_active_pattern user_id pattern_type db) as [[i existing]|] eqn:Eq;
    cbn [snd error_patterns set_error_patterns].
  - apply query_active_pattern_Some in Eq. destruct Eq as (Hl & Hu & Ht & Ha).
    assert (Hback : forall a p,
               <[i := reinforced existing description affected_cards now]>
                 (error_patterns db) !! a = Some p ->
               exists p0, error_patterns db !! a = Some p0
                          /\ ErrorPattern.user_id p0 = ErrorPattern.user_id p
                          /\ ErrorPattern.pattern_type p0 = ErrorPattern.pattern_type p
                          /\ ErrorPattern.is_active p0 = ErrorPattern.is_active p).
    { intros a p Ha'. destruct (decide (a = i)) as [->|Hne].
      - rewrite list_lookup_insert_eq in Ha' by (eapply lookup_lt_Some; exact Hl).
        inversion Ha'. exists existing. repeat split. exact Hl.
      - rewrite list_lookup_insert_ne in Ha' by congruence. exists p. repeat split. exact Ha'. }
    intros a b p q Hp Hq Hap Haq Hsu Hst.
    destruct (Hback a p Hp) as (p0 & Hp0 & Eu1 & Et1 & Ea1).
    destruct (Hback b q Hq) as (q0 & Hq0 & Eu2 & Et2 & Ea2).
    apply (Hone a b p0 q0); congruence.
  - assert (Hnone : Forall (fun p => ~ (ErrorPattern.user_id p = user_id
                                        /\ ErrorPattern.pattern_type p = pattern_type
                                        /\ ErrorPattern.is_active p = true))
                      (error_patterns db)).
    { unfold query_active_pattern in Eq. apply list_find_None in Eq. exact Eq. }
    rewrite Forall_lookup in Hnone.
    set (fresh := created db user_id pattern_type description affected_cards stamp).
    assert (Hsplit : forall a p,
               (error_patterns db ++ [fresh]) !! a = Some p ->
               error_patterns db !! a = Some p
               \/ (a = length (error_patterns db) /\ p = fresh)).
    { intros a p Ha. apply lookup_app_Some in Ha. destruct Ha as [Ha | [Hlen Ha]]; [auto|].
      right. apply list_lookup_singleton_Some in Ha. destruct Ha as [Hz ->].
      split; [lia | reflexivity]. }
    intros a b p q Hp Hq Hap Haq Hsu Hst.
    destruct (Hsplit a p Hp) as [Hp0 | [-> ->]]; destruct (Hsplit b q Hq) as [Hq0 | [-> ->]].
    + exact (Hone a b p q Hp0 Hq0 Hap Haq Hsu Hst).
    + exfalso. apply (Hnone a p Hp0). repeat split; [exact Hsu | exact Hst | exact Hap].
    + exfalso. apply (Hnone b q Hq0).
      repeat split; [symmetry; exact Hsu | symmetry; exact Hst | exact Haq].
    + reflexivity.
Qed.

(** Deactivating rows keeps both. *)
Lemma deactivate_some_keeps (f : ErrorPattern.t -> bool) patterns :
  Forall pattern_ok patterns /\ one_active_per_type patterns ->
  Forall pattern_ok ((fun p => if f p then deactivate p else p) <$> patterns)
  /\ one_active_per_type ((fun p => if f p then deactivate p else p) <$> patterns).
Proof.
  intros [Hok Hone]. split.
  - apply Forall_fmap. eapply Forall_impl; [exact Hok|].
    intros p Hp. cbn. destruct (f p); exact Hp.
  - intros a b p q Hp Hq Hap Haq Hsu Hst.
    rewrite list_lookup_fmap in Hp, Hq.
    destruct (patterns !! a) as [p0|] eqn:Ea; [|discriminate Hp].
    destruct (patterns !! b) as [q0|] eqn:Eb; [|discriminate Hq].
    cbn in Hp, Hq. inversion Hp. inversion Hq. subst p q. clear Hp Hq.
    destruct (f p0); [discriminate Hap|]. destruct (f q0); [discriminate Haq|].
    exact (Hone a b p0 q0 Ea Eb Hap Haq Hsu Hst).
Qed.

(** The two passes on [mixed_db]: the analysis reinforces the vocabulary
    pattern and leaves the grammar pattern, the resolution deactivates the
    grammar pattern and leaves the vocabulary pattern. *)
Lemma mixed_db_analysis :
  error_patterns
    (snd (analyze_and_update_patterns 1 example_now example_times example_times mixed_db))
  = [ reinforced example_pattern (Taxa_de_erro_em_vocabulario (lit 1 1)) [1] example_now;
      example_grammar_pattern ].
Proof. vm_compute. reflexivity. Qed.

Lemma mixed_db_resolution :
  resolve_pattern_if_improved 1 example_now mixed_db
  = (Ok [deactivate example_grammar_pattern],
     set_error_patterns [example_pattern; deactivate example_grammar_pattern] mixed_db).
Proof. vm_compute. reflexivity. Qed.

End PatternFacts.

Import PatternFacts.

(** X16 (adaptation.py, [analyze_and_update_patterns], [_upsert_pattern],
    [resolve_pattern_if_improved]): two invariants of the pattern table.
    If every pattern has a severity between 0.2 and 1.0 and a count of at
    least 1, and no learner has two active patterns of the same type, then
    the same holds after an analysis pass and after a resolution pass,
    however they end. *)
Theorem pattern_table_invariants user_id now seen stamp db :
  Forall pattern_ok (error_patterns db) /\ one_active_per_type (error_patterns db) ->
  (Forall pattern_ok (error_patterns (snd (analyze_and_update_patterns user_id now seen stamp db)))
   /\ one_active_per_type
        (error_patterns (snd (analyze_and_update_patterns user_id now seen stamp db))))
  /\ (Forall pattern_ok (error_patterns (snd (resolve_pattern_if_improved user_id now db)))
      /\ one_active_per_type
           (error_patterns (snd (resolve_pattern_if_improved user_id now db)))).
Proof.
  intros [Hok Hone]. split.
  - split.
    + apply (PatternTable.analyze_and_update_patterns_keeps (Forall pattern_ok));
        [intros; apply upsert_keeps_pattern_ok; assumption | exact Hok].
    + apply (PatternTable.analyze_and_update_patterns_keeps one_active_per_type);
        [intros; apply upsert_keeps_one_active; assumption | exact Hone].
  - destruct (window_start now) as [cutoff|e] eqn:Hw.
    + rewrite (resolve_pattern_if_improved_run _ _ _ _ Hw).
      cbn [snd error_patterns set_error_patterns].
      apply (deactivate_some_keeps
               (fun p => resolves user_id (recent_reviews_of user_id cutoff db) p)).
      split; assumption.
    + assert (Hraise : resolve_pattern_if_improved user_id now db = (Raise e, db)).
      { unfold resolve_pattern_if_improved, window_start in *.
        destruct (Dt.timedelta_days ANALYSIS_WINDOW_DAYS) as [window|e0].
        - cbn [rbind] in Hw. rewrite bind_lift_ok, Hw, bind_lift_raise. reflexivity.
        - inversion Hw. subst. rewrite bind_lift_raise. reflexivity. }
      rewrite Hraise. split; assumption.
Qed.

Lemma pattern_table_invariants_witness :
  error_patterns
    (snd (analyze_and_update_patterns 1 example_now example_times example_times mixed_db))
  = [ reinforced example_pattern (Taxa_de_erro_em_vocabulario (lit 1 1)) [1] example_now;
      example_grammar_pattern ]
  /\ error_patterns (snd (resolve_pattern_if_improved 1 example_now mixed_db))
     = [example_pattern; deactivate example_grammar_pattern]
  /\ (Forall pattern_ok
        (error_patterns
           (snd (analyze_and_update_patterns 1 example_now example_times example_times
                   mixed_db)))
      /\ one_active_per_type
           (error_patterns
              (snd (analyze_and_update_patterns 1 example_now example_times example_times
                      mixed_db))))
  /\ (Forall pattern_ok
        (error_patterns (snd (resolve_pattern_if_improved 1 example_now mixed_db)))
      /\ one_active_per_type
           (error_patterns (snd (resolve_pattern_if_improved 1 example_now mixed_db)))).
Proof.
  split; [exact mixed_db_analysis|].
  split; [rewrite mixed_db_resolution; reflexivity|].
  apply (pattern_table_invariants 1 example_now example_times example_times mixed_db). split.
  - cbn [error_patterns mixed_db]. constructor; [|constructor; [|constructor]].
    + unfold pattern_ok, example_pattern. cbn [ErrorPattern.severity ErrorPattern.count].
      split; [apply lit_mono; lia|]. split; [apply lit_mono; lia | lia].
    + unfold pattern_ok, example_grammar_pattern.
      cbn [ErrorPattern.severity ErrorPattern.count].
      split; [apply lit_mono; lia|]. split; [apply lit_mono; lia | lia].
  - intros i j p q Hp Hq _ _ _ Ht. cbn [error_patterns mixed_db] in Hp, Hq.
    destruct i as [|[|i]]; destruct j as [|[|j]]; try discriminate Hp; try discriminate Hq;
      try reflexivity; inversion Hp; inversion Hq; subst p q; discriminate Ht.
Defined.

(** ** The thresholds of the three analyses *)

Module ThresholdFacts.

Import DetectorSpec.

Lemma len_nonneg {A : Type} (l : list A) : 0 <= len l.
Proof. unfold len. lia. Qed.

Lemma len_pos_cons {A : Type} (l : list A) : 0 < len l -> exists a r, l = a :: r.
Proof. destruct l as [|a r]; [unfold len; cbn; lia | eauto]. Qed.

Lemma len_filter_and {A : Type} (P Q : A -> Prop) `{forall x, Decision (P x)}
    `{forall x, Decision (Q x)} (l : list A) :
  len (filter (fun x => P x /\ Q x) l) <= len (filter P l) <= len l.
Proof.
  unfold len. induction l as [|a l IH]; [cbn; lia|].
  rewrite !filter_cons.
  destruct (decide (P a /\ Q a)) as [[HP HQ]|Hn]; destruct (decide (P a)) as [HP'|HP'];
    cbn [length]; try tauto; lia.
Qed.

Lemma upsert_then_penalties_detected user_id t description affected_cards now stamp db ids
    penalty :
  detected t user_id
    ((do pattern <- _upsert_pattern user_id t description affected_cards now stamp;
      do _ <- _apply_srs_penalty_to_cards ids penalty;
      ret [pattern]) db).
Proof.
  unfold bind. rewrite _upsert_pattern_run.
  destruct (query_active_pattern user_id t db) as [[i existing]|] eqn:Eq.
  - apply query_active_pattern_Some in Eq. destruct Eq as (Hl & Hu & Ht & Ha).
    destruct (_apply_srs_penalty_to_cards_run ids penalty
                (set_error_patterns
                   (<[i := reinforced existing description affected_cards now]>
                      (error_patterns db)) db)) as [l ->].
    exists (reinforced existing description affected_cards now), i.
    split; [reflexivity|]. split.
    + cbn. apply list_lookup_insert_eq. eapply lookup_lt_Some. exact Hl.
    + repeat split; assumption.
  - destruct (_apply_srs_penalty_to_cards_run ids penalty
                (set_error_patterns
                   (error_patterns db
                    ++ [created db user_id t description affected_cards stamp]) db)) as [l ->].
    exists (created db user_id t description affected_cards stamp), (length (error_patterns db)).
    split; [reflexivity|]. split.
    + cbn. rewrite lookup_app_r by lia. rewrite Nat.sub_diag. reflexivity.
    + repeat split.
Qed.

Lemma upsert_detected user_id t description affected_cards now stamp db :
  detected t user_id
    ((do pattern <- _upsert_pattern user_id t description affected_cards now stamp;
      ret [pattern]) db).
Proof.
  unfold bind. rewrite _upsert_pattern_run.
  destruct (query_active_pattern user_id t db) as [[i existing]|] eqn:Eq.
  - apply query_active_pattern_Some in Eq. destruct Eq as (Hl & Hu & Ht & Ha).
    exists (reinforced existing description affected_cards now), i.
    split; [reflexivity|]. split.
    + cbn. apply list_lookup_insert_eq. eapply lookup_lt_Some. exact Hl.
    + repeat split; assumption.
  - exists (created db user_id t description affected_cards stamp), (length (error_patterns db)).
    split; [reflexivity|]. split.
    + cbn. rewrite lookup_app_r by lia. rewrite Nat.sub_diag. reflexivity.
    + repeat split.
Qed.

(** The test [errors / total >= p / 100] of an analysis. *)
Lemma threshold_test errors total p :
  0 <= errors <= total -> 0 < total -> total * 100 < 2 ^ 52 -> 0 <= p <= 100 ->
  exists rate,
    int_truediv errors total = Ok rate
    /\ fgeb rate (lit p 100) = (p * total <=? 100 * errors).
Proof.
  intros He Ht Hsmall Hp.
  destruct (error_rate_at_least errors total p 100 He Ht Hp ltac:(lia) Hsmall)
    as (rate & Er & Hge & _).
  exists rate. split; [exact Er|]. rewrite Hge.
  destruct (Z.leb_spec (p * total) (errors * 100));
    destruct (Z.leb_spec (p * total) (100 * errors)); try reflexivity; lia.
Qed.

(** The branch every analysis ends in: nothing on an empty sample, the
    detection [K] when the share of errors reaches [p / 100], nothing
    below. *)
Lemma threshold_branch {A B : Type} (total : list A) (errors p : Z)
    (K : float -> M (list B)) db :
  0 <= errors <= len total -> len total * 100 < 2 ^ 52 -> 0 <= p <= 100 ->
  (0 < len total -> p * len total <= 100 * errors ->
   exists rate,
     match total with
     | [] => ret []
     | _ => do error_rate <- lift (int_truediv errors (len total));
            if fgeb error_rate (lit p 100) then K error_rate else ret []
     end db = K rate db)
  /\ (100 * errors < p * len total \/ total = [] ->
      match total with
      | [] => ret []
      | _ => do error_rate <- lift (int_truediv errors (len total));
             if fgeb error_rate (lit p 100) then K error_rate else ret []
      end db = (Ok [], db)).
Proof.
  intros He Hsmall Hp. split.
  - intros Hpos Hge.
    destruct (threshold_test errors (len total) p He Hpos Hsmall Hp) as (rate & Er & Ht).
    exists rate. destruct total as [|a r]; [unfold len in Hpos; cbn in Hpos; lia|].
    rewrite Er, bind_lift_ok, Ht.
    destruct (Z.leb_spec (p * len (a :: r)) (100 * errors)); [reflexivity|lia].
  - intros [Hlt | ->]; [|reflexivity].
    destruct total as [|a r]; [reflexivity|].
    assert (Hpos : 0 < len (a :: r)) by (unfold len; cbn [length]; lia).
    destruct (threshold_test errors (len (a :: r)) p He Hpos Hsmall Hp) as (rate & Er & Ht).
    rewrite Er, bind_lift_ok, Ht.
    destruct (Z.leb_spec (p * len (a :: r)) (100 * errors)); [lia|reflexivity].
Qed.

Lemma _analyze_vocab_errors_threshold user_id reviews now stamp db :
  len reviews * 100 < 2 ^ 52 ->
  (0 < len (reviews_of_type VOCAB reviews db) ->
   40 * len (reviews_of_type VOCAB reviews db) <= 100 * len (errors_of_type VOCAB reviews db) ->
   detected VOCAB_WEAKNESS user_id (_analyze_vocab_errors user_id reviews now stamp db))
  /\ (100 * len (errors_of_type VOCAB reviews db) < 40 * len (reviews_of_type VOCAB reviews db)
      \/ reviews_of_type VOCAB reviews db = [] ->
      _analyze_vocab_errors user_id reviews now stamp db = (Ok [], db)).
Proof.
  intros Hsmall.
  assert (Hlen : len (errors_of_type VOCAB reviews db)
                 <= len (reviews_of_type VOCAB reviews db) <= len reviews)
    by apply (len_filter_and
                (fun r => _get_card_type (ReviewLog.card_id r) db = Some VOCAB)
                (fun r => ReviewLog.was_correct r = false) reviews).
  pose proof (len_nonneg (errors_of_type VOCAB reviews db)) as He0.
  unfold _analyze_vocab_errors. rewrite bind_get. cbv zeta.
  change (filter (fun review =>
                    Card.card_type <$> query_card (ReviewLog.card_id review) db = Some VOCAB
                    /\ ReviewLog.was_correct review = false) reviews)
    with (errors_of_type VOCAB reviews db).
  change (filter (fun r => _get_card_type (ReviewLog.card_id r) db = Some VOCAB) reviews)
    with (reviews_of_type VOCAB reviews db).
  unfold VOCAB_ERROR_THRESHOLD.
  idtac;
      destruct (threshold_branch (reviews_of_type VOCAB reviews db)
                  (len (errors_of_type VOCAB reviews db)) 40
                  (fun error_rate =>
                     do pattern <- _upsert_pattern user_id VOCAB_WEAKNESS
                                     (Taxa_de_erro_em_vocabulario error_rate)
                                     (list_of_set (ReviewLog.card_id
                                                     <$> errors_of_type VOCAB reviews db))
                                     now stamp;
                     do _ <- _apply_srs_penalty_to_cards
                               (list_of_set (ReviewLog.card_id
                                               <$> errors_of_type VOCAB reviews db))
                               (lit 6 10);
                     ret [pattern]) db) as [Hhit Hmiss]; try lia.
  split.
  - intros Hpos Hge. destruct (Hhit Hpos Hge) as [rate ->].
    apply upsert_then_penalties_detected.
  - exact Hmiss.
Qed.

Lemma _analyze_grammar_errors_threshold user_id reviews now stamp db :
  len reviews * 100 < 2 ^ 52 ->
  (0 < len (reviews_of_type GRAMMAR reviews db) ->
   35 * len (reviews_of_type GRAMMAR reviews db)
   <= 100 * len (errors_of_type GRAMMAR reviews db) ->
   detected GRAMMAR_CONFUSION user_id (_analyze_grammar_errors user_id reviews now stamp db))
  /\ (100 * len (errors_of_type GRAMMAR reviews db)
      < 35 * len (reviews_of_type GRAMMAR reviews db)
      \/ reviews_of_type GRAMMAR reviews db = [] ->
      _analyze_grammar_errors user_id reviews now stamp db = (Ok [], db)).
Proof.
  intros Hsmall.
  assert (Hlen : len (errors_of_type GRAMMAR reviews db)
                 <= len (reviews_of_type GRAMMAR reviews db) <= len reviews)
    by apply (len_filter_and
                (fun r => _get_card_type (ReviewLog.card_id r) db = Some GRAMMAR)
                (fun r => ReviewLog.was_correct r = false) reviews).
  pose proof (len_nonneg (errors_of_type GRAMMAR reviews db)) as He0.
  unfold _analyze_grammar_errors. rewrite bind_get. cbv zeta.
  change (filter (fun review =>
                    _get_card_type (ReviewLog.card_id review) db = Some GRAMMAR
                    /\ ReviewLog.was_correct review = false) reviews)
    with (errors_of_type GRAMMAR reviews db).
  change (filter (fun r => _get_card_type (ReviewLog.card_id r) db = Some GRAMMAR) reviews)
    with (reviews_of_type GRAMMAR reviews db).
  unfold GRAMMAR_ERROR_THRESHOLD.
  destruct (threshold_branch (reviews_of_type GRAMMAR reviews db)
              (len (errors_of_type GRAMMAR reviews db)) 35
              (fun error_rate =>
                 do pattern <- _upsert_pattern user_id GRAMMAR_CONFUSION
                                 (Confusao_em_estruturas_gramaticais error_rate)
                                 (list_of_set (ReviewLog.card_id
                                                 <$> errors_of_type GRAMMAR reviews db)) now stamp;
                 do _ <- _apply_srs_penalty_to_cards
                           (list_of_set (ReviewLog.card_id
                                           <$> errors_of_type GRAMMAR reviews db))
                           (lit 5 10);
                 ret [pattern]) db) as [Hhit Hmiss]; try lia.
  split.
  - intros Hpos Hge. destruct (Hhit Hpos Hge) as [rate ->].
    apply upsert_then_penalties_detected.
  - exact Hmiss.
Qed.

Lemma _analyze_structure_errors_threshold user_id submissions now stamp db :
  len submissions * 100 < 2 ^ 52 ->
  (0 < len (build_sentence_submissions submissions db) ->
   45 * len (build_sentence_submissions submissions db)
   <= 100 * len (build_sentence_errors submissions db) ->
   detected STRUCTURE_CONFUSION user_id
     (_analyze_structure_errors user_id submissions now stamp db))
  /\ (100 * len (build_sentence_errors submissions db)
      < 45 * len (build_sentence_submissions submissions db)
      \/ build_sentence_submissions submissions db = [] ->
      _analyze_structure_errors user_id submissions now stamp db = (Ok [], db)).
Proof.
  intros Hsmall.
  assert (Hlen : len (build_sentence_errors submissions db)
                 <= len (build_sentence_submissions submissions db) <= len submissions)
    by apply (len_filter_and
                (fun s => _get_exercise_type (ExerciseSubmission.exercise_id s) db
                          = Some BUILD_SENTENCE)
                (fun s => ExerciseSubmission.is_correct s = false) submissions).
  pose proof (len_nonneg (build_sentence_errors submissions db)) as He0.
  unfold _analyze_structure_errors. rewrite bind_get. cbv zeta.
  change (filter (fun submission =>
                    ExerciseRow.exercise_type
                      <$> query_exercise (ExerciseSubmission.exercise_id submission) db
                    = Some BUILD_SENTENCE
                    /\ ExerciseSubmission.is_correct submission = false) submissions)
    with (build_sentence_errors submissions db).
  change (filter (fun s => _get_exercise_type (ExerciseSubmission.exercise_id s) db
                           = Some BUILD_SENTENCE) submissions)
    with (build_sentence_submissions submissions db).
  unfold STRUCTURE_ERROR_THRESHOLD.
  match goal with
  | |- context [if fgeb _ (lit 45 100) then
                  (do pattern <- _upsert_pattern _ _ _ ?cards _ _; _) else _] =>
      destruct (threshold_branch (build_sentence_submissions submissions db)
                  (len (build_sentence_errors submissions db)) 45
                  (fun error_rate =>
                     do pattern <- _upsert_pattern user_id STRUCTURE_CONFUSION
                                     (Dificuldade_com_ordem_de_frases error_rate)
                                     cards now stamp;
                     ret [pattern]) db) as [Hhit Hmiss]; try lia
  end.
  split.
  - intros Hpos Hge. destruct (Hhit Hpos Hge) as [rate ->].
    apply upsert_detected.
  - exact Hmiss.
Qed.

End ThresholdFacts.

Import ThresholdFacts.

(** X17 (adaptation.py, [_analyze_vocab_errors], [_analyze_grammar_errors],
    [_analyze_structure_errors]): the three analyses apply their thresholds
    exactly, on samples of fewer than 2^52 / 100 records: with at least one vocabulary review and
    at least 40 in 100 of them wrong, the vocabulary analysis returns one
    active vocabulary-weakness pattern of the learner, stored in the table;
    below 40 in 100, or with no vocabulary review, it returns nothing and
    leaves the store as it was.  The same holds for grammar reviews at 35 in
    100 and for build-sentence submissions at 45 in 100. *)
Theorem detection_thresholds user_id now stamp db :
  (forall reviews,
     len reviews * 100 < 2 ^ 52 ->
     (0 < len (reviews_of_type VOCAB reviews db) ->
      40 * len (reviews_of_type VOCAB reviews db)
      <= 100 * len (errors_of_type VOCAB reviews db) ->
      detected VOCAB_WEAKNESS user_id (_analyze_vocab_errors user_id reviews now stamp db))
     /\ (100 * len (errors_of_type VOCAB reviews db)
         < 40 * len (reviews_of_type VOCAB reviews db)
         \/ reviews_of_type VOCAB reviews db = [] ->
         _analyze_vocab_errors user_id reviews now stamp db = (Ok [], db)))
  /\ (forall reviews,
        len reviews * 100 < 2 ^ 52 ->
        (0 < len (reviews_of_type GRAMMAR reviews db) ->
         35 * len (reviews_of_type GRAMMAR reviews db)
         <= 100 * len (errors_of_type GRAMMAR reviews db) ->
         detected GRAMMAR_CONFUSION user_id
           (_analyze_grammar_errors user_id reviews now stamp db))
        /\ (100 * len (errors_of_type GRAMMAR reviews db)
            < 35 * len (reviews_of_type GRAMMAR reviews db)
            \/ reviews_of_type GRAMMAR reviews db = [] ->
            _analyze_grammar_errors user_id reviews now stamp db = (Ok [], db)))
  /\ (forall submissions,
        len submissions * 100 < 2 ^ 52 ->
        (0 < len (build_sentence_submissions submissions db) ->
         45 * len (build_sentence_submissions submissions db)
         <= 100 * len (build_sentence_errors submissions db) ->
         detected STRUCTURE_CONFUSION user_id
           (_analyze_structure_errors user_id submissions now stamp db))
        /\ (100 * len (build_sentence_errors submissions db)
            < 45 * len (build_sentence_submissions submissions db)
            \/ build_sentence_submissions submissions db = [] ->
            _analyze_structure_errors user_id submissions now stamp db = (Ok [], db))).
Proof.
  split; [|split].
  - intros reviews. apply _analyze_vocab_errors_threshold.
  - intros reviews. apply _analyze_grammar_errors_threshold.
  - intros submissions. apply _analyze_structure_errors_threshold.
Qed.

(** ** The criterion of the resolution pass *)

Module ResolutionFacts.

Import DetectorSpec.

Lemma filter_nothing {A : Type} (P : A -> Prop) `{forall x, Decision (P x)} (l : list A) :
  (forall x, ~ P x) -> filter P l = [].
Proof.
  intros Hno. induction l as [|a l IH]; [reflexivity|].
  rewrite filter_cons. destruct (decide (P a)) as [HP|_]; [destruct (Hno a HP) | exact IH].
Qed.

Lemma filter_nothing_in {A : Type} (P : A -> Prop) `{forall x, Decision (P x)} (l : list A) :
  (forall x, x ∈ l -> ~ P x) -> filter P l = [].
Proof.
  intros Hno. induction l as [|a l IH]; [reflexivity|].
  rewrite filter_cons. destruct (decide (P a)) as [HP|_].
  - destruct (Hno a (list_elem_of_here a l) HP).
  - apply IH. intros x Hx. apply Hno. apply list_elem_of_further. exact Hx.
Qed.

Lemma pattern_reviews_no_items recent pattern :
  default [] (ErrorPattern.items_affected pattern) = [] ->
  recovered recent pattern = false.
Proof.
  intros Hnil. unfold recovered, pattern_reviews. rewrite Hnil.
  rewrite (filter_nothing (fun r => ReviewLog.card_id r ∈ ([] : list Z)))
    by (intros x Hx; inversion Hx).
  reflexivity.
Qed.

(** On fewer than 2^52 / 100 reviews the float test of the loop body is the
    test on the counts. *)
Lemma improved_recovered recent pattern :
  len recent * 100 < 2 ^ 52 ->
  improved recent pattern = recovered recent pattern.
Proof.
  intros Hsmall. unfold improved.
  destruct (ErrorPattern.items_affected pattern) as [[|c items]|] eqn:Hitems;
    try (symmetry; apply pattern_reviews_no_items; rewrite Hitems; reflexivity).
  cbv zeta. unfold recovered, pattern_reviews. rewrite Hitems.
  change (default [] (Some (c :: items))) with (c :: items).
  rewrite (list_filter_iff (fun r => ReviewLog.card_id r ∈ (list_to_set (c :: items) : gset Z))
             (fun r => ReviewLog.card_id r ∈ c :: items))
    by (intros r; apply elem_of_list_to_set).
  set (touching := filter (fun r => ReviewLog.card_id r ∈ c :: items) recent).
  destruct (Z.leb_spec MIN_REVIEWS_FOR_ANALYSIS (len touching)) as [Hmin|Hfew];
    [|reflexivity].
  cbn [andb].
  pose proof (len_filter_le (fun r => ReviewLog.was_correct r = false) touching) as He.
  pose proof (len_filter_le (fun r => ReviewLog.card_id r ∈ c :: items) recent) as Ht.
  fold touching in Ht. unfold MIN_REVIEWS_FOR_ANALYSIS in Hmin.
  destruct (error_rate_at_least
              (len (filter (fun r => ReviewLog.was_correct r = false) touching))
              (len touching) 20 100) as (rate & -> & _ & Hlt); try lia.
  rewrite Hlt.
  destruct (Z.ltb_spec
              (len (filter (fun r => ReviewLog.was_correct r = false) touching) * 100)
              (20 * len touching));
    destruct (Z.ltb_spec
                (5 * len (filter (fun r => ReviewLog.was_correct r = false) touching))
                (len touching)); try reflexivity; lia.
Qed.

Lemma resolves_resolved_by user_id recent pattern :
  len recent * 100 < 2 ^ 52 ->
  resolves user_id recent pattern = resolved_by user_id recent pattern.
Proof.
  intros Hsmall. unfold resolves, resolved_by. rewrite (improved_recovered _ _ Hsmall).
  reflexivity.
Qed.

Lemma resolves_deactivate user_id recent pattern :
  resolves user_id recent (deactivate pattern) = false.
Proof.
  unfold resolves. cbn [ErrorPattern.is_active deactivate].
  rewrite andb_false_r. reflexivity.
Qed.

Lemma recent_reviews_of_patterns user_id cutoff l db :
  recent_reviews_of user_id cutoff (set_error_patterns l db)
  = recent_reviews_of user_id cutoff db.
Proof. reflexivity. Qed.

End ResolutionFacts.

Import ResolutionFacts.

(** X18 (adaptation.py, [resolve_pattern_if_improved]): which patterns the
    resolution pass deactivates.  When the 7-day window can be computed and
    the learner has fewer than 2^52 / 100 review logs, the pass returns, and
    it deactivates exactly the active patterns of the learner for which at
    least 5 reviews of the window touch the affected cards and fewer than
    one in five of those reviews is wrong.  It returns the deactivated rows
    in table order; every other row and every other table is as it was. *)
Theorem resolution_criterion user_id now cutoff db :
  window_start now = Ok cutoff ->
  len (review_logs db) * 100 < 2 ^ 52 ->
  resolve_pattern_if_improved user_id now db
  = (Ok (deactivate
           <$> filter (fun p => resolved_by user_id (recent_reviews_of user_id cutoff db) p
                                = true) (error_patterns db)),
     set_error_patterns
       ((fun p => if resolved_by user_id (recent_reviews_of user_id cutoff db) p
                  then deactivate p else p) <$> error_patterns db) db).
Proof.
  intros Hw Hsmall. rewrite (resolve_pattern_if_improved_run _ _ _ _ Hw).
  assert (Hrecent : len (recent_reviews_of user_id cutoff db) * 100 < 2 ^ 52).
  { pose proof (len_filter_le
                  (fun r => ReviewLog.user_id r = user_id /\ cutoff <= ReviewLog.reviewed_at r)
                  (review_logs db)) as Hle.
    unfold recent_reviews_of. lia. }
  f_equal.
  - f_equal. f_equal. apply list_filter_iff. intros p.
    rewrite (resolves_resolved_by _ _ _ Hrecent). reflexivity.
  - f_equal. apply list_fmap_ext. intros i p _.
    rewrite (resolves_resolved_by _ _ _ Hrecent). reflexivity.
Qed.

Lemma resolution_criterion_witness :
  resolve_pattern_if_improved 1 example_now mixed_db
  = (Ok [deactivate example_grammar_pattern],
     set_error_patterns [example_pattern; deactivate example_grammar_pattern] mixed_db).
Proof.
  etransitivity.
  - apply (resolution_criterion 1 example_now (example_now - 7 * Dt.US_PER_DAY) mixed_db).
    + vm_compute. reflexivity.
    + vm_compute. reflexivity.
  - assert (Hkept : resolved_by 1
                      (recent_reviews_of 1 (example_now - 7 * Dt.US_PER_DAY) mixed_db)
                      example_pattern = false) by reflexivity.
    assert (Hresolved : resolved_by 1
                          (recent_reviews_of 1 (example_now - 7 * Dt.US_PER_DAY) mixed_db)
                          example_grammar_pattern = true) by reflexivity.
    cbn [error_patterns mixed_db fmap list_fmap].
    rewrite filter_cons_False by (rewrite Hkept; discriminate).
    rewrite filter_cons_True by exact Hresolved.
    rewrite filter_nil, Hkept, Hresolved. reflexivity.
Defined.

(** X19 (adaptation.py, [resolve_pattern_if_improved]): the resolution pass
    is idempotent.  Run again at the same instant on the store it has left,
    it resolves nothing and changes nothing. *)
Theorem resolution_idempotent user_id now cutoff db :
  window_start now = Ok cutoff ->
  resolve_pattern_if_improved user_id now
    (snd (resolve_pattern_if_improved user_id now db))
  = (Ok [], snd (resolve_pattern_if_improved user_id now db)).
Proof.
  intros Hw. rewrite (resolve_pattern_if_improved_run user_id now cutoff db Hw). cbn [snd].
  rewrite (resolve_pattern_if_improved_run _ _ _ _ Hw).
  rewrite recent_reviews_of_patterns. cbn [error_patterns set_error_patterns].
  set (recent := recent_reviews_of user_id cutoff db).
  assert (Hstable : forall p,
             resolves user_id recent
               (if resolves user_id recent p then deactivate p else p) = false).
  { intros p. destruct (resolves user_id recent p) eqn:E; [apply resolves_deactivate | exact E]. }
  rewrite set_error_patterns_twice. f_equal.
  - f_equal. rewrite filter_nothing_in; [reflexivity|].
    intros q Hq. apply list_elem_of_fmap in Hq. destruct Hq as (p & -> & _).
    rewrite Hstable. discriminate.
  - f_equal. rewrite <- list_fmap_compose. apply list_fmap_ext. intros i p _.
    cbn [compose]. rewrite Hstable. reflexivity.
Qed.

Lemma resolution_idempotent_witness :
  resolve_pattern_if_improved 1 example_now
    (snd (resolve_pattern_if_improved 1 example_now recovered_db))
  = (Ok [], snd (resolve_pattern_if_improved 1 example_now recovered_db)).
Proof.
  apply (resolution_idempotent 1 example_now (example_now - 7 * Dt.US_PER_DAY) recovered_db).
  vm_compute. reflexivity.
Defined.

(* ===================================================================== *)
(** * Properties of the adaptation report *)
(* ===================================================================== *)

Module ReportFacts.

Import AdaptationReport.

Lemma fltb_false_fle x y : x <> NaN -> y <> NaN -> fltb x y = false -> fle y x.
Proof.
  unfold fle, fleb. destruct x as [a| | |], y as [b| | |]; cbn [fltb feqb orb];
    intros Hx Hy H; try congruence; try reflexivity.
  apply Z.ltb_ge in H. destruct (Z.ltb_spec b a); [reflexivity|].
  cbn [orb]. apply Z.eqb_eq. lia.
Qed.

Lemma fltb_true_fle x y : fltb x y = true -> fle x y.
Proof. unfold fle, fleb. intros ->. reflexivity. Qed.

Lemma insert_desc_elem p l x : x ∈ insert_desc p l <-> x = p \/ x ∈ l.
Proof.
  induction l as [|q r IH]; cbn [insert_desc].
  - rewrite list_elem_of_singleton. split; [auto | intros [H|H]; [exact H | inversion H]].
  - destruct (fltb (ErrorPattern.severity p) (ErrorPattern.severity q)).
    + rewrite !elem_of_cons, IH. tauto.
    + rewrite !elem_of_cons. tauto.
Qed.

Lemma order_by_severity_desc_elem l x : x ∈ order_by_severity_desc l <-> x ∈ l.
Proof.
  unfold order_by_severity_desc. induction l as [|p l IH]; cbn [foldr]; [reflexivity|].
  rewrite insert_desc_elem, elem_of_cons, IH. reflexivity.
Qed.

Lemma order_by_severity_desc_nil l : order_by_severity_desc l = [] <-> l = [].
Proof.
  split; [|intros ->; reflexivity].
  destruct l as [|p l]; [reflexivity|]. intros H. exfalso.
  assert (Hin : p ∈ order_by_severity_desc (p :: l))
    by (apply order_by_severity_desc_elem; left).
  rewrite H in Hin. inversion Hin.
Qed.

(** The first row of the ordered list is one of greatest severity. *)
Lemma insert_desc_head p l top rest :
  ErrorPattern.severity p <> NaN ->
  Forall (fun q => ErrorPattern.severity q <> NaN) l ->
  (forall t r, l = t :: r ->
     forall q, q ∈ l -> fle (ErrorPattern.severity q) (ErrorPattern.severity t)) ->
  insert_desc p l = top :: rest ->
  forall q, q ∈ insert_desc p l -> fle (ErrorPattern.severity q) (ErrorPattern.severity top).
Proof.
  intros Hp Hl Hhead Hins q Hq. apply insert_desc_elem in Hq.
  destruct l as [|t r]; cbn [insert_desc] in Hins.
  - inversion Hins. subst top rest. destruct Hq as [-> | Hq]; [|inversion Hq].
    apply fle_refl. exact Hp.
  - specialize (Hhead t r eq_refl).
    assert (Ht : ErrorPattern.severity t <> NaN) by (inversion Hl; assumption).
    destruct (fltb (ErrorPattern.severity p) (ErrorPattern.severity t)) eqn:Hlt;
      inversion Hins; subst top rest.
    + destruct Hq as [-> | Hq]; [apply fltb_true_fle; exact Hlt | apply Hhead; exact Hq].
    + assert (Htp : fle (ErrorPattern.severity t) (ErrorPattern.severity p))
        by (apply fltb_false_fle; assumption).
      destruct Hq as [-> | Hq]; [apply fle_refl; exact Hp|].
      eapply fle_trans; [apply Hhead; exact Hq | exact Htp].
Qed.

Lemma order_by_severity_desc_head l top rest :
  Forall (fun q => ErrorPattern.severity q <> NaN) l ->
  order_by_severity_desc l = top :: rest ->
  forall q, q ∈ l -> fle (ErrorPattern.severity q) (ErrorPattern.severity top).
Proof.
  revert top rest. induction l as [|p l IH]; intros top rest Hl Hsort q Hq; [inversion Hq|].
  apply (order_by_severity_desc_elem (p :: l)) in Hq.
  change (order_by_severity_desc (p :: l)) with (insert_desc p (order_by_severity_desc l))
    in Hsort, Hq.
  inversion Hl as [|? ? Hp Hl']. subst.
  eapply insert_desc_head; [exact Hp | | | exact Hsort | exact Hq].
  - rewrite Forall_forall in Hl' |- *. intros x Hx. apply Hl'.
    apply order_by_severity_desc_elem. exact Hx.
  - intros t r Ht x Hx. apply (IH t r Hl' Ht). apply order_by_severity_desc_elem. exact Hx.
Qed.

Lemma query_active_patterns_elem user_id db p :
  p ∈ query_active_patterns user_id db
  <-> p ∈ error_patterns db /\ ErrorPattern.user_id p = user_id
      /\ ErrorPattern.is_active p = true.
Proof. unfold query_active_patterns. rewrite list_elem_of_filter. tauto. Qed.

End ReportFacts.

Import AdaptationReport ReportFacts.

(** X20 (adaptation.py, [get_recommended_exercise_type]): the recommended
    exercise fights the learner's worst active weakness.  The answer is
    [None] exactly when the learner has no active pattern.  Otherwise, with
    no NaN among the severities of the learner's active patterns, it is the
    exercise paired with the type of an active pattern of the learner that
    no other active pattern of the learner exceeds in severity: translation
    for a vocabulary weakness, fill-blank for a grammar confusion,
    build-sentence for a structure confusion. *)
Theorem recommended_exercise_fights_worst_pattern user_id db :
  Forall (fun q => ErrorPattern.severity q <> NaN) (query_active_patterns user_id db) ->
  (get_recommended_exercise_type user_id db = None
   <-> query_active_patterns user_id db = [])
  /\ (forall e,
        get_recommended_exercise_type user_id db = Some e ->
        exists p,
          p ∈ error_patterns db
          /\ ErrorPattern.user_id p = user_id
          /\ ErrorPattern.is_active p = true
          /\ pattern_to_exercise (ErrorPattern.pattern_type p) = Some e
          /\ forall q,
               q ∈ error_patterns db -> ErrorPattern.user_id q = user_id ->
               ErrorPattern.is_active q = true ->
               fle (ErrorPattern.severity q) (ErrorPattern.severity p)).
Proof.
  intros Hnan. unfold get_recommended_exercise_type. cbv zeta.
  destruct (order_by_severity_desc (query_active_patterns user_id db)) as [|top rest] eqn:Hsort.
  - apply (proj1 (order_by_severity_desc_nil _)) in Hsort.
    split; [split; [intros _; exact Hsort | reflexivity]|]. intros e He. discriminate He.
  - split.
    + split.
      * destruct (ErrorPattern.pattern_type top); discriminate.
      * intros Hnil. rewrite Hnil in Hsort. discriminate Hsort.
    + intros e He. exists top.
      assert (Htop : top ∈ query_active_patterns user_id db).
      { apply order_by_severity_desc_elem. rewrite Hsort. left. }
      apply query_active_patterns_elem in Htop. destruct Htop as (Hin & Hu & Ha).
      split; [exact Hin|]. split; [exact Hu|]. split; [exact Ha|]. split; [exact He|].
      intros q Hq Hqu Hqa.
      apply (order_by_severity_desc_head _ _ _ Hnan Hsort).
      apply query_active_patterns_elem. auto.
Qed.

Lemma recommended_exercise_fights_worst_pattern_witness :
  (get_recommended_exercise_type 1 recovered_db = None
   <-> query_active_patterns 1 recovered_db = [])
  /\ (forall e,
        get_recommended_exercise_type 1 recovered_db = Some e ->
        exists p,
          p ∈ error_patterns recovered_db
          /\ ErrorPattern.user_id p = 1
          /\ ErrorPattern.is_active p = true
          /\ pattern_to_exercise (ErrorPattern.pattern_type p) = Some e
          /\ forall q,
               q ∈ error_patterns recovered_db -> ErrorPattern.user_id q = 1 ->
               ErrorPattern.is_active q = true ->
               fle (ErrorPattern.severity q) (ErrorPattern.severity p)).
Proof.
  apply (recommended_exercise_fights_worst_pattern 1 recovered_db).
  repeat constructor. cbn [ErrorPattern.severity example_pattern].
  with_strategy transparent [lit] (unfold lit). apply rnd_not_nan.
Defined.

(** ** The daily limit of new cards *)

Module LimitFacts.

Import AdaptationReport.

Lemma lit_4_10_fin : lit 4 10 = Fin (fin_val (lit 4 10)).
Proof. vm_compute. reflexivity. Qed.

Lemma lit_6_10_fin : lit 6 10 = Fin (fin_val (lit 6 10)).
Proof. vm_compute. reflexivity. Qed.

Lemma lit_6_10_representable : rnd (fin_val (lit 6 10)) 1 = Fin (fin_val (lit 6 10)).
Proof. vm_compute. reflexivity. Qed.

(** [0.4 + 0.6 == 1.0] in binary64. *)
Lemma lit_4_10_plus_6_10 : rnd (fin_val (lit 4 10) + fin_val (lit 6 10)) 1 = Fin U.
Proof. vm_compute. reflexivity. Qed.

Lemma lit_4_10_representable : rnd (fin_val (lit 4 10)) 1 = Fin (fin_val (lit 4 10)).
Proof. vm_compute. reflexivity. Qed.

(** The float [0.4] is not below four tenths. *)
Lemma lit_4_10_lower : 4 * U <= 10 * fin_val (lit 4 10).
Proof. vm_compute. discriminate. Qed.

Lemma lit_4_10_bounds : 0 <= fin_val (lit 4 10) <= U.
Proof.
  destruct (lit_fraction_fin 4 10 ltac:(lia) ltac:(lia)) as (k & E & Hk).
  rewrite E. exact Hk.
Qed.

Lemma lit_6_10_bounds : 0 <= fin_val (lit 6 10) <= U.
Proof.
  destruct (lit_fraction_fin 6 10 ltac:(lia) ltac:(lia)) as (k & E & Hk).
  rewrite E. exact Hk.
Qed.

(** The factor [0.4 + (1.0 - avg_severity) * 0.6] for an average between 0
    and 1 is between four tenths and 1. *)
Lemma reduction_in_range a :
  0 <= a <= U ->
  exists r,
    fadd (lit 4 10) (fmul (fsub (lit 1 1) (Fin a)) (lit 6 10)) = Fin r
    /\ 4 * U <= 10 * r /\ r <= U.
Proof.
  intros Ha. pose proof U_pos as HU.
  pose proof lit_4_10_bounds as H4. pose proof lit_6_10_bounds as H6.
  rewrite lit_4_10_fin, lit_6_10_fin, lit_one.
  set (c4 := fin_val (lit 4 10)) in *. set (c6 := fin_val (lit 6 10)) in *.
  unfold fsub. cbn [fopp fadd].
  assert (Hb : exists b, rnd (U + - a) 1 = Fin b /\ 0 <= b <= U).
  { apply fle_between.
    - apply rnd_nonneg; lia.
    - apply rnd_le_repr; [apply rnd_one | lia | lia]. }
  destruct Hb as (b & -> & Hb). cbn [fmul].
  assert (Ht : exists t, rnd (b * c6) U = Fin t /\ 0 <= t <= c6).
  { apply fle_between.
    - apply rnd_nonneg; [lia | nia].
    - apply rnd_le_repr; [apply lit_6_10_representable | lia | nia]. }
  destruct Ht as (t & -> & Ht). cbn [fadd].
  pose proof lit_4_10_lower as Hlow. fold c4 in Hlow.
  assert (Hr : exists r, rnd (c4 + t) 1 = Fin r /\ c4 <= r <= U).
  { apply fle_between.
    - apply rnd_ge_repr; [apply lit_4_10_representable | lia | lia].
    - rewrite <- lit_4_10_plus_6_10. fold c4 c6. apply rnd_mono; lia. }
  destruct Hr as (r & -> & Hr). exists r. split; [reflexivity | lia].
Qed.

(** [max(3, round(default * reduction))] for a factor between 0 and 1. *)
Lemma scaled_limit default r :
  0 <= default <= 2 ^ 53 -> 4 * U <= 10 * r -> r <= U ->
  exists rounded,
    (let* scaled := int_mul_float default (Fin r) in py_round scaled) = Ok rounded
    /\ 4 * default / 10 <= rounded <= default.
Proof.
  intros Hd Hlow Hr. pose proof U_pos as HU.
  unfold int_mul_float. rewrite (of_int_exact default Hd). cbn [rbind fmul].
  set (k := 4 * default / 10).
  assert (Hk : 0 <= k /\ 10 * k <= 4 * default).
  { unfold k. split; [apply Z.div_pos; lia | apply Z.mul_div_le; lia]. }
  assert (Hkr : k * U <= default * r).
  { assert (H40 : (10 * k) * (4 * U) <= (4 * default) * (10 * r))
      by (apply Z.mul_le_mono_nonneg; lia).
    lia. }
  assert (Hm : exists m, rnd (default * U * r) U = Fin m /\ k * U <= m <= default * U).
  { apply fle_between.
    - apply rnd_ge_repr; [apply int_repr; lia | lia |].
      replace (default * U * r) with (default * r * U) by ring.
      apply Z.mul_le_mono_nonneg_r; lia.
    - apply rnd_le_repr; [apply int_repr; exact Hd | lia | nia]. }
  destruct Hm as (m & -> & Hm). cbn [py_round].
  exists (rhe m U). split; [reflexivity|]. split.
  - apply rhe_ge_int; lia.
  - apply rhe_le_int; lia.
Qed.

Lemma sum_left_in_range : sum_in_range sum_left.
Proof.
  unfold sum_in_range, sum_left. intros l Hlen Hall. pose proof U_pos as HU.
  assert (Hgen : forall l k a,
             0 <= k -> k + len l <= 2 ^ 53 -> 0 <= a <= k * U ->
             Forall (fun x => fle (Fin 0) x /\ fle x (lit 1 1)) l ->
             exists s, foldl fadd (Fin a) l = Fin s /\ 0 <= s <= (k + len l) * U).
  { clear l Hlen Hall. induction l as [|x l IH]; intros k a Hk Hlen Ha Hall.
    - exists a. split; [reflexivity|]. unfold len. cbn [length]. lia.
    - inversion Hall as [|? ? [Hx0 Hx1] Hall']. subst.
      rewrite lit_one in Hx1. destruct (fle_between _ _ _ Hx0 Hx1) as (b & -> & Hb).
      cbn [foldl fadd].
      assert (Hl : len (Fin b :: l) = 1 + len l) by (unfold len; cbn [length]; lia).
      rewrite Hl in Hlen |- *.
      assert (Hl0 : 0 <= len l) by (unfold len; lia).
      assert (Hs : exists s, rnd (a + b) 1 = Fin s /\ 0 <= s <= (k + 1) * U).
      { apply fle_between.
        - apply rnd_nonneg; lia.
        - apply rnd_le_repr; [apply int_repr; lia | lia | nia]. }
      destruct Hs as (s & -> & Hs).
      destruct (IH (k + 1) s ltac:(lia) ltac:(lia) Hs Hall') as (s' & E & Hs').
      exists s'. split; [exact E|]. replace (k + (1 + len l)) with (k + 1 + len l) by ring.
      exact Hs'. }
  destruct (Hgen l 0 0 ltac:(lia) ltac:(lia) ltac:(lia) Hall) as (s & -> & Hs).
  rewrite !fle_Fin. lia.
Qed.

Lemma len_fmap {A B : Type} (f : A -> B) (l : list A) : len (f <$> l) = len l.
Proof. unfold len. rewrite length_fmap. reflexivity. Qed.

(** The limit with at least one active pattern. *)
Lemma get_daily_new_cards_limit_defined fsum user_id db default :
  sum_in_range fsum ->
  severities_in_range (query_active_patterns user_id db) ->
  len (query_active_patterns user_id db) <= 2 ^ 53 ->
  0 <= default <= 2 ^ 53 ->
  exists limit,
    get_daily_new_cards_limit fsum user_id db default = Ok limit
    /\ (query_active_patterns user_id db = [] -> limit = default)
    /\ (query_active_patterns user_id db <> [] ->
        3 <= limit <= Z.max 3 default /\ 4 * default / 10 <= limit).
Proof.
  intros Hsum Hsev Hlen Hd. pose proof U_pos as HU.
  unfold get_daily_new_cards_limit. cbv zeta.
  destruct (query_active_patterns user_id db) as [|p ps] eqn:Hactive.
  - exists default. split; [reflexivity|]. split; [reflexivity | congruence].
  - set (active := p :: ps) in *.
    assert (Hn : 1 <= len active) by (unfold len, active; cbn [length]; lia).
    rewrite (of_int_exact (len active)) by lia. cbn [rbind].
    destruct (Hsum (ErrorPattern.severity <$> active)) as [Hs0 Hs1].
    { rewrite len_fmap. exact Hlen. }
    { unfold severities_in_range in Hsev. rewrite Forall_fmap.
      eapply Forall_impl; [exact Hsev|]. intros q Hq. exact Hq. }
    rewrite len_fmap in Hs1.
    destruct (fle_between _ _ _ Hs0 Hs1) as (s & -> & Hs).
    rewrite fdiv_pos_fin by lia. cbn [rbind].
    assert (Ha : exists a, rnd (s * U) (len active * U) = Fin a /\ 0 <= a <= U).
    { apply fle_between.
      - apply rnd_nonneg; [lia | nia].
      - apply rnd_le_repr; [apply rnd_one | lia | nia]. }
    destruct Ha as (a & -> & Ha).
    destruct (reduction_in_range a Ha) as (r & -> & Hlow & Hr).
    destruct (scaled_limit default r Hd Hlow Hr) as (rounded & E & Hrounded).
    unfold rbind in E |- *.
    destruct (int_mul_float default (Fin r)) as [scaled|e]; [|discriminate E].
    rewrite E. exists (Z.max 3 rounded). split; [reflexivity|].
    split; [discriminate|]. intros _. lia.
Qed.

Lemma recovered_db_active : query_active_patterns 1 recovered_db = [example_pattern].
Proof. reflexivity. Qed.

Lemma recovered_db_severities : severities_in_range (query_active_patterns 1 recovered_db).
Proof.
  rewrite recovered_db_active. constructor; [|constructor].
  cbn [ErrorPattern.severity example_pattern]. rewrite <- lit_zero.
  split; apply lit_mono; lia.
Qed.

End LimitFacts.

Import LimitFacts.

(** X21 (adaptation.py, [get_daily_new_cards_limit]): the bounds of the
    daily limit of new cards.  With the severities of the learner's active
    patterns between 0 and 1 and a default between 0 and 2^53, the function
    returns: the default itself when the learner has no active pattern, and
    otherwise a limit of at least 3, at most the larger of 3 and the
    default, and never below four tenths of the default rounded down.  This
    holds for every way of summing the severities whose result lies between
    0 and their number. *)
Theorem daily_limit_bounds fsum user_id db default :
  sum_in_range fsum ->
  severities_in_range (query_active_patterns user_id db) ->
  len (query_active_patterns user_id db) <= 2 ^ 53 ->
  0 <= default <= 2 ^ 53 ->
  exists limit,
    get_daily_new_cards_limit fsum user_id db default = Ok limit
    /\ (query_active_patterns user_id db = [] -> limit = default)
    /\ (query_active_patterns user_id db <> [] ->
        3 <= limit <= Z.max 3 default /\ 4 * default / 10 <= limit).
Proof. exact (get_daily_new_cards_limit_defined fsum user_id db default). Qed.

Lemma daily_limit_bounds_witness :
  exists limit,
    get_daily_new_cards_limit sum_left 1 recovered_db 10 = Ok limit
    /\ (query_active_patterns 1 recovered_db = [] -> limit = 10)
    /\ (query_active_patterns 1 recovered_db <> [] ->
        3 <= limit <= Z.max 3 10 /\ 4 * 10 / 10 <= limit).
Proof.
  apply (daily_limit_bounds sum_left 1 recovered_db 10).
  - exact sum_left_in_range.
  - exact recovered_db_severities.
  - rewrite recovered_db_active. unfold len. cbn [length]. lia.
  - lia.
Defined.

Lemma get_recommended_exercise_type_None user_id db :
  get_recommended_exercise_type user_id db = None <-> query_active_patterns user_id db = [].
Proof.
  unfold get_recommended_exercise_type. cbv zeta.
  destruct (order_by_severity_desc (query_active_patterns user_id db)) as [|top rest] eqn:Hsort.
  - apply (proj1 (order_by_severity_desc_nil _)) in Hsort.
    split; [intros _; exact Hsort | reflexivity].
  - split.
    + destruct (ErrorPattern.pattern_type top); discriminate.
    + intros Hnil. rewrite Hnil in Hsort. discriminate Hsort.
Qed.

(** X22 (adaptation.py, [get_adaptation_summary]): the parts of the summary
    agree.  With the severities of the learner's active patterns between 0
    and 1, the summary is returned; it lists the learner's active patterns
    in row order; it reports active weaknesses exactly when it recommends
    an exercise type and exactly when that list is not empty; the daily
    limit is 10 without active weaknesses and between 4 and 10 with
    them. *)
Theorem adaptation_summary_consistent fsum user_id db :
  sum_in_range fsum ->
  severities_in_range (query_active_patterns user_id db) ->
  len (query_active_patterns user_id db) <= 2 ^ 53 ->
  exists summary,
    get_adaptation_summary fsum user_id db = Ok summary
    /\ view_type <$> active_patterns summary
       = ErrorPattern.pattern_type <$> query_active_patterns user_id db
    /\ view_severity <$> active_patterns summary
       = ErrorPattern.severity <$> query_active_patterns user_id db
    /\ (has_active_weaknesses summary = true <-> active_patterns summary <> [])
    /\ (has_active_weaknesses summary = true <-> recommended_exercise_type summary <> None)
    /\ (has_active_weaknesses summary = false -> daily_new_cards_limit summary = 10)
    /\ (has_active_weaknesses summary = true -> 4 <= daily_new_cards_limit summary <= 10).
Proof.
  intros Hsum Hsev Hlen.
  destruct (get_daily_new_cards_limit_defined fsum user_id db 10 Hsum Hsev Hlen ltac:(lia))
    as (limit & E & Hnone & Hsome).
  unfold get_adaptation_summary. cbv zeta. rewrite E. cbn [rbind].
  eexists. split; [reflexivity|].
  cbn [active_patterns recommended_exercise_type daily_new_cards_limit has_active_weaknesses].
  rewrite <- !list_fmap_compose.
  split; [reflexivity|]. split; [reflexivity|].
  pose proof (get_recommended_exercise_type_None user_id db) as Hrec.
  destruct (query_active_patterns user_id db) as [|p ps] eqn:Hactive.
  - cbn. split; [split; [discriminate | congruence]|].
    split; [split; [discriminate | intros H; exfalso; apply H, Hrec; reflexivity]|].
    split; [intros _; apply Hnone; reflexivity | discriminate].
  - assert (Hpos : (0 <? len (p :: ps)) = true)
      by (apply Z.ltb_lt; unfold len; cbn [length]; lia).
    rewrite Hpos.
    split; [split; [intros _; discriminate | reflexivity]|].
    split.
    + split; [|reflexivity]. intros _ Hn. apply Hrec in Hn. discriminate Hn.
    + split; [discriminate|]. intros _.
      destruct (Hsome ltac:(discriminate)) as [H3 H4].
      change (4 * 10 / 10) with 4 in H4. lia.
Qed.

Lemma adaptation_summary_consistent_witness :
  exists summary,
    get_adaptation_summary sum_left 1 recovered_db = Ok summary
    /\ view_type <$> active_patterns summary
       = ErrorPattern.pattern_type <$> query_active_patterns 1 recovered_db
    /\ view_severity <$> active_patterns summary
       = ErrorPattern.severity <$> query_active_patterns 1 recovered_db
    /\ (has_active_weaknesses summary = true <-> active_patterns summary <> [])
    /\ (has_active_weaknesses summary = true <-> recommended_exercise_type summary <> None)
    /\ (has_active_weaknesses summary = false -> daily_new_cards_limit summary = 10)
    /\ (has_active_weaknesses summary = true -> 4 <= daily_new_cards_limit summary <= 10).
Proof.
  apply (adaptation_summary_consistent sum_left 1 recovered_db).
  - exact sum_left_in_range.
  - exact recovered_db_severities.
  - rewrite recovered_db_active. unfold len. cbn [length]. lia.
Defined.

(* ===================================================================== *)
(** * More properties of the answer evaluator *)
(* ===================================================================== *)

Module EvaluatorFacts.

Import Str Exercise ExerciseSpec EvaluatorSpec.

Lemma lit_nonneg n d : 0 <= n -> 0 < d -> fle (Fin 0) (lit n d).
Proof. intros Hn Hd. rewrite <- lit_zero. apply lit_mono; lia. Qed.

Lemma lit_le_one n d : n <= d -> 0 < d -> fle (lit n d) (lit 1 1).
Proof. intros Hn Hd. apply lit_mono; lia. Qed.

(** A verdict with a literal score. *)
Lemma verdict_ok_correct n d fb :
  85 * d <= 100 * n -> n <= d -> 0 < d ->
  verdict_ok {| is_correct := true; score := lit n d; feedback := fb;
                error_category := None |}.
Proof.
  intros H85 Hn Hd. unfold verdict_ok. cbn [score is_correct error_category].
  split; [apply lit_nonneg; lia|]. split; [apply lit_le_one; lia|].
  split; [|discriminate]. intros _. split; [apply lit_mono; lia | reflexivity].
Qed.

Lemma verdict_ok_wrong k fb cat :
  0 <= k <= U ->
  verdict_ok {| is_correct := false; score := Fin k; feedback := fb;
                error_category := Some cat |}.
Proof.
  intros Hk. unfold verdict_ok. cbn [score is_correct error_category].
  rewrite lit_one, !fle_Fin.
  split; [lia|]. split; [lia|]. split; [discriminate|]. intros _. discriminate.
Qed.

Lemma verdict_ok_wrong_lit n d fb cat :
  0 <= n <= d -> 0 < d ->
  verdict_ok {| is_correct := false; score := lit n d; feedback := fb;
                error_category := Some cat |}.
Proof.
  intros Hn Hd. destruct (lit_fraction_fin n d Hn Hd) as (k & -> & Hk).
  apply verdict_ok_wrong. exact Hk.
Qed.

Lemma _char_similarity_defined (s1 s2 : str) :
  exists k, _char_similarity s1 s2 = Ok (Fin k) /\ 0 <= k <= U.
Proof.
  pose proof U_pos as HU. unfold _char_similarity.
  destruct s1 as [|c1 r1]; [exists 0; rewrite lit_zero; split; [reflexivity | lia]|].
  destruct s2 as [|c2 r2]; [exists 0; rewrite lit_zero; split; [reflexivity | lia]|].
  cbv zeta.
  set (X := (list_to_set (c1 :: r1) : gset char)).
  set (Y := (list_to_set (c2 :: r2) : gset char)).
  destruct (Z.ltb_spec 0 (Z.of_nat (size (X ∪ Y)))) as [Hpos|_];
    [|exists 0; rewrite lit_zero; split; [reflexivity | lia]].
  apply int_truediv_fraction; [|exact Hpos].
  split; [lia|]. apply inj_le, subseteq_size.
  transitivity X; [apply intersection_subseteq_l | apply union_subseteq_l].
Qed.

Section Evaluator.

Variable lower : str -> str.

Lemma _evaluate_build_sentence_ok user_norm expected_norm user_raw expected_raw :
  exists ev,
    _evaluate_build_sentence user_norm expected_norm user_raw expected_raw = Ok ev
    /\ verdict_ok ev.
Proof.
  unfold _evaluate_build_sentence. cbv zeta.
  set (X := (list_to_set (split user_norm) : gset str)).
  set (Y := (list_to_set (split expected_norm) : gset str)).
  destruct (bool_decide (X = Y)).
  { eexists. split; [reflexivity|]. apply verdict_ok_wrong_lit; lia. }
  destruct (Z.ltb_spec 0 (Z.of_nat (size Y))) as [Hpos|_].
  - destruct (int_truediv_fraction (Z.of_nat (size (X ∩ Y))) (Z.of_nat (size Y)))
      as (k & -> & Hk); [|exact Hpos|].
    { split; [lia|]. apply inj_le, subseteq_size, intersection_subseteq_r. }
    cbn [rbind]. destruct (fgeb (Fin k) (lit 7 10)).
    + eexists. split; [reflexivity|]. apply verdict_ok_wrong. exact Hk.
    + eexists. split; [reflexivity|]. apply verdict_ok_wrong_lit; lia.
  - eexists. split; [reflexivity|]. apply verdict_ok_wrong_lit; lia.
Qed.

Lemma _evaluate_fill_blank_ok user_norm accepted_norms user_raw expected_raw :
  exists ev,
    _evaluate_fill_blank user_norm accepted_norms user_raw expected_raw = Ok ev
    /\ verdict_ok ev.
Proof.
  unfold _evaluate_fill_blank.
  destruct (existsb _ accepted_norms).
  - eexists. split; [reflexivity|]. apply verdict_ok_correct; lia.
  - eexists. split; [reflexivity|]. apply verdict_ok_wrong_lit; lia.
Qed.

Lemma _evaluate_translation_ok user_norm accepted_norms user_raw expected_raw :
  exists ev,
    _evaluate_translation user_norm accepted_norms user_raw expected_raw = Ok ev
    /\ verdict_ok ev.
Proof.
  unfold _evaluate_translation.
  destruct (existsb _ accepted_norms).
  - eexists. split; [reflexivity|]. apply verdict_ok_correct; lia.
  - destruct (_char_similarity_defined user_norm
                match accepted_norms with a :: _ => a | [] => [] end) as (k & -> & Hk).
    cbn [rbind]. destruct (fgeb (Fin k) (lit 7 10)).
    + eexists. split; [reflexivity|]. apply verdict_ok_wrong. exact Hk.
    + eexists. split; [reflexivity|]. apply verdict_ok_wrong. exact Hk.
Qed.

Lemma evaluate_answer_ok user_answer expected_answer exercise_type tolerance :
  exists ev,
    evaluate_answer lower user_answer expected_answer exercise_type tolerance = Ok ev
    /\ verdict_ok ev.
Proof.
  unfold evaluate_answer.
  destruct (is_blank user_answer).
  { eexists. split; [reflexivity|]. apply verdict_ok_wrong_lit; lia. }
  cbv zeta.
  destruct (str_eqb _ _).
  { eexists. split; [reflexivity|]. apply verdict_ok_correct; lia. }
  destruct (existsb _ _).
  { eexists. split; [reflexivity|]. apply verdict_ok_correct; lia. }
  destruct exercise_type.
  - apply _evaluate_translation_ok.
  - apply _evaluate_fill_blank_ok.
  - apply _evaluate_build_sentence_ok.
Qed.

End Evaluator.

End EvaluatorFacts.

Import Str Exercise ExerciseSpec EvaluatorSpec EvaluatorFacts.

(** X23 (exercise.py, [evaluate_answer] and its three helpers): the
    evaluator never raises and every verdict is well formed.  For every
    answer, expected answer, exercise type and tolerance it returns a
    verdict whose score is between 0 and 1; a correct verdict scores at
    least 0.85 and has no error category; an incorrect verdict has one.
    The tolerance has no effect on the verdict. *)
Theorem evaluate_answer_total lower user_answer expected_answer exercise_type tolerance :
  exists ev,
    evaluate_answer lower user_answer expected_answer exercise_type tolerance = Ok ev
    /\ verdict_ok ev
    /\ forall tolerance',
         evaluate_answer lower user_answer expected_answer exercise_type tolerance' = Ok ev.
Proof.
  destruct (evaluate_answer_ok lower user_answer expected_answer exercise_type tolerance)
    as (ev & E & Hok).
  exists ev. split; [exact E|]. split; [exact Hok|]. intros tolerance'. exact E.
Qed.

(** ** Whitespace around an answer *)

Module StripFacts.

Import Str Exercise.

Lemma lstrip_spaces ws s : forallb isspace ws = true -> lstrip (ws ++ s) = lstrip s.
Proof.
  induction ws as [|c ws IH]; intros H; [reflexivity|].
  cbn [forallb] in H. apply andb_true_iff in H. destruct H as [Hc Hws].
  cbn [app lstrip]. rewrite Hc. apply IH. exact Hws.
Qed.

Lemma lstrip_all_spaces ws : forallb isspace ws = true -> lstrip ws = [].
Proof.
  intros H. rewrite <- (app_nil_r ws). rewrite lstrip_spaces by exact H. reflexivity.
Qed.

Lemma lstrip_nil_spaces s : lstrip s = [] -> forallb isspace s = true.
Proof.
  induction s as [|c s IH]; [reflexivity|]. cbn [lstrip forallb].
  destruct (isspace c); [exact IH | discriminate].
Qed.

Lemma lstrip_app_keep s t : lstrip s <> [] -> lstrip (s ++ t) = lstrip s ++ t.
Proof.
  induction s as [|c s IH]; intros H; [contradiction H; reflexivity|].
  cbn [app lstrip] in *. destruct (isspace c); [apply IH; exact H | reflexivity].
Qed.

Lemma forallb_rev {A : Type} (f : A -> bool) (l : list A) :
  forallb f (rev l) = forallb f l.
Proof.
  induction l as [|a l IH]; [reflexivity|].
  cbn [rev forallb]. rewrite forallb_app, IH. cbn [forallb].
  rewrite andb_true_r. apply andb_comm.
Qed.

(** Whitespace around a text does not change what [strip] returns. *)
Lemma strip_padded ws1 s ws2 :
  forallb isspace ws1 = true -> forallb isspace ws2 = true ->
  strip (ws1 ++ s ++ ws2) = strip s.
Proof.
  intros H1 H2. unfold strip. rewrite lstrip_spaces by exact H1. f_equal.
  destruct (lstrip s) as [|c r] eqn:Hs.
  - apply lstrip_nil_spaces in Hs.
    rewrite (lstrip_all_spaces (s ++ ws2)) by (rewrite forallb_app, Hs, H2; reflexivity).
    reflexivity.
  - rewrite lstrip_app_keep by (rewrite Hs; discriminate).
    rewrite Hs, rev_app_distr. apply lstrip_spaces. rewrite forallb_rev. exact H2.
Qed.

Lemma strip_nil_spaces s : strip s = [] <-> forallb isspace s = true.
Proof.
  unfold strip. split.
  - intros H. apply (f_equal (@rev char)) in H. rewrite rev_involutive in H. cbn [rev] in H.
    apply lstrip_nil_spaces in H. rewrite forallb_rev in H.
    destruct (lstrip s) as [|c r] eqn:Hs; [apply lstrip_nil_spaces; exact Hs|].
    exfalso.
    assert (Hc : isspace c = false).
    { clear H. induction s as [|a s IH]; [discriminate Hs|]. cbn [lstrip] in Hs.
      destruct (isspace a) eqn:Ha; [apply IH; exact Hs|]. inversion Hs. subst. exact Ha. }
    cbn [forallb] in H. rewrite Hc in H. discriminate H.
  - intros H. rewrite (lstrip_all_spaces s H). reflexivity.
Qed.

Lemma is_blank_spaces s : is_blank s = forallb isspace s.
Proof.
  unfold is_blank. destruct s as [|c r]; [reflexivity|].
  destruct (strip (c :: r)) as [|a l] eqn:Hs.
  - symmetry. apply strip_nil_spaces. exact Hs.
  - destruct (forallb isspace (c :: r)) eqn:Hf; [|reflexivity].
    apply strip_nil_spaces in Hf. rewrite Hf in Hs. discriminate Hs.
Qed.

End StripFacts.

Import StripFacts.

(** X24 (exercise.py, [evaluate_answer], [_normalize_answer]): whitespace
    around the learner's answer never changes the verdict.  For every
    answer [s] and all whitespace [ws1], [ws2], the padded answer
    [ws1 ++ s ++ ws2] gets the verdict of [s], feedback included. *)
Theorem evaluate_answer_ignores_padding lower ws1 ws2 user_answer expected_answer
    exercise_type tolerance :
  forallb isspace ws1 = true -> forallb isspace ws2 = true ->
  evaluate_answer lower (ws1 ++ user_answer ++ ws2) expected_answer exercise_type tolerance
  = evaluate_answer lower user_answer expected_answer exercise_type tolerance.
Proof.
  intros H1 H2. unfold evaluate_answer.
  rewrite !is_blank_spaces, !forallb_app, H1, H2, andb_true_r. cbn [andb].
  unfold _normalize_answer. rewrite (strip_padded ws1 user_answer ws2 H1 H2).
  reflexivity.
Qed.

Lemma evaluate_answer_ignores_padding_witness :
  evaluate_answer ascii_lower ([32; 9] ++ [110; 101; 107; 111] ++ [10]) [110; 101; 107; 111]
    TRANSLATION (lit 85 100)
  = evaluate_answer ascii_lower [110; 101; 107; 111] [110; 101; 107; 111]
      TRANSLATION (lit 85 100).
Proof.
  apply (evaluate_answer_ignores_padding ascii_lower [32; 9] [10]); reflexivity.
Defined.

(** X25 (exercise.py, [evaluate_answer]): an answer is graded as blank
    exactly when it consists of whitespace only.  A whitespace-only answer
    (the empty one included) gets the verdict incorrect, score 0, category
    "empty", whatever the expected answer and exercise type, even when the
    expected answer is blank too; every other answer gets a verdict of
    another category. *)
Theorem blank_answers lower user_answer expected_answer exercise_type tolerance :
  (forallb isspace user_answer = true ->
   evaluate_answer lower user_answer expected_answer exercise_type tolerance
   = Ok blank_verdict)
  /\ (forallb isspace user_answer = false ->
      forall ev,
        evaluate_answer lower user_answer expected_answer exercise_type tolerance = Ok ev ->
        error_category ev <> Some "empty"%string).
Proof.
  unfold evaluate_answer. rewrite is_blank_spaces. split.
  - intros ->. reflexivity.
  - intros ->. cbv zeta. intros ev.
    destruct (str_eqb _ _); [intros H; inversion H; discriminate|].
    destruct (existsb _ _); [intros H; inversion H; discriminate|].
    destruct exercise_type.
    + unfold _evaluate_translation. destruct (existsb _ _);
        [intros H; inversion H; discriminate|].
      destruct (_char_similarity _ _) as [sc|e]; cbn [rbind]; [|discriminate].
      destruct (fgeb sc (lit 7 10)); intros H; inversion H; discriminate.
    + unfold _evaluate_fill_blank.
      destruct (existsb _ _); intros H; inversion H; discriminate.
    + unfold _evaluate_build_sentence. cbv zeta.
      destruct (bool_decide _); [intros H; inversion H; discriminate|].
      destruct (0 <? _); [|intros H; inversion H; discriminate].
      destruct (int_truediv _ _) as [ratio|e]; cbn [rbind]; [|discriminate].
      destruct (fgeb ratio (lit 7 10)); intros H; inversion H; discriminate.
Qed.

(** ** The similarity of two texts *)

Module SimilarityFacts.

Import Str Exercise EvaluatorSpec.

Lemma int_truediv_same n : 0 < n -> int_truediv n n = Ok (Fin U).
Proof.
  intros Hn. pose proof U_pos as HU. unfold int_truediv.
  destruct (Z.eqb_spec n 0) as [->|_]; [lia|].
  rewrite Z.sgn_pos, Z.abs_eq, Z.mul_1_r by lia.
  assert (Hk : exists k, rnd (n * U) n = Fin k /\ U <= k <= U).
  { apply fle_between.
    - apply rnd_ge_repr; [apply rnd_one | lia | lia].
    - apply rnd_le_repr; [apply rnd_one | lia | lia]. }
  destruct Hk as (k & -> & Hk). replace k with U by lia. reflexivity.
Qed.

Lemma same_chars_sets (s1 s2 : str) :
  same_chars s1 s2 -> (list_to_set s1 : gset char) = list_to_set s2.
Proof.
  intros H. apply set_eq. intros c. rewrite !elem_of_list_to_set. apply H.
Qed.

Lemma _char_similarity_comm (s1 s2 : str) : _char_similarity s1 s2 = _char_similarity s2 s1.
Proof.
  unfold _char_similarity.
  destruct s1 as [|c1 r1], s2 as [|c2 r2]; try reflexivity. cbv zeta.
  set (X := (list_to_set (c1 :: r1) : gset char)).
  set (Y := (list_to_set (c2 :: r2) : gset char)).
  assert (Hi : X ∩ Y = Y ∩ X) by (apply set_eq; intros c; rewrite !elem_of_intersection; tauto).
  assert (Hu : X ∪ Y = Y ∪ X) by (apply set_eq; intros c; rewrite !elem_of_union; tauto).
  rewrite Hi, Hu. reflexivity.
Qed.

Lemma _char_similarity_same (s1 s2 : str) :
  s1 <> [] -> same_chars s1 s2 -> _char_similarity s1 s2 = Ok (lit 1 1).
Proof.
  intros Hne Hsame. unfold _char_similarity.
  destruct s1 as [|c1 r1]; [contradiction Hne; reflexivity|].
  destruct s2 as [|c2 r2].
  { exfalso. assert (Hin : c1 ∈ ([] : str)) by (apply Hsame; left). inversion Hin. }
  cbv zeta. rewrite <- (same_chars_sets _ _ Hsame).
  set (X := (list_to_set (c1 :: r1) : gset char)).
  assert (Hi : X ∩ X = X) by (apply set_eq; intros c; rewrite elem_of_intersection; tauto).
  assert (Hu : X ∪ X = X) by (apply set_eq; intros c; rewrite elem_of_union; tauto).
  rewrite Hi, Hu.
  assert (Hpos : 0 < Z.of_nat (size X)).
  { assert (Hc : c1 ∈ X) by (unfold X; apply elem_of_list_to_set; left).
    destruct (size X) as [|n] eqn:Hs; [|lia].
    apply size_empty_iff in Hs. rewrite Hs in Hc. apply elem_of_empty in Hc. contradiction. }
  destruct (Z.ltb_spec 0 (Z.of_nat (size X))) as [_|Hle]; [|lia].
  rewrite int_truediv_same by exact Hpos. rewrite lit_one. reflexivity.
Qed.

End SimilarityFacts.

Import SimilarityFacts.

(** X26 (exercise.py, [_char_similarity]): the character similarity never
    raises, lies between 0 and 1, and is symmetric; it sees only which
    characters occur, so two non-empty texts with the same characters, in
    any order and number, have similarity exactly 1.0. *)
Theorem _char_similarity_properties (s1 s2 : str) :
  _char_similarity s1 s2 = _char_similarity s2 s1
  /\ (exists k, _char_similarity s1 s2 = Ok (Fin k) /\ 0 <= k <= U)
  /\ (s1 <> [] -> same_chars s1 s2 -> _char_similarity s1 s2 = Ok (lit 1 1)).
Proof.
  split; [apply _char_similarity_comm|].
  split; [apply _char_similarity_defined | apply _char_similarity_same].
Qed.

(** ** Answers that normalize to the empty text *)

Module EmptyNormFacts.

Import Str Exercise.

Lemma split_on_aux_cons sep cur s : exists a r, split_on_aux sep cur s = a :: r.
Proof.
  revert cur. induction s as [|c s IH]; intros cur; cbn [split_on_aux]; [eauto|].
  destruct (c =? sep); [eauto | apply IH].
Qed.

Lemma startswith_nil s : startswith s [] = true.
Proof. destruct s; reflexivity. Qed.

Lemma contains_nil s : contains s [] = true.
Proof. destruct s; reflexivity. Qed.

End EmptyNormFacts.

Import EmptyNormFacts.

(** X27 (exercise.py, [evaluate_answer], [_evaluate_fill_blank],
    [_evaluate_translation]): an answer that is not blank but normalizes to
    the empty text, such as a single full stop, is graded correct in a
    fill-blank and in a translation exercise, whatever the expected answer:
    the empty text is a prefix and a part of every accepted answer. *)
Theorem empty_normal_form_is_accepted lower user_answer expected_answer exercise_type
    tolerance :
  forallb isspace user_answer = false ->
  _normalize_answer lower user_answer = [] ->
  exercise_type <> BUILD_SENTENCE ->
  exists ev,
    evaluate_answer lower user_answer expected_answer exercise_type tolerance = Ok ev
    /\ is_correct ev = true.
Proof.
  intros Hblank Hnorm Htype. unfold evaluate_answer.
  rewrite is_blank_spaces, Hblank. cbv zeta. rewrite Hnorm.
  destruct (str_eqb _ _); [eexists; split; reflexivity|].
  destruct (existsb _ _); [eexists; split; reflexivity|].
  unfold split_on.
  destruct (split_on_aux_cons SLASH [] expected_answer) as (a & r & ->).
  cbn [map].
  destruct exercise_type; [| |contradiction Htype; reflexivity].
  - unfold _evaluate_translation. cbn [existsb]. rewrite contains_nil, orb_true_r.
    cbn [orb]. eexists. split; reflexivity.
  - unfold _evaluate_fill_blank. cbn [existsb]. rewrite startswith_nil, orb_true_r.
    cbn [orb]. eexists. split; reflexivity.
Qed.

Lemma empty_normal_form_is_accepted_witness :
  exists ev,
    evaluate_answer ascii_lower [46] [110; 101; 107; 111] FILL_BLANK (lit 85 100) = Ok ev
    /\ is_correct ev = true.
Proof.
  apply (empty_normal_form_is_accepted ascii_lower [46] [110; 101; 107; 111] FILL_BLANK).
  - reflexivity.
  - reflexivity.
  - discriminate.
Defined.

(* ===================================================================== *)
(** * Properties of the exercises made without the API *)
(* ===================================================================== *)

Module GeneratorFacts.

Import Str Exercise Generator.

Lemma startswith_app s old : startswith s old = true <-> exists r, s = old ++ r.
Proof.
  revert s. induction old as [|p old IH]; intros s.
  - rewrite startswith_nil. split; [intros _; exists s; reflexivity | reflexivity].
  - destruct s as [|c s]; cbn [startswith].
    + split; [discriminate | intros [r Hr]; discriminate Hr].
    + rewrite andb_true_iff, Z.eqb_eq, IH. split.
      * intros [-> [r ->]]. exists r. reflexivity.
      * intros [r Hr]. inversion Hr. subst. split; [reflexivity | exists r; reflexivity].
Qed.

(** [replace_first] replaces the first occurrence. *)
Lemma replace_first_spec s old new :
  contains s old = true ->
  exists pre post,
    first_occurrence s old pre post /\ replace_first s old new = pre ++ new ++ post.
Proof.
  induction s as [|c s IH]; intros Hc.
  - cbn [contains] in Hc. rewrite orb_false_r in Hc.
    pose proof Hc as Hs. apply startswith_app in Hs. destruct Hs as [r Hr].
    exists [], r. split.
    + split; [exact Hr|]. intros pre' post' _. cbn [length]. lia.
    + cbn [replace_first]. rewrite Hc.
      destruct old as [|p old]; [|discriminate Hr]. cbn in Hr. subst r. reflexivity.
  - cbn [contains] in Hc. cbn [replace_first].
    destruct (startswith (c :: s) old) eqn:Hs.
    + pose proof Hs as Hs'. apply startswith_app in Hs'. destruct Hs' as [r Hr].
      exists [], r. split.
      * split; [exact Hr|]. intros pre' post' _. cbn [length]. lia.
      * rewrite Hr, drop_app_length. reflexivity.
    + cbn [orb] in Hc. destruct (IH Hc) as (pre & post & [Hdec Hmin] & Hrep).
      exists (c :: pre), post. split.
      * split; [rewrite Hdec at 1; reflexivity|].
        intros pre' post' Hdec'. destruct pre' as [|c' pre'].
        -- exfalso. assert (Ht : startswith (c :: s) old = true)
             by (apply startswith_app; exists post'; exact Hdec').
           rewrite Ht in Hs. discriminate Hs.
        -- inversion Hdec'. subst c'. cbn [length].
           apply le_n_S. apply (Hmin pre' post'). assumption.
      * rewrite Hrep. reflexivity.
Qed.

Lemma split_aux_spaces s : forallb isspace s = true -> split_aux [] s = [].
Proof.
  induction s as [|c s IH]; [reflexivity|]. cbn [forallb split_aux]. intros H.
  apply andb_true_iff in H. destruct H as [-> Hs]. apply IH. exact Hs.
Qed.

Lemma replace_char_spaces c new s :
  isspace c = false -> forallb isspace s = true -> replace_char c new s = s.
Proof.
  intros Hc. unfold replace_char. induction s as [|x s IH]; [reflexivity|].
  cbn [forallb flat_map]. intros H. apply andb_true_iff in H. destruct H as [Hx Hs].
  destruct (Z.eqb_spec x c) as [->|_]; [rewrite Hc in Hx; discriminate Hx|].
  cbn [app]. rewrite IH by exact Hs. reflexivity.
Qed.

(** A sentence with words is not blank. *)
Lemma words_not_blank s :
  2 < len (split (replace_char IDEOGRAPHIC_COMMA [SPACE; IDEOGRAPHIC_COMMA]
                    (replace_char IDEOGRAPHIC_FULL_STOP [SPACE; IDEOGRAPHIC_FULL_STOP] s))) ->
  forallb isspace s = false.
Proof.
  intros Hlen. destruct (forallb isspace s) eqn:Hs; [|reflexivity]. exfalso.
  rewrite (replace_char_spaces IDEOGRAPHIC_FULL_STOP) in Hlen by (reflexivity || exact Hs).
  rewrite (replace_char_spaces IDEOGRAPHIC_COMMA) in Hlen by (reflexivity || exact Hs).
  unfold split in Hlen. rewrite (split_aux_spaces s Hs) in Hlen.
  unfold len in Hlen. cbn [length] in Hlen. lia.
Qed.

(** An answer that is not blank is an exact answer to itself. *)
Lemma evaluate_answer_exact lower answer exercise_type tolerance :
  forallb isspace answer = false ->
  evaluate_answer lower answer answer exercise_type tolerance = Ok perfect_verdict.
Proof.
  intros Hb. unfold evaluate_answer. rewrite is_blank_spaces, Hb. cbv zeta.
  unfold str_eqb at 1. rewrite bool_decide_eq_true_2 by reflexivity. reflexivity.
Qed.

End GeneratorFacts.

Import GeneratorFacts.

(** X28 (exercise.py, [_generate_exercises_locally], [_default_build_sentence],
    with [evaluate_answer]): the local generator always succeeds with
    exactly three exercises, a translation, a fill-blank and a
    build-sentence exercise in this order, whatever [random.shuffle] does;
    and when the content of the card is not blank, the evaluator grades the
    expected answer of each of the three as a perfect answer to it. *)
Theorem local_exercises_accept_their_answers shuffle lower content back card_type
    context_sentence target_language native_language tolerance :
  Generator.success
    (Generator._generate_exercises_locally shuffle content back card_type context_sentence
       target_language native_language) = true
  /\ Generator.exercise_type
       <$> Generator.exercises
             (Generator._generate_exercises_locally shuffle content back card_type
                context_sentence target_language native_language)
     = [TRANSLATION; FILL_BLANK; BUILD_SENTENCE]
  /\ (forallb isspace content = false ->
      Forall (fun ex =>
                evaluate_answer lower (Generator.expected_answer ex)
                  (Generator.expected_answer ex) (Generator.exercise_type ex) tolerance
                = Ok Generator.perfect_verdict)
        (Generator.exercises
           (Generator._generate_exercises_locally shuffle content back card_type
              context_sentence target_language native_language))).
Proof.
  unfold Generator._generate_exercises_locally. cbv zeta.
  cbn [Generator.success Generator.exercises app].
  destruct (negb (bool_decide (context_sentence = []))) eqn:Hctx; cbn [andb].
  - destruct (contains context_sentence content);
      destruct (Z.ltb_spec 2
                  (len (split (Generator.replace_char Generator.IDEOGRAPHIC_COMMA
                                 [SPACE; Generator.IDEOGRAPHIC_COMMA]
                                 (Generator.replace_char Generator.IDEOGRAPHIC_FULL_STOP
                                    [SPACE; Generator.IDEOGRAPHIC_FULL_STOP]
                                    context_sentence)))))
        as [Hwords|Hfew];
      (split; [reflexivity|]); (split; [reflexivity|]); intros Hcontent;
      repeat constructor;
      cbn [Generator.expected_answer Generator.exercise_type
           Generator._default_build_sentence];
      apply evaluate_answer_exact; try exact Hcontent;
      apply words_not_blank; exact Hwords.
  - split; [reflexivity|]. split; [reflexivity|]. intros Hcontent.
    repeat constructor;
      cbn [Generator.expected_answer Generator.exercise_type
           Generator._default_build_sentence];
      apply evaluate_answer_exact; exact Hcontent.
Qed.

(** X29 (exercise.py, [_generate_exercises_locally]): the blank of the
    fill-blank exercise.  When the context sentence is not empty and the
    content occurs in it, the prompt of the second exercise is the context
    sentence with the first occurrence of the content replaced by three
    underscores, and its expected answer is the content: putting the
    expected answer into the blank gives the context sentence back. *)
Theorem fill_blank_prompt_hides_content shuffle content back card_type context_sentence
    target_language native_language :
  context_sentence <> [] ->
  contains context_sentence content = true ->
  exists pre post,
    Generator.first_occurrence context_sentence content pre post
    /\ Generator.exercises
         (Generator._generate_exercises_locally shuffle content back card_type
            context_sentence target_language native_language) !! 1%nat
       = Some {| Generator.exercise_type := FILL_BLANK;
                 Generator.prompt := Generator.Texto (pre ++ Generator.BLANK ++ post);
                 Generator.expected_answer := content;
                 Generator.context := Some Generator.Complete_a_lacuna;
                 Generator.options := None |}
    /\ pre ++ content ++ post = context_sentence.
Proof.
  intros Hne Hin.
  destruct (replace_first_spec context_sentence content Generator.BLANK Hin)
    as (pre & post & Hfirst & Hrep).
  exists pre, post. split; [exact Hfirst|]. split; [|symmetry; apply Hfirst].
  unfold Generator._generate_exercises_locally. cbv zeta.
  rewrite bool_decide_eq_false_2 by exact Hne. cbn [negb andb]. rewrite Hin.
  cbn [Generator.exercises app]. rewrite Hrep.
  destruct (2 <? _); reflexivity.
Qed.

(** The sentence [a b c] with the content [b]. *)
Lemma fill_blank_prompt_hides_content_witness :
  exists pre post,
    Generator.first_occurrence [97; 32; 98; 32; 99] [98] pre post
    /\ Generator.exercises
         (Generator._generate_exercises_locally (fun l => l) [98] [120] []
            [97; 32; 98; 32; 99] [106; 97] [112; 116]) !! 1%nat
       = Some {| Generator.exercise_type := FILL_BLANK;
                 Generator.prompt := Generator.Texto (pre ++ Generator.BLANK ++ post);
                 Generator.expected_answer := [98];
                 Generator.context := Some Generator.Complete_a_lacuna;
                 Generator.options := None |}
    /\ pre ++ [98] ++ post = [97; 32; 98; 32; 99].
Proof.
  apply (fill_blank_prompt_hides_content (fun l => l) [98] [120] [] [97; 32; 98; 32; 99]
           [106; 97] [112; 116]).
  - discriminate.
  - reflexivity.
Defined.

(* ===================================================================== *)
(** * Properties of the review queue *)
(* ===================================================================== *)

Module QueueFacts.

Import ReviewQueue.

Lemma add_new_states_filter due_states new_states :
  add_new_states due_states new_states
  = due_states
    ++ filter (fun s => SRSState.id s ∉ (list_to_set (SRSState.id <$> due_states) : gset Z))
         new_states.
Proof.
  unfold add_new_states. cbv zeta.
  assert (Hgen : forall (ids : gset Z) new acc,
             foldl (fun acc s => if decide (SRSState.id s ∈ ids) then acc else acc ++ [s])
               acc new
             = acc ++ filter (fun s => SRSState.id s ∉ ids) new).
  { intros ids new. induction new as [|s new IH]; intros acc.
    - cbn [foldl]. rewrite filter_nil, app_nil_r. reflexivity.
    - cbn [foldl]. rewrite filter_cons.
      destruct (decide (SRSState.id s ∈ ids)) as [Hin|Hout].
      + rewrite decide_False by (intros H; exact (H Hin)). apply IH.
      + rewrite decide_True by exact Hout. rewrite IH, <- app_assoc. reflexivity. }
  apply Hgen.
Qed.

Lemma sort_keys_spec now l keyed :
  sort_keys now l = Ok keyed ->
  snd <$> keyed = l /\ Forall (fun ks => urgency now (snd ks) = Ok (fst ks)) keyed.
Proof.
  revert keyed. induction l as [|s l IH]; intros keyed H; cbn [sort_keys] in H.
  - inversion H. split; [reflexivity | constructor].
  - fold (urgency now s) in H.
    destruct (urgency now s) as [key|e] eqn:Ek; cbn [rbind] in H; [|discriminate H].
    destruct (sort_keys now l) as [ks|e]; cbn [rbind] in H; [|discriminate H].
    inversion H. subst keyed. destruct (IH ks eq_refl) as [Hs Hk].
    split; [cbn; rewrite Hs; reflexivity|]. constructor; [exact Ek | exact Hk].
Qed.

Lemma urgency_not_nan now s key : urgency now s = Ok key -> key <> NaN.
Proof.
  unfold urgency. rewrite get_card_urgency_score_formula. unfold urgency_formula.
  intros H.
  apply rbind_ok in H. destruct H as (hours & _ & H).
  apply rbind_ok in H. destruct H as (two & _ & H).
  apply rbind_ok in H. destruct H as (bonus & Eb & H).
  inversion H. destruct (of_int_Fin _ _ Eb) as (b & ->).
  apply fadd_Fin_r_not_nan. rewrite (state_priority_fin (SRSState.state s)).
  apply fadd_Fin_l_not_nan, py_max_not_nan.
Qed.

Lemma insert_by_key_perm {A : Type} (x : float * A) l : insert_by_key x l ≡ₚ x :: l.
Proof.
  induction l as [|y r IH]; cbn [insert_by_key]; [reflexivity|].
  destruct (fltb (fst x) (fst y)); [|reflexivity].
  rewrite IH. apply Permutation_swap.
Qed.

Lemma sort_reverse_perm {A : Type} (l : list (float * A)) : sort_reverse l ≡ₚ l.
Proof.
  unfold sort_reverse. induction l as [|x l IH]; cbn [foldr]; [reflexivity|].
  rewrite insert_by_key_perm, IH. reflexivity.
Qed.

Lemma insert_by_key_falling {A : Type} (x : float * A) l :
  fst x <> NaN -> Forall (fun y => fst y <> NaN) l ->
  falling l -> falling (insert_by_key x l).
Proof.
  intros Hx. induction l as [|y r IH]; intros Hnan Hl; cbn [insert_by_key].
  - cbn [falling]. split; constructor.
  - inversion Hnan as [|? ? Hy Hr]. subst. destruct Hl as [Hall Hfall].
    destruct (fltb (fst x) (fst y)) eqn:Hlt; cbn [falling].
    + split; [|apply IH; assumption].
      rewrite insert_by_key_perm. constructor; [|exact Hall].
      apply fltb_true_fle. exact Hlt.
    + assert (Hyx : fle (fst y) (fst x)) by (apply fltb_false_fle; assumption).
      split; [|split; assumption].
      constructor; [exact Hyx|].
      eapply Forall_impl; [exact Hall|]. intros z Hz. cbn beta in Hz.
      eapply fle_trans; [exact Hz | exact Hyx].
Qed.

Lemma sort_reverse_falling {A : Type} (l : list (float * A)) :
  Forall (fun y => fst y <> NaN) l -> falling (sort_reverse l).
Proof.
  unfold sort_reverse. induction l as [|x l IH]; intros Hnan; cbn [foldr]; [exact I|].
  inversion Hnan as [|? ? Hx Hl]. subst.
  apply insert_by_key_falling; [exact Hx | | apply IH; exact Hl].
  fold (sort_reverse l). rewrite sort_reverse_perm. exact Hl.
Qed.

Lemma falling_lookup {A : Type} (l : list (float * A)) i j x y :
  Forall (fun z => fst z <> NaN) l -> falling l ->
  (i <= j)%nat -> l !! i = Some x -> l !! j = Some y -> fle (fst y) (fst x).
Proof.
  revert i j. induction l as [|z l IH]; intros i j Hnan Hl Hij Hi Hj; [discriminate Hi|].
  inversion Hnan as [|? ? Hz Hnan']. subst. destruct Hl as [Hall Hfall].
  destruct i as [|i].
  - cbn in Hi. inversion Hi. subst z. destruct j as [|j].
    + cbn in Hj. inversion Hj. subst y. apply fle_refl. exact Hz.
    + cbn in Hj. rewrite Forall_lookup in Hall. exact (Hall j y Hj).
  - destruct j as [|j]; [lia|]. cbn in Hi, Hj.
    apply (IH i j Hnan' Hfall ltac:(lia) Hi Hj).
Qed.

Lemma slice_to_sublist {A : Type} limit (l : list A) : slice_to limit l `sublist_of` l.
Proof. unfold slice_to. destruct (0 <=? limit); apply sublist_take. Qed.

Lemma slice_to_lookup {A : Type} limit (l : list A) i x :
  slice_to limit l !! i = Some x -> l !! i = Some x.
Proof.
  unfold slice_to. destruct (0 <=? limit); intros H;
    apply lookup_take_Some in H; apply H.
Qed.

Lemma slice_to_length {A : Type} limit (l : list A) :
  0 <= limit -> len (slice_to limit l) <= limit.
Proof.
  intros H. unfold slice_to, len. destruct (Z.leb_spec 0 limit); [|lia].
  rewrite length_take. lia.
Qed.

Lemma chosen_elem user_id include_new now db s :
  s ∈ chosen user_id include_new now db ->
  s ∈ srs_states db
  /\ SRSState.user_id s = user_id
  /\ (is_due now s = true \/ (include_new = true /\ SRSState.state s = NEW))
  /\ (include_new = false -> is_due now s = true /\ SRSState.state s <> NEW).
Proof.
  unfold chosen. cbv zeta.
  assert (Hdue : s ∈ query_due_states user_id include_new now db ->
                 s ∈ srs_states db /\ SRSState.user_id s = user_id /\ is_due now s = true
                 /\ (include_new = true \/ SRSState.state s <> NEW)).
  { unfold query_due_states. rewrite list_elem_of_filter. tauto. }
  destruct include_new.
  - rewrite add_new_states_filter, elem_of_app. intros [H|H].
    + apply Hdue in H. destruct H as (Hin & Hu & Hd & _).
      split; [exact Hin|]. split; [exact Hu|]. split; [left; exact Hd | discriminate].
    + apply list_elem_of_filter in H. destruct H as [_ H].
      unfold query_new_states in H. apply elem_of_take in H. destruct H as (i & H & _).
      apply list_elem_of_lookup_2 in H. apply list_elem_of_filter in H.
      destruct H as [[Hu Hn] Hin].
      split; [exact Hin|]. split; [exact Hu|]. split; [right; auto | discriminate].
  - intros H. apply Hdue in H. destruct H as (Hin & Hu & Hd & [Hn|Hn]); [discriminate Hn|].
    split; [exact Hin|]. split; [exact Hu|]. split; [left; exact Hd | auto].
Qed.

Lemma chosen_NoDup user_id include_new now db :
  NoDup (SRSState.id <$> srs_states db) ->
  NoDup (SRSState.id <$> chosen user_id include_new now db).
Proof.
  intros Hnd. unfold chosen. cbv zeta.
  assert (Hdue : NoDup (SRSState.id <$> query_due_states user_id include_new now db)).
  { eapply sublist_NoDup; [exact Hnd | apply fmap_sublist, sublist_filter]. }
  destruct include_new; [|exact Hdue].
  rewrite add_new_states_filter, fmap_app. apply NoDup_app. split; [exact Hdue|]. split.
  - intros x Hx Hin. apply list_elem_of_fmap in Hin. destruct Hin as (s & -> & Hs).
    apply list_elem_of_filter in Hs. destruct Hs as [Hout _].
    apply Hout. apply elem_of_list_to_set. exact Hx.
  - eapply sublist_NoDup; [exact Hnd|]. apply fmap_sublist.
    etransitivity; [apply sublist_filter|]. unfold query_new_states.
    etransitivity; [apply sublist_take | apply sublist_filter].
Qed.

(** The run of [get_due_cards_states]. *)
Lemma get_due_cards_states_run user_id limit include_new now db queue :
  get_due_cards_states user_id limit include_new now db = Ok queue ->
  exists keyed,
    snd <$> keyed = chosen user_id include_new now db
    /\ Forall (fun ks => urgency now (snd ks) = Ok (fst ks)) keyed
    /\ queue = slice_to limit (snd <$> sort_reverse keyed).
Proof.
  unfold get_due_cards_states. cbv zeta. fold (chosen user_id include_new now db).
  intros H. apply rbind_ok in H. destruct H as (keyed & Ek & H).
  inversion H. apply sort_keys_spec in Ek. destruct Ek as [Hs Hk].
  exists keyed. split; [exact Hs|]. split; [exact Hk | reflexivity].
Qed.

End QueueFacts.

Import ReviewQueue QueueFacts.

(** X30 (review.py, [get_due_cards], the list [due_states[:limit]] the
    rendering loop walks): what the review queue holds.  When the keys of
    the scheduling records are distinct and the urgency scores can be
    computed, no record is queued twice; every queued record belongs to the
    learner and is either due or, with [include_new], NEW; without
    [include_new] no NEW record is queued; a non-negative [limit] bounds
    the length of the queue; and a record never comes before a more urgent
    one. *)
Theorem review_queue_properties user_id limit include_new now db queue :
  NoDup (SRSState.id <$> srs_states db) ->
  get_due_cards_states user_id limit include_new now db = Ok queue ->
  NoDup (SRSState.id <$> queue)
  /\ (forall s,
        s ∈ queue ->
        s ∈ srs_states db
        /\ SRSState.user_id s = user_id
        /\ (is_due now s = true \/ (include_new = true /\ SRSState.state s = NEW))
        /\ (include_new = false -> is_due now s = true /\ SRSState.state s <> NEW))
  /\ (0 <= limit -> len queue <= limit)
  /\ (forall i j a b score_a score_b,
        (i <= j)%nat -> queue !! i = Some a -> queue !! j = Some b ->
        urgency now a = Ok score_a -> urgency now b = Ok score_b ->
        fle score_b score_a).
Proof.
  intros Hnd Hrun.
  destruct (get_due_cards_states_run _ _ _ _ _ _ Hrun) as (keyed & Hs & Hk & ->).
  assert (Hperm : snd <$> sort_reverse keyed ≡ₚ chosen user_id include_new now db).
  { rewrite <- Hs. apply fmap_Permutation, sort_reverse_perm. }
  assert (Hsub : slice_to limit (snd <$> sort_reverse keyed)
                 `sublist_of` snd <$> sort_reverse keyed) by apply slice_to_sublist.
  split; [|split; [|split]].
  - eapply sublist_NoDup; [|apply fmap_sublist; exact Hsub].
    rewrite Hperm. apply chosen_NoDup. exact Hnd.
  - intros s Hin. apply (chosen_elem user_id include_new now db).
    rewrite <- Hperm. eapply elem_of_sublist; [exact Hin | exact Hsub].
  - apply slice_to_length.
  - intros i j a b score_a score_b Hij Hi Hj Ha Hb.
    apply slice_to_lookup in Hi. apply slice_to_lookup in Hj.
    rewrite list_lookup_fmap in Hi, Hj.
    destruct (sort_reverse keyed !! i) as [[ka a']|] eqn:Ei; [|discriminate Hi].
    destruct (sort_reverse keyed !! j) as [[kb b']|] eqn:Ej; [|discriminate Hj].
    cbn in Hi, Hj. inversion Hi. inversion Hj. subst a' b'.
    assert (Hk' : Forall (fun ks => urgency now (snd ks) = Ok (fst ks)) (sort_reverse keyed))
      by (rewrite sort_reverse_perm; exact Hk).
    assert (Hnan : Forall (fun z : float * SRSState.t => fst z <> NaN) (sort_reverse keyed)).
    { eapply Forall_impl; [exact Hk'|]. intros z Hz. eapply urgency_not_nan. exact Hz. }
    rewrite Forall_lookup in Hk'.
    pose proof (Hk' i _ Ei) as Hka. pose proof (Hk' j _ Ej) as Hkb. cbn [fst snd] in Hka, Hkb.
    rewrite Ha in Hka. rewrite Hb in Hkb. inversion Hka. inversion Hkb. subst ka kb.
    apply (falling_lookup (sort_reverse keyed) i j (score_a, a) (score_b, b) Hnan).
    + apply sort_reverse_falling. rewrite <- sort_reverse_perm. exact Hnan.
    + exact Hij.
    + exact Ei.
    + exact Ej.
Qed.

(** The queue of [queue_db] for learner 1 with a limit of 2: three records
    are chosen (the new one that is due, the overdue one and, through
    [include_new], the new one without a due date), the overdue one is the
    most urgent, and the limit cuts the third. *)
Lemma example_queue_chosen :
  chosen 1 true example_now queue_db = [example_card; overdue_record; undated_record].
Proof. reflexivity. Qed.

Lemma example_queue_returns :
  get_due_cards_states 1 2 true example_now queue_db = Ok [overdue_record; example_card].
Proof. vm_compute. reflexivity. Qed.

Lemma review_queue_properties_witness :
  get_due_cards_states 1 2 true example_now queue_db = Ok [overdue_record; example_card]
  /\ NoDup (SRSState.id <$> [overdue_record; example_card])
  /\ (forall s,
        s ∈ [overdue_record; example_card] ->
        s ∈ srs_states queue_db
        /\ SRSState.user_id s = 1
        /\ (is_due example_now s = true \/ (true = true /\ SRSState.state s = NEW))
        /\ (true = false -> is_due example_now s = true /\ SRSState.state s <> NEW))
  /\ (0 <= 2 -> len [overdue_record; example_card] <= 2)
  /\ (forall i j a b score_a score_b,
        (i <= j)%nat ->
        [overdue_record; example_card] !! i = Some a ->
        [overdue_record; example_card] !! j = Some b ->
        urgency example_now a = Ok score_a -> urgency example_now b = Ok score_b ->
        fle score_b score_a).
Proof.
  split; [exact example_queue_returns|].
  apply (review_queue_properties 1 2 true example_now queue_db
           [overdue_record; example_card]); [|exact example_queue_returns].
  change (NoDup [1; 2; 3; 4; 5]). apply (bool_decide_unpack _). vm_compute. exact I.
Defined.
